(* ===== verification/_CoqProject ===== *)
-Q . S2P
Prelude.v
Prog.v
Text.v
Status.v
Frames.v
FrameIo.v
BTree.v
Trust.v
Os.v
Sanitize.v
WriteLock.v
Handles.v
Confine.v
Reply.v
MetaOps.v
DataOps.v
CtrlOps.v
Dispatch.v
FileServer.v
Posix.v
Jail.v
ClientRpc.v
EndToEnd.v
ExampleCodec.v
Server.v
Namespace.v
Attributes.v
Reference.v
Volume.v
Service.v
Typing.v
System.v
WriteBuf.v
Tofu.v
Accept.v
PathStr.v
Cache.v
Inodes.v
FuseOps.v
Durable.v
Identity.v
Startup.v
CliArgs.v
MountPoint.v
QuicFs.v
Coherent.v
Remote.v
Transparent.v
Liveness.v
Connection.v
ConnMgr.v
Machine.v
Harness.v
UnitTests.v
