(* ===== verification/Prelude.v ===== *)
(** * QuicFS: a verification development

    QuicFS exports a directory of a Linux server to FUSE clients over QUIC.
    The repository has three crates: [common] (wire messages, framing, status
    codes, trust files), [server] (the exporting daemon) and [client] (the FUSE
    daemon).  A client opens one QUIC connection, authenticates both ways with
    self-signed keys, shakes hands on the first stream and then sends every
    request on a stream of its own; the server answers each request from an
    independent task.  This library models the parts that carry that logic,
    definition by definition, and proves what each of them promises to the
    others.

    ** Style of the model

    Pure code is a Rocq function with the source's name.  Code with effects is
    a [prog] (file [Prog]): the tree of the calls it makes to things outside the
    program, with every answer possible at every call.  [run] executes such a
    program in a concrete environment; [wp] states what it guarantees in every
    environment that keeps a contract; [run_wp] connects the two.  Since nothing
    is assumed of an answer that the contract does not promise, a theorem stated
    with [wp] covers every interleaving of other tasks between two calls.
    Machine integers are [Z] with the wrap-around of a release build written
    out ([wrap32], [wrap64], casts); strings are lists of Unicode scalar values
    and lengths are UTF-8 byte lengths, as in Rust.

    ** The files, in dependency order

    - [Prelude]: this file; results and [?], machine integers, list, option and
      map lemmas, tactics and hints.
    - [Prog]: effectful programs, their execution and their weakest
      preconditions.
    - [Text]: the operations of [str] the sources use.
    - [Status]: common/src/status.rs, [check_status] of client/src/conn.rs,
      [rpc_to_errno] and [io_to_errno] of client/src/fuse_ops.rs.
    - [Frames]: the messages of common/src/frames.rs and common/src/stat.rs, and
      the interface of the codec.
    - [FrameIo]: [write_frame] and [read_frame] of common/src/io.rs.
    - [BTree], [Trust]: common/src/trust.rs ([KnownHosts], [AuthorizedKeys]) and
      [cmd_authorize] of server/src/main.rs.
    - [Os]: the calls of a server task: kernel, handle table, stripes, stream.
    - [Sanitize]: server/src/sanitize.rs and [sync_parent_dir].
    - [WriteLock]: server/src/writelock.rs and the keys of handles.rs.
    - [Handles]: server/src/handles.rs.
    - [Confine]: the contract [srv_spec] between a task and its environment.
    - [Reply], [MetaOps], [DataOps], [CtrlOps], [Dispatch]: session.rs, the
      handlers of server/src/ops/ and server/src/dispatch.rs.
    - [FileServer]: the data handlers against a server with one open file.
    - [Posix]: a Linux-like kernel, the environment of the files below: inodes,
      directories, links, open files with their access modes, path lookup with the
      flags the server uses.
    - [Jail]: which inodes of a [Posix] file system no call of a server task can
      touch, and that lookups beneath a root stay beneath it.
    - [ClientRpc]: the RPC methods of client/src/conn.rs.
    - [EndToEnd], [System]: the wire between a client and a server, and the client's
      data RPCs against the server's dispatcher with one file.
    - [ExampleCodec]: an executable codec for evaluation.
    - [Server]: a server process with an arbitrary kernel.
    - [Namespace]: the name-space handlers of server/src/ops/meta.rs against the
      POSIX operations they stand for, on [Posix]; the process [kexec] they run in.
    - [Attributes]: the same for getattr, setattr, readdir and statfs.
    - [Reference]: what those reference operations keep, and that they do not depend
      on which files are open.
    - [Volume]: a client's session as a volume: a file system and open files.
    - [Service]: every handler of the server, through the dispatcher, serves a volume.
    - [Typing]: the field types of the messages, and that a server process keeps
      them.
    - [WriteBuf]: client/src/writebuf.rs.
    - [Tofu]: client/src/verify.rs, server/src/verify.rs, connecting and
      reconnecting in client/src/conn.rs.
    - [Accept]: server/src/config.rs, [ConnLimits] of server/src/lib.rs, the
      accept loop of server/src/main.rs.
    - [PathStr]: paths as the client keeps them.
    - [Cache]: client/src/cache.rs.
    - [Inodes]: [InodeTable] of client/src/fuse_ops.rs.
    - [FuseOps]: the callbacks of client/src/fuse_ops.rs and the background task
      of client/src/mount.rs.
    - [Durable]: what a successful close promises, with the callbacks and the
      background task interleaved.
    - [Identity]: common/src/identity.rs, [ensure_dir] and the fingerprints of
      common/src/trust.rs.
    - [Startup]: [run_server], the default paths and [cmd_fingerprint] of
      server/src/main.rs, [load] of server/src/config.rs, server/src/endpoint.rs.
    - [CliArgs]: client/src/main.rs, [QuicFs::new] and what [run_mount] of
      client/src/mount.rs makes of the options.
    - [MountPoint]: the life of a mount in client/src/mount.rs.
    - [QuicFs]: the state of [QuicFs] in client/src/fuse_ops.rs, and a mount: this
      client over whatever performs its RPCs.
    - [Coherent]: a file used through the callbacks of such a mount, over RPCs that
      serve it.
    - [Remote]: every RPC method over the server of [Service] is an operation on the
      volume.
    - [Transparent]: mounts over the wire and over the volume, across reconnects.
    - [Liveness]: a round of the background task on a connection that is up.
    - [Connection]: [handle_connection] of server/src/lib.rs and
      [ClientSession::new], every task of a connection interleaved.
    - [ConnMgr]: [ConnManager] of client/src/conn.rs as callers share it, with
      reconnects, generations and deadlines.
    - [Machine]: every connection of server/src/main.rs's accept loop and all their
      tasks on one [Posix] file system.
    - [Harness]: test-harness/src/main.rs, client and server joined.
    - [UnitTests]: the unit tests of the crates and the fuzz targets of [resolve] and
      [open_confined].

    ** Interfaces

    - [Frames.Codec] collects [encode] and [decode] for every message type.
      MessagePack is the [rmp_serde] crate, outside the repository, so the
      codec is a parameter.  [Dispatch.EnvelopeLaws] is what the dispatcher
      relies on (the envelope and the full request agree on [op] and [seq]);
      [EndToEnd.DataCodec] what the data path relies on (a decoded encoding is
      the message, and a response's size is bounded by its payload plus a
      constant); [EndToEnd.ServiceCodec] what the whole interface relies on.
      [ExampleCodec] shows that all can hold, and theorems with such hypotheses are
      evaluated with it.
    - [Confine.srv_spec] is the contract of a server task: which call it may make in
      which state, and what it may rely on in the answers.  It is about the calls, so
      lexical where they name paths: what they do to a file system with links is
      [Jail]'s and [Machine]'s subject.  It has two forms, for kernels with openat2
      and for any kernel ([legacy]), where an ENOSYS allows one plain open.  The
      handlers are proved against it ([MetaOps], [DataOps], [CtrlOps], [Dispatch]);
      [Server.exec] implements it with the session's [HandleTable], a descriptor
      table and any kernel, and [Server] proves that the implementation keeps
      the promises ([exec_ok]), so the handlers' theorems hold of executions.
    - [Durable.fuse_spec] and [Durable.bg_spec] are the two sides of a
      rely-guarantee contract between the FUSE thread and the background task:
      the steps [Durable.bg] are what the one tolerates and the other makes.
    - [Connection.cstep] runs the same tasks concurrently on one handle table and
      descriptor table: the invariant [Connection.conn_inv] is built from the
      contract [Confine.srv_spec], so nothing about a handler is proved twice.
    - [Volume.holds] says that a process (kernel, handle table and descriptors) stands
      for a volume: [Service] proves it of each request, by simulation, from what
      [Namespace] and [Attributes] prove of the paths and [Reference] of what is kept.
    - [Prog.run_sim] is how an execution is carried from one environment to another:
      [QuicFs.mount_exec] over [Remote.remote_rpc] and over the volume agree call
      by call ([Remote.rpc_performed]), so every program agrees.
    - [Jail.jailed] is to the file system what [Confine.srv_spec] is to a task: each
      call that keeps the contract keeps it ([Jail.posix_keeps]), and [Machine.mstep]
      joins the two with [Accept]'s counters, so the server as a whole is confined.
    - [ConnMgr.cm_spec] is the contract of a caller of the connection manager under
      rely and guarantee: [ConnMgr.grows] is what callers assume of each other, and
      every program over [ClientRpc.cliE] keeps it ([ConnMgr.wp_lift]).
    - [Identity.id_spec] is the contract with the file system for the key files:
      which part of a write may be on disk after a failure, and that key bytes are
      private at every call.  [Startup] and [CliArgs] are proved against it.
    - [Coherent.FileService] is what the callbacks need of the RPCs to use an open
      file.  That a mounted file is a file is proved against it
      ([Coherent.service_mounts_file]); the RPCs keep it on a volume
      ([Transparent.volume_service]) and over the wire to the whole server
      ([Transparent.remote_service]).
    - [Cache.LruLaws] is the documented behaviour of the [lru] crate's map, with
      an executable instance.
    - Fingerprinting a certificate, hashing a path and drawing a UUID are done
      by crates and by the standard library's hasher: function arguments.

    ** What the theorems show

    - A request (C1): for every request and every kernel, a server task opens files
      beneath an anchor with RESOLVE_BENEATH (plainly only after an ENOSYS), changes the
      name space at single safe names of directories so opened, names only paths
      lexically beneath the root, leaks no descriptor or lock, writes under the right
      stripe and answers what it must.
    - The server as a whole (C2, C3, C13): on one file system, with any number of
      connections and tasks in every interleaving, nothing outside the export
      changes (but for the mode [mkdir_confined] may set through a link), only peers
      whose key the verifier lets through act, writers of a file exclude each other, and
      some task can always go on.
    - The window between [resolve] and the open (C40): whatever was put in a path
      meanwhile, the open stays inside the export, and opens the file that is there.
    - The service (C4): any sequence of requests of one client, served by the
      dispatcher on a POSIX file system, does to the file system and answers, frame by
      frame, what the volume of [Volume] does: every handler is the operation it
      stands for on the entry the path names or the inode the handle has open.
    - The network (C5): any program of the client (callbacks, background task, unmount)
      run over the wire against that service, with calls that fail and sessions that
      are renewed in between, gives the results, the client state and the file system
      it gives when every RPC is one operation on the volume.
    - A connection (C6): the promises of C1 under every interleaving of its tasks,
      with time-outs, closes and the drop of the session; nothing is served before
      the handshake, and some task can always go on.
    - The lexical gate (C7): which client paths [resolve] lets through.
    - The data path (C8, C9): [read] and [write] of the client, run against the
      server's handlers however the kernel splits its reads, give the application the
      file's bytes and change the file as asked, or fail with EIO, and exactly when
      ([System] lists directories too).
    - The mount (C10): a file used through the callbacks, with the client's whole state,
      the RPCs and the whole server, is an ordinary file, and nothing else on the volume
      changes.
    - Durability and delivery (C11, C12): a successful close means the server
      acknowledged every byte, with the background task's flushes interleaved;
      buffered writes leave at the first tick after their window while the server is up
      and the handle is not stale.
    - The write buffer (C14, C15, C23, C24): a flush writes what the application
      wrote, failures are repaired by the next flush, memory is bounded.
    - Authentication (C16, C18, C19, C25, C28, C29): what is sent to whom, key
      pinning over a user's history of mounts, client authorization by the text of
      [authorized_keys], the handshake and the files both are kept in.
    - Reconnecting (C17): generations and the handles stamped with them, and the window
      while a reconnect is stored and not counted.
    - Admission (C20): connection limits.
    - Handles (C21, C22).
    - Framing and status codes (C26, C27, C30).
    - Termination of the server's data loops (C31).
    - The client's caches (C32, C33): freshness of metadata and inode numbers.
    - Types (C34): no value of a server task outgrows the machine type the sources
      give it, in calls, responses, the handle table and the counters.
    - Key files, start and command line (C35 - C39): identities are permanent and
      private, a server that starts is the one configured, a target is parsed and
      mounted as written, and a mount ends when it is unmounted or signalled.
    - The repository's own tests pass on the models, as a check of the definitions, and
      its fuzz targets of path confinement hold of every input
      ([UnitTests.repository_tests_pass]).

    Lemmas without a number state the defects found on the way where they stand:
    [WriteBuf.overlapping_writes_reordered], [Trust.authorize_unchecked_input],
    [Durable.age_drop_loses_silently], [Machine.mkdir_race_changes_outside_mode],
    [Namespace.outside_link_is_stuck], [ConnMgr.registered_stale_as_live],
    [ConnMgr.stale_while_counting], [Tofu.torn_write_forgets], [Liveness.waits_past_half],
    [WriteBuf.ack_after_drop_discards_unsent], [Inodes.rename_leaves_stale_inodes],
    [Handles.counter_carries_into_epoch],
    [Identity.failed_start_mixes_pair], [Startup.fingerprint_ignores_broken_config],
    [CliArgs.at_in_path_changes_host], [CliArgs.write_buf_bounds_one_write],
    [MountPoint.unlisted_mountpoint_loses_writes], [Liveness.long_window_gives_up],
    [Transparent.renamed_file_reopened_by_old_name].

    ** Bounds and fuel

    Two loops of the client are driven by the server's answers and take fuel:
    [ClientRpc.read] and [ClientRpc.readdir].  C8 proves that a fuel above the requested
    length is enough against this server, and [Coherent.rpc_prog] supplies it; a
    listing needs one unit for each page of 256 entries ([Remote.in_bounds]).  C5 also
    supposes that the messages of a run encode and fit into frames
    ([Remote.deliverable], a boolean function of the run on the volume).  Two loops of
    the server take fuel as well, and their handlers supply it: [DataOps.read_loop] the
    number of bytes requested (every round that goes on has read at least one),
    [DataOps.write_loop] the length of the stream (every round consumes a frame).
    C31 proves that more fuel changes nothing, in any environment.
    [CliArgs.show_u16] takes five digits, enough for a [u16].  Accepting, serving
    and reconnecting never end by themselves; they are sequences of steps, of any
    length.  [ConnMgr.mgr_reconnect] makes nine attempts, whose sleeps alone outlast
    the deadline of the RPC that waits for it ([ConnMgr.attempts_fill_deadline]).
    [Posix] follows at most 40 symbolic links in a lookup, as Linux does.
    [Harness.main] runs with payloads of 50 and 175 bytes in frames of 64, in the
    proportion of the source's ([Harness.harness_sizes]).

    ** What is not modelled

    - Crates: option parsing (clap), name resolution, TOML, QUIC and TLS (quinn,
      rustls), certificates (rcgen, x509-parser), the FUSE session (fuser),
      MessagePack (rmp_serde) and the LRU map.  They are parameters.
    - The help text, the exit codes of commands, and [init_tracing].
    - Builds for other systems than Linux ([cfg(not(unix))]).  Kernels before 5.6 are
      in C1 and C6; [Posix], and so C2 to C5 and C40, has openat2.
    - Of the kernel, in [Posix]: permissions (every call is made as root would),
      quotas, hard limits of directories and of file sizes (a seek takes any 64-bit
      offset, where Linux refuses those from 2^63 on, as [FileServer] does), mount
      points and the clock (times are what [setattr] makes them).
      A descriptor an abandoned task held stays in its table; [Connection] accounts
      for those.
    - C4 and C5 are about a client whose requests come one after the other, and in C5 a
      call that fails was served whole or not at all; interleaved tasks and streams
      that break off are the subject of C1, C2, C3, C6 and C13.
    - Two mounts of one user that write [known_hosts] at the same time, and, in C18, a
      write of it that is torn ([Trust.env_torn]): the file is written in place.
    - Logging, metrics on it, and the time a call takes: a deadline that
      expires is an error answer of the call it interrupts, or, in [Connection],
      [Machine] and [ConnMgr], the end of the task at any of its calls.
    - The fuzz targets that decode messages and parse fingerprints, which assert
      nothing; the installation scripts; the unit tests of
      fingerprints and key generation, which are about crates.

    What would come next: streams that break off and interleaved callbacks in
    [Transparent]; O_APPEND handles in [Coherent]; the types of the client's side. *)

From stdpp Require Export base list list_numbers numbers gmap sets.
From Stdlib Require Export ZArith Lia Bool.
From Stdlib Require Export Init.Byte.

Global Open Scope Z_scope.
Global Set Default Goal Selector "!".

(** ** Results

    Rust's [Result<A, E>].  The error type is a parameter: [std::io::Error] in
    the system-call layer, a reason enumeration in [sanitize], the message of
    an [anyhow::Error] elsewhere. *)

Inductive result (E A : Type) : Type :=
| Ok (a : A)
| Err (e : E).
Arguments Ok {E A} a.
Arguments Err {E A} e.

Definition is_ok {E A} (r : result E A) : bool :=
  match r with Ok _ => true | Err _ => false end.

Definition res_bind {E A B} (r : result E A) (f : A -> result E B) : result E B :=
  match r with Ok a => f a | Err e => Err e end.

Definition res_map {E A B} (f : A -> B) (r : result E A) : result E B :=
  match r with Ok a => Ok (f a) | Err e => Err e end.

(** [Result::ok] *)
Definition res_ok {E A} (r : result E A) : option A :=
  match r with Ok a => Some a | Err _ => None end.

(** [Option::ok_or] *)
Definition ok_or {E A} (e : E) (o : option A) : result E A :=
  match o with Some a => Ok a | None => Err e end.

Declare Scope quicfs_scope.
Delimit Scope quicfs_scope with quicfs.
Global Open Scope quicfs_scope.

(** The [?] operator of Rust on plain results. *)
Notation "'let?' x := r 'in' k" := (res_bind r (fun x => k))
  (at level 10, x pattern, r at level 100, k at level 200,
   format "'[v' 'let?'  x  :=  r  'in' '/' k ']'") : quicfs_scope.

Lemma res_bind_Ok_inv {E A B} (r : result E A) (f : A -> result E B) b :
  res_bind r f = Ok b -> exists a, r = Ok a /\ f a = Ok b.
Proof. destruct r as [a|e]; simpl; [eauto | discriminate]. Qed.

(** ** Machine integers

    A [w]-bit unsigned integer is a [Z]; arithmetic that can leave the range
    wraps as in a release build. *)

Definition u8_max : Z := 2 ^ 8 - 1.
Definition u32_max : Z := 2 ^ 32 - 1.
Definition u64_max : Z := 2 ^ 64 - 1.

Definition wrap (w z : Z) : Z := z mod 2 ^ w.
Abbreviation wrap8 := (wrap 8).
Abbreviation wrap32 := (wrap 32).
Abbreviation wrap64 := (wrap 64).

(** [as i64]: two's-complement reinterpretation of the low 64 bits. *)
Definition as_i64 (z : Z) : Z :=
  let u := wrap64 z in if u <? 2 ^ 63 then u else u - 2 ^ 64.

(** [u64::saturating_add], [u64::saturating_sub] and [saturating_mul]. *)
Definition sat_add64 (a b : Z) : Z := Z.min (a + b) u64_max.
Definition sat_sub (a b : Z) : Z := Z.max (a - b) 0.
Definition sat_mul64 (a b : Z) : Z := Z.min (a * b) u64_max.

Definition in_width (w z : Z) : Prop := 0 <= z < 2 ^ w.

Lemma wrap_small w z : in_width w z -> wrap w z = z.
Proof. intros H. by apply Z.mod_small. Qed.

Lemma wrap_range w z : 0 <= w -> in_width w (wrap w z).
Proof. intros H. unfold wrap, in_width. apply Z.mod_pos_bound. lia. Qed.

Lemma wrap_wrap w z : wrap w (wrap w z) = wrap w z.
Proof. unfold wrap. by rewrite Z.mod_mod_divide by apply Z.divide_refl. Qed.

(** [(hi << w) | lo] for a [lo] of [w] bits. *)
Lemma lor_shiftl_add (hi lo w : Z) :
  0 <= w -> 0 <= hi -> 0 <= lo < 2 ^ w -> Z.lor (Z.shiftl hi w) lo = hi * 2 ^ w + lo.
Proof.
  intros Hw Hhi Hlo. assert (Z.land (Z.shiftl hi w) lo = 0) as Hland.
  { apply Z.bits_inj'. intros n Hn. rewrite Z.land_spec, Z.bits_0.
    destruct (decide (n < w)); [by rewrite Z.shiftl_spec_low|].
    destruct (decide (lo = 0)) as [->|]; [by rewrite Z.bits_0, andb_false_r|].
    rewrite (Z.bits_above_log2 lo n); [apply andb_false_r|lia|].
    apply Z.log2_lt_pow2; [lia|]. eapply Z.lt_le_trans; [apply Hlo|]. apply Z.pow_le_mono_r; lia. }
  rewrite <- Z.lxor_lor, <- Z.add_nocarry_lxor by done. by rewrite Z.shiftl_mul_pow2.
Qed.

(** [a & mask != 0], the shape of every flag test in the sources. *)
Definition has_bits (a mask : Z) : bool := negb (Z.land a mask =? 0).

(** ** Bytes *)

Abbreviation bytes := (list byte).

Definition byte_to_Z (b : byte) : Z := Z.of_N (Byte.to_N b).
Definition byte_of_Z (z : Z) : byte :=
  match Byte.of_N (Z.to_N (wrap 8 z)) with Some b => b | None => x00 end.

#[export] Instance byte_eq_dec : EqDecision byte := Byte.byte_eq_dec.

Lemma byte_to_Z_range b : 0 <= byte_to_Z b < 256.
Proof. unfold byte_to_Z. pose proof (Byte.to_N_bounded b). lia. Qed.

Lemma byte_of_to_Z b : byte_of_Z (byte_to_Z b) = b.
Proof.
  unfold byte_of_Z. rewrite wrap_small by apply byte_to_Z_range.
  unfold byte_to_Z. by rewrite N2Z.id, Byte.of_to_N.
Qed.

Lemma byte_to_of_Z z : byte_to_Z (byte_of_Z z) = wrap 8 z.
Proof.
  unfold byte_of_Z. pose proof (wrap_range 8 z ltac:(lia)) as Hr.
  unfold in_width in Hr. change (2 ^ 8) with 256 in Hr.
  destruct (Byte.of_N (Z.to_N (wrap 8 z))) as [b|] eqn:Hb.
  - apply Byte.to_of_N in Hb. unfold byte_to_Z. rewrite Hb. lia.
  - apply Byte.of_N_None_iff in Hb. lia.
Qed.

(** Lengths as [usize] values. *)
Abbreviation zlen l := (Z.of_nat (length l)).

(** ** Automation *)

Create HintDb quicfs.
Create Rewrite HintDb quicfs.


(** Split every [match] and [if] of the goal, closing contradictory cases. *)
Ltac split_cases := repeat (case_match; simplify_eq/=).

#[export] Hint Resolve byte_to_Z_range : quicfs.
