(* ===== verification/Prog.v ===== *)
(** * Effectful programs

    The server's handlers and the client's operations interleave pure
    computation with calls whose answers come from outside the program: the
    kernel, the peer, a table shared with other tasks.  A program is the tree
    of the calls it makes ([prog]); nothing is assumed about the answers.

    - [run] executes a program against a concrete environment, so examples
      evaluate;
    - [wp] is the weakest precondition of a program against a specification of
      its events: [sp_pre] is what the program owes at every call, [sp_post]
      what it may rely on afterwards, and the ghost state [G] remembers the
      history that matters.  The obligations are proved for {e every} answer,
      so a theorem stated with [wp] holds for an adversarial environment and for
      every interleaving of other tasks between two calls;
    - [run_wp] is the adequacy theorem that links the two;
    - [run_sim] transfers executions from one environment to another. *)

From S2P Require Import Prelude.

Inductive prog (E : Type -> Type) (A : Type) : Type :=
| Ret (a : A)
| Vis {X : Type} (e : E X) (k : X -> prog E A).
Arguments Ret {E A} a.
Arguments Vis {E A X} e k.

Fixpoint bind {E A B} (m : prog E A) (f : A -> prog E B) : prog E B :=
  match m with
  | Ret a => f a
  | Vis e k => Vis e (fun x => bind (k x) f)
  end.

Definition call {E X} (e : E X) : prog E X := Vis e Ret.

Declare Scope prog_scope.
Delimit Scope prog_scope with prog.
Global Open Scope prog_scope.

Notation "x <- m ;; k" := (bind m (fun x => k))
  (at level 61, m at next level, k at level 62, right associativity) : prog_scope.
Notation "m ;;; k" := (bind m (fun _ => k))
  (at level 61, k at level 62, right associativity) : prog_scope.

(** The [?] operator inside an effectful function: an error ends it. *)
Definition bindr {E R A B} (m : prog E (result R A)) (f : A -> prog E (result R B)) :
    prog E (result R B) :=
  bind m (fun r => match r with Ok a => f a | Err e => Ret (Err e) end).

Notation "x <-? m ;; k" := (bindr m (fun x => k))
  (at level 61, m at next level, k at level 62, right associativity) : prog_scope.

(** [Result::and_then] on a computed result. *)
Definition liftr {E R A} (r : result R A) : prog E (result R A) := Ret r.

(** ** Execution in a concrete environment *)

Section Run.
Context {E : Type -> Type} {S : Type}.
Variable handle : forall X, E X -> S -> X * S.

Fixpoint run {A} (m : prog E A) (s : S) : A * S :=
  match m with
  | Ret a => (a, s)
  | Vis e k => let '(x, s') := handle _ e s in run (k x) s'
  end.

Lemma run_bind {A B} (m : prog E A) (f : A -> prog E B) s :
  run (bind m f) s = let '(a, s') := run m s in run (f a) s'.
Proof.
  revert s. induction m as [a|X e k IH]; intros s; simpl; [done|].
  destruct (handle X e s) as [x s']. apply IH.
Qed.

Lemma run_bindr {R A B} (m : prog E (result R A)) (f : A -> prog E (result R B)) s :
  run (bindr m f) s =
  let '(r, s') := run m s in match r with Ok a => run (f a) s' | Err e => (Err e, s') end.
Proof. unfold bindr. rewrite run_bind. by destruct (run m s) as [[a|e] s']. Qed.

Lemma run_bind_ext {A B} (m : prog E A) (f g : A -> prog E B) s :
  (forall a s, run (f a) s = run (g a) s) -> run (bind m f) s = run (bind m g) s.
Proof. intros H. rewrite !run_bind. by destruct (run m s). Qed.

Lemma run_bindr_ext {R A B} (m : prog E (result R A)) (f g : A -> prog E (result R B)) s :
  (forall a s, run (f a) s = run (g a) s) -> run (bindr m f) s = run (bindr m g) s.
Proof. intros H. rewrite !run_bindr. by destruct (run m s) as [[a|e] s']. Qed.

Lemma run_ret {A} (a : A) s : run (Ret a) s = (a, s).
Proof. done. Qed.

Lemma run_call {X} (e : E X) s : run (call e) s = handle X e s.
Proof. simpl. by destruct (handle X e s). Qed.
End Run.

(** ** Simulation

    Two environments whose answers agree, as long as every call is one they agree
    on, run a program alike. *)

Section Sim.
Context {E : Type -> Type} {S T : Type}.
Variables (h : forall X, E X -> S -> X * S) (h' : forall X, E X -> T -> X * T).
Variables (R : S -> T -> Prop) (ok : forall X, E X -> T -> bool).

(** The calls a program makes in the second environment are all agreed on. *)
Fixpoint run_ok {A} (m : prog E A) (t : T) : bool :=
  match m with
  | Ret _ => true
  | Vis e k => ok _ e t && let '(x, t') := h' _ e t in run_ok (k x) t'
  end.

Hypothesis call_sim : forall X (e : E X) s t,
  R s t -> ok _ e t = true -> exists s', h _ e s = (fst (h' _ e t), s') /\ R s' (snd (h' _ e t)).

Lemma run_sim {A} (m : prog E A) s t :
  R s t -> run_ok m t = true -> exists s', run h m s = (fst (run h' m t), s') /\ R s' (snd (run h' m t)).
Proof.
  revert s t. induction m as [a|X e k IH]; intros s t HR; simpl; [by exists s|].
  intros [He Hk]%andb_prop. destruct (call_sim _ e s t HR He) as (s' & -> & HR').
  destruct (h' X e t) as [x t']. by apply IH.
Qed.
End Sim.

(** ** Specifications of events and weakest preconditions *)

Record spec (E : Type -> Type) (G : Type) := Spec {
  sp_pre : forall X, E X -> G -> Prop;
  sp_post : forall X, E X -> G -> X -> G -> Prop
}.
Arguments sp_pre {E G} s {X} e g.
Arguments sp_post {E G} s {X} e g x g'.

Section Wp.
Context {E : Type -> Type} {G : Type} (sp : spec E G).

Fixpoint wp {A} (m : prog E A) (g : G) (Q : A -> G -> Prop) : Prop :=
  match m with
  | Ret a => Q a g
  | Vis e k => sp_pre sp e g /\ forall x g', sp_post sp e g x g' -> wp (k x) g' Q
  end.

Lemma wp_mono {A} (m : prog E A) g (Q Q' : A -> G -> Prop) :
  (forall a g', Q a g' -> Q' a g') -> wp m g Q -> wp m g Q'.
Proof.
  intros HQ. revert g. induction m as [a|X e k IH]; intros g; simpl; [auto|].
  intros [Hpre Hk]. split; [done|]. intros x g' Hx. apply IH, Hk, Hx.
Qed.

Lemma wp_bind {A B} (m : prog E A) (f : A -> prog E B) g Q :
  wp m g (fun a g' => wp (f a) g' Q) -> wp (bind m f) g Q.
Proof.
  revert g. induction m as [a|X e k IH]; intros g; simpl; [done|].
  intros [Hpre Hk]. split; [done|]. intros x g' Hx. apply IH, Hk, Hx.
Qed.

Lemma wp_ret {A} (a : A) g (Q : A -> G -> Prop) : Q a g -> wp (Ret a) g Q.
Proof. done. Qed.

Lemma wp_call {X} (e : E X) g (Q : X -> G -> Prop) :
  sp_pre sp e g -> (forall x g', sp_post sp e g x g' -> Q x g') -> wp (call e) g Q.
Proof. done. Qed.

Lemma wp_bindr {R A B} (m : prog E (result R A)) (f : A -> prog E (result R B)) g Q :
  wp m g (fun r g' => match r with Ok a => wp (f a) g' Q | Err e => Q (Err e) g' end) ->
  wp (bindr m f) g Q.
Proof.
  intros H. unfold bindr. apply wp_bind. eapply wp_mono; [|exact H].
  by intros [a|e] g'.
Qed.

(** Sequencing through an intermediate assertion: what a proof about a caller
    uses of a callee's lemma. *)
Lemma wp_seq {A B} (m : prog E A) (f : A -> prog E B) g (P : A -> G -> Prop) Q :
  wp m g P -> (forall a g', P a g' -> wp (f a) g' Q) -> wp (bind m f) g Q.
Proof. intros Hm Hf. apply wp_bind. eapply wp_mono; [|exact Hm]. auto. Qed.

Lemma wp_conj {A} (m : prog E A) g (Q1 Q2 : A -> G -> Prop) :
  wp m g Q1 -> wp m g Q2 -> wp m g (fun a g' => Q1 a g' /\ Q2 a g').
Proof.
  revert g. induction m as [a|X e k IH]; intros g; simpl; [auto|].
  intros [Hpre H1] [_ H2]. split; [done|]. intros x g' Hx. apply IH; auto.
Qed.

(** Adequacy: an environment whose answers respect [sp_post] makes every
    execution reach the postcondition. *)
Section Adequacy.
Context {S : Type} (handle : forall X, E X -> S -> X * S) (R : S -> G -> Prop).
Hypothesis handle_ok : forall X (e : E X) s g,
  R s g -> sp_pre sp e g ->
  exists g', sp_post sp e g (fst (handle X e s)) g' /\ R (snd (handle X e s)) g'.

Lemma run_wp {A} (m : prog E A) s g Q :
  R s g -> wp m g Q ->
  exists g', Q (fst (run handle m s)) g' /\ R (snd (run handle m s)) g'.
Proof.
  revert s g. induction m as [a|X e k IH]; intros s g HR; simpl; [eauto|].
  intros [Hpre Hk]. destruct (handle_ok _ _ _ _ HR Hpre) as (g' & Hpost & HR').
  destruct (handle X e s) as [x s'] eqn:Hh; simpl in *. eauto.
Qed.
End Adequacy.
End Wp.

Arguments wp : simpl never.
Arguments run : simpl never.
Arguments bind : simpl never.
Arguments bindr : simpl never.

(** One step of symbolic execution: use the monad laws, expose the next event. *)
Ltac wp_step :=
  cbv beta iota zeta;
  lazymatch goal with
  | |- wp _ (bind _ _) _ _ => apply wp_bind
  | |- wp _ (bindr _ _) _ _ => apply wp_bindr
  | |- wp _ (Ret _) _ _ => apply wp_ret
  | |- wp _ (liftr _) _ _ => apply wp_ret
  | |- wp _ (call _) _ _ => apply wp_call
  end.

#[export] Hint Resolve wp_ret : quicfs.

