(* ===== verification/Text.v ===== *)
(** * Rust strings

    A [String]/[&str] is the list of its Unicode scalar values ([char]s).  The
    operations below are the ones the sources use; lengths are UTF-8 byte
    lengths, as [str::len] is. *)

From S2P Require Import Prelude.
From Stdlib Require Strings.String Strings.Ascii.
Export Strings.String.StringSyntax.

Abbreviation char := Z (only parsing).
Abbreviation str := (list Z) (only parsing).

(** ASCII literals of the sources. *)
Fixpoint lit (s : String.string) : str :=
  match s with
  | String.EmptyString => []
  | String.String a s' => Z.of_N (Ascii.N_of_ascii a) :: lit s'
  end.
Arguments lit s%_string_scope : simpl never.

(** [char::len_utf8] and [str::len]. *)
Definition len_utf8 (c : char) : Z :=
  if c <? 128 then 1 else if c <? 2048 then 2 else if c <? 65536 then 3 else 4.

Fixpoint str_len (s : str) : Z :=
  match s with [] => 0 | c :: s' => len_utf8 c + str_len s' end.

(** [char::is_whitespace]: the Unicode White_Space property. *)
Definition is_whitespace (c : char) : bool :=
  ((9 <=? c) && (c <=? 13)) || (c =? 32) || (c =? 133) || (c =? 160) || (c =? 5760)
  || ((8192 <=? c) && (c <=? 8202)) || (c =? 8232) || (c =? 8233) || (c =? 8239)
  || (c =? 8287) || (c =? 12288).

(** [char::is_ascii_alphanumeric] *)
Definition is_ascii_alphanumeric (c : char) : bool :=
  ((48 <=? c) && (c <=? 57)) || ((65 <=? c) && (c <=? 90)) || ((97 <=? c) && (c <=? 122)).

Definition NL : char := 10.
Definition CR : char := 13.
Definition SP : char := 32.
Definition HASH : char := 35.
Definition SLASH : char := 47.
Definition is_slash (c : char) : bool := c =? SLASH.
Arguments is_slash : simpl never.

Definition str_eqb (a b : str) : bool := bool_decide (a = b).

(** [str::contains(char)] *)
Definition contains_char (c : char) (s : str) : bool := existsb (Z.eqb c) s.

(** [trim_start_matches] / [trim_end_matches] with a character predicate. *)
Fixpoint drop_while (p : char -> bool) (s : str) : str :=
  match s with
  | [] => []
  | c :: s' => if p c then drop_while p s' else s
  end.

Definition trim_start_matches (p : char -> bool) (s : str) : str := drop_while p s.
Definition trim_end_matches (p : char -> bool) (s : str) : str :=
  reverse (drop_while p (reverse s)).

(** [str::trim] *)
Definition trim (s : str) : str := trim_end_matches is_whitespace (drop_while is_whitespace s).

(** [str::starts_with(&str)] *)
Fixpoint starts_with (pre s : str) : bool :=
  match pre, s with
  | [], _ => true
  | p :: pre', c :: s' => (p =? c) && starts_with pre' s'
  | _ :: _, [] => false
  end.

(** [str::contains(&str)] *)
Fixpoint contains_str (pat s : str) : bool :=
  starts_with pat s || match s with [] => false | _ :: s' => contains_str pat s' end.

(** [str::split] on a character predicate: always at least one piece. *)
Fixpoint split (p : char -> bool) (s : str) : list str :=
  match s with
  | [] => [[]]
  | c :: s' =>
      if p c then [] :: split p s'
      else match split p s' with
           | [] => [[c]]
           | piece :: rest => (c :: piece) :: rest
           end
  end.

(** [str::split_once(char)] *)
Fixpoint split_once (c : char) (s : str) : option (str * str) :=
  match s with
  | [] => None
  | d :: s' =>
      if d =? c then Some ([], s')
      else match split_once c s' with
           | Some (a, b) => Some (d :: a, b)
           | None => None
           end
  end.

(** [str::split_whitespace]: the non-empty pieces. *)
Definition split_whitespace (s : str) : list str :=
  List.filter (fun p => match p with [] => false | _ => true end) (split is_whitespace s).

(** [str::splitn(2, char::is_whitespace)]: the first piece, and the rest if a
    separator was found. *)
Fixpoint splitn2_ws (s : str) : str * option str :=
  match s with
  | [] => ([], None)
  | c :: s' =>
      if is_whitespace c then ([], Some s')
      else let '(a, b) := splitn2_ws s' in (c :: a, b)
  end.

(** [str::lines]: pieces ended by '\n'; a final piece without '\n' counts when
    it is non-empty; a '\r' just before the '\n' is dropped. *)
Definition strip_cr (s : str) : str :=
  match reverse s with
  | c :: r => if c =? CR then reverse r else s
  | [] => s
  end.

Fixpoint lines_acc (acc s : str) : list str :=
  match s with
  | [] => match acc with [] => [] | _ => [reverse acc] end
  | c :: s' => if c =? NL then strip_cr (reverse acc) :: lines_acc [] s'
               else lines_acc (c :: acc) s'
  end.

Definition lines (s : str) : list str := lines_acc [] s.

(** ** Lemmas *)

Lemma str_eqb_eq a b : str_eqb a b = true <-> a = b.
Proof. unfold str_eqb. apply bool_decide_eq_true. Qed.

Lemma str_len_nonneg s : 0 <= str_len s.
Proof.
  induction s as [|c s IH]; simpl; [lia|].
  unfold len_utf8. repeat case_match; lia.
Qed.

Lemma str_len_app s t : str_len (s ++ t) = str_len s + str_len t.
Proof. induction s as [|c s IH]; simpl; lia. Qed.

Lemma contains_char_app c s t :
  contains_char c (s ++ t) = contains_char c s || contains_char c t.
Proof. apply existsb_app. Qed.

Lemma contains_char_false c s : contains_char c s = false <-> Forall (fun d => d <> c) s.
Proof.
  unfold contains_char. induction s as [|d s IH]; simpl; [by split|].
  rewrite orb_false_iff, IH, Forall_cons, Z.eqb_neq.
  split; intros [H1 H2]; auto.
Qed.

Lemma drop_while_id p s :
  match s with [] => True | c :: _ => p c = false end -> drop_while p s = s.
Proof. destruct s as [|c s]; simpl; [done|]. by intros ->. Qed.

Lemma drop_while_head p s c s' : drop_while p s = c :: s' -> p c = false.
Proof.
  induction s as [|d s IH]; simpl; [discriminate|]. destruct (p d) eqn:Hd; [auto|]. congruence.
Qed.

Lemma drop_while_suffix p s : exists pre, s = pre ++ drop_while p s /\ Forall (fun c => p c = true) pre.
Proof.
  induction s as [|c s (pre & Hs & Hpre)]; simpl; [by exists []|].
  destruct (p c) eqn:Hc; [|by exists []].
  exists (c :: pre). simpl. split; [by f_equal | by constructor].
Qed.

Lemma reverse_snoc_cons (s : str) c : reverse (s ++ [c]) = c :: reverse s.
Proof. by rewrite reverse_app. Qed.

(** A string with no surrounding whitespace is unchanged by [trim]. *)
Lemma trim_id s :
  match s with [] => True | c :: _ => is_whitespace c = false end ->
  match reverse s with [] => True | c :: _ => is_whitespace c = false end ->
  trim s = s.
Proof.
  intros H1 H2. unfold trim, trim_end_matches. rewrite (drop_while_id _ s) by done.
  rewrite drop_while_id by done. apply reverse_involutive.
Qed.

Lemma trim_no_ws s : Forall (fun c => is_whitespace c = false) s -> trim s = s.
Proof.
  intros H. apply trim_id.
  - destruct H; auto.
  - apply (Forall_reverse _ s) in H. destruct H; auto.
Qed.

Lemma split_no_sep p s : Forall (fun c => p c = false) s -> split p s = [s].
Proof. induction 1 as [|c s Hc Hs IH]; simpl; [done|]. by rewrite Hc, IH. Qed.

Lemma split_app_sep p s c t :
  Forall (fun d => p d = false) s -> p c = true -> split p (s ++ c :: t) = s :: split p t.
Proof.
  induction 1 as [|d s Hd Hs IH]; intros Hc; simpl; [by rewrite Hc|].
  by rewrite Hd, IH.
Qed.

Lemma split_pieces p s : Forall (Forall (fun c => p c = false)) (split p s).
Proof.
  induction s as [|c s IH]; simpl; [repeat constructor|].
  destruct (p c) eqn:Hc; [by repeat constructor|].
  destruct (split p s) as [|piece rest]; [by repeat constructor|].
  inv IH. by repeat constructor.
Qed.

Lemma splitn2_ws_sep s c t :
  Forall (fun d => is_whitespace d = false) s -> is_whitespace c = true ->
  splitn2_ws (s ++ c :: t) = (s, Some t).
Proof.
  induction 1 as [|d s Hd Hs IH]; intros Hc; simpl; [by rewrite Hc|].
  by rewrite Hd, IH.
Qed.

Lemma splitn2_ws_none s :
  Forall (fun d => is_whitespace d = false) s -> splitn2_ws s = (s, None).
Proof. induction 1 as [|d s Hd Hs IH]; simpl; [done|]. by rewrite Hd, IH. Qed.

Lemma lines_acc_line acc s t :
  Forall (fun c => c <> NL) s ->
  lines_acc acc (s ++ NL :: t) = strip_cr (reverse acc ++ s) :: lines_acc [] t.
Proof.
  revert acc. induction s as [|c s IH]; intros acc H; simpl.
  - by rewrite app_nil_r.
  - inv H. destruct (c =? NL) eqn:E; [by apply Z.eqb_eq in E|].
    rewrite IH by done. by rewrite reverse_cons, <- app_assoc.
Qed.

(** [lines] gives back a line that was written with a '\n' after it. *)
Lemma lines_cons s t :
  Forall (fun c => c <> NL) s -> (forall r, s <> r ++ [CR]) ->
  lines (s ++ NL :: t) = s :: lines t.
Proof.
  intros H Hcr. unfold lines. rewrite lines_acc_line by done. simpl. f_equal.
  unfold strip_cr. destruct (reverse s) as [|c r] eqn:E; [done|].
  destruct (c =? CR) eqn:Ec; [|done]. apply Z.eqb_eq in Ec. subst c.
  apply (f_equal reverse) in E. rewrite reverse_involutive, reverse_cons in E.
  by destruct (Hcr (reverse r)).
Qed.

Lemma starts_with_app pre s : starts_with pre (pre ++ s) = true.
Proof. induction pre as [|c pre IH]; simpl; [done|]. by rewrite Z.eqb_refl. Qed.

Lemma starts_with_spec pre s : starts_with pre s = true <-> exists t, s = pre ++ t.
Proof.
  split; [|intros [t ->]; apply starts_with_app].
  revert s. induction pre as [|c pre IH]; intros s; simpl; [eauto|].
  destruct s as [|d s]; [discriminate|]. rewrite andb_true_iff, Z.eqb_eq.
  intros [-> H]. destruct (IH _ H) as [t ->]. eauto.
Qed.

Lemma contains_str_app_l pat s t : contains_str pat t = true -> contains_str pat (s ++ t) = true.
Proof.
  intros H. induction s as [|c s IH]; simpl; [done|]. rewrite IH. apply orb_true_r.
Qed.

#[export] Hint Resolve str_len_nonneg split_pieces : quicfs.
#[export] Hint Rewrite str_len_app contains_char_app : quicfs.
