(* ===== verification/Status.v ===== *)
(** * Wire status codes and error translation

    [src/common/src/status.rs], and the two client-side tables that turn a
    status back into an errno: [check_status] ([src/client/src/conn.rs]),
    [rpc_to_errno] and [io_to_errno] ([src/client/src/fuse_ops.rs]). *)

From S2P Require Import Prelude Text.

(** ** std::io::Error *)

Inductive ErrorKind : Type :=
| NotFound | PermissionDenied | AlreadyExists | InvalidInput | InvalidData
| DirectoryNotEmpty | NotADirectory | IsADirectory | StorageFull
| ReadOnlyFilesystem | CrossesDevices | TimedOut | Interrupted | UnexpectedEof
| WriteZero | Unsupported | OutOfMemory | Other.

#[export] Instance ErrorKind_eq_dec : EqDecision ErrorKind.
Proof. solve_decision. Defined.

(** [kind()] and [raw_os_error()]. *)
Record io_error := IoError { ioe_kind : ErrorKind; ioe_raw : option Z }.

(** [io::Error::from(kind)]: no OS code. *)
Definition io_error_of_kind (k : ErrorKind) : io_error := IoError k None.

Abbreviation io A := (result io_error A).

(** ** enum Status *)

Inductive Status : Type :=
| StOk | StNotFound | StPermission | StIo | StExists | StNotEmpty | StNotDir
| StIsDir | StInvalidArg | StNoSpace | StTooLarge | StStale | StUnknown.

#[export] Instance Status_eq_dec : EqDecision Status.
Proof. solve_decision. Defined.

(** [status as u8] *)
Definition status_as_u8 (s : Status) : Z :=
  match s with
  | StOk => 0 | StNotFound => 1 | StPermission => 2 | StIo => 3 | StExists => 4
  | StNotEmpty => 5 | StNotDir => 6 | StIsDir => 7 | StInvalidArg => 8
  | StNoSpace => 9 | StTooLarge => 10 | StStale => 11 | StUnknown => 255
  end.

(** [impl From<u8> for Status] *)
Definition status_from_u8 (v : Z) : Status :=
  match v with
  | 0 => StOk | 1 => StNotFound | 2 => StPermission | 3 => StIo | 4 => StExists
  | 5 => StNotEmpty | 6 => StNotDir | 7 => StIsDir | 8 => StInvalidArg
  | 9 => StNoSpace | 10 => StTooLarge | 11 => StStale | _ => StUnknown
  end.

(** [impl From<std::io::Error> for Status] *)
Definition status_from_io (e : io_error) : Status :=
  match ioe_kind e with
  | NotFound => StNotFound
  | PermissionDenied => StPermission
  | AlreadyExists => StExists
  | InvalidInput | InvalidData => StInvalidArg
  | _ => StIo
  end.

(** [r.map(|_| Status::Ok).unwrap_or_else(Status::from)] *)
Definition status_of_io {A} (r : io A) : Status :=
  match r with Ok _ => StOk | Err e => status_from_io e end.

(** [#[derive(Debug)]] names, as [{:?}] prints them. *)
Definition status_debug (s : Status) : str :=
  match s with
  | StOk => lit "Ok" | StNotFound => lit "NotFound" | StPermission => lit "Permission"
  | StIo => lit "Io" | StExists => lit "Exists" | StNotEmpty => lit "NotEmpty"
  | StNotDir => lit "NotDir" | StIsDir => lit "IsDir" | StInvalidArg => lit "InvalidArg"
  | StNoSpace => lit "NoSpace" | StTooLarge => lit "TooLarge" | StStale => lit "Stale"
  | StUnknown => lit "Unknown"
  end.

(** An [anyhow::Error] is its message ([to_string] prints the outermost one). *)
Abbreviation anyhow A := (result str A).

(** [fn check_status] *)
Definition check_status (status : Z) : anyhow unit :=
  match status_from_u8 status with
  | StOk => Ok tt
  | s => Err (lit "server error: " ++ status_debug s)
  end.

(** ** errno values (Linux) *)

Definition ENOENT : Z := 2.
Definition EIO : Z := 5.
Definition EACCES : Z := 13.
Definition EEXIST : Z := 17.
Definition ENOTDIR : Z := 20.
Definition EISDIR : Z := 21.
Definition EINVAL : Z := 22.
Definition ENOSPC : Z := 28.
Definition ENOSYS : Z := 38.
Definition ENOTEMPTY : Z := 39.
Definition ESTALE : Z := 116.

(** [fn rpc_to_errno]: the errno is recovered from the error's text. *)
Definition rpc_to_errno (msg : str) : Z :=
  if contains_str (lit "NotFound") msg then ENOENT
  else if contains_str (lit "Permission") msg then EACCES
  else if contains_str (lit "Exists") msg then EEXIST
  else if contains_str (lit "NotEmpty") msg then ENOTEMPTY
  else if contains_str (lit "NotDir") msg then ENOTDIR
  else if contains_str (lit "IsDir") msg then EISDIR
  else if contains_str (lit "NoSpace") msg then ENOSPC
  else if contains_str (lit "Stale") msg then ESTALE
  else EIO.

(** [fn io_to_errno] *)
Definition io_to_errno (k : ErrorKind) : Z :=
  match k with
  | NotFound => ENOENT
  | PermissionDenied => EACCES
  | AlreadyExists => EEXIST
  | DirectoryNotEmpty => ENOTEMPTY
  | InvalidInput | InvalidData => EINVAL
  | _ => EIO
  end.

(** The errno a client application sees for a failed server operation: the
    server's status, its wire byte, [check_status] and [rpc_to_errno]. *)
Definition wire_errno (s : Status) : option Z :=
  match check_status (status_as_u8 s) with
  | Ok _ => None
  | Err msg => Some (rpc_to_errno msg)
  end.

(** ** Lemmas *)

Lemma status_u8_range s : in_width 8 (status_as_u8 s).
Proof. destruct s; unfold in_width; simpl; lia. Qed.

Lemma check_status_ok v : check_status v = Ok tt <-> status_from_u8 v = StOk.
Proof. unfold check_status. destruct (status_from_u8 v); split; congruence. Qed.

#[export] Hint Resolve status_u8_range : quicfs.

(** ** Theorems *)

(** The status byte survives the wire: decoding the byte of a status gives
    the status back, every byte outside the table decodes to [Unknown], and
    [check_status] reports success for [Ok] only. *)
Theorem status_roundtrip :
  (forall s, status_from_u8 (status_as_u8 s) = s) /\
  (forall v, status_from_u8 v = StUnknown <-> ~ (0 <= v <= 11)) /\
  (forall s, check_status (status_as_u8 s) = Ok tt <-> s = StOk).
Proof.
  split; [by intros []|]. split.
  - intros v. destruct (decide (0 <= v <= 11)) as [H|H].
    + assert (v = 0 \/ v = 1 \/ v = 2 \/ v = 3 \/ v = 4 \/ v = 5 \/ v = 6 \/ v = 7 \/ v = 8
              \/ v = 9 \/ v = 10 \/ v = 11) as Hv by lia.
      destruct_or!; subst; simpl; split; intros; try congruence; lia.
    + split; [done|]. intros _. destruct v as [|p|p]; [lia| |done].
      do 4 (try destruct p as [p|p|]); try done; exfalso; lia.
  - intros s. rewrite check_status_ok. by destruct s.
Qed.

(** C30: what reaches the application's errno.  Each listed status arrives as its own
    errno, the rest as EIO.  [Status::from(io::Error)] has arms for four kinds of error
    only: an io error that a handler answers through it is ENOENT, EACCES, EEXIST or
    EIO at the client and never ENOTEMPTY, ENOTDIR, EISDIR or ENOSPC, so an [rmdir] of a
    non-empty directory is EIO, and so is a write to a full disk.  ENOSPC does arise
    from the status itself, which [handle_open] and [handle_create] name when the
    session's handle table is full. *)
Theorem errno_of_server_error :
  (forall s, wire_errno s =
     match s with
     | StOk => None
     | StNotFound => Some ENOENT | StPermission => Some EACCES
     | StExists => Some EEXIST | StNotEmpty => Some ENOTEMPTY
     | StNotDir => Some ENOTDIR | StIsDir => Some EISDIR
     | StNoSpace => Some ENOSPC | StStale => Some ESTALE
     | StIo | StInvalidArg | StTooLarge | StUnknown => Some EIO
     end) /\
  (forall e, wire_errno (status_from_io e) ∈
     [Some ENOENT; Some EACCES; Some EEXIST; Some EIO]) /\
  wire_errno (status_from_io (IoError DirectoryNotEmpty (Some ENOTEMPTY))) = Some EIO.
Proof.
  split; [by intros []|]. split; [|done].
  intros [k r]. apply (bool_decide_unpack _). destruct k; vm_compute; exact I.
Qed.
