(* ===== verification/Frames.v ===== *)
(** * Wire messages

    The message structures and constants of [src/common/src/frames.rs] and
    [src/common/src/stat.rs].  Field widths are those of the source; a field's
    value is a [Z] of that width.

    MessagePack itself (the [rmp_serde] crate) is not part of the repository:
    [Wire] is the interface [encode]/[decode] of [src/common/src/io.rs] offer
    for one message type, and [WireLaws] the documented behaviour the protocol
    relies on. *)

From S2P Require Import Prelude Text.

(** ** stat.rs *)

Record Stat := MkStat {
  st_ino : Z; st_mode : Z; st_nlink : Z; st_uid : Z; st_gid : Z; st_size : Z;
  st_atime : Z; st_mtime : Z; st_ctime : Z; st_blksz : Z; st_blocks : Z
}.

Record DirEntry := MkDirEntry { de_name : str; de_ino : Z; de_mode : Z }.

Record StatFs := MkStatFs {
  sf_blocks : Z; sf_bfree : Z; sf_bavail : Z; sf_files : Z; sf_ffree : Z;
  sf_bsize : Z; sf_namelen : Z; sf_frsize : Z
}.

(** [StatFs::default()] *)
Definition StatFs_default : StatFs := MkStatFs 0 0 0 0 0 0 0 0.

(** ** Operation codes *)

Definition OP_GET_ATTR : Z := 0x01.
Definition OP_SET_ATTR : Z := 0x02.
Definition OP_READ_DIR : Z := 0x03.
Definition OP_MKDIR : Z := 0x04.
Definition OP_RMDIR : Z := 0x05.
Definition OP_UNLINK : Z := 0x06.
Definition OP_RENAME : Z := 0x07.
Definition OP_SYMLINK : Z := 0x08.
Definition OP_READLINK : Z := 0x09.
Definition OP_LINK : Z := 0x0A.
Definition OP_STAT_FS : Z := 0x0B.
Definition OP_OPEN : Z := 0x10.
Definition OP_RELEASE : Z := 0x11.
Definition OP_CREATE : Z := 0x12.
Definition OP_READ : Z := 0x20.
Definition OP_WRITE : Z := 0x21.
Definition OP_FSYNC : Z := 0x22.
Definition OP_HANDSHAKE : Z := 0xF0.
Definition OP_PING : Z := 0xF1.

Definition MAX_FRAME_SIZE : Z := 16 * 1024 * 1024.

(** ** frames.rs: requests and responses *)

Record Envelope := MkEnvelope { env_op : Z; env_seq : Z }.

Record HandshakeRequest := MkHandshakeRequest {
  hq_op : Z; hq_seq : Z; hq_version : Z; hq_client_id : str;
  hq_features : list str; hq_chunk_size : Z; hq_auth_type : str
}.

Record HandshakeResponse := MkHandshakeResponse {
  hr_op : Z; hr_seq : Z; hr_status : Z; hr_version : Z; hr_features : list str;
  hr_chunk_size : Z; hr_server_id : str; hr_export_root : str
}.

Record PingRequest := MkPingRequest { pgq_op : Z; pgq_seq : Z }.
Record PingResponse := MkPingResponse { pgr_op : Z; pgr_seq : Z; pgr_status : Z }.

Record GetAttrRequest := MkGetAttrRequest { gaq_op : Z; gaq_seq : Z; gaq_path : str }.
Record GetAttrResponse := MkGetAttrResponse {
  gar_op : Z; gar_seq : Z; gar_status : Z; gar_stat : option Stat
}.

Record SetAttrRequest := MkSetAttrRequest {
  saq_op : Z; saq_seq : Z; saq_path : str; saq_valid : Z; saq_mode : Z; saq_uid : Z;
  saq_gid : Z; saq_size : Z; saq_atime : Z; saq_mtime : Z
}.
Record SetAttrResponse := MkSetAttrResponse {
  sar_op : Z; sar_seq : Z; sar_status : Z; sar_stat : option Stat
}.

Record ReadDirRequest := MkReadDirRequest {
  rdq_op : Z; rdq_seq : Z; rdq_path : str; rdq_cursor : Z
}.
Record ReadDirResponse := MkReadDirResponse {
  rdr_op : Z; rdr_seq : Z; rdr_status : Z; rdr_entries : list DirEntry;
  rdr_cursor : Z; rdr_eof : bool
}.

Record OpenRequest := MkOpenRequest { opq_op : Z; opq_seq : Z; opq_path : str; opq_flags : Z }.
Record OpenResponse := MkOpenResponse {
  opr_op : Z; opr_seq : Z; opr_status : Z; opr_handle : Z; opr_stat : option Stat
}.

Record ReleaseRequest := MkReleaseRequest { rlq_op : Z; rlq_seq : Z; rlq_handle : Z }.
Record ReleaseResponse := MkReleaseResponse { rlr_op : Z; rlr_seq : Z; rlr_status : Z }.

Record ReadRequest := MkReadRequest {
  rq_op : Z; rq_seq : Z; rq_handle : Z; rq_offset : Z; rq_length : Z
}.
Record ReadResponse := MkReadResponse {
  rr_op : Z; rr_seq : Z; rr_status : Z; rr_offset : Z; rr_data : bytes; rr_eof : bool
}.

Record WriteRequest := MkWriteRequest {
  wq_op : Z; wq_seq : Z; wq_handle : Z; wq_offset : Z; wq_data : bytes; wq_done : bool
}.
Record WriteResponse := MkWriteResponse {
  wr_op : Z; wr_seq : Z; wr_status : Z; wr_written : Z
}.

Record RenameRequest := MkRenameRequest {
  rnq_op : Z; rnq_seq : Z; rnq_old : str; rnq_new : str; rnq_flags : Z
}.

Record PathRequest := MkPathRequest { pq_op : Z; pq_seq : Z; pq_path : str }.
Record StatusResponse := MkStatusResponse { sr_op : Z; sr_seq : Z; sr_status : Z }.
Record ReadLinkResponse := MkReadLinkResponse {
  rkr_op : Z; rkr_seq : Z; rkr_status : Z; rkr_target : str
}.

Record MkDirRequest := MkMkDirRequest { mdq_op : Z; mdq_seq : Z; mdq_path : str; mdq_mode : Z }.

Record CreateRequest := MkCreateRequest {
  crq_op : Z; crq_seq : Z; crq_path : str; crq_flags : Z; crq_mode : Z
}.

Record FsyncRequest := MkFsyncRequest {
  fsq_op : Z; fsq_seq : Z; fsq_handle : Z; fsq_datasync : bool
}.

Record StatFsResponse := MkStatFsResponse {
  sfr_op : Z; sfr_seq : Z; sfr_status : Z; sfr_statfs : option StatFs
}.

Record SymlinkRequest := MkSymlinkRequest {
  slq_op : Z; slq_seq : Z; slq_target : str; slq_link : str
}.
Record LinkRequest := MkLinkRequest { lkq_op : Z; lkq_seq : Z; lkq_path : str; lkq_link : str }.

(** ** The codec interface *)

(** [encode<T>] and [decode<T>] of io.rs for one message type. *)
Class Wire (T : Type) := {
  encode : T -> option bytes;
  decode : bytes -> option T
}.

(** A value that encodes decodes to itself. *)
Class WireLaws (T : Type) `{!Wire T} := {
  decode_encode : forall (x : T) (b : bytes), encode x = Some b -> decode b = Some x
}.

(** Every message type the two programs exchange. *)
Class Codec := {
  wire_Envelope :: Wire Envelope;
  wire_HandshakeRequest :: Wire HandshakeRequest;
  wire_HandshakeResponse :: Wire HandshakeResponse;
  wire_PingRequest :: Wire PingRequest;
  wire_PingResponse :: Wire PingResponse;
  wire_GetAttrRequest :: Wire GetAttrRequest;
  wire_GetAttrResponse :: Wire GetAttrResponse;
  wire_SetAttrRequest :: Wire SetAttrRequest;
  wire_SetAttrResponse :: Wire SetAttrResponse;
  wire_ReadDirRequest :: Wire ReadDirRequest;
  wire_ReadDirResponse :: Wire ReadDirResponse;
  wire_OpenRequest :: Wire OpenRequest;
  wire_OpenResponse :: Wire OpenResponse;
  wire_ReleaseRequest :: Wire ReleaseRequest;
  wire_ReleaseResponse :: Wire ReleaseResponse;
  wire_ReadRequest :: Wire ReadRequest;
  wire_ReadResponse :: Wire ReadResponse;
  wire_WriteRequest :: Wire WriteRequest;
  wire_WriteResponse :: Wire WriteResponse;
  wire_RenameRequest :: Wire RenameRequest;
  wire_PathRequest :: Wire PathRequest;
  wire_StatusResponse :: Wire StatusResponse;
  wire_ReadLinkResponse :: Wire ReadLinkResponse;
  wire_MkDirRequest :: Wire MkDirRequest;
  wire_CreateRequest :: Wire CreateRequest;
  wire_FsyncRequest :: Wire FsyncRequest;
  wire_StatFsResponse :: Wire StatFsResponse;
  wire_SymlinkRequest :: Wire SymlinkRequest;
  wire_LinkRequest :: Wire LinkRequest
}.
