(* ===== verification/FrameIo.v ===== *)
(** * Length-prefixed frames

    [write_frame] and [read_frame] of [src/common/src/io.rs].  A stream is the
    bytes its sender wrote before finishing it; reading consumes a prefix, and
    reading past the end is the [UnexpectedEof] error of [read_exact]. *)

From S2P Require Import Prelude Text Status Frames.

(** ** Definitions *)

(** [AsyncWriteExt::write_u32]: four big-endian bytes. *)
Definition be32 (z : Z) : bytes :=
  [byte_of_Z (Z.shiftr z 24); byte_of_Z (Z.shiftr z 16); byte_of_Z (Z.shiftr z 8); byte_of_Z z].

(** [AsyncReadExt::read_u32] *)
Definition read_u32 (s : bytes) : anyhow (Z * bytes) :=
  match s with
  | a :: b :: c :: d :: rest =>
      Ok (Z.shiftl (byte_to_Z a) 24 + Z.shiftl (byte_to_Z b) 16
          + Z.shiftl (byte_to_Z c) 8 + byte_to_Z d, rest)
  | _ => Err (lit "read length prefix")
  end.

(** [AsyncReadExt::read_exact] into a buffer of [n] bytes. *)
Definition read_exact (n : Z) (s : bytes) : anyhow (bytes * bytes) :=
  if n <=? zlen s then Ok (take (Z.to_nat n) s, drop (Z.to_nat n) s)
  else Err (lit "read frame body").

(** [write_frame]: the stream [out] after the call. *)
Definition write_frame (out data : bytes) : anyhow bytes :=
  if MAX_FRAME_SIZE <? zlen data then Err (lit "frame too large")
  else Ok (out ++ be32 (wrap32 (zlen data)) ++ data).

(** [read_frame]: the frame body and the rest of the stream. *)
Definition read_frame (s : bytes) : anyhow (bytes * bytes) :=
  let? (len, rest) := read_u32 s in
  if MAX_FRAME_SIZE <? len then Err (lit "frame too large")
  else read_exact len rest.

(** Several frames, as a sender emits them one after the other. *)
Fixpoint write_frames (out : bytes) (ds : list bytes) : anyhow bytes :=
  match ds with
  | [] => Ok out
  | d :: ds' => let? out' := write_frame out d in write_frames out' ds'
  end.

(** Reading frames until the stream ends; each frame takes at least the four
    bytes of its prefix, so the stream's length bounds the number of reads. *)
Fixpoint read_frames (fuel : nat) (s : bytes) : anyhow (list bytes) :=
  match s, fuel with
  | [], _ => Ok []
  | _, O => Err (lit "out of fuel")
  | _, S fuel' =>
      let? (d, rest) := read_frame s in
      let? ds := read_frames fuel' rest in
      Ok (d :: ds)
  end.

(** ** Lemmas *)

Lemma be32_length z : length (be32 z) = 4%nat.
Proof. done. Qed.

Lemma shiftr_bytes z :
  0 <= z < 2 ^ 32 ->
  Z.shiftl (wrap 8 (Z.shiftr z 24)) 24 + Z.shiftl (wrap 8 (Z.shiftr z 16)) 16
  + Z.shiftl (wrap 8 (Z.shiftr z 8)) 8 + wrap 8 z = z.
Proof.
  intros Hz. unfold wrap. rewrite !Z.shiftl_mul_pow2, !Z.shiftr_div_pow2 by lia.
  change (2 ^ 8) with 256. change (2 ^ 16) with (256 * 256). change (2 ^ 24) with (256 * 256 * 256).
  change (2 ^ 32) with (256 * 256 * 256 * 256) in Hz.
  rewrite <- !Z.div_div by lia.
  pose proof (Z.div_mod z 256 ltac:(lia)).
  pose proof (Z.div_mod (z / 256) 256 ltac:(lia)).
  pose proof (Z.div_mod (z / 256 / 256) 256 ltac:(lia)).
  assert (0 <= z / 256 / 256 / 256 < 256) as Hs.
  { rewrite !Z.div_div by lia. split; [apply Z.div_pos; lia | apply Z.div_lt_upper_bound; lia]. }
  rewrite (Z.mod_small (z / 256 / 256 / 256)) by lia. lia.
Qed.

Lemma read_u32_be32 z rest :
  0 <= z < 2 ^ 32 -> read_u32 (be32 z ++ rest) = Ok (z, rest).
Proof.
  intros Hz. simpl. rewrite !byte_to_of_Z. by rewrite shiftr_bytes.
Qed.

Lemma read_u32_inv s z rest :
  read_u32 s = Ok (z, rest) -> s = be32 z ++ rest /\ 0 <= z < 2 ^ 32.
Proof.
  unfold read_u32. destruct s as [|a [|b [|c [|d t]]]]; try discriminate.
  intros H. inv H.
  pose proof (byte_to_Z_range a). pose proof (byte_to_Z_range b).
  pose proof (byte_to_Z_range c). pose proof (byte_to_Z_range d).
  set (A := byte_to_Z a) in *. set (B := byte_to_Z b) in *.
  set (C := byte_to_Z c) in *. set (D := byte_to_Z d) in *.
  rewrite !Z.shiftl_mul_pow2 by lia. change (2 ^ 24) with 16777216.
  change (2 ^ 16) with 65536. change (2 ^ 8) with 256.
  split; [|change (2 ^ 32) with 4294967296; lia].
  set (z := A * 16777216 + B * 65536 + C * 256 + D).
  assert (forall x y, wrap 8 x = wrap 8 y -> byte_of_Z x = byte_of_Z y) as Hw.
  { intros x y Hxy. unfold byte_of_Z. by rewrite Hxy. }
  unfold be32. simpl. rewrite !Z.shiftr_div_pow2 by lia.
  change (2 ^ 24) with 16777216. change (2 ^ 16) with 65536. change (2 ^ 8) with 256.
  rewrite <- (byte_of_to_Z a), <- (byte_of_to_Z b), <- (byte_of_to_Z c), <- (byte_of_to_Z d).
  fold A B C D. unfold wrap in Hw. change (2 ^ 8) with 256 in Hw.
  repeat (apply f_equal2; [apply Hw; unfold z; clear Hw; Z.div_mod_to_equations; lia|]).
  done.
Qed.

Lemma read_exact_app d rest : read_exact (zlen d) (d ++ rest) = Ok (d, rest).
Proof.
  unfold read_exact. rewrite length_app.
  destruct (zlen d <=? _) eqn:E; [|apply Z.leb_gt in E; lia].
  by rewrite Nat2Z.id, take_app_length, drop_app_length.
Qed.

Lemma read_exact_inv n s d rest :
  0 <= n -> read_exact n s = Ok (d, rest) -> s = d ++ rest /\ zlen d = n.
Proof.
  unfold read_exact. intros Hn H. destruct (n <=? zlen s) eqn:E; [|discriminate].
  apply Z.leb_le in E. inv H. rewrite take_drop. split; [done|].
  rewrite length_take. lia.
Qed.

Lemma write_frame_ok out d :
  zlen d <= MAX_FRAME_SIZE -> write_frame out d = Ok (out ++ be32 (zlen d) ++ d).
Proof.
  intros H. unfold write_frame. destruct (MAX_FRAME_SIZE <? zlen d) eqn:E.
  - apply Z.ltb_lt in E. lia.
  - rewrite wrap_small; [done|]. unfold in_width, MAX_FRAME_SIZE in *. lia.
Qed.

Lemma read_frame_app d rest :
  zlen d <= MAX_FRAME_SIZE -> read_frame (be32 (zlen d) ++ d ++ rest) = Ok (d, rest).
Proof.
  intros H. unfold read_frame. rewrite read_u32_be32 by (unfold MAX_FRAME_SIZE in *; lia).
  simpl. destruct (MAX_FRAME_SIZE <? zlen d) eqn:E; [apply Z.ltb_lt in E; lia|].
  apply read_exact_app.
Qed.

Lemma read_frame_inv s d rest :
  read_frame s = Ok (d, rest) ->
  s = be32 (zlen d) ++ d ++ rest /\ zlen d <= MAX_FRAME_SIZE.
Proof.
  unfold read_frame. intros H. apply res_bind_Ok_inv in H as ([n r] & Hu & H).
  apply read_u32_inv in Hu as [-> Hn].
  destruct (MAX_FRAME_SIZE <? n) eqn:E; [discriminate|]. apply Z.ltb_ge in E.
  apply read_exact_inv in H as [-> <-]; [done | lia].
Qed.

Lemma write_frames_app out ds s :
  write_frames out ds = Ok s -> Forall (fun d => zlen d <= MAX_FRAME_SIZE) ds ->
  s = out ++ concat (map (fun d => be32 (zlen d) ++ d) ds).
Proof.
  intros H HF. revert out H. induction HF as [|d ds Hd _ IH]; intros out H; simpl in *.
  - inv H. by rewrite app_nil_r.
  - rewrite write_frame_ok in H by done. simpl in H. apply IH in H. subst s.
    by rewrite <- !app_assoc.
Qed.

Lemma write_frames_total out ds :
  Forall (fun d => zlen d <= MAX_FRAME_SIZE) ds -> exists s, write_frames out ds = Ok s.
Proof.
  intros HF. revert out. induction HF as [|d ds Hd _ IH]; intros out; simpl; [eauto|].
  rewrite write_frame_ok by done. simpl. apply IH.
Qed.

Lemma read_frames_concat ds fuel :
  Forall (fun d => zlen d <= MAX_FRAME_SIZE) ds ->
  (length ds <= fuel)%nat ->
  read_frames fuel (concat (map (fun d => be32 (zlen d) ++ d) ds)) = Ok ds.
Proof.
  intros HF. revert fuel. induction HF as [|d ds Hd _ IH]; intros fuel Hf; simpl in *.
  - by destruct fuel.
  - destruct fuel as [|fuel]; [lia|].
    change (_ :: _ :: _ :: _ :: _) with
      ((be32 (zlen d) ++ d) ++ concat (map (fun d => be32 (zlen d) ++ d) ds)).
    cbn [read_frames]. rewrite <- app_assoc, read_frame_app by done. simpl.
    rewrite IH by lia. done.
Qed.

#[export] Hint Rewrite be32_length : quicfs.

(** ** Theorems *)

(** C26: framing is a faithful channel.  A sequence of messages within the
    frame limit is always written, and reading the stream back gives exactly
    those messages, in order, with nothing left over. *)
Theorem frames_roundtrip ds :
  Forall (fun d => zlen d <= MAX_FRAME_SIZE) ds ->
  exists s, write_frames [] ds = Ok s /\ read_frames (length ds) s = Ok ds.
Proof.
  intros HF. destruct (write_frames_total [] ds HF) as [s Hs]. exists s.
  split; [done|]. apply write_frames_app in Hs; [|done]. subst s.
  apply read_frames_concat; [done|lia].
Qed.

Lemma frames_roundtrip_witness :
  exists s, write_frames [] [[x01; x02]; []; [x03]] = Ok s /\
            read_frames 3 s = Ok [[x01; x02]; []; [x03]].
Proof.
  apply (frames_roundtrip [[x01; x02]; []; [x03]]).
  repeat (constructor; [vm_compute; discriminate|]). constructor.
Defined.

(** C27: the reader's memory bound and error paths.  A frame is accepted only
    when the stream starts with its canonical big-endian length and that
    length is at most [MAX_FRAME_SIZE]; an announced length above the limit
    and a stream that ends inside the prefix or the body are errors; and a
    sender refuses to emit what a reader would reject. *)
Theorem read_frame_bounded :
  (forall s d rest, read_frame s = Ok (d, rest) <->
     s = be32 (zlen d) ++ d ++ rest /\ zlen d <= MAX_FRAME_SIZE) /\
  (forall n rest, MAX_FRAME_SIZE < n < 2 ^ 32 -> is_ok (read_frame (be32 n ++ rest)) = false) /\
  (forall s, (length s < 4)%nat -> is_ok (read_frame s) = false) /\
  (forall n body, 0 <= n <= MAX_FRAME_SIZE -> zlen body < n ->
     is_ok (read_frame (be32 n ++ body)) = false) /\
  (forall out d, is_ok (write_frame out d) = true <-> zlen d <= MAX_FRAME_SIZE).
Proof.
  split_and!.
  - intros s d rest. split; [apply read_frame_inv|]. intros [-> H]. by apply read_frame_app.
  - intros n rest Hn. unfold read_frame. rewrite read_u32_be32 by (unfold MAX_FRAME_SIZE in *; lia).
    simpl. destruct (MAX_FRAME_SIZE <? n) eqn:E; [done|]. apply Z.ltb_ge in E. lia.
  - intros s Hs. by destruct s as [|a [|b [|c [|d t]]]]; simpl in *; try lia.
  - intros n body Hn Hb. unfold read_frame, MAX_FRAME_SIZE in *. rewrite read_u32_be32 by lia.
    simpl. destruct (_ <? n) eqn:E; [done|]. unfold read_exact.
    destruct (n <=? zlen body) eqn:E2; [|done]. apply Z.leb_le in E2. lia.
  - intros out d. unfold write_frame.
    destruct (MAX_FRAME_SIZE <? zlen d) eqn:E; simpl; [apply Z.ltb_lt in E | apply Z.ltb_ge in E];
      split; intros; try lia; done.
Qed.
