(* ===== verification/BTree.v ===== *)
(** * BTreeMap<String, String>

    An ordered map as the strictly sorted list of its bindings, in the order
    [BTreeMap]'s iterator yields them (byte order of UTF-8 strings, which is
    scalar-value order). *)

From S2P Require Import Prelude Text.
From Stdlib Require Import Sorted.

(** ** Definitions *)

Fixpoint str_compare (a b : str) : comparison :=
  match a, b with
  | [], [] => Eq
  | [], _ :: _ => Lt
  | _ :: _, [] => Gt
  | x :: a', y :: b' => match x ?= y with Eq => str_compare a' b' | c => c end
  end.

Definition str_lt (a b : str) : Prop := str_compare a b = Lt.

Abbreviation btree := (list (str * str)).

(** [BTreeMap::insert] *)
Fixpoint bt_insert (k v : str) (m : btree) : btree :=
  match m with
  | [] => [(k, v)]
  | (k', v') :: m' =>
      match str_compare k k' with
      | Lt => (k, v) :: m
      | Eq => (k, v) :: m'
      | Gt => (k', v') :: bt_insert k v m'
      end
  end.

(** [BTreeMap::get] *)
Fixpoint bt_get (k : str) (m : btree) : option str :=
  match m with
  | [] => None
  | (k', v') :: m' => if str_eqb k k' then Some v' else bt_get k m'
  end.

(** [BTreeMap::contains_key] and [is_empty] *)
Definition bt_contains (k : str) (m : btree) : bool :=
  match bt_get k m with Some _ => true | None => false end.
Definition bt_is_empty (m : btree) : bool := match m with [] => true | _ => false end.

(** The representation invariant. *)
Definition bt_sorted (m : btree) : Prop := StronglySorted (fun p q => str_lt p.1 q.1) m.

(** ** Lemmas *)

Lemma str_compare_refl a : str_compare a a = Eq.
Proof. induction a as [|x a IH]; simpl; [done|]. by rewrite Z.compare_refl. Qed.

Lemma str_compare_eq a b : str_compare a b = Eq -> a = b.
Proof.
  revert b. induction a as [|x a IH]; intros [|y b]; simpl; try done.
  destruct (x ?= y) eqn:E; try done. apply Z.compare_eq in E. intros H. subst. f_equal. auto.
Qed.

Lemma str_compare_antisym a b : str_compare b a = CompOpp (str_compare a b).
Proof.
  revert b. induction a as [|x a IH]; intros [|y b]; simpl; try done.
  rewrite (Z.compare_antisym x y). destruct (x ?= y); simpl; auto.
Qed.

Lemma str_lt_trans a b c : str_lt a b -> str_lt b c -> str_lt a c.
Proof.
  unfold str_lt. revert b c.
  induction a as [|x a IH]; intros [|y b] [|z c]; simpl; try done.
  destruct (Z.compare_spec x y), (Z.compare_spec y z), (Z.compare_spec x z); subst;
    try done; try lia; eauto.
Qed.

Lemma str_lt_irrefl a : ~ str_lt a a.
Proof. unfold str_lt. by rewrite str_compare_refl. Qed.

Lemma bt_insert_Forall (P : str * str -> Prop) k v m :
  P (k, v) -> Forall P m -> Forall P (bt_insert k v m).
Proof.
  intros Hkv. induction 1 as [|[k' v'] m Hp Hm IH]; simpl; [by repeat constructor|].
  destruct (str_compare k k'); by repeat constructor.
Qed.

Lemma bt_insert_sorted k v m : bt_sorted m -> bt_sorted (bt_insert k v m).
Proof.
  unfold bt_sorted. induction 1 as [|[k' v'] m Hm IH Hall]; simpl; [by repeat constructor|].
  destruct (str_compare k k') eqn:E.
  - apply str_compare_eq in E. subst. by constructor.
  - constructor; [by constructor|]. constructor; [done|]. simpl in *.
    eapply Forall_impl; [exact Hall|]. intros [k2 v2]. simpl. by apply str_lt_trans.
  - constructor; [done|]. apply bt_insert_Forall; [|done]. simpl.
    unfold str_lt. rewrite str_compare_antisym, E. done.
Qed.

Lemma bt_get_insert k v k' m :
  bt_get k' (bt_insert k v m) = if str_eqb k' k then Some v else bt_get k' m.
Proof.
  induction m as [|[k2 v2] m IH]; simpl; [done|].
  destruct (str_compare k k2) eqn:E; simpl.
  - apply str_compare_eq in E. subst. by destruct (str_eqb k' k2).
  - done.
  - rewrite IH. destruct (str_eqb k' k2) eqn:E2; [|done].
    destruct (str_eqb k' k) eqn:E3; [|done].
    apply str_eqb_eq in E2, E3. subst. by rewrite str_compare_refl in E.
Qed.

(** Inserting a key above all the others appends: what rebuilding a map from
    its own sorted bindings does. *)
Lemma bt_insert_max k v m :
  Forall (fun p => str_lt p.1 k) m -> bt_insert k v m = m ++ [(k, v)].
Proof.
  induction 1 as [|[k' v'] m Hk Hm IH]; simpl; [done|].
  rewrite str_compare_antisym. simpl in Hk. unfold str_lt in Hk. by rewrite Hk, <- IH.
Qed.

Lemma bt_rebuild m acc :
  bt_sorted (acc ++ m) ->
  fold_left (fun acc p => bt_insert p.1 p.2 acc) m acc = acc ++ m.
Proof.
  revert acc. induction m as [|[k v] m IH]; intros acc H; simpl; [by rewrite app_nil_r|].
  rewrite bt_insert_max.
  - rewrite IH; rewrite <- app_assoc; [done|]. exact H.
  - unfold bt_sorted in H. clear IH. induction acc as [|p acc IHa]; [constructor|].
    simpl in H. inv H. constructor.
    + rewrite Forall_app, Forall_cons in *. tauto.
    + by apply IHa.
Qed.

#[export] Hint Resolve bt_insert_sorted : quicfs.
