(* ===== verification/Trust.v ===== *)
(** * Trust files

    [src/common/src/trust.rs]: the client's [known_hosts] (pinned server keys)
    and the server's [authorized_keys] (permitted client keys), both persisted
    as text.  A disk is a map from path to file; the outcomes of the individual
    file-system calls are arguments ([disk_env]). *)

From S2P Require Import Prelude Text Status BTree.

(** ** Files *)

Record disk_file := DiskFile { df_text : str; df_mode : Z }.
Abbreviation disk := (gmap (list Z) disk_file).

Record disk_env := DiskEnv {
  env_read : anyhow unit;      (** [read_to_string] *)
  env_ensure_dir : anyhow unit; (** [ensure_dir(parent)] *)
  env_write : anyhow unit;     (** [fs::write] *)
  env_torn : option str;       (** what an [fs::write] that fails leaves, once it has truncated the file *)
  env_chmod : bool;            (** whether [set_permissions] takes effect *)
  env_new_mode : Z             (** mode [fs::write] gives a new file *)
}.

(** [std::fs::write]: truncates an existing file, keeping its mode. *)
Definition fs_write (env : disk_env) (d : disk) (p text : str) : anyhow disk :=
  let? _ := env_write env in
  let mode := match d !! p with Some f => df_mode f | None => env_new_mode env end in
  Ok (<[p := DiskFile text mode]> d).

(** The file after an [fs::write] that failed. *)
Definition fs_write_failed (env : disk_env) (d : disk) (p : str) : disk :=
  match env_torn env with
  | Some text => <[p := DiskFile text (match d !! p with Some f => df_mode f | None => env_new_mode env end)]> d
  | None => d
  end.

(** [fn set_mode]: best effort, the result is ignored. *)
Definition set_mode (env : disk_env) (d : disk) (p : str) (mode : Z) : disk :=
  if env_chmod env then alter (fun f => DiskFile (df_text f) mode) p d else d.

(** [fn restrict_file] *)
Definition restrict_file (env : disk_env) (d : disk) (p : str) : disk :=
  set_mode env d p 0x180 (* 0o600 *).

(** The line filter shared by both loaders: trimmed, not blank, not a comment. *)
Definition significant (line : str) : option str :=
  let line := trim line in
  match line with
  | [] => None
  | c :: _ => if c =? HASH then None else Some line
  end.

(** ** struct KnownHosts *)

Record KnownHosts := MkKnownHosts { kh_path : str; kh_entries : btree }.

(** One iteration of [KnownHosts::load]'s loop. *)
Definition kh_load_line (entries : btree) (line : str) : btree :=
  match significant line with
  | None => entries
  | Some line =>
      match split_whitespace line with
      | host :: fp :: _ => bt_insert host fp entries
      | _ => entries
      end
  end.

(** [KnownHosts::load] *)
Definition kh_load (env : disk_env) (d : disk) (path : str) : anyhow KnownHosts :=
  match d !! path with
  | None => Ok (MkKnownHosts path [])
  | Some f =>
      let? _ := env_read env in
      Ok (MkKnownHosts path (fold_left kh_load_line (lines (df_text f)) []))
  end.

(** [KnownHosts::get] and [insert] *)
Definition kh_get (kh : KnownHosts) (hostport : str) : option str := bt_get hostport (kh_entries kh).
Definition kh_insert (kh : KnownHosts) (hostport fp : str) : KnownHosts :=
  MkKnownHosts (kh_path kh) (bt_insert hostport fp (kh_entries kh)).

Definition kh_header : str := lit "# QuicFS known hosts - managed by quicfs, edit with care" ++ [NL].
Definition kh_render_entry (e : str * str) : str := e.1 ++ [SP] ++ e.2 ++ [NL].
Definition kh_render (entries : btree) : str := kh_header ++ concat (map kh_render_entry entries).

(** [KnownHosts::save]; [has_parent] is [self.path.parent().is_some()]. *)
Definition kh_save (env : disk_env) (has_parent : bool) (d : disk) (kh : KnownHosts) : anyhow disk :=
  let? _ := (if has_parent then env_ensure_dir env else Ok tt) in
  let? d' := fs_write env d (kh_path kh) (kh_render (kh_entries kh)) in
  Ok (restrict_file env d' (kh_path kh)).

(** The disk after a [KnownHosts::save] that failed: [ensure_dir] did, or the write. *)
Definition kh_save_failed (env : disk_env) (has_parent : bool) (d : disk) (kh : KnownHosts) : disk :=
  match (if has_parent then env_ensure_dir env else Ok tt) with
  | Err _ => d
  | Ok _ => fs_write_failed env d (kh_path kh)
  end.

(** ** struct AuthorizedKeys *)

Record AuthorizedKeys := MkAuthorizedKeys { ak_path : str; ak_fingerprints : btree }.

(** One iteration of [AuthorizedKeys::load]'s loop. *)
Definition ak_load_line (fps : btree) (line : str) : btree :=
  match significant line with
  | None => fps
  | Some line =>
      let '(fp, rest) := splitn2_ws line in
      bt_insert fp (trim (default [] rest)) fps
  end.

(** [AuthorizedKeys::load] *)
Definition ak_load (env : disk_env) (d : disk) (path : str) : anyhow AuthorizedKeys :=
  match d !! path with
  | None => Ok (MkAuthorizedKeys path [])
  | Some f =>
      let? _ := env_read env in
      Ok (MkAuthorizedKeys path (fold_left ak_load_line (lines (df_text f)) []))
  end.

Definition ak_is_empty (ak : AuthorizedKeys) : bool := bt_is_empty (ak_fingerprints ak).
Definition ak_contains (ak : AuthorizedKeys) (fp : str) : bool := bt_contains fp (ak_fingerprints ak).

Definition ak_header : str := lit "# QuicFS authorized client keys" ++ [NL].
Definition ak_render_entry (e : str * str) : str :=
  e.1 ++ (match e.2 with [] => [] | c => SP :: c end) ++ [NL].
Definition ak_render (fps : btree) : str := ak_header ++ concat (map ak_render_entry fps).

(** [AuthorizedKeys::save] *)
Definition ak_save (env : disk_env) (has_parent : bool) (d : disk) (ak : AuthorizedKeys) : anyhow disk :=
  let? _ := (if has_parent then env_ensure_dir env else Ok tt) in
  let? d' := fs_write env d (ak_path ak) (ak_render (ak_fingerprints ak)) in
  Ok (set_mode env d' (ak_path ak) 0x1a4 (* 0o644 *)).

(** [AuthorizedKeys::authorize]: insert, then persist. *)
Definition ak_authorize (env : disk_env) (has_parent : bool) (d : disk) (ak : AuthorizedKeys)
    (fp comment : str) : AuthorizedKeys * anyhow disk :=
  let ak' := MkAuthorizedKeys (ak_path ak) (bt_insert fp comment (ak_fingerprints ak)) in
  (ak', ak_save env has_parent d ak').

(** [fn parse_fingerprint] *)
Definition parse_fingerprint (s : str) : anyhow str :=
  let s := trim s in
  if negb (starts_with (lit "SHA256:") s) || (str_len s <? str_len (lit "SHA256:") + 10)
  then Err (lit "not a valid SHA256 fingerprint")
  else Ok s.

(** [fn cmd_authorize] of the server binary: the key file is loaded, extended
    and written back. *)
Definition cmd_authorize (env : disk_env) (has_parent : bool) (d : disk) (path fp comment : str) :
    anyhow disk :=
  let? fp' := parse_fingerprint fp in
  let? ak := ak_load env d path in
  snd (ak_authorize env has_parent d ak fp' comment).

(** ** Well-formed tables: what [save] writes so that [load] reads it back *)

Definition token (s : str) : Prop :=
  s <> [] /\ Forall (fun c => is_whitespace c = false) s.

Definition key_token (s : str) : Prop := token s /\ head s <> Some HASH.

Definition kh_wf (entries : btree) : Prop :=
  bt_sorted entries /\ Forall (fun e => key_token e.1 /\ token e.2) entries.

Definition comment_ok (s : str) : Prop := trim s = s /\ Forall (fun c => c <> NL) s.

Definition ak_wf (fps : btree) : Prop :=
  bt_sorted fps /\ Forall (fun e => key_token e.1 /\ comment_ok e.2) fps.

(** ** Lemmas *)

Lemma no_ws_no_nl s : Forall (fun c => is_whitespace c = false) s -> Forall (fun c => c <> NL) s.
Proof. intros H. eapply Forall_impl; [exact H|]. intros c Hc ->. discriminate. Qed.

Lemma token_last s r c : token s -> s <> r ++ [c] \/ is_whitespace c = false.
Proof.
  intros [_ H]. destruct (is_whitespace c) eqn:E; [left|by right].
  intros ->. rewrite Forall_app, Forall_cons in H. destruct H as [_ [H _]]. congruence.
Qed.

Lemma trim_ends s t :
  token s -> (t = [] \/ match reverse t with [] => False | c :: _ => is_whitespace c = false end) ->
  trim (s ++ t) = s ++ t.
Proof.
  intros [Hne Hs] Ht. apply trim_id.
  - destruct s as [|c s]; [done|]. simpl. by inv Hs.
  - rewrite reverse_app. destruct Ht as [->|Ht].
    + simpl. apply (Forall_reverse _ s) in Hs. by destruct Hs.
    + destruct (reverse t); [done|]. done.
Qed.

Lemma trimmed_last s : trim s = s -> s <> [] ->
  match reverse s with [] => False | c :: _ => is_whitespace c = false end.
Proof.
  intros Ht Hne. unfold trim, trim_end_matches in Ht.
  destruct (reverse s) as [|c r] eqn:E.
  { apply (f_equal reverse) in E. rewrite reverse_involutive in E. done. }
  rewrite <- Ht in E. rewrite reverse_involutive in E. by eapply drop_while_head.
Qed.

Lemma significant_line s t :
  key_token s -> trim (s ++ t) = s ++ t -> significant (s ++ t) = Some (s ++ t).
Proof.
  intros [[Hne _] Hh] Ht. unfold significant. rewrite Ht.
  destruct s as [|c s]; [done|]. simpl in *.
  destruct (c =? HASH) eqn:E; [apply Z.eqb_eq in E; congruence|done].
Qed.

Lemma kh_load_entry acc e :
  key_token e.1 -> token e.2 -> kh_load_line acc (e.1 ++ SP :: e.2) = bt_insert e.1 e.2 acc.
Proof.
  intros Hk [Hne Hf]. unfold kh_load_line. rewrite significant_line; [|done|].
  - unfold split_whitespace. destruct Hk as [[Hkne Hk] _].
    rewrite split_app_sep, split_no_sep by done. destruct (e.1), (e.2); done.
  - apply trim_ends; [apply Hk|]. right. rewrite reverse_cons.
    apply (Forall_reverse _ e.2) in Hf. destruct (reverse e.2) as [|c r] eqn:E.
    + apply (f_equal reverse) in E. rewrite reverse_involutive in E. done.
    + by inv Hf.
Qed.

(** Reading back rendered entries, for either file format. *)
Lemma load_rendered {line : str * str -> str} {load : btree -> str -> btree} m acc :
  Forall (fun e => Forall (fun c => c <> NL) (line e) /\ (forall r, line e <> r ++ [CR]) /\
                   forall acc, load acc (line e) = bt_insert e.1 e.2 acc) m ->
  fold_left load (lines (concat (map (fun e => line e ++ [NL]) m))) acc
  = fold_left (fun acc p => bt_insert p.1 p.2 acc) m acc.
Proof.
  intros H. revert acc. induction H as [|e m (Hnl & Hcr & Hl) Hm IH]; intros acc; simpl; [done|].
  rewrite <- app_assoc. simpl. rewrite lines_cons by done. simpl. by rewrite Hl, IH.
Qed.

Lemma fold_rebuild m : bt_sorted m ->
  fold_left (fun acc p => bt_insert p.1 p.2 acc) m [] = m.
Proof. intros H. by rewrite (bt_rebuild m []). Qed.

Lemma kh_render_load entries :
  kh_wf entries -> fold_left kh_load_line (lines (kh_render entries)) [] = entries.
Proof.
  intros [Hs Hf]. unfold kh_render, kh_header. rewrite <- app_assoc. cbn [app].
  rewrite lines_cons.
  - cbn [fold_left]. replace (kh_load_line [] _) with ([] : btree) by done.
    rewrite <- (fold_rebuild entries) at 2 by done.
    rewrite <- (load_rendered (line := fun e => e.1 ++ SP :: e.2) (load := kh_load_line)).
    + do 3 f_equal. apply map_ext. intros [h f]. unfold kh_render_entry. simpl.
      by rewrite <- app_assoc.
    + eapply Forall_impl; [exact Hf|]. intros e [Hk Ht]. split_and!.
      * destruct Hk as [[_ Hk] _], Ht as [_ Ht].
        rewrite Forall_app, Forall_cons. split_and!; [by apply no_ws_no_nl | done | by apply no_ws_no_nl].
      * intros r Hr. destruct Ht as [Hne Ht].
        destruct (exists_last Hne) as (t & c & Hc). rewrite Hc in Hr, Ht.
        change (SP :: t ++ [c]) with ((SP :: t) ++ [c]) in Hr.
        rewrite app_assoc in Hr. apply app_inj_tail in Hr as [_ ->].
        rewrite Forall_app, Forall_cons in Ht. destruct Ht as [_ [Ht _]]. discriminate.
      * intros acc. by apply kh_load_entry.
  - repeat (constructor; [by vm_compute|]). constructor.
  - intros r H. apply (f_equal (@reverse Z)) in H. rewrite reverse_snoc_cons in H.
    vm_compute in H. discriminate.
Qed.

Lemma ak_load_entry acc e :
  key_token e.1 -> comment_ok e.2 ->
  ak_load_line acc (e.1 ++ match e.2 with [] => [] | c => SP :: c end) = bt_insert e.1 e.2 acc.
Proof.
  intros Hk [Ht Hc]. pose proof Hk as [[_ Hf] _]. unfold ak_load_line.
  destruct (e.2) as [|c s] eqn:E.
  - rewrite app_nil_r. pose proof (significant_line e.1 [] Hk) as H.
    rewrite app_nil_r in H. rewrite H by (by apply trim_no_ws).
    by rewrite splitn2_ws_none.
  - rewrite significant_line; [|done|].
    + rewrite splitn2_ws_sep by done. change (default [] (Some (c :: s))) with (c :: s).
      by rewrite Ht.
    + apply trim_ends; [apply Hk|]. right. rewrite reverse_cons.
      pose proof (trimmed_last (c :: s) Ht ltac:(done)) as Hl.
      by destruct (reverse (c :: s)).
Qed.

Lemma ak_render_load fps :
  ak_wf fps -> fold_left ak_load_line (lines (ak_render fps)) [] = fps.
Proof.
  intros [Hs Hf]. unfold ak_render, ak_header. rewrite <- app_assoc. cbn [app].
  rewrite lines_cons.
  - cbn [fold_left]. replace (ak_load_line [] _) with ([] : btree) by done.
    rewrite <- (fold_rebuild fps) at 2 by done.
    rewrite <- (load_rendered (line := fun e => e.1 ++ match e.2 with [] => [] | c => SP :: c end)
                  (load := ak_load_line)).
    + do 3 f_equal. apply map_ext. intros [h f]. unfold ak_render_entry. simpl.
      by rewrite <- app_assoc.
    + eapply Forall_impl; [exact Hf|]. intros e [Hk Ht]. split_and!.
      * destruct Hk as [[_ Hk] _], Ht as [_ Hc]. rewrite Forall_app.
        split; [by apply no_ws_no_nl|]. destruct (e.2); [done|]. by constructor.
      * intros r Hr. destruct Ht as [Ht Hc].
        destruct (e.2) as [|c s] eqn:E.
        -- rewrite app_nil_r in Hr. destruct (token_last e.1 r CR (proj1 Hk)); [done|discriminate].
        -- pose proof (trimmed_last (c :: s) Ht ltac:(done)) as Hl.
           apply (f_equal (@reverse Z)) in Hr.
           rewrite reverse_snoc_cons, reverse_app, (reverse_cons _ SP) in Hr.
           destruct (reverse (c :: s)); [done|]. simpl in Hr. inv Hr.
      * intros acc. by apply ak_load_entry.
  - repeat (constructor; [by vm_compute|]). constructor.
  - intros r H. apply (f_equal (@reverse Z)) in H. rewrite reverse_snoc_cons in H.
    vm_compute in H. discriminate.
Qed.

Lemma bt_insert_wf (P : str * str -> Prop) k v m :
  bt_sorted m -> Forall P m -> P (k, v) -> bt_sorted (bt_insert k v m) /\ Forall P (bt_insert k v m).
Proof. intros. split; [by apply bt_insert_sorted | by apply bt_insert_Forall]. Qed.

(** What [save] leaves on disk. *)
Lemma save_lookup env d p text mode d' :
  fs_write env d p text = Ok d' ->
  exists m, set_mode env d' p mode !! p = Some (DiskFile text m) /\
            (env_chmod env = true -> m = mode).
Proof.
  unfold fs_write, set_mode. destruct (env_write env); simpl; [|discriminate].
  intros H. inv H. destruct (env_chmod env).
  - eexists. by rewrite lookup_alter_eq, lookup_insert_eq.
  - eexists. by rewrite lookup_insert_eq.
Qed.

Lemma trim_head s c t : trim s = c :: t -> is_whitespace c = false.
Proof.
  unfold trim, trim_end_matches. intros H.
  destruct (drop_while_suffix is_whitespace (reverse (drop_while is_whitespace s))) as (pre & Hp & _).
  apply (f_equal reverse) in Hp. rewrite reverse_app, reverse_involutive, H in Hp. simpl in Hp.
  by eapply drop_while_head.
Qed.

(** What one line adds is a well-formed entry. *)
Lemma kh_load_line_wf entries line : kh_wf entries -> kh_wf (kh_load_line entries line).
Proof.
  intros [Hs Hf]. unfold kh_load_line, significant.
  destruct (trim line) as [|c l] eqn:Et; [done|]. destruct (c =? HASH) eqn:Ec; [done|].
  apply Z.eqb_neq in Ec. pose proof (trim_head _ _ _ Et) as Hws.
  assert (Forall token (split_whitespace (c :: l))) as Htok.
  { unfold split_whitespace. apply Forall_forall. intros x Hx.
    apply list_elem_of_In, filter_In in Hx as [Hx Hne]. apply list_elem_of_In in Hx.
    pose proof (split_pieces is_whitespace (c :: l)) as Hp. rewrite Forall_forall in Hp.
    split; [by destruct x|]. by apply Hp. }
  assert (forall h fs, split_whitespace (c :: l) = h :: fs -> head h = Some c) as Hhead.
  { intros h fs. unfold split_whitespace. cbn [split]. rewrite Hws.
    destruct (split is_whitespace l); simpl; by intros [= <- _]. }
  destruct (split_whitespace (c :: l)) as [|host [|fp rest]]; [done|done|].
  apply Forall_cons in Htok as [Hh Htok]. apply Forall_cons in Htok as [Hfp _].
  apply (bt_insert_wf (fun e => key_token e.1 /\ token e.2)); [done|done|]. split; [|done].
  split; [done|]. cbn [fst]. rewrite (Hhead _ _ eq_refl). intros [= ->]. done.
Qed.

Lemma kh_load_wf env d path kh : kh_load env d path = Ok kh -> kh_wf (kh_entries kh) /\ kh_path kh = path.
Proof.
  unfold kh_load. destruct (d !! path) as [f|].
  - intros H. apply res_bind_Ok_inv in H as (_ & _ & [= <-]). split; [|done]. simpl.
    assert (kh_wf []) as Hwf by (split; constructor). revert Hwf. generalize ([] : btree).
    induction (lines (df_text f)) as [|line ls IH]; intros acc Hacc; [done|]. simpl.
    by apply IH, kh_load_line_wf.
  - intros [= <-]. split; [|done]. split; constructor.
Qed.

(** The table a [known_hosts] on disk stands for, and the key pinned for a host. *)
Definition kh_table (d : disk) (path : str) : btree :=
  match d !! path with Some f => fold_left kh_load_line (lines (df_text f)) [] | None => [] end.
Definition pinned_on (d : disk) (path host : str) : option str := bt_get host (kh_table d path).

Lemma kh_load_table env d path kh : kh_load env d path = Ok kh -> kh = MkKnownHosts path (kh_table d path).
Proof.
  unfold kh_load, kh_table. destruct (d !! path) as [f|]; [|by intros [= <-]].
  intros H. by apply res_bind_Ok_inv in H as (_ & _ & [= <-]).
Qed.

Lemma kh_saved env hp d d' kh :
  kh_wf (kh_entries kh) -> kh_save env hp d kh = Ok d' -> kh_table d' (kh_path kh) = kh_entries kh.
Proof.
  intros Hwf H. apply res_bind_Ok_inv in H as ([] & _ & H). apply res_bind_Ok_inv in H as (d1 & Hw & [= <-]).
  destruct (save_lookup _ _ _ _ 0x180 _ Hw) as (m & Hm & _). unfold kh_table, restrict_file. rewrite Hm.
  by apply kh_render_load.
Qed.

(** Saving and loading a well-formed table. *)
Lemma kh_save_load env hp d d' kh :
  kh_wf (kh_entries kh) -> env_read env = Ok tt -> kh_save env hp d kh = Ok d' ->
  kh_load env d' (kh_path kh) = Ok kh /\
  (env_chmod env = true -> df_mode <$> d' !! kh_path kh = Some 0x180).
Proof.
  intros Hwf Hr H. unfold kh_save in H.
  apply res_bind_Ok_inv in H as ([] & _ & H). apply res_bind_Ok_inv in H as (d1 & Hw & H).
  inv H. unfold restrict_file.
  destruct (save_lookup _ _ _ _ 0x180 _ Hw) as (m & Hm & Hc). split.
  - unfold kh_load. rewrite Hm, Hr. cbn [res_bind df_text].
    rewrite kh_render_load by done. by destruct kh.
  - intros Hch. rewrite Hm. simpl. by rewrite Hc.
Qed.

Lemma ak_load_ok env d path f :
  d !! path = Some f -> env_read env = Ok tt ->
  ak_load env d path = Ok (MkAuthorizedKeys path (fold_left ak_load_line (lines (df_text f)) [])).
Proof. intros Hd Hr. unfold ak_load. by rewrite Hd, Hr. Qed.

(** ** What the text of an [authorized_keys] lists *)

(** [fp] is the first word of a line: blanks may stand before it, a blank, the
    line's end or the file's after it; a line that starts with [#] lists nothing. *)
Definition text_lists (text fp : str) : Prop :=
  exists pre ws rest, text = pre ++ ws ++ fp ++ rest /\ (pre = [] \/ exists p, pre = p ++ [NL]) /\
    Forall (fun c => is_whitespace c = true /\ c <> NL) ws /\ key_token fp /\
    match rest with [] => True | c :: _ => is_whitespace c = true end.

(** The key a line adds. *)
Definition line_key (line : str) : option str :=
  match significant line with Some l => Some (fst (splitn2_ws l)) | None => None end.

Lemma splitn2_ws_inv s a o :
  splitn2_ws s = (a, o) -> Forall (fun c => is_whitespace c = false) a /\
    exists rest, s = a ++ rest /\ match rest with [] => True | c :: _ => is_whitespace c = true end.
Proof.
  revert a o. induction s as [|c s IH]; simpl; intros a o.
  { intros [= <- <-]. split; [done|by exists []]. }
  destruct (is_whitespace c) eqn:Hc.
  { intros [= <- <-]. split; [done|by exists (c :: s)]. }
  destruct (splitn2_ws s) as [a' o'] eqn:E. intros [= <- <-]. destruct (IH a' o' eq_refl) as (Ha & rest & -> & Hr).
  split; [by constructor|by exists rest].
Qed.

Lemma drop_while_app p ws t : Forall (fun c => p c = true) ws ->
  match t with [] => True | c :: _ => p c = false end -> drop_while p (ws ++ t) = t.
Proof. induction 1 as [|c ws Hc _ IH]; intros Ht; simpl; [by apply drop_while_id|]. rewrite Hc. auto. Qed.

Lemma trim_end_suffix s : exists ws, s = trim_end_matches is_whitespace s ++ ws /\ Forall (fun c => is_whitespace c = true) ws.
Proof.
  unfold trim_end_matches. destruct (drop_while_suffix is_whitespace (reverse s)) as (pre & Hp & Hws).
  exists (reverse pre). split; [|by apply Forall_reverse].
  rewrite <- reverse_app, <- Hp. by rewrite reverse_involutive.
Qed.

Lemma token_head fp rest c s : token fp -> fp ++ rest = c :: s -> is_whitespace c = false.
Proof. intros [Hne Hf] E. destruct fp as [|d fp]; [done|]. injection E as <- _. by inv Hf. Qed.

Lemma app_token_prefix (t ws fp rest : str) :
  token fp -> Forall (fun c => is_whitespace c = true) ws -> t ++ ws = fp ++ rest -> exists r, t = fp ++ r /\ r ++ ws = rest.
Proof.
  intros [_ Hf] Hws E. apply app_eq_app in E as (l & [[-> ->]|[-> ->]]); [by exists l|].
  destruct l as [|c l]; [exists []; by rewrite !app_nil_r|]. exfalso.
  rewrite Forall_app, Forall_cons in Hf. rewrite Forall_app, Forall_cons in Hws. destruct Hf as (_ & Hf & _), Hws as ((Hw & _) & _).
  congruence.
Qed.

Lemma line_key_spec line fp :
  line_key line = Some fp <->
  exists ws rest, line = ws ++ fp ++ rest /\ Forall (fun c => is_whitespace c = true) ws /\ key_token fp /\
    match rest with [] => True | c :: _ => is_whitespace c = true end.
Proof.
  unfold line_key, significant. split.
  - destruct (drop_while_suffix is_whitespace line) as (ws & Hline & Hws).
    destruct (trim_end_suffix (drop_while is_whitespace line)) as (ws' & Hend & Hws'). fold (trim line) in Hend.
    destruct (trim line) as [|c l] eqn:Et; [done|]. destruct (c =? HASH) eqn:Ec; [done|].
    destruct (splitn2_ws (c :: l)) as [a o] eqn:Es. intros [= <-].
    apply splitn2_ws_inv in Es as (Ha & rest & Hcl & Hr). exists ws, (rest ++ ws'). split_and!; [| |split|].
    + rewrite Hline at 1. f_equal. rewrite Hend, Hcl. by rewrite <- app_assoc.
    + done.
    + split; [|done]. intros ->. simpl in Hcl. subst rest. pose proof (trim_head _ _ _ Et). congruence.
    + destruct a as [|d a]; [done|]. injection Hcl as <- _. intros [= ->]. done.
    + destruct rest; [by destruct Hws'|done].
  - intros (ws & rest & -> & Hws & Hk & Hr). pose proof Hk as [Htok Hhash].
    assert (drop_while is_whitespace (ws ++ fp ++ rest) = fp ++ rest) as Hd.
    { apply drop_while_app; [done|]. destruct (fp ++ rest) eqn:E; [done|]. by eapply token_head. }
    unfold trim. rewrite Hd. destruct (trim_end_suffix (fp ++ rest)) as (ws' & Hend & Hws'). symmetry in Hend.
    apply (app_token_prefix _ _ _ _ Htok Hws') in Hend as (r & -> & Hrest).
    destruct (fp ++ r) as [|c l] eqn:E; [by destruct fp; [destruct Htok|]|].
    assert (head fp = Some c) as Hc by (destruct fp; [by destruct Htok|]; by injection E as <- _).
    destruct (c =? HASH) eqn:Ec; [apply Z.eqb_eq in Ec; congruence|]. rewrite <- E. f_equal.
    destruct Htok as [_ Hf]. destruct r as [|d r]; [by rewrite app_nil_r, splitn2_ws_none|].
    subst rest. by rewrite splitn2_ws_sep.
Qed.

(** A carriage return before the line break is a blank like others. *)
Lemma line_key_strip_cr line : line_key (strip_cr line) = line_key line.
Proof.
  unfold strip_cr. destruct (reverse line) as [|c r] eqn:E; [done|]. destruct (c =? CR) eqn:Ec; [|done].
  apply Z.eqb_eq in Ec as ->. assert (line = reverse r ++ [CR]) as ->.
  { rewrite <- (reverse_involutive line), E. apply reverse_cons. }
  apply option_eq. intros fp. rewrite !line_key_spec. split.
  - intros (ws & rest & -> & Hws & Hk & Hr). exists ws, (rest ++ [CR]). rewrite <- !app_assoc. split_and!; [done..|].
    by destruct rest.
  - intros (ws & rest & Hl & Hws & Hk & Hr). destruct (decide (rest = [])) as [->|Hne].
    + rewrite app_nil_r in Hl. destruct Hk as [[Hne Hf] _]. destruct (exists_last Hne) as (fp' & c & ->).
      rewrite app_assoc in Hl. apply app_inj_tail in Hl as [_ <-].
      rewrite Forall_app, Forall_cons in Hf. by destruct Hf as (_ & Hf & _).
    + destruct (exists_last Hne) as (rest' & c & ->). rewrite !app_assoc in Hl. apply app_inj_tail in Hl as [Hl <-].
      exists ws, rest'. rewrite Hl, <- app_assoc. split_and!; [done..|]. by destruct rest'.
Qed.

(** A text is a line, or a line, its break and the rest. *)
Lemma text_cases (text : str) :
  Forall (fun c => c <> NL) text \/
  exists line t, text = line ++ NL :: t /\ Forall (fun c => c <> NL) line.
Proof.
  induction text as [|c text IH]; [by left|]. destruct (decide (c = NL)) as [->|Hc]; [by right; exists [], text|].
  destruct IH as [H|(line & t & -> & H)]; [left; by constructor|]. right. exists (c :: line), t. split; [done|by constructor].
Qed.

Lemma lines_last s : Forall (fun c => c <> NL) s -> lines s = match s with [] => [] | _ => [s] end.
Proof.
  intros H. assert (forall acc, lines_acc acc s = match reverse acc ++ s with [] => [] | l => [l] end) as Ha.
  { induction H as [|c s Hc _ IH]; intros acc; simpl.
    - rewrite app_nil_r. destruct acc as [|c acc]; [done|]. rewrite reverse_cons. by destruct (reverse acc).
    - destruct (c =? NL) eqn:E; [by apply Z.eqb_eq in E|]. rewrite IH. by rewrite reverse_cons, <- app_assoc. }
  unfold lines. rewrite Ha. by destruct s.
Qed.

Lemma no_break_blanks ws : Forall (fun c => c <> NL) ws -> Forall (fun c => is_whitespace c = true) ws ->
  Forall (fun c => is_whitespace c = true /\ c <> NL) ws.
Proof. intros H1 H2. apply Forall_and. by split. Qed.

Lemma text_lists_line s fp : Forall (fun c => c <> NL) s -> text_lists s fp <-> line_key s = Some fp.
Proof.
  intros Hs. rewrite line_key_spec. split.
  - intros (pre & ws & rest & -> & [->|[p ->]] & Hws & Hk & Hr).
    + exists ws, rest. split_and!; [done| |done|done]. eapply Forall_impl; [exact Hws|]. by intros c [? _].
    + rewrite !Forall_app, Forall_cons in Hs. by destruct Hs as ((_ & ? & _) & _).
  - intros (ws & rest & -> & Hws & Hk & Hr). exists [], ws, rest. apply Forall_app in Hs as [Hs _].
    split_and!; [done|by left|by apply no_break_blanks|done|done].
Qed.

Lemma text_lists_break line t fp :
  Forall (fun c => c <> NL) line -> text_lists (line ++ NL :: t) fp <-> line_key line = Some fp \/ text_lists t fp.
Proof.
  intros Hl. rewrite line_key_spec. split.
  - intros (pre & ws & rest & E & [->|[p ->]] & Hws & Hk & Hr).
    + left. simpl in E. rewrite app_assoc in E. assert (Forall (fun c => c <> NL) (ws ++ fp)) as Hn.
      { apply Forall_app. split; [eapply Forall_impl; [exact Hws|]; by intros c [_ ?]|]. apply no_ws_no_nl, Hk. }
      symmetry in E. apply app_eq_app in E as (l & [[Hw Hrest]|[Hw Hrest]]).
      * destruct l as [|c l].
        -- exists ws, []. rewrite !app_nil_r in *. split_and!; [done| |done|done].
           eapply Forall_impl; [exact Hws|]. by intros c [? _].
        -- injection Hrest as <- _. rewrite Hw, Forall_app, Forall_cons in Hn. by destruct Hn as (_ & ? & _).
      * exists ws, l. rewrite app_assoc. split_and!; [done| |done|by destruct l; [|subst rest]].
        eapply Forall_impl; [exact Hws|]. by intros c [? _].
    + right. rewrite <- (app_assoc p) in E. simpl in E. symmetry in E.
      apply app_eq_app in E as (l & [[Hw Hrest]|[Hw Hrest]]).
      * destruct l as [|c l]; [injection Hrest as ->; exists [], ws, rest; split_and!; [done|by left|done..]|].
        injection Hrest as <- Hrest. exists (l ++ [NL]), ws, rest. rewrite <- app_assoc. simpl.
        split_and!; [done|right; by exists l|done..].
      * destruct l as [|c l]; [injection Hrest as <-; exists [], ws, rest; split_and!; [done|by left|done..]|].
        injection Hrest as <- _. rewrite Hw, Forall_app, Forall_cons in Hl. by destruct Hl as (_ & ? & _).
  - intros [(ws & rest & -> & Hws & Hk & Hr)|(pre & ws & rest & -> & Hp & Hws & Hk & Hr)].
    + exists [], ws, (rest ++ NL :: t). apply Forall_app in Hl as [Hl _]. rewrite <- !app_assoc.
      split_and!; [done|by left|by apply no_break_blanks|done|by destruct rest].
    + exists (line ++ NL :: pre), ws, rest. rewrite <- app_assoc. simpl. split_and!; [done| |done..].
      right. destruct Hp as [->|[p ->]]; [by exists line|]. exists (line ++ NL :: p). by rewrite <- app_assoc.
Qed.

Lemma text_lists_lines text fp : text_lists text fp <-> Exists (fun l => line_key l = Some fp) (lines text).
Proof.
  enough (forall n text, (length text < n)%nat -> text_lists text fp <-> Exists (fun l => line_key l = Some fp) (lines text))
    as H by (by apply (H (S (length text))); lia).
  clear text. induction n as [|n IH]; intros text Hn; [lia|].
  destruct (text_cases text) as [Hs|(line & t & -> & Hl)].
  - rewrite text_lists_line, lines_last by done. destruct text as [|c text].
    + rewrite Exists_nil. by split.
    + rewrite Exists_cons, Exists_nil. tauto.
  - rewrite text_lists_break by done. unfold lines. rewrite lines_acc_line by done. cbn [reverse app].
    rewrite Exists_cons, line_key_strip_cr, <- IH; [done|]. rewrite length_app in Hn. simpl in Hn. lia.
Qed.

Lemma bt_contains_insert k v k' m : bt_contains k' (bt_insert k v m) = str_eqb k' k || bt_contains k' m.
Proof. unfold bt_contains. rewrite bt_get_insert. by destruct (str_eqb k' k). Qed.

Lemma ak_load_line_contains acc line fp :
  bt_contains fp (ak_load_line acc line) = true <-> line_key line = Some fp \/ bt_contains fp acc = true.
Proof.
  unfold ak_load_line, line_key. destruct (significant line) as [l|]; [|split; [by right|by intros [?|?]]].
  destruct (splitn2_ws l) as [k o]. rewrite bt_contains_insert, orb_true_iff, str_eqb_eq. simpl. split; intros [H|H]; auto; left; congruence.
Qed.

(** What a loaded [authorized_keys] contains is what its text lists. *)
Lemma ak_loaded_contains text fp :
  bt_contains fp (fold_left ak_load_line (lines text) []) = true <-> text_lists text fp.
Proof.
  rewrite text_lists_lines. assert (forall acc, bt_contains fp (fold_left ak_load_line (lines text) acc) = true <->
    Exists (fun l => line_key l = Some fp) (lines text) \/ bt_contains fp acc = true) as H; [|rewrite H; by intuition].
  induction (lines text) as [|l ls IH]; intros acc; simpl.
  - rewrite Exists_nil. tauto.
  - rewrite IH, ak_load_line_contains, Exists_cons. tauto.
Qed.

Lemma bt_contains_keys k m : bt_contains k m = true <-> k ∈ m.*1.
Proof.
  unfold bt_contains. induction m as [|[k' v] m IH]; simpl; [split; [done|by intros ?%not_elem_of_nil]|].
  rewrite elem_of_cons, <- IH. destruct (str_eqb k k') eqn:E.
  - apply str_eqb_eq in E. tauto.
  - split; [by right|]. intros [->|?]; [|done]. by rewrite (proj2 (str_eqb_eq k' k') eq_refl) in E.
Qed.

Lemma bt_empty_keys m : m = [] <-> forall k, bt_contains k m = false.
Proof.
  split; [by intros ->|]. destruct m as [|[k v] m]; [done|]. intros H. specialize (H k). unfold bt_contains in H. simpl in H.
  by rewrite (proj2 (str_eqb_eq k k) eq_refl) in H.
Qed.

(** A successful [cmd_authorize] is read back by the next load. *)
Lemma cmd_authorize_spec env hp d path fp comment d' :
  env_read env = Ok tt ->
  cmd_authorize env hp d path fp comment = Ok d' ->
  exists fp' ak, parse_fingerprint fp = Ok fp' /\ ak_load env d path = Ok ak /\
    (ak_wf (bt_insert fp' comment (ak_fingerprints ak)) ->
     ak_load env d' path = Ok (MkAuthorizedKeys path (bt_insert fp' comment (ak_fingerprints ak)))).
Proof.
  intros Hr H. unfold cmd_authorize in H. apply res_bind_Ok_inv in H as (fp' & Hp & H).
  apply res_bind_Ok_inv in H as (ak & Hl & H). exists fp', ak. split_and!; [done..|].
  intros Hwf. unfold ak_authorize, ak_save in H. simpl in H.
  apply res_bind_Ok_inv in H as ([] & _ & H). apply res_bind_Ok_inv in H as (d1 & Hw & H).
  assert (ak_path ak = path) as Hpath.
  { unfold ak_load in Hl. destruct (d !! path); [|by inv Hl].
    rewrite Hr in Hl. simpl in Hl. by inv Hl. }
  rewrite Hpath in *. inv H. destruct (save_lookup _ _ _ _ 0x1a4 _ Hw) as (m & Hm & _).
  erewrite ak_load_ok by done. cbn [df_text]. by rewrite ak_render_load.
Qed.

(** ** Theorems *)

(** C28: pinned host keys survive a restart.  Saving a well-formed
    [known_hosts] table and loading the file gives back exactly that table,
    so [get] answers the same for every host; the file is mode 0600 whenever
    the chmod takes effect. *)
Theorem known_hosts_roundtrip env hp d d' kh :
  kh_wf (kh_entries kh) -> env_read env = Ok tt -> kh_save env hp d kh = Ok d' ->
  kh_load env d' (kh_path kh) = Ok kh /\
  (env_chmod env = true -> df_mode <$> d' !! kh_path kh = Some 0x180).
Proof. apply kh_save_load. Qed.

Definition good_env : disk_env := DiskEnv (Ok tt) (Ok tt) (Ok tt) None true 0x1a4.

Lemma known_hosts_roundtrip_witness :
  let kh := kh_insert (kh_insert (MkKnownHosts (lit "kh") []) (lit "h:9001") (lit "SHA256:abcdef0123456789"))
                      (lit "a:1") (lit "SHA256:0123456789") in
  exists d', kh_save good_env true ∅ kh = Ok d' /\ kh_load good_env d' (lit "kh") = Ok kh.
Proof.
  intros kh. eexists. split; [reflexivity|].
  eapply (known_hosts_roundtrip good_env true ∅ _ kh); [|reflexivity|reflexivity].
  split.
  - apply bt_insert_sorted, bt_insert_sorted. constructor.
  - repeat constructor; done.
Defined.

(** C29: an authorized key stays authorized.  After [cmd_authorize] succeeds, a
    freshly loaded server authorizes the given key and every key that was
    authorized before, provided the key is one word and the comment one
    trimmed line. *)
Theorem authorize_persists env hp d d' path fp comment ak :
  env_read env = Ok tt -> ak_load env d path = Ok ak -> ak_wf (ak_fingerprints ak) ->
  key_token (trim fp) -> comment_ok comment ->
  cmd_authorize env hp d path fp comment = Ok d' ->
  exists ak', ak_load env d' path = Ok ak' /\ ak_contains ak' (trim fp) = true /\
    (forall k, ak_contains ak' k = str_eqb k (trim fp) || ak_contains ak k).
Proof.
  intros Hr Hl [Hs Hf] Hk Hc H.
  destruct (cmd_authorize_spec _ _ _ _ _ _ _ Hr H) as (fp' & ak0 & Hp & Hl0 & Hload).
  rewrite Hl in Hl0. inv Hl0.
  assert (fp' = trim fp) as ->.
  { unfold parse_fingerprint in Hp. destruct (negb _ || _); by inv Hp. }
  assert (ak_wf (bt_insert (trim fp) comment (ak_fingerprints ak0))) as Hwf
    by by apply (bt_insert_wf (fun e => key_token e.1 /\ comment_ok e.2)).
  eexists. split; [by apply Hload|]. unfold ak_contains, bt_contains. simpl.
  split; [rewrite bt_get_insert; by rewrite (proj2 (str_eqb_eq _ _) eq_refl)|].
  intros k. rewrite bt_get_insert. by destruct (str_eqb k (trim fp)).
Qed.

Lemma authorize_persists_witness :
  exists d' ak', cmd_authorize good_env true ∅ (lit "ak") (lit " SHA256:aaaaaaaaaa") (lit "alice") = Ok d' /\
    ak_load good_env d' (lit "ak") = Ok ak' /\ ak_contains ak' (lit "SHA256:aaaaaaaaaa") = true.
Proof.
  assert (exists d', cmd_authorize good_env true ∅ (lit "ak") (lit " SHA256:aaaaaaaaaa")
                       (lit "alice") = Ok d') as [d' Hd] by (eexists; reflexivity).
  destruct (authorize_persists good_env true ∅ d' (lit "ak") (lit " SHA256:aaaaaaaaaa") (lit "alice")
              (MkAuthorizedKeys (lit "ak") [])) as (ak' & H1 & H2 & _).
  - reflexivity.
  - vm_compute; reflexivity.
  - split; constructor.
  - vm_compute. repeat constructor; done.
  - split; [vm_compute; reflexivity | repeat constructor; done].
  - exact Hd.
  - exists d', ak'. split; [exact Hd|]. split; [exact H1|exact H2].
Defined.

(** [authorize] does not check what it writes.  [parse_fingerprint] accepts
    a key with inner blanks, which the reloaded server does not authorize (it
    authorizes the first word instead), and a comment with a line break
    authorizes the key on its second line. *)
Theorem authorize_unchecked_input :
  (exists fp d' ak', parse_fingerprint fp = Ok fp /\
     cmd_authorize good_env true ∅ (lit "ak") fp [] = Ok d' /\
     ak_load good_env d' (lit "ak") = Ok ak' /\
     ak_contains ak' fp = false /\ ak_contains ak' (lit "SHA256:aa") = true) /\
  (exists d' ak', cmd_authorize good_env true ∅ (lit "ak") (lit "SHA256:aaaaaaaaaa")
       (lit "alice" ++ [NL] ++ lit "SHA256:evil") = Ok d' /\
     ak_load good_env d' (lit "ak") = Ok ak' /\
     ak_contains ak' (lit "SHA256:evil") = true).
Proof.
  split.
  - exists (lit "SHA256:aa bbbbbbbb"). do 2 eexists. split_and!; try reflexivity; vm_compute; reflexivity.
  - do 2 eexists. split_and!; try reflexivity; vm_compute; reflexivity.
Qed.
