(* ===== verification/Os.v ===== *)
(** * The server's environment

    Paths as [std::path] sees them, and the calls a server task makes to things
    it shares with the rest of the world: the kernel, its session's handle
    table and byte counters, the write-lock stripes and the QUIC stream it
    answers on.  Each call is an event of [sysE]; its answer is whatever the
    environment gives. *)

From S2P Require Import Prelude Prog Text Status.

(** ** std::path *)

(** [std::path::Component] *)
Inductive comp : Type := RootDir | CurDir | ParentDir | Normal (s : str).

#[export] Instance comp_eq_dec : EqDecision comp.
Proof. solve_decision. Defined.

Abbreviation path := (list comp).

(** [Path::parent] *)
Definition parent (p : path) : option path :=
  match last p with
  | None | Some RootDir => None
  | Some _ => Some (removelast p)
  end.

(** [Path::file_name] *)
Definition file_name (p : path) : option str :=
  match last p with Some (Normal s) => Some s | _ => None end.

(** [Path::strip_prefix] *)
Fixpoint strip_prefix (pre p : path) : option path :=
  match pre, p with
  | [], _ => Some p
  | c :: pre', d :: p' => if decide (c = d) then strip_prefix pre' p' else None
  | _ :: _, [] => None
  end.

(** [Path::starts_with] *)
Definition path_starts_with (p pre : path) : bool :=
  match strip_prefix pre p with Some _ => true | None => false end.

(** [PathBuf::push] of a single normal component. *)
Definition push (p : path) (c : str) : path := p ++ [Normal c].

(** [CString::new(bytes).is_ok()]: no interior NUL. *)
Definition no_nul (s : str) : bool := negb (contains_char 0 s).
Definition path_no_nul (p : path) : bool :=
  forallb (fun c => match c with Normal s => no_nul s | _ => true end) p.

(** A path of normal components beneath [root]. *)
Definition beneath (root p : path) : Prop := exists cs : list str, p = root ++ map Normal cs.

(** ** File metadata and libc constants (Linux) *)

(** [std::fs::Metadata]; times are nanoseconds relative to the epoch. *)
Record metadata := Metadata {
  m_dev : Z; m_ino : Z; m_mode : Z; m_nlink : Z; m_uid : Z; m_gid : Z; m_len : Z;
  m_accessed : io Z; m_modified : io Z
}.

(** [m.file_type().is_symlink()]: the S_IFMT bits are S_IFLNK. *)
Definition is_symlink (m : metadata) : bool := Z.land (m_mode m) 0xF000 =? 0xA000.

Definition O_RDONLY : Z := 0.
Definition O_WRONLY : Z := 1.
Definition O_RDWR : Z := 2.
Definition O_CREAT : Z := 0x40.
Definition O_EXCL : Z := 0x80.
Definition O_TRUNC : Z := 0x200.
Definition O_APPEND : Z := 0x400.
Definition O_DIRECTORY : Z := 0x10000.
Definition O_NOFOLLOW : Z := 0x20000.
Definition O_CLOEXEC : Z := 0x80000.
Definition O_PATH : Z := 0x200000.
Definition RESOLVE_NO_MAGICLINKS : Z := 0x02.
Definition RESOLVE_BENEATH : Z := 0x08.
Definition AT_REMOVEDIR : Z := 0x200.
Definition UTIME_OMIT : Z := 0x3ffffffe.

Definition perm_mask : Z := 0x1ff. (* 0o777 *)

Record timespec := Timespec { tv_sec : Z; tv_nsec : Z }.

Record statvfs_t := MkStatvfs {
  f_blocks : Z; f_bfree : Z; f_bavail : Z; f_files : Z; f_ffree : Z;
  f_bsize : Z; f_namemax : Z; f_frsize : Z
}.

(** A directory entry of [read_dir], already past [flatten]: its name and the
    result of [entry.metadata()]. *)
Record dir_item := DirItem { di_name : str; di_meta : io metadata }.

(** A retained handle ([struct OpenHandle] of handles.rs); the file is its
    descriptor. *)
Record OpenHandle := MkOpenHandle {
  oh_path : path; oh_flags : Z; oh_file : Z; oh_ino_key : Z
}.

(** ** Events *)

Inductive sysE : Type -> Type :=
(* path-based queries of std::fs *)
| SymlinkMetadata (p : path) : sysE (io metadata)
| MetadataOf (p : path) : sysE (io metadata)
| Exists (p : path) : sysE bool
| Canonicalize (p : path) : sysE (io path)
| ReadDir (p : path) : sysE (io (list dir_item))
| Statvfs (p : path) : sysE (io statvfs_t)
(* descriptors *)
| Open (p : path) (flags mode : Z) : sysE (io Z)
| Openat2 (dirfd : Z) (rel : path) (flags mode resolve : Z) : sysE (io Z)
| Close (fd : Z) : sysE unit
| Mkdirat (dirfd : Z) (name : str) (mode : Z) : sysE (io unit)
| Fchmodat (dirfd : Z) (name : str) (mode : Z) : sysE (io unit)
| Unlinkat (dirfd : Z) (name : str) (flag : Z) : sysE (io unit)
| Symlinkat (target : str) (dirfd : Z) (name : str) : sysE (io unit)
| Linkat (sdir : Z) (sname : str) (ddir : Z) (dname : str) : sysE (io unit)
| Renameat (odir : Z) (oname : str) (ndir : Z) (nname : str) : sysE (io unit)
| Readlinkat (dirfd : Z) (name : str) (bufsize : Z) : sysE (io str)
| FileMetadata (fd : Z) : sysE (io metadata)
| SetLen (fd size : Z) : sysE (io unit)
| SetPermissions (fd mode : Z) : sysE (io unit)
| FchmodProc (fd mode : Z) : sysE (io unit)
| UtimensProc (fd : Z) (atime mtime : timespec) : sysE (io unit)
| SeekStart (fd offset : Z) : sysE (io Z)
| ReadFile (fd count : Z) : sysE (io bytes)
| WriteAll (fd : Z) (data : bytes) : sysE (io unit)
| SyncAll (fd : Z) : sysE (io unit)
| SyncData (fd : Z) : sysE (io unit)
(* the session's handle table and counters *)
| TryInsert (p : path) (flags fd : Z) : sysE (option Z)
| HandleRemove (id : Z) : sysE (option OpenHandle)
| GetFile (id : Z) : sysE (option Z)
| GetWriteCtx (id : Z) : sysE (option (Z * Z * Z))
| RecordRx (n : Z) : sysE unit
| RecordTx (n : Z) : sysE unit
(* crate::writelock *)
| LockStripe (i : Z) : sysE unit
| UnlockStripe (i : Z) : sysE unit
(* the send side of the stream: [write_frame], [finish] *)
| SendFrame (b : bytes) : sysE (anyhow unit)
| Finish : sysE (anyhow unit).

Abbreviation sys A := (prog sysE A).

(** A call of the server. *)
Abbreviation sc e := (@call sysE _ e) (only parsing).

(** A [File] that goes out of scope is closed on every exit of the scope. *)
Definition with_file {A} (fd : Z) (body : sys A) : sys A :=
  r <- body ;; sc (Close fd) ;;; Ret r.

(** ** Path lemmas *)

Lemma strip_prefix_app pre rest : strip_prefix pre (pre ++ rest) = Some rest.
Proof. induction pre as [|c pre IH]; simpl; [done|]. by rewrite decide_True. Qed.

Lemma strip_prefix_Some pre p rest : strip_prefix pre p = Some rest -> p = pre ++ rest.
Proof.
  revert p. induction pre as [|c pre IH]; intros p; simpl; [by intros [= ->]|].
  destruct p as [|d p]; [done|]. case_decide; [|done]. subst. intros H. f_equal. by apply IH.
Qed.

Lemma parent_snoc p c : parent (p ++ [Normal c]) = Some p.
Proof. unfold parent. rewrite last_snoc. f_equal. apply removelast_last. Qed.

Lemma file_name_snoc p c : file_name (p ++ [Normal c]) = Some c.
Proof. unfold file_name. by rewrite last_snoc. Qed.

Lemma beneath_root root : beneath root root.
Proof. exists []. by rewrite app_nil_r. Qed.

Lemma beneath_push root p c : beneath root p -> beneath root (push p c).
Proof.
  intros [cs ->]. exists (cs ++ [c]). unfold push. by rewrite map_app, app_assoc.
Qed.

(** The parent of a path beneath the root is beneath it, the root excepted. *)
Lemma beneath_parent root p q :
  beneath root p -> p <> root -> parent p = Some q -> beneath root q.
Proof.
  intros [cs ->] Hne. destruct cs as [|c cs' _] using rev_ind.
  - rewrite app_nil_r in Hne. done.
  - rewrite map_app, app_assoc. simpl. rewrite parent_snoc. intros [= <-]. by exists cs'.
Qed.

#[export] Hint Resolve beneath_root beneath_push : quicfs.
