(* ===== verification/Sanitize.v ===== *)
(** * Path confinement

    [src/server/src/sanitize.rs] and [sync_parent_dir] of
    [src/server/src/ops/mod.rs], for the Linux build ([cfg(unix)],
    [target_os = "linux"]). *)

From S2P Require Import Prelude Prog Text Status Os.

(** ** resolve *)

Definition MAX_PATH_LEN : Z := 4096.
Definition MAX_PATH_DEPTH : Z := 128.

(** The [bail!] messages of [resolve]. *)
Inductive resolve_err : Type :=
| PathTooLong | PathNullByte | PathTraversal | ComponentTooLong | PathTooDeep | PathEscapes.

(** The component loop. *)
Fixpoint collect_components (parts : list str) : result resolve_err (list str) :=
  match parts with
  | [] => Ok []
  | p :: rest =>
      if str_eqb p [] || str_eqb p (lit ".") then collect_components rest
      else if str_eqb p (lit "..") then Err PathTraversal
      else if 255 <? str_len p then Err ComponentTooLong
      else let? cs := collect_components rest in Ok (p :: cs)
  end.

(** Input validation and component normalisation. *)
Definition normalize (client_path : str) : result resolve_err (list str) :=
  if MAX_PATH_LEN <? str_len client_path then Err PathTooLong
  else if contains_char 0 client_path then Err PathNullByte
  else
    let rel := trim_start_matches is_slash client_path in
    let? cs := collect_components (split is_slash rel) in
    if MAX_PATH_DEPTH <? zlen cs then Err PathTooDeep else Ok cs.

(** The intermediate symlink walk. *)
Fixpoint walk (walking : path) (components : list str) : sys (result resolve_err path) :=
  match components with
  | [] => Ret (Ok walking)
  | [c] => Ret (Ok (push walking c))
  | c :: rest =>
      let walking := push walking c in
      m <- sc (SymlinkMetadata walking) ;;
      match m with
      | Ok m => if is_symlink m then Ret (Err PathEscapes) else walk walking rest
      | Err _ => walk walking rest
      end
  end.

(** [pub fn resolve] *)
Definition resolve (root : path) (client_path : str) : sys (result resolve_err path) :=
  match normalize client_path with
  | Err e => Ret (Err e)
  | Ok components =>
      joined <-? walk root components ;;
      found <- sc (Exists joined) ;;
      if found then
        c <- sc (Canonicalize joined) ;;
        let canonical := match c with Ok p => p | Err _ => joined end in
        r <- sc (Canonicalize root) ;;
        let root_canonical := match r with Ok p => p | Err _ => root end in
        if negb (path_starts_with canonical root_canonical) then Ret (Err PathEscapes)
        else Ret (Ok joined)
      else Ret (Ok joined)
  end.

(** ** Confined opens *)

Definition io_invalid_input : io_error := io_error_of_kind InvalidInput.

(** [fn open_plain] *)
Definition open_plain (resolved : path) (flags mode : Z) : sys (io Z) :=
  if path_no_nul resolved then sc (Open resolved (Z.lor flags O_CLOEXEC) mode)
  else Ret (Err io_invalid_input).

(** [fn openat2_beneath] *)
Definition openat2_beneath (root resolved : path) (flags mode : Z) : sys (io Z) :=
  match strip_prefix root resolved with
  | None => Ret (Err (io_error_of_kind PermissionDenied))
  | Some rel =>
      let rel_os := match rel with [] => [CurDir] | _ => rel end in
      if negb (path_no_nul rel_os) then Ret (Err io_invalid_input)
      else if negb (path_no_nul root) then Ret (Err io_invalid_input)
      else
        dirfd <-? sc (Open root (Z.lor (Z.lor O_PATH O_DIRECTORY) O_CLOEXEC) 0) ;;
        let how_flags := Z.lor flags O_CLOEXEC in
        let how_mode := if has_bits flags O_CREAT then mode else 0 in
        let how_resolve := Z.lor RESOLVE_BENEATH RESOLVE_NO_MAGICLINKS in
        ret <- sc (Openat2 dirfd rel_os how_flags how_mode how_resolve) ;;
        sc (Close dirfd) ;;;
        Ret ret
  end.

(** [pub fn open_confined]: openat2, or a plain open on a kernel without it. *)
Definition open_confined (root resolved : path) (flags mode : Z) : sys (io Z) :=
  r <- openat2_beneath root resolved flags mode ;;
  match r with
  | Err e => if bool_decide (ioe_raw e = Some ENOSYS) then open_plain resolved flags mode
             else Ret (Err e)
  | Ok fd => Ret (Ok fd)
  end.

(** [pub fn fsync_dir_confined] *)
Definition fsync_dir_confined (root dir : path) : sys (io unit) :=
  let flags := Z.lor (Z.lor O_RDONLY O_DIRECTORY) O_NOFOLLOW in
  f <-? open_confined root dir flags 0 ;;
  with_file f (sc (SyncAll f)).

(** ** Confined namespace operations *)

(** [fn confined_parent] *)
Definition confined_parent (root resolved : path) : sys (io (Z * str)) :=
  match parent resolved, file_name resolved with
  | None, _ => Ret (Err io_invalid_input)
  | _, None => Ret (Err io_invalid_input)
  | Some par, Some name =>
      if negb (no_nul name) then Ret (Err io_invalid_input)
      else
        dir <-? open_confined root par (Z.lor O_PATH O_DIRECTORY) 0 ;;
        Ret (Ok (dir, name))
  end.

(** [pub fn mkdir_confined] *)
Definition mkdir_confined (root resolved : path) (mode : Z) : sys (io unit) :=
  dn <-? confined_parent root resolved ;;
  let m := Z.land mode perm_mask in
  with_file dn.1
    (_ <-? sc (Mkdirat dn.1 dn.2 m) ;;
     sc (Fchmodat dn.1 dn.2 m)).

(** [pub fn remove_confined] *)
Definition remove_confined (root resolved : path) (is_dir : bool) : sys (io unit) :=
  dn <-? confined_parent root resolved ;;
  with_file dn.1 (sc (Unlinkat dn.1 dn.2 (if is_dir then AT_REMOVEDIR else 0))).

(** [pub fn symlink_confined] *)
Definition symlink_confined (root link : path) (target : str) : sys (io unit) :=
  dn <-? confined_parent root link ;;
  with_file dn.1
    (if no_nul target then sc (Symlinkat target dn.1 dn.2) else Ret (Err io_invalid_input)).

(** [pub fn link_confined] *)
Definition link_confined (root src dst : path) : sys (io unit) :=
  sd <-? confined_parent root src ;;
  with_file sd.1
    (dd <-? confined_parent root dst ;;
     with_file dd.1 (sc (Linkat sd.1 sd.2 dd.1 dd.2))).

(** [pub fn rename_confined] *)
Definition rename_confined (root old new : path) : sys (io unit) :=
  od <-? confined_parent root old ;;
  with_file od.1
    (nd <-? confined_parent root new ;;
     with_file nd.1 (sc (Renameat od.1 od.2 nd.1 nd.2))).

(** [pub fn readlink_confined] *)
Definition readlink_confined (root resolved : path) : sys (io str) :=
  dn <-? confined_parent root resolved ;;
  with_file dn.1 (sc (Readlinkat dn.1 dn.2 MAX_PATH_LEN)).

(** [fn sync_parent_dir] of ops/mod.rs: best effort. *)
Definition sync_parent_dir (root resolved : path) : sys unit :=
  if decide (resolved = root) then Ret tt
  else match parent resolved with
       | None => Ret tt
       | Some par => fsync_dir_confined root par ;;; Ret tt
       end.

(** ** What a normalized path is *)

(** A component [resolve] lets through. *)
Definition safe_component (c : str) : Prop :=
  c <> [] /\ c <> lit "." /\ c <> lit ".." /\ str_len c <= 255 /\
  Forall (fun d => d <> SLASH) c.

(** [/]-joined components: the canonical spelling of a relative path. *)
Definition join (cs : list str) : str := concat (map (fun c => SLASH :: c) cs).

(** Reference semantics of a client path: the pieces between slashes, with the
    empty ones and the dots gone. *)
Definition spec_components (p : str) : list str :=
  List.filter (fun c => negb (str_eqb c [] || str_eqb c (lit "."))) (split is_slash p).

(** ** Lemmas about [normalize] *)

Lemma collect_components_ok parts cs :
  collect_components parts = Ok cs ->
  cs = List.filter (fun c => negb (str_eqb c [] || str_eqb c (lit "."))) parts /\
  Forall (fun c => c <> [] /\ c <> lit "." /\ c <> lit ".." /\ str_len c <= 255) cs.
Proof.
  revert cs. induction parts as [|p parts IH]; intros cs; simpl; [intros [= <-]; auto|].
  destruct (str_eqb p [] || str_eqb p (lit ".")) eqn:E1; simpl; [apply IH|].
  destruct (str_eqb p (lit "..")) eqn:E2; [discriminate|].
  destruct (255 <? str_len p) eqn:E3; [discriminate|].
  intros H. apply res_bind_Ok_inv in H as (cs' & Hc & H). inv H.
  destruct (IH _ Hc) as [-> HF]. split; [done|]. constructor; [|done].
  apply orb_false_iff in E1 as [E0 E1]. apply Z.ltb_ge in E3.
  unfold str_eqb in *. apply bool_decide_eq_false in E0, E1, E2. done.
Qed.

Lemma collect_components_complete parts :
  Forall (fun c => c <> lit ".." /\ str_len c <= 255) parts ->
  is_ok (collect_components parts) = true.
Proof.
  induction 1 as [|p parts [Hd Hl] _ IH]; simpl; [done|].
  destruct (str_eqb p [] || _); [done|].
  destruct (str_eqb p (lit "..")) eqn:E2; [by apply str_eqb_eq in E2|].
  destruct (255 <? str_len p) eqn:E3; [apply Z.ltb_lt in E3; lia|].
  by destruct (collect_components parts).
Qed.

Lemma split_trim_start p s :
  exists n, split p s = replicate n [] ++ split p (drop_while p s).
Proof.
  induction s as [|c s [n IH]]; simpl; [by exists 0%nat|].
  destruct (p c) eqn:E; [|exists 0%nat; simpl; by rewrite E].
  exists (S n). by rewrite IH.
Qed.

Lemma filter_replicate_nil n (l : list str) :
  List.filter (fun c => negb (str_eqb c [] || str_eqb c (lit "."))) (replicate n [] ++ l)
  = List.filter (fun c => negb (str_eqb c [] || str_eqb c (lit "."))) l.
Proof. induction n; simpl; auto. Qed.

Lemma List_filter_Forall {A} (f : A -> bool) (P : A -> Prop) l :
  Forall P l -> Forall P (List.filter f l).
Proof. induction 1; simpl; [done|]. case_match; [by constructor|done]. Qed.

Lemma normalize_ok p cs :
  normalize p = Ok cs ->
  cs = spec_components p /\ Forall safe_component cs /\ Forall (fun c => contains_char 0 c = false) cs /\
  zlen cs <= MAX_PATH_DEPTH /\ str_len p <= MAX_PATH_LEN.
Proof.
  unfold normalize. destruct (MAX_PATH_LEN <? str_len p) eqn:E1; [discriminate|].
  destruct (contains_char 0 p) eqn:E0; [discriminate|].
  intros H. apply res_bind_Ok_inv in H as (cs' & Hc & H).
  destruct (MAX_PATH_DEPTH <? zlen cs') eqn:E2; [discriminate|]. inv H.
  apply Z.ltb_ge in E1, E2. apply collect_components_ok in Hc as [Hcs HF].
  assert (cs = spec_components p) as Hspec.
  { unfold spec_components. destruct (split_trim_start is_slash p) as [n Hn].
    rewrite Hn, filter_replicate_nil. done. }
  split; [done|]. split_and!; [| |done|done].
  - rewrite Forall_forall in HF |- *. intros c Hin. destruct (HF c Hin) as (?&?&?&?).
    split_and!; [done..|]. rewrite Hcs in Hin. apply list_elem_of_In, filter_In in Hin as [Hin _].
    pose proof (split_pieces is_slash (trim_start_matches is_slash p)) as Hp.
    rewrite Forall_forall in Hp. apply list_elem_of_In in Hin. specialize (Hp c Hin).
    eapply Forall_impl; [exact Hp|]. intros d Hd ->. discriminate.
  - rewrite Hspec. apply List_filter_Forall. apply contains_char_false in E0. clear -E0.
    induction E0 as [|c s Hc Hs IH]; simpl; [by repeat constructor|].
    destruct (is_slash c); [by constructor|].
    destruct (split is_slash s) as [|q qs]; [constructor; [|done]|].
    + cbn [contains_char existsb]. rewrite orb_false_r. by apply Z.eqb_neq.
    + inv IH. constructor; [|done]. cbn [contains_char existsb]. rewrite orb_false_iff. split; [|done]. by apply Z.eqb_neq.
Qed.

Lemma collect_ok_bad parts :
  is_ok (collect_components parts) = true ->
  Forall (fun c => c <> lit ".." /\ str_len c <= 255) parts.
Proof.
  induction parts as [|p parts IH]; simpl; [done|].
  destruct (str_eqb p [] || str_eqb p (lit ".")) eqn:E1.
  - intros H. constructor; [|auto]. apply orb_true_iff in E1.
    destruct E1 as [E|E]; apply str_eqb_eq in E; subst; split; done.
  - destruct (str_eqb p (lit "..")) eqn:E2; [done|].
    destruct (255 <? str_len p) eqn:E3; [done|]. intros H. constructor.
    + apply Z.ltb_ge in E3. split; [|done]. unfold str_eqb in E2. by apply bool_decide_eq_false in E2.
    + apply IH. by destruct (collect_components parts).
Qed.

Lemma Forall_replicate_nil n (l : list str) :
  Forall (fun c => c <> lit ".." /\ str_len c <= 255) (replicate n [] ++ l) <->
  Forall (fun c => c <> lit ".." /\ str_len c <= 255) l.
Proof.
  rewrite Forall_app. split; [tauto|]. intros H. split; [|done].
  apply Forall_replicate. done.
Qed.

Lemma split_join cs :
  Forall (Forall (fun d => d <> SLASH)) cs ->
  split is_slash (join cs) = [] :: cs.
Proof.
  intros H. assert (Forall (Forall (fun d => is_slash d = false)) cs) as H'.
  { eapply Forall_impl; [exact H|]. intros c Hc. eapply Forall_impl; [exact Hc|].
    intros d Hd. by apply Z.eqb_neq. }
  clear H. unfold join. induction H' as [|c cs Hc Hcs IH]; [done|].
  cbn [map concat app]. cbn [split]. change (is_slash SLASH) with true. cbn iota. f_equal.
  clear -Hc IH. induction Hc as [|d c Hd Hc IHc]; [exact IH|].
  cbn [app split]. rewrite Hd, IHc. done.
Qed.

Lemma normalize_accepts p :
  is_ok (normalize p) = true <->
     str_len p <= MAX_PATH_LEN /\ contains_char 0 p = false /\
     Forall (fun c => c <> lit ".." /\ str_len c <= 255) (split is_slash p) /\
     zlen (spec_components p) <= MAX_PATH_DEPTH.
Proof.
  destruct (split_trim_start is_slash p) as [n Hn]. split.
  - intros H. destruct (normalize p) as [cs|] eqn:E; [|done].
    destruct (normalize_ok _ _ E) as (Hcs & _ & _ & Hd & Hl).
    unfold normalize in E. destruct (_ <? str_len p); [done|].
    destruct (contains_char 0 p) eqn:E0; [done|].
    apply res_bind_Ok_inv in E as (cs' & Hc & _).
    split_and!; [done|done| |by rewrite <- Hcs].
    rewrite Hn, Forall_replicate_nil. apply collect_ok_bad.
    unfold trim_start_matches in Hc. by rewrite Hc.
  - intros (Hl & H0 & Hp & Hd). unfold normalize.
    destruct (_ <? str_len p) eqn:E; [apply Z.ltb_lt in E; lia|]. rewrite H0.
    rewrite Hn, Forall_replicate_nil in Hp. apply collect_components_complete in Hp.
    unfold trim_start_matches.
    destruct (collect_components (split is_slash (drop_while is_slash p))) as [cs|] eqn:Ec; [|done].
    simpl. apply collect_components_ok in Ec as [Hcs _]. unfold spec_components in Hd.
    rewrite Hn, filter_replicate_nil, <- Hcs in Hd.
    destruct (_ <? zlen cs) eqn:E2; [apply Z.ltb_lt in E2; lia|done].
Qed.

(** ** Theorems *)

(** C7: [resolve]'s lexical gate.  A client path passes exactly when it is at
    most 4096 bytes, has no NUL byte, no [..] piece, no piece above 255 bytes
    and at most 128 components; the components kept are the pieces between
    slashes other than the empty ones and [.], and none of them is empty, a
    dot name, contains a slash or a NUL. *)
Theorem normalize_spec p :
  (is_ok (normalize p) = true <->
     str_len p <= MAX_PATH_LEN /\ contains_char 0 p = false /\
     Forall (fun c => c <> lit ".." /\ str_len c <= 255) (split is_slash p) /\
     zlen (spec_components p) <= MAX_PATH_DEPTH) /\
  (forall cs, normalize p = Ok cs ->
     cs = spec_components p /\ Forall safe_component cs /\
     Forall (fun c => contains_char 0 c = false) cs).
Proof.
  split; [apply normalize_accepts|].
  intros cs H. by destruct (normalize_ok _ _ H) as (?&?&?&_).
Qed.

(** Normalization is idempotent: a normalized path, written out again with
    single slashes, resolves to itself, so resolving twice changes nothing. *)
Theorem normalize_idempotent p cs :
  normalize p = Ok cs -> str_len (join cs) <= MAX_PATH_LEN -> normalize (join cs) = Ok cs.
Proof.
  intros H Hlen. destruct (normalize_ok _ _ H) as (_ & Hsafe & Hnul & Hd & _).
  assert (Forall (Forall (fun d => d <> SLASH)) cs) as Hsl.
  { eapply Forall_impl; [exact Hsafe|]. by intros c (?&?&?&?&?). }
  pose proof (split_join cs Hsl) as Hsplit.
  assert (spec_components (join cs) = cs) as Hspec.
  { unfold spec_components. rewrite Hsplit. cbn [List.filter].
    change (negb (str_eqb [] [] || str_eqb [] (lit "."))) with false. cbn iota.
    clear -Hsafe. induction Hsafe as [|c cs (H1&H2&_) _ IH]; simpl; [done|].
    rewrite IH. destruct (str_eqb c [] || str_eqb c (lit ".")) eqn:E; [|done].
    apply orb_true_iff in E as [E|E]; by apply str_eqb_eq in E. }
  destruct (normalize (join cs)) as [cs'|e] eqn:E.
  - destruct (normalize_ok _ _ E) as (-> & _). by rewrite Hspec.
  - exfalso. assert (is_ok (normalize (join cs)) = true) as Hok; [|by rewrite E in Hok].
    apply normalize_accepts. split_and!; [done| | |by rewrite Hspec].
    + clear -Hnul. induction Hnul as [|c cs Hc _ IH]; [done|].
      unfold join in *. cbn [map concat]. rewrite contains_char_app, IH. simpl.
      by rewrite Hc.
    + rewrite Hsplit. constructor; [done|].
      eapply Forall_impl; [exact Hsafe|]. by intros c (?&?&?&?&?).
Qed.

Lemma normalize_idempotent_witness :
  normalize (lit "//a/./b//c") = Ok [lit "a"; lit "b"; lit "c"] /\
  normalize (join [lit "a"; lit "b"; lit "c"]) = Ok [lit "a"; lit "b"; lit "c"].
Proof.
  split; [reflexivity|].
  apply (normalize_idempotent (lit "//a/./b//c")); [reflexivity|]. vm_compute. discriminate.
Defined.
