(* ===== verification/WriteLock.v ===== *)
(** * Write-lock stripes and inode keys

    [stripe_for] of [src/server/src/writelock.rs], [ino_key_of] and
    [path_hash_key] of [src/server/src/handles.rs]. *)

From S2P Require Import Prelude Text Status Os.

Definition STRIPES : Z := 1024.

(** [u64::rotate_left(32)] *)
Definition rotate_left32 (x : Z) : Z := Z.lor (wrap64 (Z.shiftl x 32)) (Z.shiftr x 32).

(** [stripe_for]: the index of the stripe in [STRIPES_ARR]. *)
Definition stripe_for (key : Z) : Z :=
  let lo := wrap64 (wrap64 key * 0x9E3779B97F4A7C15) in
  let hi := wrap64 (wrap64 (Z.shiftr key 64) * 0xD1B54A32D192ED03) in
  let mixed := Z.lxor lo (rotate_left32 hi) in
  mixed mod STRIPES.

Section InoKey.
(** The hash of [std::hash::DefaultHasher] over a path: a 64-bit value. *)
Variable path_hash : path -> Z.

(** [fn path_hash_key] *)
Definition path_hash_key (p : path) : Z := Z.lor (Z.shiftl 1 127) (path_hash p).

(** [fn ino_key_of], given the answer of [file.metadata()]. *)
Definition ino_key_of (m : io metadata) (p : path) : Z :=
  match m with
  | Ok m => Z.lor (Z.shiftl (m_dev m) 64) (m_ino m)
  | Err _ => path_hash_key p
  end.
End InoKey.

(** ** Theorems *)

(** Lock striping serializes writers of one file.  Every key selects one
    of the 1024 stripes; two descriptors of the same device and inode get the
    same key and therefore the same stripe, while different files get
    different keys; and a fallback key (no metadata) never equals the key of a
    file on a device number below 2^63. *)
Theorem stripe_serializes (path_hash : path -> Z) :
  (forall p, in_width 64 (path_hash p)) ->
  (forall key, 0 <= stripe_for key < STRIPES) /\
  (forall m m' p p',
     in_width 64 (m_dev m) -> in_width 64 (m_ino m) ->
     in_width 64 (m_dev m') -> in_width 64 (m_ino m') ->
     (ino_key_of path_hash (Ok m) p = ino_key_of path_hash (Ok m') p' <->
      m_dev m = m_dev m' /\ m_ino m = m_ino m')) /\
  (forall m p p' e, 0 <= m_dev m < 2 ^ 63 -> in_width 64 (m_ino m) ->
     ino_key_of path_hash (Ok m) p <> ino_key_of path_hash (Err e) p').
Proof.
  unfold in_width. intros Hh. split_and!.
  - intros key. unfold stripe_for. apply Z.mod_pos_bound. done.
  - intros m m' p p' H1 H2 H3 H4. simpl. rewrite !lor_shiftl_add by lia.
    split; [|intros [-> ->]; done]. intros H. lia.
  - intros m p p' e H1 H2. simpl. unfold path_hash_key. specialize (Hh p').
    rewrite (lor_shiftl_add (m_dev m)) by lia.
    rewrite lor_shiftl_add by lia. lia.
Qed.

Lemma stripe_serializes_witness :
  let m := Metadata 1 42 0 1 0 0 0 (Ok 0) (Ok 0) in
  (forall p : path, in_width 64 ((fun _ => 7) p)) /\
  0 <= stripe_for (ino_key_of (fun _ => 7) (Ok m) []) < STRIPES.
Proof.
  intros m. assert (forall p : path, in_width 64 ((fun _ => 7) p)) as H by (intros p; unfold in_width; lia).
  split; [exact H|]. apply (proj1 (stripe_serializes (fun _ => 7) H)).
Defined.
