(* ===== verification/Handles.v ===== *)
(** * The per-session handle table

    [src/server/src/handles.rs].  Every operation takes the table's mutex for
    its whole body, so an operation is one step on the table; a session's
    history is a list of them ([table_op]), whatever tasks issued them. *)

From S2P Require Import Prelude Text Status Os WriteLock.

(** [struct HandleTable] *)
Record HandleTable := MkHandleTable {
  ht_counter : Z; ht_max_handles : Z; ht_inner : gmap Z OpenHandle
}.

(** [with_limit]; [uuid] is the 128-bit value of [Uuid::new_v4()]. *)
Definition epoch_of (uuid : Z) : Z := Z.land (wrap64 uuid) 0xFFFFFFFF.

Definition with_limit (uuid max_handles : Z) : HandleTable :=
  MkHandleTable (Z.lor (wrap64 (Z.shiftl (epoch_of uuid) 32)) 1) max_handles ∅.

Section Ops.
Variable path_hash : path -> Z.

(** [try_insert]; [m] is [file.metadata()]. *)
Definition try_insert (t : HandleTable) (p : path) (flags fd : Z) (m : io metadata) :
    result str Z * HandleTable :=
  if ht_max_handles t <=? Z.of_nat (size (ht_inner t)) then (Err (lit "too many open handles"), t)
  else
    let ino_key := ino_key_of path_hash m p in
    let id := ht_counter t in
    (Ok id, MkHandleTable (wrap64 (ht_counter t + 1)) (ht_max_handles t)
              (<[id := MkOpenHandle p flags fd ino_key]> (ht_inner t))).
End Ops.

(** [remove] *)
Definition ht_remove (t : HandleTable) (id : Z) : option OpenHandle * HandleTable :=
  (ht_inner t !! id, MkHandleTable (ht_counter t) (ht_max_handles t) (delete id (ht_inner t))).

Definition get_file (t : HandleTable) (id : Z) : option Z := oh_file <$> ht_inner t !! id.
Definition get_write_ctx (t : HandleTable) (id : Z) : option (Z * Z * Z) :=
  (fun h => (oh_file h, oh_flags h, oh_ino_key h)) <$> ht_inner t !! id.
Definition get_path (t : HandleTable) (id : Z) : option path := oh_path <$> ht_inner t !! id.
Definition ht_len (t : HandleTable) : Z := Z.of_nat (size (ht_inner t)).
Definition ht_is_empty (t : HandleTable) : bool := ht_len t =? 0.

(** ** Histories *)

Inductive table_op : Type :=
| OpInsert (p : path) (flags fd : Z) (m : io metadata)
| OpRemove (id : Z).

Section History.
Variable path_hash : path -> Z.

(** The table and the ids handed out, oldest first. *)
Fixpoint history (t : HandleTable) (ops : list table_op) : HandleTable * list Z :=
  match ops with
  | [] => (t, [])
  | OpInsert p flags fd m :: ops =>
      match try_insert path_hash t p flags fd m with
      | (Ok id, t') => let '(t'', ids) := history t' ops in (t'', id :: ids)
      | (Err _, t') => history t' ops
      end
  | OpRemove id :: ops => history (snd (ht_remove t id)) ops
  end.

(** The ids a counter hands out: consecutive, modulo 2^64. *)
Definition ids_from (c : Z) (n : nat) : list Z :=
  map (fun i => wrap64 (c + Z.of_nat i)) (seq 0 n).

Lemma ids_from_S c n : ids_from c (S n) = wrap64 c :: ids_from (wrap64 (c + 1)) n.
Proof.
  unfold ids_from. rewrite <- cons_seq, <- seq_shift. simpl. rewrite Z.add_0_r, map_map. f_equal.
  apply map_ext. intros i. unfold wrap. rewrite Zplus_mod_idemp_l. f_equal. lia.
Qed.

(** The two outcomes of an insertion. *)
Lemma try_insert_inv t p flags fd m r t' :
  try_insert path_hash t p flags fd m = (r, t') ->
  ht_max_handles t' = ht_max_handles t /\
  match r with
  | Err _ => t' = t
  | Ok id =>
      id = ht_counter t /\ ht_counter t' = wrap64 (ht_counter t + 1) /\
      Z.of_nat (size (ht_inner t)) < ht_max_handles t /\
      ht_inner t' = <[id := MkOpenHandle p flags fd (ino_key_of path_hash m p)]> (ht_inner t)
  end.
Proof.
  unfold try_insert. destruct (_ <=? _) eqn:E; intros [= <- <-]; [done|]. apply Z.leb_gt in E. done.
Qed.

Lemma history_ids t ops :
  in_width 64 (ht_counter t) ->
  snd (history t ops) = ids_from (ht_counter t) (length (snd (history t ops))).
Proof.
  revert t. induction ops as [|[p flags fd m|id] ops IH]; intros t Hc; cbn [history]; [done| |].
  - destruct (try_insert _ _ _ _ _ _) as [[id|e] t'] eqn:E; apply try_insert_inv in E as [_ E].
    + destruct E as (-> & Hc' & _). specialize (IH t'). rewrite Hc' in IH.
      destruct (history t' ops) as [t'' ids]. simpl in *. rewrite ids_from_S, wrap_small by done.
      f_equal. apply IH, wrap_range. lia.
    + subst t'. by apply IH.
  - by apply (IH (snd (ht_remove t id))).
Qed.

(** Open handles were issued. *)
Lemma history_dom t ops id :
  is_Some (ht_inner (fst (history t ops)) !! id) ->
  is_Some (ht_inner t !! id) \/ id ∈ snd (history t ops).
Proof.
  revert t. induction ops as [|[p flags fd m|j] ops IH]; intros t; cbn [history]; [by left| |].
  - destruct (try_insert _ _ _ _ _ _) as [[i|e] t'] eqn:E; apply try_insert_inv in E as [_ E].
    + destruct E as (-> & _ & _ & Hin'). specialize (IH t').
      destruct (history t' ops) as [t'' ids]. simpl in *. intros H.
      destruct (IH H) as [Hin|Hin]; [|right; by right]. rewrite Hin' in Hin.
      destruct (decide (ht_counter t = id)) as [->|Hne]; [right; by left|].
      left. by rewrite lookup_insert_ne in Hin.
    + subst t'. by apply IH.
  - intros H. destruct (IH _ H) as [Hin|Hin]; [|by right]. left. simpl in Hin.
    destruct Hin as [h Hh]. apply lookup_delete_Some in Hh as [_ Hh]. by exists h.
Qed.

(** There are never more than the limit. *)
Lemma history_bounded t ops :
  ht_len t <= Z.max 0 (ht_max_handles t) ->
  ht_len (fst (history t ops)) <= Z.max 0 (ht_max_handles t).
Proof.
  unfold ht_len. revert t.
  induction ops as [|[p flags fd m|j] ops IH]; intros t Hs; cbn [history]; [done| |].
  - destruct (try_insert _ _ _ _ _ _) as [[i|e] t'] eqn:E; apply try_insert_inv in E as [Hm E].
    + destruct E as (-> & _ & Hlt & Hin). specialize (IH t'). rewrite Hm, Hin in IH.
      destruct (history t' ops) as [t'' ids]. simpl in *. apply IH.
      rewrite map_size_insert. destruct (ht_inner t !! ht_counter t); simpl; lia.
    + subst t'. by apply IH.
  - apply (IH (snd (ht_remove t j))). simpl. rewrite map_size_delete.
    destruct (ht_inner t !! j); simpl; lia.
Qed.
End History.

(** ** Epochs *)

Lemma epoch_range uuid : 0 <= epoch_of uuid < 2 ^ 32.
Proof.
  unfold epoch_of. change 0xFFFFFFFF with (Z.ones 32). rewrite Z.land_ones by lia.
  by apply Z.mod_pos_bound.
Qed.

Lemma with_limit_counter uuid max : ht_counter (with_limit uuid max) = epoch_of uuid * 2 ^ 32 + 1.
Proof.
  pose proof (epoch_range uuid) as He. simpl. rewrite wrap_small.
  - apply lor_shiftl_add; lia.
  - unfold in_width. rewrite Z.shiftl_mul_pow2 by lia. lia.
Qed.

Lemma ids_from_epoch e n id :
  0 <= e < 2 ^ 32 -> (Z.of_nat n < 2 ^ 32) -> id ∈ ids_from (e * 2 ^ 32 + 1) n -> id / 2 ^ 32 = e.
Proof.
  intros He Hn. unfold ids_from. intros [i [-> Hi]]%list_elem_of_fmap.
  apply elem_of_seq in Hi. rewrite wrap_small by (unfold in_width; lia).
  symmetry. apply (Z.div_unique _ _ _ (1 + Z.of_nat i)); lia.
Qed.

Lemma ids_from_NoDup e n :
  0 <= e < 2 ^ 32 -> Z.of_nat n < 2 ^ 32 -> NoDup (ids_from (e * 2 ^ 32 + 1) n).
Proof.
  intros He Hn. unfold ids_from. apply NoDup_fmap_2_strong; [|apply NoDup_seq].
  intros i j Hi%elem_of_seq Hj%elem_of_seq H.
  rewrite !wrap_small in H by (unfold in_width; lia). lia.
Qed.

(** ** Theorems *)

(** C21: handle ids over a session's life.  After any history of opens and
    closes with fewer than 2^32 successful opens, no id was handed out twice,
    every id carries the session's epoch in its high 32 bits, every handle in
    the table was handed out by it, and no more than [max_handles] are open. *)
Theorem handle_ids_unique path_hash uuid max ops :
  0 <= max ->
  let '(t, ids) := history path_hash (with_limit uuid max) ops in
  Z.of_nat (length ids) < 2 ^ 32 ->
  NoDup ids /\
  (forall id, id ∈ ids -> id / 2 ^ 32 = epoch_of uuid) /\
  (forall id, is_Some (ht_inner t !! id) -> id ∈ ids) /\
  ht_len t <= max.
Proof.
  intros Hmax. pose proof (epoch_range uuid) as He.
  pose proof (history_ids path_hash (with_limit uuid max) ops) as Hids.
  pose proof (history_dom path_hash (with_limit uuid max) ops) as Hdom.
  pose proof (history_bounded path_hash (with_limit uuid max) ops) as Hb.
  rewrite with_limit_counter in Hids. destruct (history _ _ ops) as [t ids]. cbn [fst snd] in *.
  specialize (Hids ltac:(unfold in_width; lia)). intros Hn.
  set (n := length ids) in *. clearbody n. subst ids. split_and!.
  - by apply ids_from_NoDup.
  - intros id. by apply ids_from_epoch.
  - intros id Hid. destruct (Hdom id Hid) as [H|H]; [|done]. simpl in H. rewrite lookup_empty in H. by destruct H.
  - transitivity (Z.max 0 max); [|lia]. apply Hb. unfold ht_len. simpl ht_inner. rewrite map_size_empty. lia.
Qed.

Lemma handle_ids_unique_witness :
  let ops := [OpInsert [] 0 5 (Ok (Metadata 1 2 0 1 0 0 0 (Ok 0) (Ok 0))); OpRemove (7 * 2 ^ 32 + 1);
              OpInsert [] 0 5 (Err (IoError Other None))] in
  let '(t, ids) := history (fun _ => 9) (with_limit 7 1) ops in
  ids = [7 * 2 ^ 32 + 1; 7 * 2 ^ 32 + 2] /\ NoDup ids.
Proof.
  intros ops. pose proof (handle_ids_unique (fun _ => 9) 7 1 ops ltac:(lia)) as H.
  assert (snd (history (fun _ => 9) (with_limit 7 1) ops) = [7 * 2 ^ 32 + 1; 7 * 2 ^ 32 + 2]) as E
    by (vm_compute; reflexivity).
  destruct (history _ _ ops) as [t ids]. simpl in E. subst ids.
  split; [reflexivity|]. apply H. reflexivity.
Defined.

(** C22: a handle of an earlier connection never reaches another file.  An id
    issued by a session with a different epoch (fewer than 2^32 opens each)
    misses every lookup of this session's table, and releasing it changes
    nothing. *)
Theorem stale_handle_misses path_hash uuid max ops uuid' max' ops' :
  epoch_of uuid <> epoch_of uuid' ->
  Z.of_nat (length (snd (history path_hash (with_limit uuid max) ops))) < 2 ^ 32 ->
  Z.of_nat (length (snd (history path_hash (with_limit uuid' max') ops'))) < 2 ^ 32 ->
  forall id, id ∈ snd (history path_hash (with_limit uuid max) ops) ->
  let t := fst (history path_hash (with_limit uuid' max') ops') in
  get_file t id = None /\ get_write_ctx t id = None /\ get_path t id = None /\
  ht_remove t id = (None, t).
Proof.
  intros Hne Hn Hn' id Hid t. assert (ht_inner t !! id = None) as Hmiss.
  { apply eq_None_not_Some. intros Hs. apply history_dom in Hs as [Hs|Hs].
    { simpl in Hs. rewrite lookup_empty in Hs. by destruct Hs. }
    rewrite history_ids in Hid, Hs by (rewrite with_limit_counter; unfold in_width;
      pose proof (epoch_range uuid); pose proof (epoch_range uuid'); lia).
    rewrite with_limit_counter in Hid, Hs.
    apply ids_from_epoch in Hid; [|apply epoch_range|done].
    apply ids_from_epoch in Hs; [|apply epoch_range|done]. congruence. }
  unfold get_file, get_write_ctx, get_path, ht_remove. rewrite Hmiss.
  split_and!; [done..|]. rewrite delete_id by done. by destruct t.
Qed.

Lemma stale_handle_misses_witness :
  let old := snd (history (fun _ => 9) (with_limit 7 4) [OpInsert [] 0 5 (Err (IoError Other None))]) in
  let t := fst (history (fun _ => 9) (with_limit 8 4) [OpInsert [] 0 6 (Err (IoError Other None))]) in
  old = [7 * 2 ^ 32 + 1] /\ get_file t (7 * 2 ^ 32 + 1) = None.
Proof.
  split; [reflexivity|].
  apply (stale_handle_misses (fun _ => 9) 7 4 [OpInsert [] 0 5 (Err (IoError Other None))]
           8 4 [OpInsert [] 0 6 (Err (IoError Other None))]);
    [vm_compute; discriminate|reflexivity|reflexivity|vm_compute; left].
Defined.

(** Opening and releasing one file [n] times. *)
Fixpoint open_close (t : HandleTable) (n : nat) : list table_op :=
  match n with
  | O => []
  | S n => OpInsert [] 0 3 (Err (IoError Other None)) :: OpRemove (ht_counter t)
           :: open_close (MkHandleTable (wrap64 (ht_counter t + 1)) (ht_max_handles t) ∅) n
  end.

Lemma history_open_close path_hash c max n :
  0 < max -> in_width 64 c ->
  history path_hash (MkHandleTable c max ∅) (open_close (MkHandleTable c max ∅) n) =
  (MkHandleTable (wrap64 (c + Z.of_nat n)) max ∅, ids_from c n).
Proof.
  intros Hmax. revert c. induction n as [|n IH]; intros c Hc.
  - simpl. by rewrite Z.add_0_r, wrap_small.
  - cbn [open_close history ht_counter ht_max_handles]. unfold try_insert. cbn [ht_inner ht_max_handles].
    rewrite map_size_empty. destruct (max <=? Z.of_nat 0) eqn:E; [apply Z.leb_le in E; lia|].
    cbn [ht_remove snd ht_counter ht_max_handles ht_inner]. rewrite delete_insert_eq, delete_empty.
    rewrite IH by (apply wrap_range; lia). rewrite ids_from_S, (wrap_small 64 c) by done.
    f_equal. f_equal. unfold wrap. rewrite Zplus_mod_idemp_l. f_equal. lia.
Qed.

(** The limit on open handles does not bound the handles of a session's
    life.  A client that opens and closes one file 2^32 times, never holding
    more than one handle, gets an id in the next epoch: its first handles carry
    [epoch], the last one [epoch + 1]. *)
Theorem counter_carries_into_epoch path_hash uuid max :
  0 < max -> epoch_of uuid < 2 ^ 32 - 1 ->
  let t := with_limit uuid max in
  exists ops, Forall (fun op => match op with OpInsert p _ fd _ => p = [] /\ fd = 3 | _ => True end) ops /\
  exists ids, snd (history path_hash t ops) = ids ++ [(epoch_of uuid + 1) * 2 ^ 32].
Proof.
  intros Hmax He t. pose proof (epoch_range uuid) as Hr.
  exists (open_close t (Z.to_nat (2 ^ 32))). split.
  { generalize t. induction (Z.to_nat (2 ^ 32)) as [|n IH]; intros t'; [constructor|].
    constructor; [done|]. constructor; [done|]. apply IH. }
  assert (t = MkHandleTable (epoch_of uuid * 2 ^ 32 + 1) max ∅) as ->.
  { unfold t. rewrite <- with_limit_counter with (max := max). done. }
  rewrite history_open_close by (unfold in_width; lia). simpl snd.
  replace (Z.to_nat (2 ^ 32)) with (Z.to_nat (2 ^ 32 - 1) + 1)%nat by lia.
  unfold ids_from. rewrite seq_app, map_app. eexists. f_equal. simpl. f_equal.
  rewrite wrap_small; [|unfold in_width]; rewrite Z2Nat.id by lia; lia.
Qed.

Lemma counter_carries_into_epoch_witness :
  exists ops ids, snd (history (fun _ => 9) (with_limit 7 1) ops) = ids ++ [8 * 2 ^ 32].
Proof.
  destruct (counter_carries_into_epoch (fun _ => 9) 7 1) as (ops & _ & ids & H);
    [lia|vm_compute; reflexivity|]. by exists ops, ids.
Defined.
