(* ===== verification/Confine.v ===== *)
(** * The server's obligations

    [srv_spec legacy root] is the contract between a server task and its
    environment.  It says, call by call, what the task owes:

    - a file is opened only by an [openat2] of safe components beneath an anchor
      on the export root, with [RESOLVE_BENEATH | RESOLVE_NO_MAGICLINKS]; the
      anchor is a plain [open] of the root itself;
    - a change of the name space names one safe component of a directory so
      opened, and a change of a file acts on a descriptor so opened or retained
      in the handle table; [fchmodat], the one change that follows a link in its
      last component, is made only on the name, and with the mode, this task made
      there with [mkdirat];
    - permission bits are masked to 0o777;
    - a query by path names a path lexically beneath the root.  Queries change
      nothing, but some follow links: what a link a client swaps in after
      [resolve] looked may show them is not restricted here;
    - a descriptor is closed only by its owner, and a write holds the stripe of
      the file's inode key;

    and what it may rely on: descriptors returned by the kernel are not already
    in use, and the handle table hands out only descriptors that were put there.
    Everything else about the answers is unconstrained, with one choice: on a
    kernel with [openat2] ([legacy = false], Linux 5.6 or later) no open answers
    ENOSYS; on any kernel ([legacy = true]) one may, and a task may open a path
    lexically beneath the root plainly ([open_plain]).  A task keeps both
    contracts, so it opens plainly only after an ENOSYS. *)

From S2P Require Import Prelude Prog Text Status Os Sanitize WriteLock.

(** ** Ghost state *)

(** What a descriptor was opened as: an anchor on the export root, or a file
    beneath it; and the last name made in it with [mkdirat]. *)
Inductive fd_kind : Type := Anchor | Beneath | Maker (name : str) (mode : Z).

Record ghost := Ghost {
  g_own : gmap Z fd_kind;  (** descriptors this task owns *)
  g_shared : gset Z;       (** confined descriptors borrowed from the handle table *)
  g_key : gmap Z Z;        (** inode key the table gave for a borrowed descriptor *)
  g_lock : option Z;       (** the stripe held *)
  g_sent : list bytes      (** frames sent on the stream *)
}.

Definition ghost0 : ghost := Ghost ∅ ∅ ∅ None [].

Definition own_add (fd : Z) (k : fd_kind) (g : ghost) : ghost :=
  Ghost (<[fd := k]> (g_own g)) (g_shared g) (g_key g) (g_lock g) (g_sent g).
Definition own_del (fd : Z) (g : ghost) : ghost :=
  Ghost (delete fd (g_own g)) (g_shared g) (g_key g) (g_lock g) (g_sent g).
Definition share (fd : Z) (g : ghost) : ghost :=
  Ghost (g_own g) ({[fd]} ∪ g_shared g) (g_key g) (g_lock g) (g_sent g).
Definition with_key (fd key : Z) (g : ghost) : ghost :=
  Ghost (g_own g) (g_shared g) (<[fd := key]> (g_key g)) (g_lock g) (g_sent g).
Definition with_lock (l : option Z) (g : ghost) : ghost :=
  Ghost (g_own g) (g_shared g) (g_key g) l (g_sent g).
Definition sent (b : bytes) (g : ghost) : ghost :=
  Ghost (g_own g) (g_shared g) (g_key g) (g_lock g) (g_sent g ++ [b]).

(** A descriptor the task may act on. *)
Definition usable (g : ghost) (fd : Z) : Prop := is_Some (g_own g !! fd) \/ fd ∈ g_shared g.

Definition mode_ok (m : Z) : Prop := 0 <= m <= perm_mask.

(** One directory entry name: no separator, no NUL, not a dot name. *)
Definition name_ok (s : str) : Prop := safe_component s /\ contains_char 0 s = false.

(** What [openat2] may be asked to resolve: safe components, or [.]. *)
Definition rel_ok (rel : path) : Prop :=
  rel = [CurDir] \/ exists cs, rel = map Normal cs /\ Forall name_ok cs.

(** A path [resolve] may return. *)
Definition safe_path (root p : path) : Prop :=
  exists cs, p = root ++ map Normal cs /\ Forall name_ok cs.

(** ** The contract *)

Definition anchor_flags : Z := Z.lor (Z.lor O_PATH O_DIRECTORY) O_CLOEXEC.
Definition confine_flags : Z := Z.lor RESOLVE_BENEATH RESOLVE_NO_MAGICLINKS.

Definition anchor_call (root p : path) (flags mode : Z) : Prop := p = root /\ flags = anchor_flags /\ mode = 0.

#[export] Instance anchor_call_dec root p flags mode : Decision (anchor_call root p flags mode).
Proof. apply _. Defined.

Definition srv_pre (legacy : bool) (root : path) (X : Type) (e : sysE X) (g : ghost) : Prop :=
  match e with
  | SymlinkMetadata p | MetadataOf p | Exists p | Canonicalize p | ReadDir p | Statvfs p =>
      safe_path root p
  | Open p flags mode =>
      anchor_call root p flags mode \/
      (legacy = true /\ safe_path root p /\ (has_bits flags O_CREAT = true -> mode_ok mode))
  | Openat2 dirfd rel flags mode resolve =>
      g_own g !! dirfd = Some Anchor /\ rel_ok rel /\ resolve = confine_flags /\ mode_ok mode /\
      (has_bits flags O_CREAT = false -> mode = 0)
  | Close fd => is_Some (g_own g !! fd)
  | Mkdirat fd name mode => is_Some (g_own g !! fd) /\ name_ok name /\ mode_ok mode
  | Fchmodat fd name mode => g_own g !! fd = Some (Maker name mode) /\ name_ok name /\ mode_ok mode
  | Unlinkat fd name flag => usable g fd /\ name_ok name
  | Symlinkat target fd name => usable g fd /\ name_ok name
  | Linkat sd sn dd dn | Renameat sd sn dd dn =>
      usable g sd /\ name_ok sn /\ usable g dd /\ name_ok dn
  | Readlinkat fd name n => usable g fd /\ name_ok name /\ n = MAX_PATH_LEN
  | FileMetadata fd | SetLen fd _ | SeekStart fd _ | ReadFile fd _ | SyncAll fd | SyncData fd =>
      usable g fd
  | SetPermissions fd mode | FchmodProc fd mode => usable g fd /\ mode_ok mode
  | UtimensProc fd _ _ => usable g fd
  | WriteAll fd data =>
      usable g fd /\ exists key, g_key g !! fd = Some key /\ g_lock g = Some (stripe_for key)
  | TryInsert p flags fd => safe_path root p /\ is_Some (g_own g !! fd)
  | LockStripe i => g_lock g = None /\ 0 <= i < STRIPES
  | UnlockStripe i => g_lock g = Some i
  | HandleRemove _ | GetFile _ | GetWriteCtx _ | RecordRx _ | RecordTx _
  | SendFrame _ | Finish => True
  end.

(** Which kind a plain open gives. *)
Definition plain_kind (root p : path) (flags mode : Z) : fd_kind :=
  if decide (anchor_call root p flags mode) then Anchor else Beneath.

Definition srv_post (legacy : bool) (root : path) (X : Type) (e : sysE X) : ghost -> X -> ghost -> Prop :=
  match e in sysE X return ghost -> X -> ghost -> Prop with
  | Open p flags mode => fun g r g' =>
      match r with
      | Ok fd => g_own g !! fd = None /\ g' = own_add fd (plain_kind root p flags mode) g
      | Err e => (legacy = false -> ioe_raw e <> Some ENOSYS) /\ g' = g
      end
  | Openat2 _ _ _ _ _ => fun g r g' =>
      match r with
      | Ok fd => g_own g !! fd = None /\ g' = own_add fd Beneath g
      | Err e => (legacy = false -> ioe_raw e <> Some ENOSYS) /\ g' = g
      end
  | Mkdirat fd name mode => fun g r g' =>
      match r with Ok _ => g' = own_add fd (Maker name mode) g | Err _ => g' = g end
  | Close fd => fun g _ g' => g' = own_del fd g
  | TryInsert _ _ fd => fun g r g' =>
      match r with Some _ => g' = own_del fd g | None => g' = g end
  | HandleRemove _ => fun g r g' =>
      match r with
      | Some h => g_own g !! oh_file h = None /\ g' = own_add (oh_file h) Beneath g
      | None => g' = g
      end
  | GetFile _ => fun g r g' =>
      match r with Some fd => g' = share fd g | None => g' = g end
  | GetWriteCtx _ => fun g r g' =>
      match r with
      | Some (fd, _, key) => g' = with_key fd key (share fd g)
      | None => g' = g
      end
  | LockStripe i => fun g _ g' => g' = with_lock (Some i) g
  | UnlockStripe _ => fun g _ g' => g' = with_lock None g
  | SendFrame b => fun g r g' => match r with Ok _ => g' = sent b g | Err _ => g' = g end
  | _ => fun g _ g' => g' = g
  end.

Definition srv_spec (legacy : bool) (root : path) : spec sysE ghost := Spec sysE ghost (srv_pre legacy root) (srv_post legacy root).

(** ** Lemmas *)

Lemma own_del_add fd k g : g_own g !! fd = None -> own_del fd (own_add fd k g) = g.
Proof.
  intros H. destruct g as [own sh key l s]. unfold own_del, own_add. simpl in *.
  by rewrite delete_insert_id.
Qed.

Lemma plain_anchor root : plain_kind root root anchor_flags 0 = Anchor.
Proof. unfold plain_kind. by rewrite decide_True. Qed.

Lemma own_add_add fd k k' g : own_add fd k' (own_add fd k g) = own_add fd k' g.
Proof. unfold own_add. simpl. by rewrite insert_insert_eq. Qed.

Lemma usable_own_add fd k g : usable (own_add fd k g) fd.
Proof. left. simpl. rewrite lookup_insert_eq. eauto. Qed.

Lemma usable_own_add_mono fd fd' k g : usable g fd -> usable (own_add fd' k g) fd.
Proof. intros [H|H]; [|by right]. left. simpl. rewrite lookup_insert_is_Some'. by right. Qed.

Lemma owned_own_add fd k g : is_Some (g_own (own_add fd k g) !! fd).
Proof. simpl. rewrite lookup_insert_eq. eauto. Qed.

Lemma mode_ok_land m : mode_ok (Z.land m perm_mask).
Proof.
  unfold mode_ok. change perm_mask with (Z.ones 9). rewrite Z.land_ones by lia.
  change (Z.ones 9) with 511. pose proof (Z.mod_pos_bound m (2 ^ 9) ltac:(lia)).
  change (2 ^ 9) with 512 in *. lia.
Qed.

Lemma has_bits_lor a b mask : has_bits a mask = true -> has_bits (Z.lor a b) mask = true.
Proof.
  unfold has_bits. rewrite !negb_true_iff, !Z.eqb_neq. intros H1 H2. apply H1.
  rewrite Z.land_lor_distr_l in H2. by apply Z.lor_eq_0_iff in H2 as [? _].
Qed.

Lemma safe_path_root root : safe_path root root.
Proof. exists []. by rewrite app_nil_r. Qed.

Lemma name_ok_no_nul s : name_ok s -> no_nul s = true.
Proof. intros [_ H]. unfold no_nul. by rewrite H. Qed.

Lemma normalize_names p cs : normalize p = Ok cs -> Forall name_ok cs.
Proof.
  intros H. destruct (normalize_ok _ _ H) as (_ & H1 & H2 & _).
  rewrite Forall_forall in *. unfold name_ok. auto.
Qed.

#[export] Hint Resolve usable_own_add usable_own_add_mono owned_own_add mode_ok_land safe_path_root : quicfs.

(** Step through a call whose answer is unconstrained. *)
Ltac wp_pure := repeat (wp_step; cbn [sp_pre sp_post srv_spec srv_pre srv_post]).

(** A scope gives back the descriptor it owns. *)
Ltac scoped := split_and!; [by eexists..|done].

Section WithRoot.
Context {legacy : bool} (root : path).
Abbreviation W := (wp (srv_spec legacy root)).

(** [resolve] leaves no trace and returns a safe path. *)
Lemma wp_walk p cs g :
  safe_path root p -> Forall name_ok cs ->
  W (walk p cs) g (fun r g' => g' = g /\ match r with Ok q => safe_path root q | Err _ => True end).
Proof.
  intros Hp Hcs. revert p Hp. induction Hcs as [|c cs Hc Hcs IH]; intros p Hp; [done|].
  assert (safe_path root (push p c)) as Hpush.
  { destruct Hp as (ds & -> & Hds). exists (ds ++ [c]). unfold push.
    rewrite map_app, app_assoc. split; [done|]. apply Forall_app. by split; [|constructor]. }
  destruct cs as [|c' cs]; [done|].
  cbn [walk]. wp_step. wp_step; [done|]. intros m g' ->. destruct m as [m|e].
  - destruct (is_symlink m); [done|]. by apply IH.
  - by apply IH.
Qed.

Lemma wp_resolve cp g :
  W (resolve root cp) g
    (fun r g' => g' = g /\ match r with Ok q => safe_path root q | Err _ => True end).
Proof.
  unfold resolve. destruct (normalize cp) as [cs|] eqn:E; [|done].
  wp_step. eapply wp_mono; [|apply wp_walk; [apply safe_path_root|by eapply normalize_names]].
  intros [q|e] g' [-> Hq]; [|done]. wp_step. wp_step; [done|]. intros found g1 ->.
  destruct found; [|done]. wp_step. wp_step; [done|]. intros c g2 ->.
  wp_step. wp_step; [apply safe_path_root|]. intros r g3 ->.
  by destruct (negb _).
Qed.

(** A confined open returns an owned descriptor or changes nothing. *)
Definition opened (g : ghost) (r : io Z) (g' : ghost) : Prop :=
  match r with
  | Ok fd => g_own g !! fd = None /\ exists k, g' = own_add fd k g
  | Err _ => g' = g
  end.

(** An error of a kernel that has [openat2]. *)
Definition no_enosys (r : io Z) : Prop := legacy = false -> forall e, r = Err e -> ioe_raw e <> Some ENOSYS.

Lemma wp_openat2_beneath p flags mode g :
  (forall rel, strip_prefix root p = Some rel -> rel <> [] -> rel_ok rel) ->
  (has_bits flags O_CREAT = true -> mode_ok mode) ->
  W (openat2_beneath root p flags mode) g (fun r g' => opened g r g' /\ no_enosys r).
Proof.
  intros Hrel Hmode. unfold openat2_beneath.
  destruct (strip_prefix root p) as [rel|]; [|by split; [|intros _ e [= <-]]].
  assert (rel_ok (match rel with [] => [CurDir] | _ => rel end)) as Hro.
  { destruct rel; [by left|]. by apply Hrel. }
  destruct (negb (path_no_nul _)); [by split; [|intros _ e [= <-]]|].
  destruct (negb (path_no_nul root)); [by split; [|intros _ e [= <-]]|].
  wp_step. wp_step; [by left|]. cbn. rewrite plain_anchor. intros [dirfd|e] g1.
  2:{ intros [He ->]. split; [done|]. intros Hl e' [= <-]. by apply He. }
  intros [Hfresh ->]. wp_step. wp_step.
  { cbn. rewrite lookup_insert_eq. split_and!; [done..| |].
    - destruct (has_bits flags O_CREAT) eqn:E; [auto|]. unfold mode_ok, perm_mask. lia.
    - destruct (has_bits flags O_CREAT) eqn:E; [|done]. intros Hf.
      rewrite (has_bits_lor flags O_CLOEXEC) in Hf; [done|done]. }
  cbn. intros [fd|e] g2.
  - intros [Hf2 ->]. rewrite lookup_insert_None in Hf2. destruct Hf2 as [Hf2 Hne].
    wp_step. wp_step.
    { cbn. exists Anchor. rewrite lookup_insert_ne by done. apply lookup_insert_eq. }
    cbn. intros _ g3 ->. split; [|done]. split; [done|]. exists Beneath.
    unfold own_del, own_add. simpl. f_equal.
    rewrite insert_insert_ne by done. rewrite delete_insert_id; [done|].
    by rewrite lookup_insert_ne.
  - intros [Hne ->]. wp_step. wp_step; [exists Anchor; apply lookup_insert_eq|].
    cbn. intros _ g3 ->. split; [by apply own_del_add|]. intros Hl e' [= <-]. by apply Hne.
Qed.

Lemma safe_path_rel p rel :
  safe_path root p -> strip_prefix root p = Some rel -> rel <> [] -> rel_ok rel.
Proof.
  intros (cs & -> & Hcs) Hs _. rewrite strip_prefix_app in Hs. inv Hs. right. by exists cs.
Qed.

Lemma wp_open_plain p flags mode g :
  legacy = true -> safe_path root p -> (has_bits flags O_CREAT = true -> mode_ok mode) ->
  W (open_plain p flags mode) g (opened g).
Proof.
  intros Hl Hp Hm. unfold open_plain. destruct (path_no_nul p); [|done]. wp_step.
  - right. split_and!; [done..|]. intros Hc. apply Hm. unfold has_bits in *. rewrite Z.land_lor_distr_l in Hc.
    by change (Z.land O_CLOEXEC O_CREAT) with 0 in Hc; rewrite Z.lor_0_r in Hc.
  - cbn. intros [fd|e] g' [H ->]; [|done]. split; [done|by eexists].
Qed.

(** The path of an open is the root or names beneath it. *)
Definition open_path (p : path) : Prop := forall rel, strip_prefix root p = Some rel -> safe_path root p.

Lemma open_path_rel p rel : open_path p -> strip_prefix root p = Some rel -> rel <> [] -> rel_ok rel.
Proof.
  intros Hp Hs _. destruct (Hp _ Hs) as (cs & -> & Hcs). rewrite strip_prefix_app in Hs. inv Hs. right. by exists cs.
Qed.

Lemma safe_open_path p : safe_path root p -> open_path p.
Proof. by intros Hp rel _. Qed.

Lemma wp_open_confined p flags mode g :
  open_path p -> (has_bits flags O_CREAT = true -> mode_ok mode) ->
  W (open_confined root p flags mode) g (opened g).
Proof.
  intros Hp Hmode. unfold open_confined. destruct (strip_prefix root p) as [rel|] eqn:Es.
  2:{ unfold openat2_beneath. by rewrite Es. }
  eapply wp_seq; [apply wp_openat2_beneath; [|done]; intros r'; by apply open_path_rel|].
  intros [fd|e] g' [Ho He]; [done|]. simpl in Ho. subst g'. case_bool_decide as Hen; [|done].
  destruct (decide (legacy = true)) as [El|El%not_true_is_false]; [|by destruct (He El e eq_refl)].
  apply wp_open_plain; [done|by eapply Hp|done].
Qed.

(** The handlers open paths that [resolve] returned. *)
Lemma wp_open_safe p flags mode g :
  safe_path root p -> (has_bits flags O_CREAT = true -> mode_ok mode) ->
  W (open_confined root p flags mode) g (opened g).
Proof. intros Hp. by apply wp_open_confined, safe_open_path. Qed.

Lemma parent_rel p q rel :
  safe_path root p -> parent p = Some q -> strip_prefix root q = Some rel ->
  exists cs c, p = root ++ map Normal (cs ++ [c]) /\ rel = map Normal cs /\ Forall name_ok (cs ++ [c]).
Proof.
  intros (cs & -> & Hcs) Hq Hrel. apply strip_prefix_Some in Hrel. subst q.
  destruct cs as [|c cs _] using rev_ind.
  - exfalso. rewrite app_nil_r in Hq. unfold parent in Hq.
    destruct root as [|r rs _] using rev_ind; [done|]. rewrite last_snoc, removelast_last in Hq.
    assert (Some rs = Some ((rs ++ [r]) ++ rel)) as H by (by destruct r). inv H.
    apply (f_equal length) in H1. rewrite !length_app in H1. simpl in H1. lia.
  - rewrite map_app, app_assoc in Hq. simpl in Hq. rewrite parent_snoc in Hq. injection Hq as Hq.
    apply app_inv_head in Hq. eauto.
Qed.

Lemma parent_open_path p q : safe_path root p -> parent p = Some q -> open_path q.
Proof.
  intros Hp Hq rel Hrel. destruct (parent_rel _ _ _ Hp Hq Hrel) as (cs & c & _ & -> & Hcs).
  apply strip_prefix_Some in Hrel as ->. exists cs. split; [done|]. by apply Forall_app in Hcs as [? _].
Qed.

(** An owned directory and a safe name, or nothing. *)
Lemma wp_confined_parent p g :
  safe_path root p ->
  W (confined_parent root p) g
    (fun r g' => match r with
                 | Ok (dir, name) => g_own g !! dir = None /\ (exists k, g' = own_add dir k g) /\ name_ok name
                 | Err _ => g' = g
                 end).
Proof.
  intros Hp. unfold confined_parent.
  destruct (parent p) as [q|] eqn:Hq; [|done]. destruct (file_name p) as [name|] eqn:Hn; [|done].
  destruct (negb (no_nul name)); [done|]. wp_step.
  destruct (strip_prefix root q) as [rel|] eqn:Hrel.
  - pose proof (parent_open_path p q Hp Hq) as Hop. destruct (parent_rel _ _ _ Hp Hq Hrel) as (cs & c & -> & -> & Hcs).
    rewrite map_app, app_assoc in Hn. simpl in Hn. rewrite file_name_snoc in Hn. inv Hn.
    apply Forall_app in Hcs as [Hcs Hc]. inv Hc.
    eapply wp_mono; [|by apply wp_open_confined].
    intros [fd|e] g' Ho; [|done]. wp_step. by destruct Ho as [? ?].
  - unfold open_confined, openat2_beneath. rewrite Hrel. done.
Qed.

(** Scopes that own a descriptor give it back. *)
Lemma wp_with_file {A} fd k (body : sys A) g Q :
  g_own g !! fd = None ->
  W body (own_add fd k g) (fun r g' => (exists k', g' = own_add fd k' g) /\ Q r g) ->
  W (with_file fd body) (own_add fd k g) Q.
Proof.
  intros Hf Hb. unfold with_file. eapply wp_seq; [exact Hb|]. cbv beta. intros r g' [[k' ->] HQ].
  wp_step. wp_step; [apply owned_own_add|]. cbn. intros _ g1 ->.
  by rewrite own_del_add.
Qed.

(** The namespace operations leave the ghost state as it was. *)
Definition quiet {A} (g : ghost) (r : A) (g' : ghost) : Prop := g' = g.

Ltac parent_scope :=
  wp_step; eapply wp_mono; [|by apply wp_confined_parent];
  let dir := fresh "dir" in let name := fresh "name" in
  intros [[dir name]|?] ?; [intros (? & [? ->] & ?); cbn [fst snd]; apply wp_with_file; [done|] | done].
(** The second directory of a link or rename. *)
Ltac inner_scope :=
  wp_step; eapply wp_mono; [|by apply wp_confined_parent];
  let dir := fresh "dir" in let name := fresh "name" in
  intros [[dir name]|?] ?; [intros (? & [? ->] & ?); cbn [fst snd]; apply wp_with_file; [done|] | intros ->; split; [by eexists|done]].
Ltac scope_done := let x := fresh in let g' := fresh in intros x g' ->; scoped.

Lemma wp_mkdir_confined p mode g :
  safe_path root p -> W (mkdir_confined root p mode) g (quiet g).
Proof.
  intros Hp. unfold mkdir_confined. parent_scope.
  wp_step. wp_step; [cbn [sp_pre srv_spec srv_pre]; auto with quicfs|]. intros [[]|e] g'; cbn [sp_post srv_spec srv_post]; intros ->.
  2:{ split; [by eexists|done]. }
  rewrite own_add_add. wp_step; [cbn; rewrite lookup_insert_eq; auto with quicfs|]. scope_done.
Qed.

Lemma wp_remove_confined p d g :
  safe_path root p -> W (remove_confined root p d) g (quiet g).
Proof.
  intros Hp. unfold remove_confined. parent_scope.
  wp_step; [cbn [sp_pre srv_spec srv_pre]; auto with quicfs|]. scope_done.
Qed.

Lemma wp_symlink_confined p t g :
  safe_path root p -> W (symlink_confined root p t) g (quiet g).
Proof.
  intros Hp. unfold symlink_confined. parent_scope.
  destruct (no_nul t); [|split; [by eexists|done]]. wp_step; [cbn [sp_pre srv_spec srv_pre]; auto with quicfs|]. scope_done.
Qed.

Lemma wp_readlink_confined p g :
  safe_path root p -> W (readlink_confined root p) g (quiet g).
Proof.
  intros Hp. unfold readlink_confined. parent_scope.
  wp_step; [cbn [sp_pre srv_spec srv_pre]; auto with quicfs|]. scope_done.
Qed.

Lemma wp_link_confined p q g :
  safe_path root p -> safe_path root q -> W (link_confined root p q) g (quiet g).
Proof.
  intros Hp Hq. unfold link_confined. parent_scope. inner_scope.
  wp_step; [cbn [sp_pre srv_spec srv_pre]; auto 8 with quicfs|]. scope_done.
Qed.

Lemma wp_rename_confined p q g :
  safe_path root p -> safe_path root q -> W (rename_confined root p q) g (quiet g).
Proof.
  intros Hp Hq. unfold rename_confined. parent_scope. inner_scope.
  wp_step; [cbn [sp_pre srv_spec srv_pre]; auto 8 with quicfs|]. scope_done.
Qed.

Lemma wp_sync_parent_dir p g :
  safe_path root p -> W (sync_parent_dir root p) g (quiet g).
Proof.
  intros Hp. unfold sync_parent_dir. case_decide; [done|].
  destruct (parent p) as [q|] eqn:Hq; [|done]. unfold fsync_dir_confined.
  wp_step. wp_step. eapply wp_mono; [|apply wp_open_confined; [by eapply parent_open_path|]].
  - intros [fd|e] g' Ho; [|done]. destruct Ho as [Hf [k ->]]. apply wp_with_file; [done|].
    wp_step; [cbn [sp_pre srv_spec srv_pre]; auto with quicfs|]. scope_done.
  - intros H1. discriminate H1.
Qed.
End WithRoot.

#[export] Hint Resolve wp_mkdir_confined wp_remove_confined wp_symlink_confined wp_readlink_confined
  wp_link_confined wp_rename_confined wp_sync_parent_dir wp_open_safe : quicfs.
