(* ===== verification/Reply.v ===== *)
(** * Answering a request

    The session a handler runs in, the [write_frame(send, &encode(&resp)?)] /
    [finish] idiom every handler ends with, and what it means for a frame to
    answer a request. *)

From S2P Require Import Prelude Prog Text Status Frames Os Sanitize WriteLock Confine.

(** The configuration part of [ClientSession] (session.rs); its handle table
    and byte counters are reached through events. *)
Record ClientSession := MkClientSession {
  s_identity : str;          (** [identity.subject] *)
  s_features : list str;
  s_sync_on_close : bool;
  s_sync_metadata : bool
}.

(** [decode(raw)?] *)
Definition decoded {T} `{!Wire T} (raw : bytes) : sys (anyhow T) :=
  Ret (ok_or (lit "msgpack decode") (decode raw)).

(** [write_frame(send, &encode(&resp)?).await?; send.finish()?; Ok(())] *)
Definition send_resp {T} `{!Wire T} (resp : T) : sys (anyhow unit) :=
  match encode resp with
  | None => Ret (Err (lit "msgpack encode"))
  | Some b =>
      _ <-? sc (SendFrame b) ;;
      _ <-? sc Finish ;;
      Ret (Ok tt)
  end.

(** The same, with [session.record_tx(encoded.len())] after it. *)
Definition send_resp_tx {T} `{!Wire T} (resp : T) : sys (anyhow unit) :=
  match encode resp with
  | None => Ret (Err (lit "msgpack encode"))
  | Some b =>
      _ <-? sc (SendFrame b) ;;
      _ <-? sc Finish ;;
      sc (RecordTx (zlen b)) ;;;
      Ret (Ok tt)
  end.

(** [...; session.record_tx(0); Ok(())] *)
Definition then_tx0 (m : sys (anyhow unit)) : sys (anyhow unit) :=
  _ <-? m ;; sc (RecordTx 0) ;;; Ret (Ok tt).

(** ** Responses *)

(** The fields every response starts with. *)
Class IsResponse (T : Type) := {
  resp_op : T -> Z; resp_seq : T -> Z; resp_status : T -> Z
}.

#[export] Instance resp_Handshake : IsResponse HandshakeResponse := Build_IsResponse _ hr_op hr_seq hr_status.
#[export] Instance resp_Ping : IsResponse PingResponse := Build_IsResponse _ pgr_op pgr_seq pgr_status.
#[export] Instance resp_GetAttr : IsResponse GetAttrResponse := Build_IsResponse _ gar_op gar_seq gar_status.
#[export] Instance resp_SetAttr : IsResponse SetAttrResponse := Build_IsResponse _ sar_op sar_seq sar_status.
#[export] Instance resp_ReadDir : IsResponse ReadDirResponse := Build_IsResponse _ rdr_op rdr_seq rdr_status.
#[export] Instance resp_Open : IsResponse OpenResponse := Build_IsResponse _ opr_op opr_seq opr_status.
#[export] Instance resp_Release : IsResponse ReleaseResponse := Build_IsResponse _ rlr_op rlr_seq rlr_status.
#[export] Instance resp_Read : IsResponse ReadResponse := Build_IsResponse _ rr_op rr_seq rr_status.
#[export] Instance resp_Write : IsResponse WriteResponse := Build_IsResponse _ wr_op wr_seq wr_status.
#[export] Instance resp_Status : IsResponse StatusResponse := Build_IsResponse _ sr_op sr_seq sr_status.
#[export] Instance resp_ReadLink : IsResponse ReadLinkResponse := Build_IsResponse _ rkr_op rkr_seq rkr_status.
#[export] Instance resp_StatFs : IsResponse StatFsResponse := Build_IsResponse _ sfr_op sfr_seq sfr_status.

(** [b] is the encoding of a response to operation [op], request [seq]. *)
Definition reply_to (op seq : Z) (b : bytes) : Prop :=
  exists (T : Type) (w : Wire T) (i : IsResponse T) (x : T),
    encode x = Some b /\ resp_op x = op /\ resp_seq x = seq /\
    exists s, resp_status x = status_as_u8 s.

(** What a handler leaves behind: no descriptor, no lock, and at most one
    frame, the answer; exactly one when it returns [Ok]. *)
Definition settled (g g' : ghost) : Prop := g_own g' = g_own g /\ g_lock g' = g_lock g.

Definition replied (op seq : Z) (g : ghost) (r : anyhow unit) (g' : ghost) : Prop :=
  settled g g' /\
  ((exists b, reply_to op seq b /\ g_sent g' = g_sent g ++ [b]) \/
   (is_ok r = false /\ g_sent g' = g_sent g)).

Lemma settled_refl g : settled g g.
Proof. done. Qed.

Lemma settled_trans g1 g2 g3 : settled g1 g2 -> settled g2 g3 -> settled g1 g3.
Proof. unfold settled. intros [-> ->] [-> ->]. done. Qed.

#[export] Hint Resolve settled_refl : quicfs.

Section Wp.
Context {legacy : bool} (root : path).
Abbreviation W := (wp (srv_spec legacy root)).

Lemma wp_send_resp {T} `{!Wire T, !IsResponse T} (x : T) g op seq s :
  resp_op x = op -> resp_seq x = seq -> resp_status x = status_as_u8 s ->
  W (send_resp x) g (replied op seq g).
Proof.
  intros Hop Hseq Hst. unfold send_resp. destruct (encode x) as [b|] eqn:Eb.
  2:{ split; [done|]. right. done. }
  assert (reply_to op seq b) as Hr by (exists T, _, _, x; eauto).
  wp_step. wp_step; [done|]. intros [[]|e] g' Hg; simpl in Hg; subst g'.
  - wp_step. wp_step; [done|]. intros [[]|e] g' Hg; simpl in Hg; subst g'; (split; [done|]); left; eauto.
  - split; [done|]. by right.
Qed.

Lemma wp_send_resp_tx {T} `{!Wire T, !IsResponse T} (x : T) g op seq s :
  resp_op x = op -> resp_seq x = seq -> resp_status x = status_as_u8 s ->
  W (send_resp_tx x) g (replied op seq g).
Proof.
  intros Hop Hseq Hst. unfold send_resp_tx. destruct (encode x) as [b|] eqn:Eb.
  2:{ split; [done|]. right. done. }
  assert (reply_to op seq b) as Hr by (exists T, _, _, x; eauto).
  wp_step. wp_step; [done|]. intros [[]|e] g' Hg; simpl in Hg; subst g'.
  2:{ split; [done|]. by right. }
  wp_step. wp_step; [done|]. intros [[]|e] g' Hg; simpl in Hg; subst g'.
  - wp_step. wp_step; [done|]. intros [] g' Hg; simpl in Hg; subst g'. split; [done|]. left; eauto.
  - split; [done|]. left; eauto.
Qed.

Lemma wp_then_tx0 m g op seq :
  W m g (replied op seq g) -> W (then_tx0 m) g (replied op seq g).
Proof.
  intros Hm. unfold then_tx0. wp_step. eapply wp_mono; [|exact Hm].
  intros [[]|e] g' [Hs Hr].
  - wp_step. wp_step; [done|]. intros [] g1 Hg; simpl in Hg; subst g1. split; [done|].
    destruct Hr as [Hr|[? _]]; [by left|done].
  - split; done.
Qed.

(** A handler that settles down and then answers. *)
Lemma replied_settled op seq g g1 r g' :
  settled g g1 -> g_sent g1 = g_sent g -> replied op seq g1 r g' -> replied op seq g r g'.
Proof.
  intros H1 Hs [H2 Hr]. split; [by eapply settled_trans|]. rewrite <- Hs. done.
Qed.
End Wp.

(** Discharge a call of a handler: its obligation from the hints, its answer
    with the ghost state substituted. *)
Ltac sys_call :=
  wp_step; [cbn [sp_pre srv_spec srv_pre]; solve [auto 8 with quicfs]
           | cbn [sp_post srv_spec srv_post]; let Hg := fresh "Hg" in intros ? ? Hg; try subst].

(** Run a callee that leaves the ghost state unchanged. *)
Tactic Notation "sys_quiet" uconstr(lem) :=
  eapply wp_seq; [apply lem; auto with quicfs | let Hg := fresh "Hg" in intros ? ? Hg; unfold quiet in Hg; subst].

(** The final answer. *)
Ltac sys_reply :=
  cbv beta iota zeta;
  first [ apply wp_then_tx0; sys_reply
        | eapply wp_send_resp; [reflexivity|reflexivity|reflexivity]
        | eapply wp_send_resp_tx; [reflexivity|reflexivity|reflexivity] ].
