(* ===== verification/MetaOps.v ===== *)
(** * Metadata handlers

    [src/server/src/ops/meta.rs], the unix build: one definition per handler,
    from the decoded request to the frame that answers it. *)

From S2P Require Import Prelude Prog Text Status Frames Os Sanitize WriteLock Confine Reply.

(** ** Helpers *)

(** The closure [ns] of [metadata_to_stat]: nanoseconds since the epoch as an
    [i64], 0 when the time is unavailable or before the epoch. *)
Definition time_ns (t : io Z) : Z :=
  match t with
  | Ok t => if 0 <=? t then as_i64 t else 0
  | Err _ => 0
  end.

(** [nlink_of]: clamped to 32 bits. *)
Definition nlink_of (m : metadata) : Z := Z.min (m_nlink m) u32_max.

(** [metadata_to_stat] *)
Definition metadata_to_stat (m : metadata) : Stat :=
  MkStat (m_ino m) (m_mode m) (nlink_of m) (m_uid m) (m_gid m) (m_len m)
         (time_ns (m_accessed m)) (time_ns (m_modified m)) (time_ns (m_modified m))
         4096 (wrap64 (m_len m + 511) / 512).

(** [std::fs::metadata(p).ok().map(|m| metadata_to_stat(&m, p))] *)
Definition stat_ok (m : io metadata) : option Stat := metadata_to_stat <$> res_ok m.

(** The closure [ns_to_timespec] of [handle_setattr]: Rust's [/] and [%]. *)
Definition ns_to_timespec (ns : Z) : timespec :=
  Timespec (Z.quot ns 1000000000) (Z.rem ns 1000000000).

Definition utime_omit : timespec := Timespec 0 UTIME_OMIT.

(** [query_statfs] on the answer of [statvfs]. *)
Definition statfs_of (s : statvfs_t) : StatFs :=
  MkStatFs (f_blocks s) (f_bfree s) (f_bavail s) (f_files s) (f_ffree s)
           (wrap32 (f_bsize s)) (wrap32 (f_namemax s)) (wrap32 (f_frsize s)).

(** The entry loop of [handle_readdir]. *)
Definition dir_entry (it : dir_item) : DirEntry :=
  match di_meta it with
  | Ok m => MkDirEntry (di_name it) (m_ino m) (m_mode m)
  | Err _ => MkDirEntry (di_name it) 0 0
  end.

Fixpoint readdir_loop (skip : Z) (out : list DirEntry) (items : list dir_item) : list DirEntry :=
  match items with
  | [] => out
  | it :: rest =>
      if 0 <? skip then readdir_loop (skip - 1) out rest
      else
        let out := out ++ [dir_entry it] in
        if 256 <=? zlen out then out else readdir_loop 0 out rest
  end.

Definition MAX_SYMLINK_TARGET_LEN : Z := 4096.

Section Handlers.
Context {C : Codec}.
Variables (session : ClientSession) (root : path).

(** [send_stat_resp], [send_status], [send_statfs_resp] *)
Definition send_stat_resp (op seq : Z) (status : Status) (stat : option Stat) : sys (anyhow unit) :=
  send_resp (MkGetAttrResponse op seq (status_as_u8 status) stat).
Definition send_status (op seq : Z) (status : Status) : sys (anyhow unit) :=
  send_resp (MkStatusResponse op seq (status_as_u8 status)).
Definition send_statfs_resp (seq : Z) (status : Status) (fs : option StatFs) : sys (anyhow unit) :=
  send_resp (MkStatFsResponse OP_STAT_FS seq (status_as_u8 status) fs).

(** [if status == Status::Ok && session.sync_metadata { sync_parent_dir(..) }] *)
Definition sync_if_ok (status : Status) (p : path) : sys unit :=
  if bool_decide (status = StOk) && s_sync_metadata session then sync_parent_dir root p
  else Ret tt.

(** [std::fs::metadata] after a successful operation *)
Definition stat_if_ok (status : Status) (q : sysE (io metadata)) : sys (option Stat) :=
  if bool_decide (status = StOk) then m <- sc q ;; Ret (stat_ok m) else Ret None.

Definition handle_getattr (raw : bytes) : sys (anyhow unit) :=
  req <-? decoded (T := GetAttrRequest) raw ;;
  r <- resolve root (gaq_path req) ;;
  match r with
  | Err _ => send_stat_resp OP_GET_ATTR (gaq_seq req) StPermission None
  | Ok resolved =>
      m <- sc (MetadataOf resolved) ;;
      then_tx0 (send_stat_resp OP_GET_ATTR (gaq_seq req) (status_of_io m) (stat_ok m))
  end.

(** The truncate step of [handle_setattr]: the new [err_status]. *)
Definition setattr_size (req : SetAttrRequest) (resolved : path) : sys (option Status) :=
  if has_bits (saq_valid req) 0x8 then
    r <- (f <-? open_confined root resolved (Z.lor O_WRONLY O_NOFOLLOW) 0 ;;
          with_file f (sc (SetLen f (saq_size req)))) ;;
    Ret (match r with Ok _ => None | Err e => Some (status_from_io e) end)
  else Ret None.

(** The mode/times step, on one confined O_PATH descriptor ([CString::new]
    of "/proc/self/fd/N" has no NUL, so it cannot fail). *)
Definition setattr_mode (req : SetAttrRequest) (fd : Z) : sys (option Status) :=
  if has_bits (saq_valid req) 0x1 then
    rc <- sc (FchmodProc fd (Z.land (saq_mode req) perm_mask)) ;;
    Ret (match rc with Ok _ => None | Err e => Some (status_from_io e) end)
  else Ret None.

Definition setattr_times (req : SetAttrRequest) (fd : Z) : sys (option Status) :=
  let at_ := if has_bits (saq_valid req) 0x10 then ns_to_timespec (saq_atime req) else utime_omit in
  let mt_ := if has_bits (saq_valid req) 0x20 then ns_to_timespec (saq_mtime req) else utime_omit in
  rc <- sc (UtimensProc fd at_ mt_) ;;
  Ret (match rc with Ok _ => None | Err e => Some (status_from_io e) end).

Definition setattr_attrs (req : SetAttrRequest) (resolved : path) : sys (option Status) :=
  if has_bits (saq_valid req) (Z.lor (Z.lor 0x1 0x10) 0x20) then
    o <- open_confined root resolved O_PATH 0 ;;
    match o with
    | Err e => Ret (Some (status_from_io e))
    | Ok fd =>
        with_file fd
          (err <- setattr_mode req fd ;;
           match err with
           | Some s => Ret (Some s)
           | None =>
               if has_bits (saq_valid req) 0x10 || has_bits (saq_valid req) 0x20
               then setattr_times req fd
               else Ret None
           end)
    end
  else Ret None.

Definition handle_setattr (raw : bytes) : sys (anyhow unit) :=
  req <-? decoded (T := SetAttrRequest) raw ;;
  r <- resolve root (saq_path req) ;;
  match r with
  | Err _ => send_resp (MkSetAttrResponse OP_SET_ATTR (saq_seq req) (status_as_u8 StPermission) None)
  | Ok resolved =>
      err <- setattr_size req resolved ;;
      err <- (match err with Some s => Ret (Some s) | None => setattr_attrs req resolved end) ;;
      match err with
      | Some s =>
          then_tx0 (send_resp (MkSetAttrResponse OP_SET_ATTR (saq_seq req) (status_as_u8 s) None))
      | None =>
          m <- sc (MetadataOf resolved) ;;
          then_tx0 (send_resp (MkSetAttrResponse OP_SET_ATTR (saq_seq req)
                                 (status_as_u8 (status_of_io m)) (stat_ok m)))
      end
  end.

Definition handle_readdir (raw : bytes) : sys (anyhow unit) :=
  req <-? decoded (T := ReadDirRequest) raw ;;
  r <- resolve root (rdq_path req) ;;
  match r with
  | Err _ =>
      send_resp (MkReadDirResponse OP_READ_DIR (rdq_seq req) (status_as_u8 StPermission) [] 0 true)
  | Ok resolved =>
      d <- sc (ReadDir resolved) ;;
      let '(status, entries) :=
        match d with
        | Err e => (status_from_io e, [])
        | Ok items => (StOk, readdir_loop (rdq_cursor req) [] items)
        end in
      let eof := (zlen entries <? 256) || negb (bool_decide (status = StOk)) in
      then_tx0 (send_resp (MkReadDirResponse OP_READ_DIR (rdq_seq req) (status_as_u8 status)
                             entries (wrap64 (rdq_cursor req + zlen entries)) eof))
  end.

Definition handle_mkdir (raw : bytes) : sys (anyhow unit) :=
  req <-? decoded (T := MkDirRequest) raw ;;
  r <- resolve root (mdq_path req) ;;
  match r with
  | Err _ => send_stat_resp OP_MKDIR (mdq_seq req) StPermission None
  | Ok resolved =>
      rc <- mkdir_confined root resolved (mdq_mode req) ;;
      let status := status_of_io rc in
      sync_if_ok status resolved ;;;
      stat <- stat_if_ok status (MetadataOf resolved) ;;
      then_tx0 (send_stat_resp OP_MKDIR (mdq_seq req) status stat)
  end.

Definition handle_rmdir (raw : bytes) : sys (anyhow unit) :=
  req <-? decoded (T := PathRequest) raw ;;
  r <- resolve root (pq_path req) ;;
  match r with
  | Err _ => send_status OP_RMDIR (pq_seq req) StPermission
  | Ok resolved =>
      rc <- remove_confined root resolved true ;;
      sync_if_ok (status_of_io rc) resolved ;;;
      then_tx0 (send_status OP_RMDIR (pq_seq req) (status_of_io rc))
  end.

Definition handle_unlink (raw : bytes) : sys (anyhow unit) :=
  req <-? decoded (T := PathRequest) raw ;;
  r <- resolve root (pq_path req) ;;
  match r with
  | Err _ => send_status OP_UNLINK (pq_seq req) StPermission
  | Ok resolved =>
      rc <- remove_confined root resolved false ;;
      sync_if_ok (status_of_io rc) resolved ;;;
      then_tx0 (send_status OP_UNLINK (pq_seq req) (status_of_io rc))
  end.

Definition handle_rename (raw : bytes) : sys (anyhow unit) :=
  req <-? decoded (T := RenameRequest) raw ;;
  o <- resolve root (rnq_old req) ;;
  match o with
  | Err _ => send_status OP_RENAME (rnq_seq req) StPermission
  | Ok old =>
      n <- resolve root (rnq_new req) ;;
      match n with
      | Err _ => send_status OP_RENAME (rnq_seq req) StPermission
      | Ok new =>
          rc <- rename_confined root old new ;;
          let status := status_of_io rc in
          (if bool_decide (status = StOk) && s_sync_metadata session then
             sync_parent_dir root old ;;;
             if decide (parent old = parent new) then Ret tt else sync_parent_dir root new
           else Ret tt) ;;;
          then_tx0 (send_status OP_RENAME (rnq_seq req) status)
      end
  end.

Definition handle_symlink (raw : bytes) : sys (anyhow unit) :=
  req <-? decoded (T := SymlinkRequest) raw ;;
  if MAX_SYMLINK_TARGET_LEN <? str_len (slq_target req) then
    send_stat_resp OP_SYMLINK (slq_seq req) StInvalidArg None
  else
    r <- resolve root (slq_link req) ;;
    match r with
    | Err _ => send_stat_resp OP_SYMLINK (slq_seq req) StPermission None
    | Ok link_path =>
        rc <- symlink_confined root link_path (slq_target req) ;;
        let status := status_of_io rc in
        sync_if_ok status link_path ;;;
        stat <- stat_if_ok status (SymlinkMetadata link_path) ;;
        then_tx0 (send_stat_resp OP_SYMLINK (slq_seq req) status stat)
    end.

Definition handle_readlink (raw : bytes) : sys (anyhow unit) :=
  req <-? decoded (T := PathRequest) raw ;;
  r <- resolve root (pq_path req) ;;
  match r with
  | Err _ => send_resp (MkReadLinkResponse OP_READLINK (pq_seq req) (status_as_u8 StPermission) [])
  | Ok resolved =>
      read <- readlink_confined root resolved ;;
      let '(status, target) :=
        match read with Ok t => (StOk, t) | Err e => (status_from_io e, []) end in
      then_tx0 (send_resp (MkReadLinkResponse OP_READLINK (pq_seq req) (status_as_u8 status) target))
  end.

Definition handle_link (raw : bytes) : sys (anyhow unit) :=
  req <-? decoded (T := LinkRequest) raw ;;
  s <- resolve root (lkq_path req) ;;
  match s with
  | Err _ => send_stat_resp OP_LINK (lkq_seq req) StPermission None
  | Ok src =>
      d <- resolve root (lkq_link req) ;;
      match d with
      | Err _ => send_stat_resp OP_LINK (lkq_seq req) StPermission None
      | Ok dst =>
          rc <- link_confined root src dst ;;
          let status := status_of_io rc in
          sync_if_ok status dst ;;;
          stat <- stat_if_ok status (MetadataOf dst) ;;
          then_tx0 (send_stat_resp OP_LINK (lkq_seq req) status stat)
      end
  end.

(** The flags [handle_open] passes to [open_confined]. *)
Definition open_oflags (flags : Z) : Z :=
  let access :=
    match Z.land flags 0x3 with 1 => O_WRONLY | 2 => O_RDWR | _ => O_RDONLY end in
  if has_bits flags 0x400 then Z.lor access O_APPEND else access.

Definition open_fail (op seq : Z) (s : Status) : sys (anyhow unit) :=
  send_resp (MkOpenResponse op seq (status_as_u8 s) 0 None).

Definition handle_open (raw : bytes) : sys (anyhow unit) :=
  req <-? decoded (T := OpenRequest) raw ;;
  r <- resolve root (opq_path req) ;;
  match r with
  | Err _ => open_fail OP_OPEN (opq_seq req) StPermission
  | Ok resolved =>
      o <- open_confined root resolved (open_oflags (opq_flags req)) 0 ;;
      match o with
      | Err e => open_fail OP_OPEN (opq_seq req) (status_from_io e)
      | Ok file =>
          m <- sc (FileMetadata file) ;;
          h <- sc (TryInsert resolved (opq_flags req) file) ;;
          match h with
          | None => sc (Close file) ;;; open_fail OP_OPEN (opq_seq req) StNoSpace
          | Some handle =>
              then_tx0 (send_resp (MkOpenResponse OP_OPEN (opq_seq req) (status_as_u8 StOk)
                                     handle (stat_ok m)))
          end
      end
  end.

(** The removed handle's reference to the file is dropped when the handler
    returns, on every path. *)
Definition handle_release (raw : bytes) : sys (anyhow unit) :=
  req <-? decoded (T := ReleaseRequest) raw ;;
  removed <- sc (HandleRemove (rlq_handle req)) ;;
  match removed with
  | None => send_resp (MkReleaseResponse OP_RELEASE (rlq_seq req) (status_as_u8 StOk))
  | Some h =>
      with_file (oh_file h)
        (status <- (if s_sync_on_close session then
                      r <- sc (SyncAll (oh_file h)) ;; Ret (status_of_io r)
                    else Ret StOk) ;;
         send_resp (MkReleaseResponse OP_RELEASE (rlq_seq req) (status_as_u8 status)))
  end.

(** [query_statfs] *)
Definition query_statfs (p : path) : sys StatFs :=
  if path_no_nul p then
    r <- sc (Statvfs p) ;;
    Ret (match r with Ok s => statfs_of s | Err _ => StatFs_default end)
  else Ret StatFs_default.

Definition handle_statfs (raw : bytes) : sys (anyhow unit) :=
  req <-? decoded (T := PathRequest) raw ;;
  r <- resolve root (pq_path req) ;;
  match r with
  | Err _ => send_statfs_resp (pq_seq req) StPermission None
  | Ok resolved =>
      fs <- query_statfs resolved ;;
      then_tx0 (send_statfs_resp (pq_seq req) StOk (Some fs))
  end.
End Handlers.

(** ** Every handler meets the server's obligations and answers once *)

Section Obligations.
Context {C : Codec}.
Context {legacy : bool}.
Variables (session : ClientSession) (root : path).
Abbreviation W := (wp (srv_spec legacy root)).

Lemma wp_sync_if_ok s p g :
  safe_path root p -> W (sync_if_ok session root s p) g (quiet g).
Proof. intros Hp. unfold sync_if_ok. destruct (_ && _); [by apply wp_sync_parent_dir|done]. Qed.

Lemma wp_stat_if_ok s p (q : sysE (io metadata)) g :
  safe_path root p -> q = MetadataOf p \/ q = SymlinkMetadata p ->
  W (stat_if_ok s q) g (quiet g).
Proof.
  intros Hp Hq. unfold stat_if_ok. destruct (bool_decide _); [|done].
  wp_step. wp_step; [by destruct Hq as [-> | ->]|]. destruct Hq as [-> | ->]; by intros m g' ->.
Qed.

(** Decode, then the body. *)
Lemma wp_decoded {T} `{!Wire T} raw (k : T -> sys (anyhow unit)) g Q :
  match decode raw with
  | Some req => W (k req) g Q
  | None => Q (Err (lit "msgpack decode")) g
  end ->
  W (x <-? decoded raw ;; k x) g Q.
Proof. intros H. wp_step. unfold decoded. wp_step. by destruct (decode raw). Qed.

(** Resolve a client path: the rest runs with a safe path. *)
Lemma wp_resolved {A} cp (k : result resolve_err path -> sys A) g Q :
  (forall e, W (k (Err e)) g Q) -> (forall p, safe_path root p -> W (k (Ok p)) g Q) ->
  W (r <- resolve root cp ;; k r) g Q.
Proof.
  intros He Hk. eapply wp_seq; [apply wp_resolve|]. intros [p|e] g' [-> Hp]; auto.
Qed.

Ltac decoding := apply wp_decoded; case_match; [|split; [done|by right]].
Ltac resolving := apply wp_resolved; [intros ?; try solve [sys_reply] | intros ? ?].

(** The answer of a request: its decoded form names the sequence number. *)
Definition answers {T} `{!Wire T} (op : Z) (seq_of : T -> Z) (raw : bytes) (g : ghost)
    (r : anyhow unit) (g' : ghost) : Prop :=
  match decode raw with
  | Some req => replied op (seq_of req) g r g'
  | None => is_ok r = false /\ g' = g
  end.

Ltac answering := unfold answers; apply wp_decoded; case_match; [|done].

Lemma handle_getattr_ok raw g :
  W (handle_getattr root raw) g (answers OP_GET_ATTR gaq_seq raw g).
Proof.
  answering. resolving. wp_step. sys_call. sys_reply.
Qed.

Lemma wp_setattr_size req p g :
  safe_path root p -> W (setattr_size root req p) g (quiet g).
Proof.
  intros Hp. unfold setattr_size. destruct (has_bits _ _); [|done].
  wp_step. wp_step. eapply wp_mono; [|apply wp_open_safe; [done|discriminate 1]].
  intros [fd|e] g' Ho; [|done]. destruct Ho as [Hf [kind ->]]. apply wp_with_file; [done|].
  sys_call. scoped.
Qed.

Lemma wp_setattr_attrs req p g :
  safe_path root p -> W (setattr_attrs root req p) g (quiet g).
Proof.
  intros Hp. unfold setattr_attrs. destruct (has_bits _ _); [|done].
  eapply wp_seq; [apply wp_open_safe; [done|discriminate 1]|].
  intros [fd|e] g' Ho; [|done]. destruct Ho as [Hf [kind ->]]. apply wp_with_file; [done|].
  wp_step. unfold setattr_mode, setattr_times. destruct (has_bits (saq_valid req) 0x1).
  - wp_step. sys_call. wp_step. case_match; [scoped|]. destruct (_ || _); [|scoped].
    wp_step. sys_call. scoped.
  - wp_step. destruct (_ || _); [|scoped]. wp_step. sys_call. scoped.
Qed.

Lemma handle_setattr_ok raw g :
  W (handle_setattr root raw) g (answers OP_SET_ATTR saq_seq raw g).
Proof.
  answering. resolving. eapply wp_seq; [by apply wp_setattr_size|].
  intros err g1 Hg. unfold quiet in Hg. subst g1.
  eapply (wp_seq _ _ _ _ (quiet g)).
  { destruct err; [done|]. by apply wp_setattr_attrs. }
  intros [st|] g1 Hg; unfold quiet in Hg; subst g1.
  - sys_reply.
  - wp_step. sys_call. sys_reply.
Qed.

Lemma handle_readdir_ok raw g :
  W (handle_readdir root raw) g (answers OP_READ_DIR rdq_seq raw g).
Proof.
  answering. resolving. wp_step. sys_call. destruct x; sys_reply.
Qed.

Lemma handle_mkdir_ok raw g :
  W (handle_mkdir session root raw) g (answers OP_MKDIR mdq_seq raw g).
Proof.
  answering. resolving. sys_quiet wp_mkdir_confined. sys_quiet wp_sync_if_ok.
  eapply wp_seq; [eapply wp_stat_if_ok; eauto|]. intros stat g' Hg. unfold quiet in Hg. subst.
  sys_reply.
Qed.

Lemma handle_rmdir_ok raw g :
  W (handle_rmdir session root raw) g (answers OP_RMDIR pq_seq raw g).
Proof.
  answering. resolving. sys_quiet wp_remove_confined. sys_quiet wp_sync_if_ok. sys_reply.
Qed.

Lemma handle_unlink_ok raw g :
  W (handle_unlink session root raw) g (answers OP_UNLINK pq_seq raw g).
Proof.
  answering. resolving. sys_quiet wp_remove_confined. sys_quiet wp_sync_if_ok. sys_reply.
Qed.

Lemma handle_rename_ok raw g :
  W (handle_rename session root raw) g (answers OP_RENAME rnq_seq raw g).
Proof.
  answering. resolving. resolving. sys_quiet wp_rename_confined.
  eapply (wp_seq _ _ _ _ (quiet g)); [|intros [] g' Hg; unfold quiet in Hg; subst; sys_reply].
  destruct (_ && _); [|done]. sys_quiet wp_sync_parent_dir.
  case_decide; [done|]. by apply wp_sync_parent_dir.
Qed.

Lemma handle_symlink_ok raw g :
  W (handle_symlink session root raw) g (answers OP_SYMLINK slq_seq raw g).
Proof.
  answering. destruct (_ <? _); [sys_reply|]. resolving.
  sys_quiet wp_symlink_confined. sys_quiet wp_sync_if_ok.
  eapply wp_seq; [eapply wp_stat_if_ok; eauto|]. intros stat g' Hg. unfold quiet in Hg. subst.
  sys_reply.
Qed.

Lemma handle_readlink_ok raw g :
  W (handle_readlink root raw) g (answers OP_READLINK pq_seq raw g).
Proof.
  answering. resolving. sys_quiet wp_readlink_confined. destruct a; sys_reply.
Qed.

Lemma handle_link_ok raw g :
  W (handle_link session root raw) g (answers OP_LINK lkq_seq raw g).
Proof.
  answering. resolving. resolving. sys_quiet wp_link_confined. sys_quiet wp_sync_if_ok.
  eapply wp_seq; [eapply wp_stat_if_ok; eauto|]. intros stat g' Hg. unfold quiet in Hg. subst.
  sys_reply.
Qed.

Lemma open_oflags_no_creat flags : has_bits (open_oflags flags) O_CREAT = false.
Proof.
  unfold open_oflags. destruct (has_bits flags 0x400);
    destruct (Z.land flags 3) as [|[[]|[]|]|]; done.
Qed.

(** Hand the descriptor over to the handle table, or close it. *)
Lemma wp_insert_file {A} p flags fd kind g (k : option Z -> sys A) Q :
  safe_path root p -> g_own g !! fd = None ->
  (forall id, W (k (Some id)) g Q) ->
  W (k None) (own_add fd kind g) Q ->
  W (h <- sc (TryInsert p flags fd) ;; k h) (own_add fd kind g) Q.
Proof.
  intros Hp Hf Hs Hn. wp_step. wp_step; [split; [done|apply owned_own_add]|].
  cbn [sp_post srv_spec srv_post]. intros [id|] g' ->; [|done]. by rewrite own_del_add.
Qed.

Lemma handle_open_ok raw g :
  W (handle_open root raw) g (answers OP_OPEN opq_seq raw g).
Proof.
  answering. resolving. eapply wp_seq; [apply wp_open_safe; [done|]|].
  { by rewrite open_oflags_no_creat. }
  intros [fd|e] g' Ho; cbn [opened] in Ho; [|subst; sys_reply].
  destruct Ho as [Hf [kind ->]]. wp_step. sys_call. apply wp_insert_file; [done..| |].
  - intros id. sys_reply.
  - wp_step. wp_step; [apply owned_own_add|].
    cbn [sp_post srv_spec srv_post]. intros _ g' ->. rewrite own_del_add by done. sys_reply.
Qed.

Lemma handle_release_ok raw g :
  W (handle_release session raw) g (answers OP_RELEASE rlq_seq raw g).
Proof.
  answering. wp_step. wp_step; [done|]. cbn [sp_post srv_spec srv_post].
  intros [h|] g' Hg; [|subst; sys_reply]. destruct Hg as [Hf ->].
  unfold with_file. eapply (wp_seq _ _ _ _ (replied OP_RELEASE (rlq_seq r) (own_add (oh_file h) Beneath g))).
  - eapply (wp_seq _ _ _ _ (quiet (own_add (oh_file h) Beneath g))).
    + destruct (s_sync_on_close session); [|done]. wp_step. sys_call. done.
    + intros s g' Hg. unfold quiet in Hg. subst. sys_reply.
  - intros res g' [[Ho Hl] Hr]. wp_step. wp_step; [exists Beneath; rewrite Ho; apply lookup_insert_eq|].
    cbn [sp_post srv_spec srv_post]. intros _ g1 ->. split.
    + split; [|done]. simpl. rewrite Ho. simpl. by rewrite delete_insert_id.
    + done.
Qed.

Lemma handle_statfs_ok raw g :
  W (handle_statfs root raw) g (answers OP_STAT_FS pq_seq raw g).
Proof.
  answering. resolving. unfold query_statfs. destruct (path_no_nul _).
  - wp_step. wp_step. sys_call. wp_step. sys_reply.
  - wp_step. wp_step. sys_reply.
Qed.
End Obligations.
