(* ===== verification/DataOps.v ===== *)
(** * Data handlers

    [src/server/src/ops/data.rs], the unix build.  The receive side of the
    stream is the bytes the client sends on it, read with
    [FrameIo.read_frame]. *)

From S2P Require Import Prelude Prog Text Status Frames FrameIo Os Sanitize WriteLock Confine Reply MetaOps.

Definition CHUNK : Z := 256 * 1024.
Definition MAX_READ_REQUEST : Z := 16 * 1024 * 1024.

(** [fn write_at]: the new [total] on success. *)
Definition write_at (fd offset : Z) (data : bytes) (total : Z) (append : bool) : sys (io Z) :=
  _ <-? (if append then Ret (Ok 0) else sc (SeekStart fd offset)) ;;
  _ <-? sc (WriteAll fd data) ;;
  Ret (Ok (sat_add64 total (zlen data))).

(** [let _write_guard = stripe_for(key).lock().await;]: released on every exit. *)
Definition with_stripe {A} (key : Z) (body : sys A) : sys A :=
  sc (LockStripe (stripe_for key)) ;;;
  r <- body ;;
  sc (UnlockStripe (stripe_for key)) ;;;
  Ret r.

Section Handlers.
Context {C : Codec}.
Variables (session : ClientSession) (root : path).

(** [fn send_read_err] *)
Definition send_read_err (seq offset : Z) (s : Status) : sys (anyhow unit) :=
  send_resp (MkReadResponse OP_READ seq (status_as_u8 s) offset [] true).

(** The [while remaining > 0] loop of [handle_read]; [remaining] drops by at
    least one byte in every iteration that does not break, so [remaining] of
    fuel is enough. *)
Fixpoint read_loop (fuel : nat) (fd seq offset remaining : Z) : sys (anyhow unit) :=
  if remaining <=? 0 then (_ <-? sc Finish ;; Ret (Ok tt))
  else match fuel with
  | O => Ret (Err (lit "out of fuel"))
  | S fuel =>
      let to_read := Z.min remaining CHUNK in
      r <- (_ <-? sc (SeekStart fd offset) ;; sc (ReadFile fd to_read)) ;;
      match r with
      | Err e => send_read_err seq offset (status_from_io e)
      | Ok buf =>
          let n := zlen buf in
          let eof := n =? 0 in
          let remaining := sat_sub remaining n in
          let last_frame := eof || (remaining =? 0) in
          match encode (MkReadResponse OP_READ seq (status_as_u8 StOk) offset buf last_frame) with
          | None => Ret (Err (lit "msgpack encode"))
          | Some b =>
              _ <-? sc (SendFrame b) ;;
              sc (RecordTx (zlen b)) ;;;
              if eof then (_ <-? sc Finish ;; Ret (Ok tt))
              else read_loop fuel fd seq (wrap64 (offset + n)) remaining
          end
      end
  end.

Definition handle_read (raw : bytes) : sys (anyhow unit) :=
  req <-? decoded (T := ReadRequest) raw ;;
  if MAX_READ_REQUEST <? rq_length req then
    send_read_err (rq_seq req) (rq_offset req) StInvalidArg
  else
    f <- sc (GetFile (rq_handle req)) ;;
    match f with
    | None => send_read_err (rq_seq req) (rq_offset req) StStale
    | Some fd => read_loop (Z.to_nat (rq_length req)) fd (rq_seq req) (rq_offset req) (rq_length req)
    end.

(** The [while !done] loop of [handle_write].  Every iteration consumes at
    least the four bytes of a length prefix, so the length of the stream is
    enough fuel ([write_loop_fuel]). *)
Fixpoint write_loop (fuel : nat) (recv : bytes) (fd seq total : Z) (append done : bool) :
    sys (anyhow unit) :=
  if done then
    send_resp_tx (MkWriteResponse OP_WRITE seq (status_as_u8 StOk) total)
  else match fuel with
  | O => Ret (Err (lit "out of fuel"))
  | S fuel =>
      match read_frame recv with
      | Err e => Ret (Err e)
      | Ok (chunk_raw, recv) =>
          sc (RecordRx (zlen chunk_raw)) ;;;
          chunk <-? decoded (T := WriteRequest) chunk_raw ;;
          w <- write_at fd (wq_offset chunk) (wq_data chunk) total append ;;
          match w with
          | Err e => send_resp (MkWriteResponse OP_WRITE seq (status_as_u8 (status_from_io e)) total)
          | Ok total => write_loop fuel recv fd seq total append (wq_done chunk)
          end
      end
  end.

Definition handle_write (recv raw : bytes) : sys (anyhow unit) :=
  first <-? decoded (T := WriteRequest) raw ;;
  let seq := wq_seq first in
  ctx <- sc (GetWriteCtx (wq_handle first)) ;;
  match ctx with
  | None => send_resp (MkWriteResponse OP_WRITE seq (status_as_u8 StStale) 0)
  | Some (fd, flags, key) =>
      let append := has_bits flags 0x400 in
      with_stripe key
        (w <- write_at fd (wq_offset first) (wq_data first) 0 append ;;
         match w with
         | Err e => send_resp (MkWriteResponse OP_WRITE seq (status_as_u8 (status_from_io e)) 0)
         | Ok total => write_loop (S (length recv)) recv fd seq total append (wq_done first)
         end)
  end.

(** The open flags of [handle_create]. *)
Definition create_oflags (flags : Z) : Z :=
  let f := Z.lor (Z.lor O_RDWR O_CREAT) O_NOFOLLOW in
  let f := if has_bits flags 0x80 then Z.lor f O_EXCL else f in
  let f := if has_bits flags 0x200 then Z.lor f O_TRUNC else f in
  if has_bits flags 0x400 then Z.lor f O_APPEND else f.

Definition handle_create (raw : bytes) : sys (anyhow unit) :=
  req <-? decoded (T := CreateRequest) raw ;;
  r <- resolve root (crq_path req) ;;
  match r with
  | Err _ => open_fail OP_CREATE (crq_seq req) StPermission
  | Ok resolved =>
      o <- open_confined root resolved (create_oflags (crq_flags req))
             (Z.land (crq_mode req) perm_mask) ;;
      match o with
      | Err e =>
          send_resp_tx (MkOpenResponse OP_CREATE (crq_seq req) (status_as_u8 (status_from_io e)) 0 None)
      | Ok f =>
          sc (SetPermissions f (Z.land (crq_mode req) perm_mask)) ;;;
          m <- sc (FileMetadata f) ;;
          h <- sc (TryInsert resolved (crq_flags req) f) ;;
          match h with
          | Some handle =>
              (if s_sync_metadata session then sync_parent_dir root resolved else Ret tt) ;;;
              send_resp_tx (MkOpenResponse OP_CREATE (crq_seq req) (status_as_u8 StOk) handle (stat_ok m))
          | None =>
              sc (Close f) ;;;
              send_resp_tx (MkOpenResponse OP_CREATE (crq_seq req) (status_as_u8 StNoSpace) 0 None)
          end
      end
  end.

Definition handle_fsync (raw : bytes) : sys (anyhow unit) :=
  req <-? decoded (T := FsyncRequest) raw ;;
  f <- sc (GetFile (fsq_handle req)) ;;
  match f with
  | None => send_resp (MkStatusResponse OP_FSYNC (fsq_seq req) (status_as_u8 StStale))
  | Some fd =>
      r <- (if fsq_datasync req then sc (SyncData fd) else sc (SyncAll fd)) ;;
      send_resp_tx (MkStatusResponse OP_FSYNC (fsq_seq req) (status_as_u8 (status_of_io r)))
  end.
End Handlers.

(** ** Every handler meets the server's obligations *)

Section Obligations.
Context {C : Codec}.
Context {legacy : bool}.
Variables (session : ClientSession) (root : path).
Abbreviation W := (wp (srv_spec legacy root)).

Ltac answering := unfold answers; apply wp_decoded; case_match; [|done].

(** [handle_read] may send several frames, all answers to the request. *)
Definition streamed (op seq : Z) (g : ghost) (r : anyhow unit) (g' : ghost) : Prop :=
  settled g g' /\ exists fs, g_sent g' = g_sent g ++ fs /\ Forall (reply_to op seq) fs.

Lemma replied_streamed op seq g r g' : replied op seq g r g' -> streamed op seq g r g'.
Proof.
  intros [Hs [(b & Hb & He)|[_ He]]]; (split; [done|]); rewrite He; [exists [b]|exists []].
  - split; [done|]. by constructor.
  - by rewrite app_nil_r.
Qed.

Lemma streamed_more op seq g b r g' :
  reply_to op seq b -> streamed op seq (sent b g) r g' -> streamed op seq g r g'.
Proof.
  intros Hb [[Ho Hl] (fs & Hfs & HF)]. split; [done|]. exists (b :: fs).
  split; [|by constructor]. rewrite Hfs. simpl. by rewrite <- app_assoc.
Qed.

Lemma wp_read_loop fuel fd seq offset remaining g :
  usable g fd ->
  W (read_loop fuel fd seq offset remaining) g (streamed OP_READ seq g).
Proof.
  assert (forall g, streamed OP_READ seq g (Ok tt) g) as Hself
    by (intros g0; split; [done|]; exists []; by rewrite app_nil_r).
  assert (forall g e, streamed OP_READ seq g (Err e) g) as Herr
    by (intros g0 e; split; [done|]; exists []; by rewrite app_nil_r).
  revert offset remaining g. induction fuel as [|fuel IH]; intros offset remaining g Hu; cbn [read_loop].
  - destruct (remaining <=? 0); [|apply Herr]. wp_step. sys_call. destruct x as [[]|]; [apply Hself|apply Herr].
  - destruct (remaining <=? 0).
    { wp_step. sys_call. destruct x as [[]|]; [apply Hself|apply Herr]. }
    eapply (wp_seq _ _ _ _ (quiet g)).
    { wp_step. sys_call. destruct x; [|done]. sys_call. done. }
    intros [buf|e] g' Hg; unfold quiet in Hg; subst g'.
    2:{ eapply wp_mono; [intros r g'; apply replied_streamed|]. sys_reply. }
    cbv zeta. destruct (encode _) as [b|] eqn:Eb; [|apply Herr].
    assert (reply_to OP_READ seq b) as Hb.
    { exists ReadResponse, _, _. eexists. split; [exact Eb|]. do 2 (split; [reflexivity|]). by exists StOk. }
    wp_step. wp_step; [done|]. cbn [sp_post srv_spec srv_post]. intros [[]|e] g' ->; [|apply Herr].
    wp_step. sys_call. eapply wp_mono; [intros r g'; by apply streamed_more|].
    destruct (zlen buf =? 0).
    + wp_step. sys_call. destruct x0 as [[]|]; [apply Hself|apply Herr].
    + apply IH. destruct Hu; [by left|by right].
Qed.

Lemma handle_read_ok raw g :
  W (handle_read raw) g (fun r g' =>
    match decode raw with
    | Some req => streamed OP_READ (rq_seq req) g r g'
    | None => is_ok r = false /\ g' = g
    end).
Proof.
  apply wp_decoded. case_match; [|done].
  destruct (_ <? _). { eapply wp_mono; [intros ??; apply replied_streamed|]. sys_reply. }
  wp_step. wp_step; [done|]. cbn [sp_post srv_spec srv_post]. intros [fd|] g' ->.
  - eapply wp_mono; [|apply wp_read_loop; right; simpl; set_solver].
    intros res g' [[Ho Hl] Hs]. by split.
  - eapply wp_mono; [intros ??; apply replied_streamed|]. sys_reply.
Qed.

(** A write is made with the stripe of the file's inode key held. *)
Definition locked (g : ghost) (fd : Z) : Prop :=
  usable g fd /\ exists key, g_key g !! fd = Some key /\ g_lock g = Some (stripe_for key).

Lemma wp_write_at fd off data total append g :
  locked g fd -> W (write_at fd off data total append) g (quiet g).
Proof.
  intros [Hu Hk]. unfold write_at. wp_step. eapply (wp_mono _ _ _ (quiet g)).
  - intros [n|e] g' Hg; unfold quiet in Hg; subst; [|done].
    wp_step. wp_step; [by split|]. by intros [[]|] g' ->.
  - destruct append; [done|]. sys_call. done.
Qed.

Lemma wp_write_loop fuel recv fd seq total append done g :
  locked g fd -> W (write_loop fuel recv fd seq total append done) g (replied OP_WRITE seq g).
Proof.
  revert recv total done. induction fuel as [|fuel IH]; intros recv total dn Hl; cbn [write_loop].
  - destruct dn; [sys_reply|]. split; [done|by right].
  - destruct dn; [sys_reply|].
    destruct (read_frame recv) as [[chunk_raw recv']|e]; [|split; [done|by right]].
    wp_step. sys_call. apply wp_decoded. case_match; [|split; [done|by right]].
    eapply wp_seq; [by apply wp_write_at|]. intros [t|e] g' Hg; unfold quiet in Hg; subst.
    + by apply IH.
    + sys_reply.
Qed.

Lemma handle_write_ok recv raw g :
  g_lock g = None ->
  W (handle_write recv raw) g (answers OP_WRITE wq_seq raw g).
Proof.
  intros Hlock. answering. cbv zeta. wp_step. wp_step; [done|]. cbn [sp_post srv_spec srv_post].
  intros [[[fd flags] key]|] g' ->; [|sys_reply].
  set (g1 := with_key fd key (share fd g)). unfold with_stripe. wp_step. wp_step.
  { split; [done|]. unfold stripe_for. by apply Z.mod_pos_bound. }
  cbn [sp_post srv_spec srv_post]. intros _ g' ->.
  set (g2 := with_lock (Some (stripe_for key)) g1).
  assert (locked g2 fd) as Hl.
  { split; [right; simpl; set_solver|]. exists key. simpl. by rewrite lookup_insert_eq. }
  eapply (wp_seq _ _ _ _ (replied OP_WRITE (wq_seq w) g2)).
  - eapply wp_seq; [by apply wp_write_at|]. intros [t|e] g' Hg; unfold quiet in Hg; subst.
    + by apply wp_write_loop.
    + sys_reply.
  - intros r g' [[Ho Hlk] Hr]. wp_step. wp_step; [done|].
    cbn [sp_post srv_spec srv_post]. intros _ g3 ->. split.
    + split; [done|]. simpl. by rewrite Hlock.
    + done.
Qed.

Lemma handle_create_ok raw g :
  W (handle_create session root raw) g (answers OP_CREATE crq_seq raw g).
Proof.
  answering. apply wp_resolved; [intros e; sys_reply|]. intros p Hp.
  eapply wp_seq; [apply wp_open_safe; auto with quicfs|].
  intros [fd|e] g' Ho; cbn [opened] in Ho; [|subst; sys_reply].
  destruct Ho as [Hf [kind ->]]. wp_step. sys_call. wp_step. sys_call.
  apply wp_insert_file; [done..| |].
  - intros id. eapply (wp_seq _ _ _ _ (quiet g)); [|intros [] g' Hg; unfold quiet in Hg; subst; sys_reply].
    destruct (s_sync_metadata session); [by apply wp_sync_parent_dir|done].
  - wp_step. wp_step; [apply owned_own_add|].
    cbn [sp_post srv_spec srv_post]. intros _ g' ->. rewrite own_del_add by done. sys_reply.
Qed.

Lemma handle_fsync_ok raw g :
  W (handle_fsync raw) g (answers OP_FSYNC fsq_seq raw g).
Proof.
  answering. wp_step. wp_step; [done|]. cbn [sp_post srv_spec srv_post].
  intros [fd|] g' ->; [|sys_reply].
  assert (usable (share fd g) fd) as Hu by (right; simpl; set_solver).
  eapply (wp_seq _ _ _ _ (quiet (share fd g))).
  - destruct (fsq_datasync _); sys_call; done.
  - intros r g' Hg. unfold quiet in Hg. subst.
    eapply wp_mono; [|sys_reply]. intros res g' [[Ho Hl] Hr]. by split.
Qed.
End Obligations.

(** ** The loops end by themselves *)

Section Termination.
Context {C : Codec} {S : Type} (env : forall X, sysE X -> S -> X * S).

Lemma read_loop_fuel fuel fuel' fd seq offset remaining s :
  (Z.to_nat remaining <= fuel)%nat -> (Z.to_nat remaining <= fuel')%nat ->
  run env (read_loop fuel fd seq offset remaining) s =
  run env (read_loop fuel' fd seq offset remaining) s.
Proof.
  revert fuel' offset remaining s. induction fuel as [|fuel IH]; intros [|fuel'] offset remaining s H1 H2;
    cbn [read_loop]; destruct (Z.leb_spec remaining 0); try done; try lia.
  apply run_bind_ext. clear s. intros [buf|e] s; [|done]. cbv zeta.
  destruct (encode _) as [b|]; [|done]. apply run_bindr_ext. clear s. intros _ s.
  apply run_bind_ext. clear s. intros _ s. destruct (Z.eqb_spec (zlen buf) 0); [done|].
  unfold sat_sub. apply IH; [lia|]. lia.
Qed.

Lemma write_loop_fuel fuel fuel' recv fd seq total append fin s :
  (length recv < fuel)%nat -> (length recv < fuel')%nat ->
  run env (write_loop fuel recv fd seq total append fin) s =
  run env (write_loop fuel' recv fd seq total append fin) s.
Proof.
  revert fuel' recv total fin s. induction fuel as [|fuel IH]; intros [|fuel'] recv total fin s H1 H2;
    cbn [write_loop]; destruct fin; try done; try lia.
  destruct (read_frame recv) as [[raw recv']|e] eqn:Ef; [|done].
  apply read_frame_inv in Ef as [-> _]. rewrite !length_app in H1, H2.
  assert (length (be32 (zlen raw)) = 4%nat) as Hb by done.
  apply run_bind_ext. clear s. intros _ s. apply run_bindr_ext. clear s. intros chunk s.
  apply run_bind_ext. clear s. intros [t|e] s; [|done]. apply IH; lia.
Qed.
End Termination.

(** C31: the two loops of the data path whose length the client or the file
    decides end by themselves.  Against every environment, adding fuel to what
    [handle_read] and [handle_write] give their loops changes neither the result
    nor the effects, so neither is ever cut short: a read loop is over after at
    most as many rounds as bytes were asked for, a write loop when the stream
    has no further frame. *)
Theorem data_loops_terminate {C : Codec} {S : Type} (env : forall X, sysE X -> S -> X * S) fd seq s :
  (forall offset len extra,
     run env (read_loop (Z.to_nat len + extra) fd seq offset len) s =
     run env (read_loop (Z.to_nat len) fd seq offset len) s) /\
  (forall recv total append fin extra,
     run env (write_loop (1 + length recv + extra) recv fd seq total append fin) s =
     run env (write_loop (1 + length recv) recv fd seq total append fin) s).
Proof. split; intros; [apply read_loop_fuel | apply write_loop_fuel]; lia. Qed.
