(* ===== verification/CtrlOps.v ===== *)
(** * Control handlers

    [src/server/src/ops/ctrl.rs] and [src/server/src/auth.rs]: the mandatory
    handshake on the first stream of a connection, and ping.  The TLS peer's
    certificate chain is an argument; fingerprinting a certificate is the work
    of the x509, SHA-256 and base64 crates behind [trust::cert_fingerprint], a
    parameter here. *)

From S2P Require Import Prelude Prog Text Status Frames FrameIo Os Sanitize WriteLock Confine Reply.

Definition MAX_CHUNK_SIZE : Z := 4 * 1024 * 1024.

(** [struct ClientIdentity], [from_mtls_fingerprint] *)
Record ClientIdentity := MkClientIdentity { ci_subject : str }.
Definition from_mtls_fingerprint (fp : str) : ClientIdentity := MkClientIdentity fp.

(** [supported_features]: nothing yet *)
Definition supported_features : list str := [].

(** The feature filter of [handle_handshake]. *)
Definition negotiate (requested : list str) : list str :=
  List.filter (fun f => existsb (str_eqb f) supported_features) requested.

Lemma negotiate_nil l : negotiate l = [].
Proof. unfold negotiate. by induction l. Qed.

Section Handlers.
Context {C : Codec}.
Variable cert_fingerprint : bytes -> option str.
Variables (session : ClientSession) (root : path).

(** [extract_mtls_fingerprint]: [peer] is [conn.peer_identity()] downcast to
    its certificate chain. *)
Definition extract_mtls_fingerprint (peer : option (list bytes)) : option str :=
  certs ← peer; cert_der ← head certs; cert_fingerprint cert_der.

Definition handshake_error (seq : Z) (status : Status) : HandshakeResponse :=
  MkHandshakeResponse OP_HANDSHAKE seq (status_as_u8 status) 1 [] 0 [] [].

(** [send_handshake_error] *)
Definition send_handshake_error (seq : Z) (status : Status) : sys (anyhow unit) :=
  send_resp (handshake_error seq status).

Definition handshake_response (req : HandshakeRequest) (server_id : str) : HandshakeResponse :=
  MkHandshakeResponse OP_HANDSHAKE (hq_seq req) (status_as_u8 StOk) 1
    (negotiate (hq_features req)) (Z.min (hq_chunk_size req) MAX_CHUNK_SIZE) server_id
    (default (lit "export") (file_name root)).

(** [handle_handshake]; [recv] is what the peer sent on the stream. *)
Definition handle_handshake (recv : bytes) (peer : option (list bytes)) (server_id : str) :
    sys (anyhow ClientIdentity) :=
  match read_frame recv with
  | Err e => Ret (Err e)
  | Ok (raw, _) =>
      match decode (T := Envelope) raw with
      | None => Ret (Err (lit "msgpack decode"))
      | Some env =>
          if negb (env_op env =? OP_HANDSHAKE) then Ret (Err (lit "expected Handshake (0xF0)"))
          else match decode (T := HandshakeRequest) raw with
          | None => Ret (Err (lit "msgpack decode"))
          | Some req =>
              if MAX_CHUNK_SIZE <? hq_chunk_size req then
                _ <-? send_handshake_error (hq_seq req) StInvalidArg ;;
                Ret (Err (lit "chunk_size exceeds maximum"))
              else if negb (str_eqb (hq_auth_type req) (lit "mtls")) then
                _ <-? send_handshake_error (hq_seq req) StPermission ;;
                Ret (Err (lit "unsupported auth_type"))
              else
                let fingerprint := default (lit "unknown") (extract_mtls_fingerprint peer) in
                let identity := from_mtls_fingerprint fingerprint in
                _ <-? send_resp (handshake_response req server_id) ;;
                Ret (Ok identity)
          end
      end
  end.

Definition handle_ping (raw : bytes) : sys (anyhow unit) :=
  req <-? decoded (T := PingRequest) raw ;;
  send_resp_tx (MkPingResponse OP_PING (pgq_seq req) (status_as_u8 StOk)).
End Handlers.

(** ** Lemmas *)

Section Obligations.
Context {C : Codec}.
Context {legacy : bool}.
Variables (session : ClientSession) (root : path).
Abbreviation W := (wp (srv_spec legacy root)).

Lemma handle_ping_ok raw g :
  W (handle_ping raw) g (fun r g' =>
    match decode raw with
    | Some req => replied OP_PING (pgq_seq req) g r g'
    | None => is_ok r = false /\ g' = g
    end).
Proof.
  unfold handle_ping, decoded. wp_step. wp_step. destruct (decode raw) as [req|]; [|done].
  sys_reply.
Qed.

(** Which bytes [send_resp] puts on the stream. *)
Lemma wp_send_resp_bytes {T} `{!Wire T} (x : T) g :
  W (send_resp x) g (fun r g' =>
    settled g g' /\
    ((exists b, encode x = Some b /\ g_sent g' = g_sent g ++ [b]) \/
     (is_ok r = false /\ g_sent g' = g_sent g))).
Proof.
  unfold send_resp. destruct (encode x) as [b|] eqn:Eb; [|split; [done|by right]].
  wp_step. wp_step; [done|]. intros [[]|e] g' Hg; simpl in Hg; subst g'.
  - wp_step. wp_step; [done|]. intros [[]|e] g' Hg; simpl in Hg; subst g'; (split; [done|]); left; eauto.
  - split; [done|]. by right.
Qed.
End Obligations.

(** The one answer a handshake request gets, and the identity the connection
    then runs under. *)
Definition handshake_verdict (cert_fingerprint : bytes -> option str) (root : path)
    (peer : option (list bytes)) (server_id : str) (req : HandshakeRequest) :
    HandshakeResponse * option ClientIdentity :=
  if MAX_CHUNK_SIZE <? hq_chunk_size req then (handshake_error (hq_seq req) StInvalidArg, None)
  else if bool_decide (hq_auth_type req = lit "mtls") then
    (MkHandshakeResponse OP_HANDSHAKE (hq_seq req) 0 1 [] (hq_chunk_size req) server_id
       (default (lit "export") (file_name root)),
     Some (MkClientIdentity (default (lit "unknown") (extract_mtls_fingerprint cert_fingerprint peer))))
  else (handshake_error (hq_seq req) StPermission, None).

Lemma wp_handle_handshake {C : Codec} {legacy : bool} cert_fingerprint root recv peer server_id g :
  wp (srv_spec legacy root) (handle_handshake cert_fingerprint root recv peer server_id) g (fun r g' =>
    settled g g' /\
    match read_frame recv with
    | Err _ => is_ok r = false /\ g_sent g' = g_sent g
    | Ok (raw, _) =>
        match decode (T := Envelope) raw, decode (T := HandshakeRequest) raw with
        | Some env, Some req =>
            if env_op env =? OP_HANDSHAKE then
              let '(resp, verdict) := handshake_verdict cert_fingerprint root peer server_id req in
              (forall id, r = Ok id -> verdict = Some id) /\
              ((exists b, encode resp = Some b /\ g_sent g' = g_sent g ++ [b]) \/
               (is_ok r = false /\ g_sent g' = g_sent g))
            else is_ok r = false /\ g_sent g' = g_sent g
        | _, _ => is_ok r = false /\ g_sent g' = g_sent g
        end
    end).
Proof.
  unfold handle_handshake. destruct (read_frame recv) as [[raw rest]|e]; [|done].
  destruct (decode raw) as [env|]; [|done].
  destruct (env_op env =? OP_HANDSHAKE); simpl negb; cbv iota; [|by destruct (decode raw)].
  destruct (decode raw) as [req|]; [|done]. unfold handshake_verdict.
  destruct (MAX_CHUNK_SIZE <? hq_chunk_size req) eqn:Ec.
  { wp_step. eapply wp_mono; [|apply wp_send_resp_bytes].
    intros [[]|e] g' [Hs Hb]; (split; [done|]); (split; [discriminate 1|]);
      (destruct Hb as [Hb|[_ Hb]]; [by left|by right]). }
  destruct (str_eqb _ _) eqn:Ea; simpl negb; cbv iota.
  - apply str_eqb_eq in Ea. rewrite bool_decide_true by done.
    wp_step. eapply wp_mono; [|apply wp_send_resp_bytes].
    assert (handshake_response root req server_id =
            MkHandshakeResponse OP_HANDSHAKE (hq_seq req) 0 1 [] (hq_chunk_size req) server_id
              (default (lit "export") (file_name root))) as ->.
    { unfold handshake_response. apply Z.ltb_ge in Ec. by rewrite Z.min_l, negotiate_nil by lia. }
    intros [[]|e] g' [Hs Hb]; (split; [done|]); (split; [|done]); [|discriminate 1].
    intros id [= <-]. done.
  - rewrite bool_decide_false by (intros E; rewrite E in Ea; by rewrite (proj2 (str_eqb_eq _ _)) in Ea).
    wp_step. eapply wp_mono; [|apply wp_send_resp_bytes].
    intros [[]|e] g' [Hs Hb]; (split; [done|]); (split; [discriminate 1|]);
      (destruct Hb as [Hb|[_ Hb]]; [by left|by right]).
Qed.

(** The handshake request a stream carries, if its first frame is one. *)
Definition handshake_request {C : Codec} (recv : bytes) : option HandshakeRequest :=
  match read_frame recv with
  | Ok (raw, _) =>
      env ← decode (T := Envelope) raw; req ← decode (T := HandshakeRequest) raw;
      if env_op env =? OP_HANDSHAKE then Some req else None
  | Err _ => None
  end.

(** A response goes out, its stream is finished, and then the verdict falls. *)
Lemma send_resp_then {C : Codec} {S T A : Type} `{!Wire T} (stream : forall X, sysE X -> S -> X * S) (x : T) (v : anyhow A) s :
  run stream (_ <-? send_resp x ;; Ret v) s =
  match encode x with
  | None => (Err (lit "msgpack encode"), s)
  | Some b =>
      let '(sent, s1) := stream _ (SendFrame b) s in
      match sent with
      | Err e => (Err e, s1)
      | Ok _ => let '(finished, s2) := stream _ Finish s1 in (match finished with Err e => Err e | Ok _ => v end, s2)
      end
  end.
Proof.
  unfold send_resp. destruct (encode x) as [b|]; [|by rewrite run_bindr, run_ret].
  rewrite run_bindr, run_bindr, run_call. destruct (stream _ (SendFrame b) s) as [[[]|e] s1]; [|done].
  rewrite run_bindr, run_call. destruct (stream _ Finish s1) as [[[]|e] s2]; [|done]. by rewrite run_ret, run_ret.
Qed.

(** ** Theorems *)

(** C25: the handshake, exactly, on every behaviour of the stream.  A first frame
    that cannot be read or decoded, or is no handshake, is answered with nothing.  A
    handshake request gets one response: a refusal when its chunk size is over 4 MiB
    (InvalidArg), or else its [auth_type] is not mtls (Permission); otherwise Ok with
    the chunk size asked for, no feature, the server's id and the last component of
    the export root.  The session starts exactly when an Ok response was encoded,
    sent and its stream finished without an error; its identity is the fingerprint of
    the TLS peer's leaf certificate, never a field of the request.  The response is
    the only thing sent. *)
Theorem handshake_outcome {C : Codec} {S : Type} (stream : forall X, sysE X -> S -> X * S)
    cert_fingerprint root recv peer server_id s :
  let '(r, s') := run stream (handle_handshake cert_fingerprint root recv peer server_id) s in
  match handshake_request recv with
  | None => is_ok r = false /\ s' = s
  | Some req =>
      let ok := bool_decide (hq_chunk_size req <= 4 * 1024 * 1024) && bool_decide (hq_auth_type req = lit "mtls") in
      let resp :=
        if ok then
          MkHandshakeResponse 0xF0 (hq_seq req) 0 1 [] (hq_chunk_size req) server_id
            (match last root with Some (Normal name) => name | _ => lit "export" end)
        else
          MkHandshakeResponse 0xF0 (hq_seq req)
            (if bool_decide (hq_chunk_size req <= 4 * 1024 * 1024) then 2 else 8) 1 [] 0 [] [] in
      let subject :=
        match peer with Some (cert :: _) => default (lit "unknown") (cert_fingerprint cert) | _ => lit "unknown" end in
      match encode resp with
      | None => is_ok r = false /\ s' = s
      | Some b =>
          let '(sent, s1) := stream _ (SendFrame b) s in
          match sent with
          | Err _ => is_ok r = false /\ s' = s1
          | Ok _ =>
              let '(finished, s2) := stream _ Finish s1 in
              s' = s2 /\ (if ok && is_ok finished then r = Ok (MkClientIdentity subject) else is_ok r = false)
          end
      end
  end.
Proof.
  unfold handle_handshake, handshake_request. destruct (read_frame recv) as [[raw rest]|e]; [|by rewrite run_ret].
  destruct (decode (T := Envelope) raw) as [env|]; [|by rewrite run_ret]. cbn [mbind option_bind].
  destruct (env_op env =? OP_HANDSHAKE); cbn [negb]; [|rewrite run_ret; by destruct (decode raw)].
  destruct (decode (T := HandshakeRequest) raw) as [req|]; [|by rewrite run_ret]. cbn [mbind option_bind].
  unfold MAX_CHUNK_SIZE. destruct (Z.ltb_spec (4 * 1024 * 1024) (hq_chunk_size req)) as [Hc|Hc].
  { rewrite bool_decide_false by lia. cbn [andb]. unfold send_handshake_error, handshake_error. rewrite send_resp_then.
    cbn [status_as_u8]. destruct (encode _) as [b|]; [|done]. destruct (stream _ (SendFrame b) s) as [[u|e] s1]; [|done].
    by destruct (stream _ Finish s1) as [[]]. }
  rewrite bool_decide_true by lia. cbn [andb]. destruct (str_eqb _ _) eqn:Ea; cbn [negb].
  - apply str_eqb_eq in Ea. rewrite bool_decide_true by done. rewrite send_resp_then.
    unfold handshake_response, MAX_CHUNK_SIZE. rewrite Z.min_l, negotiate_nil by lia. unfold file_name.
    replace (default (lit "export") (match last root with Some (Normal name) => Some name | _ => None end))
      with (match last root with Some (Normal name) => name | _ => lit "export" end) by (by destruct (last root) as [[]|]).
    destruct (encode _) as [b|]; [|done]. destruct (stream _ (SendFrame b) s) as [[u|e] s1]; [|done].
    destruct (stream _ Finish s1) as [[u'|e] s2]; [|done]. split; [done|]. cbn. unfold from_mtls_fingerprint, extract_mtls_fingerprint.
    by destruct peer as [[|cert rest']|].
  - rewrite bool_decide_false by (intros E; rewrite E in Ea; by rewrite (proj2 (str_eqb_eq _ _)) in Ea).
    unfold send_handshake_error, handshake_error. rewrite send_resp_then. cbn [status_as_u8].
    destruct (encode _) as [b|]; [|done]. destruct (stream _ (SendFrame b) s) as [[u|e] s1]; [|done].
    by destruct (stream _ Finish s1) as [[]].
Qed.
