(* ===== verification/Dispatch.v ===== *)
(** * Request dispatch

    [src/server/src/dispatch.rs]: one bidirectional stream, from the bytes the
    client sent to the frames that answer them, and the end-to-end guarantee of
    a server task.

    A task that exceeds [rpc_timeout] is dropped at its next suspension point;
    the obligations of [srv_spec] hold at every call, hence for every prefix of
    an execution, and the destructors of the files and of the stripe guard run. *)

From S2P Require Import Prelude Prog Text Status Frames FrameIo Os Sanitize WriteLock Confine Reply MetaOps DataOps CtrlOps.

Section Dispatch.
Context {C : Codec}.
Variables (session : ClientSession) (root : path).

(** The [unknown] arm. *)
Definition handle_unknown (op seq : Z) : sys (anyhow unit) :=
  send_resp (MkStatusResponse op seq (status_as_u8 StInvalidArg)).

(** [dispatch_inner] *)
Definition dispatch_inner (recv : bytes) : sys (anyhow unit) :=
  match read_frame recv with
  | Err e => Ret (Err e)
  | Ok (raw, recv) =>
      sc (RecordRx (zlen raw)) ;;;
      env <-? decoded (T := Envelope) raw ;;
      let op := env_op env in
      if op =? OP_PING then handle_ping raw
      else if op =? OP_GET_ATTR then handle_getattr root raw
      else if op =? OP_SET_ATTR then handle_setattr root raw
      else if op =? OP_READ_DIR then handle_readdir root raw
      else if op =? OP_MKDIR then handle_mkdir session root raw
      else if op =? OP_RMDIR then handle_rmdir session root raw
      else if op =? OP_UNLINK then handle_unlink session root raw
      else if op =? OP_RENAME then handle_rename session root raw
      else if op =? OP_SYMLINK then handle_symlink session root raw
      else if op =? OP_READLINK then handle_readlink root raw
      else if op =? OP_LINK then handle_link session root raw
      else if op =? OP_STAT_FS then handle_statfs root raw
      else if op =? OP_OPEN then handle_open root raw
      else if op =? OP_RELEASE then handle_release session raw
      else if op =? OP_READ then handle_read raw
      else if op =? OP_WRITE then handle_write recv raw
      else if op =? OP_CREATE then handle_create session root raw
      else if op =? OP_FSYNC then handle_fsync raw
      else handle_unknown op (env_seq env)
  end.

(** [dispatch_stream], for a task that meets its deadline: an error is logged
    and the stream dropped. *)
Definition dispatch_stream (recv : bytes) : sys unit :=
  _ <- dispatch_inner recv ;; Ret tt.
End Dispatch.

(** ** The codec reads one sequence number

    [Envelope] is the common prefix of every request, and both are read from
    the same MessagePack map: where both decode, they agree on [seq]. *)

Class SeqAgrees {C : Codec} {T} `{!Wire T} (seq_of : T -> Z) : Prop :=
  seq_agrees : forall raw env (req : T),
    decode raw = Some env -> decode raw = Some req -> seq_of req = env_seq env.

Class EnvelopeLaws (C : Codec) : Prop := {
  agrees_Ping :: SeqAgrees pgq_seq;
  agrees_GetAttr :: SeqAgrees gaq_seq;
  agrees_SetAttr :: SeqAgrees saq_seq;
  agrees_ReadDir :: SeqAgrees rdq_seq;
  agrees_MkDir :: SeqAgrees mdq_seq;
  agrees_Path :: SeqAgrees pq_seq;
  agrees_Rename :: SeqAgrees rnq_seq;
  agrees_Symlink :: SeqAgrees slq_seq;
  agrees_Link :: SeqAgrees lkq_seq;
  agrees_Open :: SeqAgrees opq_seq;
  agrees_Release :: SeqAgrees rlq_seq;
  agrees_Read :: SeqAgrees rq_seq;
  agrees_Write :: SeqAgrees wq_seq;
  agrees_Create :: SeqAgrees crq_seq;
  agrees_Fsync :: SeqAgrees fsq_seq
}.

(** ** The guarantee *)

(** The frames a stream got for what the client sent: none unless an envelope
    was received, otherwise answers to its operation and sequence number, one
    for every operation but Read. *)
Definition frames_answer {C : Codec} (recv : bytes) (r : anyhow unit) (fs : list bytes) : Prop :=
  match read_frame recv with
  | Err _ => is_ok r = false /\ fs = []
  | Ok (raw, _) =>
      match decode (T := Envelope) raw with
      | None => is_ok r = false /\ fs = []
      | Some env =>
          Forall (reply_to (env_op env) (env_seq env)) fs /\
          (env_op env <> OP_READ -> (length fs <= 1)%nat /\ (is_ok r = true -> length fs = 1%nat))
      end
  end.

(** What one stream leaves behind: no descriptor, no lock, and its answer. *)
Definition stream_outcome {C : Codec} (recv : bytes) (g : ghost) (r : anyhow unit) (g' : ghost) : Prop :=
  settled g g' /\ exists fs, g_sent g' = g_sent g ++ fs /\ frames_answer recv r fs.

Section Outcome.
Context {C : Codec} {EL : EnvelopeLaws C}.
Context {legacy : bool}.
Variables (session : ClientSession) (root : path).
Abbreviation W := (wp (srv_spec legacy root)).

(** What a handler owes the dispatcher for the envelope it was given. *)
Definition handled (env : Envelope) (g : ghost) (r : anyhow unit) (g' : ghost) : Prop :=
  settled g g' /\ exists fs, g_sent g' = g_sent g ++ fs /\
    Forall (reply_to (env_op env) (env_seq env)) fs /\
    (env_op env <> OP_READ -> (length fs <= 1)%nat /\ (is_ok r = true -> length fs = 1%nat)).

Lemma replied_handled env op seq g r g' :
  op = env_op env -> seq = env_seq env -> replied op seq g r g' -> handled env g r g'.
Proof.
  intros -> -> [Hs [(b & Hb & He)|[Hr He]]]; (split; [done|]); rewrite He.
  - exists [b]. split; [done|]. split; [by constructor|done].
  - exists []. rewrite app_nil_r. split; [done|]. split; [constructor|]. intros _. simpl.
    split; [lia|]. by rewrite Hr.
Qed.

(** A handler that answers the request it decodes is right for the dispatcher. *)
Lemma answers_handled {T} `{!Wire T} (seq_of : T -> Z) `{!SeqAgrees seq_of} op raw env g r g' :
  decode raw = Some env -> op = env_op env ->
  answers op seq_of raw g r g' -> handled env g r g'.
Proof.
  intros Henv Hop. unfold answers. destruct (decode (T := T) raw) as [req|] eqn:E.
  - apply replied_handled; [done|by eapply seq_agrees].
  - intros [Hr ->]. split; [done|]. exists []. rewrite app_nil_r. split; [done|].
    split; [constructor|]. simpl. intros _. split; [lia|]. by rewrite Hr.
Qed.

Lemma handle_read_handled raw env g r g' :
  decode raw = Some env -> env_op env = OP_READ ->
  match decode raw with
  | Some req => streamed OP_READ (rq_seq req) g r g'
  | None => is_ok r = false /\ g' = g
  end -> handled env g r g'.
Proof.
  intros Henv Hop. unfold handled. rewrite Hop. destruct (decode (T := ReadRequest) raw) as [req|] eqn:E.
  - intros [Hs (fs & Hf & HF)]. split; [done|]. exists fs. split; [done|].
    rewrite <- (seq_agrees (seq_of := rq_seq) raw env req) by done. split; [done|]. done.
  - intros [Hr ->]. split; [done|]. exists []. rewrite app_nil_r. split; [done|].
    split; [constructor|]. done.
Qed.

(** One arm of the [match]: the opcode test, the handler's own lemma. *)
#[local] Tactic Notation "arm" uconstr(lem) :=
  match goal with
  | |- wp _ (if ?op =? ?c then _ else _) _ _ =>
      let E := fresh "E" in
      destruct (op =? c) eqn:E;
      [ apply Z.eqb_eq in E; eapply wp_mono; [|by apply lem]; intros ? ?;
        eapply answers_handled; [exact _|done|done] | clear E ]
  end.

Lemma wp_dispatch_inner recv g :
  g_lock g = None -> W (dispatch_inner session root recv) g (stream_outcome recv g).
Proof.
  intros Hlock. unfold dispatch_inner, stream_outcome, frames_answer.
  assert (forall e : str, settled g g /\ exists fs, g_sent g = g_sent g ++ fs /\
            (is_ok (Err (A := unit) e) = false /\ fs = [])) as Hnone.
  { intros e. split; [done|]. exists []. by rewrite app_nil_r. }
  destruct (read_frame recv) as [[raw recv']|e]; [|apply Hnone].
  wp_step. sys_call. unfold decoded. wp_step. wp_step.
  destruct (decode raw) as [env|] eqn:Henv; simpl ok_or; [|apply Hnone]. cbv beta iota zeta.
  change (W ?m g _) with (W m g (handled env g)).
  arm handle_ping_ok. arm handle_getattr_ok. arm handle_setattr_ok. arm handle_readdir_ok.
  arm handle_mkdir_ok. arm handle_rmdir_ok. arm handle_unlink_ok. arm handle_rename_ok.
  arm handle_symlink_ok. arm handle_readlink_ok. arm handle_link_ok. arm handle_statfs_ok.
  arm handle_open_ok. arm handle_release_ok.
  destruct (env_op env =? OP_READ) eqn:E.
  { apply Z.eqb_eq in E. eapply wp_mono; [|apply handle_read_ok]. intros r g'.
    by apply handle_read_handled. }
  arm handle_write_ok. arm handle_create_ok. arm handle_fsync_ok.
  eapply wp_mono; [intros r g'; apply (replied_handled env); reflexivity|].
  unfold handle_unknown. sys_reply.
Qed.
End Outcome.
