(* ===== verification/FileServer.v ===== *)
(** * The data path of the server

    [handle_read], [handle_write] and [handle_readdir] executed against a server
    that holds one open file and one directory: what the client gets is the
    requested slice, what the file holds afterwards is what was sent.  Reads may
    be short, as [read(2)] allows: [short] chooses how many of the available
    bytes the [t]-th read returns.  The handle's access mode ([access]) is honoured
    (EBADF), and a seek beyond the largest offset is refused (EINVAL). *)

From S2P Require Import Prelude Prog Text Status Frames FrameIo Os Sanitize WriteLock Reply MetaOps DataOps.

(** ** File contents *)

(** [length] bytes from [off], fewer at the end of the file. *)
Definition slice (data : bytes) (off len : Z) : bytes := take (Z.to_nat len) (drop (Z.to_nat off) data).

(** A positioned write; a hole reads as zeros, an empty write changes nothing. *)
Definition put (data : bytes) (off : Z) (b : bytes) : bytes :=
  match b with
  | [] => data
  | _ =>
      let base := data ++ replicate (Z.to_nat off - length data) x00 in
      take (Z.to_nat off) base ++ b ++ drop (Z.to_nat off + length b) base
  end.

Lemma lookup_put d off b i :
  b <> [] ->
  put d off b !! i =
    if decide (i < Z.to_nat off)%nat then Some (default x00 (d !! i))
    else if decide (i < Z.to_nat off + length b)%nat then b !! (i - Z.to_nat off)%nat
    else d !! i.
Proof.
  intros Hb. unfold put. destruct b as [|x b]; [done|]. set (o := Z.to_nat off). set (c := x :: b).
  assert (forall j, (d ++ replicate (o - length d) x00) !! j =
            if decide (j < length d)%nat then d !! j
            else if decide (j < o)%nat then Some x00 else None) as Hbase.
  { intros j. destruct (decide (j < length d)%nat); [by apply lookup_app_l|].
    rewrite lookup_app_r by lia. destruct (decide (j < o)%nat).
    - apply lookup_replicate_2. lia.
    - apply lookup_ge_None. rewrite length_replicate. lia. }
  assert (length (take o (d ++ replicate (o - length d) x00)) = o) as Hlen.
  { rewrite length_take, length_app, length_replicate. lia. }
  destruct (decide (i < o)%nat).
  - rewrite lookup_app_l by lia. rewrite lookup_take_lt by lia. rewrite Hbase.
    destruct (decide (i < length d)%nat) as [Hi|Hi].
    + destruct (lookup_lt_is_Some_2 d i Hi) as [y ->]. done.
    + rewrite decide_True by done. by rewrite (lookup_ge_None_2 d) by lia.
  - rewrite lookup_app_r by lia. rewrite Hlen. destruct (decide (i < o + length c)%nat).
    + by rewrite lookup_app_l by lia.
    + rewrite lookup_app_r by lia. rewrite lookup_drop, Hbase.
      replace (o + length c + (i - o - length c))%nat with i by lia.
      destruct (decide (i < length d)%nat); [done|]. rewrite decide_False by lia.
      by rewrite lookup_ge_None_2 by lia.
Qed.

(** Consecutive writes are one write. *)
Lemma put_app d off a b :
  0 <= off -> put (put d off a) (off + zlen a) b = put d off (a ++ b).
Proof.
  intros Ho. destruct a as [|x a]; [by rewrite Z.add_0_r|].
  destruct b as [|y b]; [by rewrite app_nil_r|].
  set (a' := x :: a). set (b' := y :: b). apply list_eq. intros i.
  rewrite !lookup_put by done. rewrite length_app.
  replace (Z.to_nat (off + zlen a')) with (Z.to_nat off + length a')%nat by lia.
  destruct (decide (i < Z.to_nat off)%nat).
  { rewrite decide_True by lia. done. }
  destruct (decide (i < Z.to_nat off + length a')%nat).
  { rewrite decide_True by lia. rewrite lookup_app_l by lia.
    destruct (lookup_lt_is_Some_2 a' (i - Z.to_nat off)%nat) as [z ->]; [lia|done]. }
  destruct (decide (i < Z.to_nat off + length a' + length b')%nat).
  - rewrite decide_True by lia. rewrite lookup_app_r by lia. f_equal. lia.
  - by rewrite decide_False by lia.
Qed.

Record fserver := MkFserver {
  f_data : bytes;             (** the file *)
  f_pos : Z;                  (** its descriptor's cursor *)
  f_dir : list dir_item;      (** the directory, in [read_dir] order *)
  f_sent : list bytes;        (** frames sent on the current stream *)
  f_reads : nat               (** reads made so far *)
}.

Section Serve.
(** The open handle: its id, descriptor, the flags it was asked for and its inode key;
    the access mode of the descriptor, which a [create] does not take from the flags. *)
Variables (hid fd flags access key : Z).
Variable short : nat -> Z -> Z.

Definition set_data (d : bytes) (s : fserver) := MkFserver d (f_pos s) (f_dir s) (f_sent s) (f_reads s).
Definition set_pos (p : Z) (s : fserver) := MkFserver (f_data s) p (f_dir s) (f_sent s) (f_reads s).
Definition add_sent (b : bytes) (s : fserver) :=
  MkFserver (f_data s) (f_pos s) (f_dir s) (f_sent s ++ [b]) (f_reads s).

(** [read(2)] with room for [n] bytes. *)
Definition do_read (n : Z) (s : fserver) : bytes * fserver :=
  let avail := drop (Z.to_nat (f_pos s)) (f_data s) in
  let m := Z.min n (zlen avail) in
  let k := if m <=? 0 then 0 else short (f_reads s) m in
  (take (Z.to_nat k) avail, MkFserver (f_data s) (f_pos s + k) (f_dir s) (f_sent s) (S (f_reads s))).

(** [write_all], at the end of the file on an O_APPEND descriptor. *)
Definition do_write (b : bytes) (s : fserver) : fserver :=
  if has_bits flags 0x400 then set_data (f_data s ++ b) s
  else set_pos (f_pos s + zlen b) (set_data (put (f_data s) (f_pos s) b) s).

Definition io_fail {A} : io A := Err (IoError Other None).
Definition ebadf {A} : io A := Err (IoError Other (Some 9)).
Definition einval {A} : io A := Err (IoError InvalidInput (Some EINVAL)).

(** What O_RDONLY, O_WRONLY and O_RDWR allow; the fourth value allows neither. *)
Definition may_read_fd : bool := (access =? 0) || (access =? 2).
Definition may_write_fd : bool := (access =? 1) || (access =? 2).

(** A tree without symbolic links in which every path is this directory. *)
Definition dir_meta : metadata := Metadata 1 2 0x41ed 2 0 0 0 (Ok 0) (Ok 0).

Definition serve (X : Type) (e : sysE X) (s : fserver) : X * fserver :=
  match e in sysE X return X * fserver with
  | SymlinkMetadata _ | MetadataOf _ => (Ok dir_meta, s)
  | Exists _ => (true, s)
  | Canonicalize p => (Ok p, s)
  | ReadDir _ => (Ok (f_dir s), s)
  | GetFile id => (if id =? hid then Some fd else None, s)
  | GetWriteCtx id => (if id =? hid then Some (fd, flags, key) else None, s)
  | SeekStart _ o => if o <? 2 ^ 63 then (Ok o, set_pos o s) else (einval, s)
  | ReadFile _ n => if may_read_fd then let '(b, s) := do_read n s in (Ok b, s) else (ebadf, s)
  | WriteAll _ b =>
      match b with
      | [] => (Ok tt, s)   (** no call is made *)
      | _ => if may_write_fd then (Ok tt, do_write b s) else (ebadf, s)
      end
  | SendFrame b =>
      if MAX_FRAME_SIZE <? zlen b then (Err (lit "frame too large"), s) else (Ok tt, add_sent b s)
  | Finish => (Ok tt, s)
  | RecordRx _ | RecordTx _ | LockStripe _ | UnlockStripe _ | Close _ => (tt, s)
  | TryInsert _ _ _ | HandleRemove _ => (None, s)
  | Statvfs _ | Open _ _ _ | Openat2 _ _ _ _ _ | Mkdirat _ _ _ | Fchmodat _ _ _ | Unlinkat _ _ _
  | Symlinkat _ _ _ | Linkat _ _ _ _ | Renameat _ _ _ _ | Readlinkat _ _ _ | FileMetadata _
  | SetLen _ _ | SetPermissions _ _ | FchmodProc _ _ | UtimensProc _ _ _ | SyncAll _ | SyncData _ =>
      (io_fail, s)
  end.

Hypothesis short_ok : forall t n, 1 <= n -> 1 <= short t n <= n.

(** ** Slices *)

Lemma slice_nil d off len : (length d <= Z.to_nat off)%nat -> slice d off len = [].
Proof. intros H. unfold slice. rewrite drop_ge by done. by rewrite take_nil. Qed.

Lemma slice_split d off len n :
  0 <= off -> 0 <= n <= len -> slice d off len = slice d off n ++ slice d (off + n) (len - n).
Proof.
  intros Ho Hn. unfold slice. rewrite Z2Nat.inj_add by lia. rewrite <- drop_drop.
  rewrite Z2Nat.inj_sub by lia.
  rewrite <- (take_drop (Z.to_nat n) (drop (Z.to_nat off) d)) at 1.
  rewrite take_app. rewrite take_take, length_take.
  replace (Z.to_nat len `min` Z.to_nat n)%nat with (Z.to_nat n) by lia. f_equal.
  destruct (decide (Z.to_nat n <= length (drop (Z.to_nat off) d))%nat).
  - f_equal. lia.
  - by rewrite (drop_ge (drop (Z.to_nat off) d)), !take_nil by lia.
Qed.

(** Bytes that were there end within the file. *)
Lemma slice_end d off n : 0 <= off -> zlen (slice d off n) = n -> 1 <= n -> off + n <= zlen d.
Proof. unfold slice. rewrite length_take, length_drop. lia. Qed.

Lemma do_read_slice n s :
  0 <= f_pos s -> 1 <= n ->
  let '(b, s') := do_read n s in
  b = slice (f_data s) (f_pos s) (zlen b) /\ zlen b <= n /\
  (zlen b = 0 -> (length (f_data s) <= Z.to_nat (f_pos s))%nat) /\
  f_data s' = f_data s /\ f_dir s' = f_dir s /\ f_sent s' = f_sent s.
Proof.
  intros Hp Hn. unfold do_read. set (avail := drop _ _). set (m := Z.min n (zlen avail)).
  set (k := if m <=? 0 then 0 else _).
  assert (0 <= k <= m /\ (k = 0 -> m = 0)) as [Hk Hk0].
  { unfold k. destruct (m <=? 0) eqn:E; [apply Z.leb_le in E; lia|]. apply Z.leb_gt in E.
    pose proof (short_ok (f_reads s) m). lia. }
  assert (zlen (take (Z.to_nat k) avail) = k) as Hlen by (rewrite length_take; lia).
  rewrite Hlen. split_and!; [done|lia| |done..].
  intros ->. specialize (Hk0 eq_refl). unfold m, avail in Hk0. rewrite length_drop in Hk0. lia.
Qed.
End Serve.

(** ** Reading *)

(** The codec encodes the data messages, whose frames stay within the limit. *)
Class ReadFits {C : Codec} : Prop :=
  read_fits : forall st seq off buf eof,
    in_width 64 seq -> in_width 64 off -> zlen buf <= CHUNK ->
    exists b, encode (MkReadResponse OP_READ seq (status_as_u8 st) off buf eof) = Some b /\
              zlen b <= MAX_FRAME_SIZE.

(** The frames that answer a read of [len] > 0 bytes at [off]: their data is the
    slice, and exactly the last one says [eof]. *)
Definition read_answer (seq off len : Z) (data : bytes) (rs : list ReadResponse) : Prop :=
  concat (map rr_data rs) = slice data off len /\
  Forall (fun r => rr_op r = OP_READ /\ rr_seq r = seq /\ rr_status r = status_as_u8 StOk) rs /\
  exists init last, rs = init ++ [last] /\ rr_eof last = true /\
    Forall (fun r => rr_eof r = false /\ 1 <= zlen (rr_data r)) init.

(** Every frame but the last carries data, so there are at most [len + 1]. *)
Lemma read_answer_length seq off len data rs :
  0 <= len -> read_answer seq off len data rs -> (length rs <= S (Z.to_nat len))%nat.
Proof.
  intros Hlen (Hc & _ & init & lst & -> & _ & Hi). rewrite length_app. cbn [length].
  assert (length init <= length (concat (map rr_data (init ++ [lst]))))%nat as H.
  { clear Hc. induction Hi as [|r init [_ Hr] _ IH]; [simpl; lia|].
    cbn [app map concat length]. rewrite length_app. lia. }
  rewrite Hc in H. unfold slice in H. rewrite length_take in H. lia.
Qed.

Lemma read_answer_cons seq off len data off' buf rs :
  0 <= off -> 1 <= zlen buf <= len -> buf = slice data off (zlen buf) -> off' = off + zlen buf ->
  read_answer seq off' (len - zlen buf) data rs ->
  read_answer seq off len data (MkReadResponse OP_READ seq (status_as_u8 StOk) off buf false :: rs).
Proof.
  intros Ho Hl Hb -> (Hc & HF & init & lst & -> & Hlst & Hi). split_and!.
  - simpl. rewrite Hc, Hb at 1. rewrite <- slice_split by lia. done.
  - by constructor.
  - eexists (_ :: init), lst. split; [done|]. split; [done|]. by constructor; [split; [done|simpl; lia]|].
Qed.

Lemma read_answer_last seq off len data buf :
  buf = slice data off (zlen buf) ->
  (zlen buf = 0 /\ (length data <= Z.to_nat off)%nat) \/ len = zlen buf ->
  read_answer seq off len data [MkReadResponse OP_READ seq (status_as_u8 StOk) off buf true].
Proof.
  intros Hbuf Hcase. split_and!.
  - simpl. rewrite app_nil_r. destruct Hcase as [[H0 Hge]| ->]; [|done].
    rewrite slice_nil by done. by rewrite Hbuf, H0.
  - by constructor.
  - by eexists [], _.
Qed.

Section Read.
Context {C : Codec} {RF : ReadFits}.
Variables (hid fd flags access key : Z) (short : nat -> Z -> Z).
Hypothesis short_ok : forall t n, 1 <= n -> 1 <= short t n <= n.
Abbreviation exec m s := (run (serve hid fd flags access key short) m s).

Lemma read_loop_done fuel seq off s :
  exec (read_loop fuel fd seq off 0) s = (Ok tt, s).
Proof. by destruct fuel. Qed.

(** One iteration: a frame with the next bytes, and what follows it. *)
Lemma read_loop_step fuel seq off rem s :
  may_read_fd access = true -> in_width 64 seq -> 0 <= off < 2 ^ 63 -> 1 <= rem < 2 ^ 63 ->
  exists buf b s1,
    exec (read_loop (S fuel) fd seq off rem) s =
      (if zlen buf =? 0 then (Ok tt, s1)
       else exec (read_loop fuel fd seq (off + zlen buf) (rem - zlen buf)) s1) /\
    encode (MkReadResponse OP_READ seq (status_as_u8 StOk) off buf
              ((zlen buf =? 0) || (rem - zlen buf =? 0))) = Some b /\
    buf = slice (f_data s) off (zlen buf) /\ zlen buf <= rem /\
    (zlen buf = 0 -> (length (f_data s) <= Z.to_nat off)%nat) /\
    f_sent s1 = f_sent s ++ [b] /\ f_data s1 = f_data s.
Proof.
  intros Hacc Hseq Ho Hr. cbn [read_loop].
  destruct (rem <=? 0) eqn:E; [apply Z.leb_le in E; lia|]. clear E.
  rewrite run_bind, run_bindr, run_call. cbn [serve]. rewrite (proj2 (Z.ltb_lt off (2 ^ 63))) by lia.
  rewrite run_call. cbn [serve]. rewrite Hacc.
  pose proof (do_read_slice short short_ok (Z.min rem CHUNK) (set_pos off s)) as Hread.
  destruct (do_read _ _ _) as [buf s1]. cbn [f_pos f_data set_pos f_sent f_dir] in Hread.
  destruct Hread as (Hbuf & Hlen & Hz & Hd & _ & Hs); [lia|unfold CHUNK; lia|].
  unfold sat_sub. rewrite Z.max_l by lia.
  destruct (read_fits StOk seq off buf ((zlen buf =? 0) || (rem - zlen buf =? 0))) as (b & Eb & Hfit);
    [done|unfold in_width; lia|lia|]. rewrite Eb.
  rewrite run_bindr, run_call. cbn [serve].
  destruct (MAX_FRAME_SIZE <? zlen b) eqn:Ef; [apply Z.ltb_lt in Ef; lia|]. cbv iota.
  rewrite run_bind, run_call. cbn [serve]. rewrite wrap_small by (unfold in_width; lia).
  exists buf, b, (add_sent b s1). split_and!; [|done|done|lia|done|simpl; by rewrite Hs|done].
  destruct (zlen buf =? 0); [|done]. by rewrite run_bindr, run_call.
Qed.

Lemma read_loop_run fuel seq off rem s :
  may_read_fd access = true -> in_width 64 seq -> 0 <= off < 2 ^ 63 -> 1 <= rem <= Z.of_nat fuel -> rem < 2 ^ 63 ->
  zlen (f_data s) < 2 ^ 63 ->
  exists rs bs s', exec (read_loop fuel fd seq off rem) s = (Ok tt, s') /\
    f_sent s' = f_sent s ++ bs /\ Forall2 (fun r b => encode r = Some b) rs bs /\
    f_data s' = f_data s /\ read_answer seq off rem (f_data s) rs.
Proof.
  intros Hacc Hseq. revert off rem s. induction fuel as [|fuel IH]; intros off rem s Ho Hr Hrem Hb; [lia|].
  destruct (read_loop_step fuel seq off rem s) as (buf & b & s1 & -> & Eb & Hbuf & Hlen & Hz & Hs & Hd);
    [done|done|lia..|].
  destruct (zlen buf =? 0) eqn:E0.
  { apply Z.eqb_eq in E0. eexists [_], [b], s1. split_and!; [done|done|by repeat constructor; exact Eb|done|].
    apply read_answer_last; auto. }
  apply Z.eqb_neq in E0. destruct (rem - zlen buf =? 0) eqn:E1.
  { apply Z.eqb_eq in E1. rewrite E1, read_loop_done.
    eexists [_], [b], s1. split_and!; [done|done|by repeat constructor; exact Eb|done|].
    apply read_answer_last; [done|]. right. lia. }
  apply Z.eqb_neq in E1.
  assert (off + zlen buf <= zlen (f_data s)) as Hend by (apply slice_end; [lia|by rewrite <- Hbuf|lia]).
  destruct (IH (off + zlen buf) (rem - zlen buf) s1) as (rs & bs & s' & Hrun & Hsent & HF & Hdat & Hans);
    [lia|lia|lia|by rewrite Hd|].
  eexists (_ :: rs), (b :: bs), s'. split_and!; [exact Hrun| |by constructor; [exact Eb|]|congruence|].
  - rewrite Hsent, Hs, <- app_assoc. done.
  - rewrite Hd in Hans. eapply read_answer_cons; [lia|lia|done|reflexivity|done].
Qed.

Lemma handle_read_run raw req s :
  decode raw = Some req -> rq_handle req = hid -> 1 <= rq_length req <= MAX_READ_REQUEST ->
  in_width 64 (rq_seq req) -> 0 <= rq_offset req < 2 ^ 63 -> may_read_fd access = true -> zlen (f_data s) < 2 ^ 63 ->
  exists rs bs s', exec (handle_read raw) s = (Ok tt, s') /\
    f_sent s' = f_sent s ++ bs /\ Forall2 (fun r b => encode r = Some b) rs bs /\
    f_data s' = f_data s /\ read_answer (rq_seq req) (rq_offset req) (rq_length req) (f_data s) rs.
Proof.
  intros Hdec Hh Hl Hseq Ho Hacc Hb. unfold handle_read, decoded. rewrite run_bindr, Hdec, run_ret. cbn [ok_or].
  destruct (_ <? rq_length req) eqn:E; [apply Z.ltb_lt in E; lia|].
  rewrite run_bind, run_call. cbn [serve]. rewrite Hh, Z.eqb_refl.
  unfold MAX_READ_REQUEST in *. apply read_loop_run; [done|done|done|lia|lia|done].
Qed.

(** The one frame that refuses a read. *)
Lemma send_read_err_run seq off st s :
  in_width 64 seq -> in_width 64 off ->
  exists b, exec (send_read_err seq off st) s = (Ok tt, add_sent b s) /\
    encode (MkReadResponse OP_READ seq (status_as_u8 st) off [] true) = Some b.
Proof.
  intros Hs Ho. destruct (read_fits st seq off [] true) as (b & Eb & Hb); [done|done|simpl; unfold CHUNK; lia|].
  exists b. split; [|done]. unfold send_read_err, send_resp. rewrite Eb, run_bindr, run_call. cbn [serve].
  rewrite (proj2 (Z.ltb_ge _ _)) by done. cbv iota. by rewrite run_bindr, run_call.
Qed.

(** A read of nothing is answered by no frame at all; one that is too long, from an
    offset no file has, or of a file not open for reading, by one error frame. *)
Lemma handle_read_none raw req s :
  decode raw = Some req -> rq_handle req = hid -> rq_length req = 0 -> exec (handle_read raw) s = (Ok tt, s).
Proof.
  intros Hdec Hh Hl. unfold handle_read, decoded. rewrite run_bindr, Hdec, run_ret. cbn [ok_or]. rewrite Hl.
  change (MAX_READ_REQUEST <? 0) with false. cbv iota. rewrite run_bind, run_call. cbn [serve]. rewrite Hh, Z.eqb_refl.
  apply read_loop_done.
Qed.

Lemma handle_read_refused raw req s :
  decode raw = Some req -> rq_handle req = hid -> 1 <= rq_length req -> in_width 64 (rq_seq req) -> in_width 64 (rq_offset req) ->
  (MAX_READ_REQUEST < rq_length req \/ 2 ^ 63 <= rq_offset req \/ may_read_fd access = false) ->
  exists b st s', exec (handle_read raw) s = (Ok tt, s') /\ f_sent s' = f_sent s ++ [b] /\ f_data s' = f_data s /\
    encode (MkReadResponse OP_READ (rq_seq req) (status_as_u8 st) (rq_offset req) [] true) = Some b /\
    (st = StInvalidArg \/ st = StIo).
Proof.
  intros Hdec Hh Hl Hseq Ho Hbad. unfold handle_read, decoded. rewrite run_bindr, Hdec, run_ret. cbn [ok_or].
  assert (forall st s0, f_sent s0 = f_sent s -> f_data s0 = f_data s -> (st = StInvalidArg \/ st = StIo) ->
    exists b st' s', exec (send_read_err (rq_seq req) (rq_offset req) st) s0 = (Ok tt, s') /\
      f_sent s' = f_sent s ++ [b] /\ f_data s' = f_data s /\
      encode (MkReadResponse OP_READ (rq_seq req) (status_as_u8 st') (rq_offset req) [] true) = Some b /\
      (st' = StInvalidArg \/ st' = StIo)) as Herr.
  { intros st s0 Hs Hd Hst. destruct (send_read_err_run (rq_seq req) (rq_offset req) st s0 Hseq Ho) as (b & E & Eb).
    exists b, st, (add_sent b s0). rewrite E. simpl. by rewrite Hs. }
  destruct (MAX_READ_REQUEST <? rq_length req) eqn:E; [by apply Herr; [..|left]|]. apply Z.ltb_ge in E.
  rewrite run_bind, run_call. cbn [serve]. rewrite Hh, Z.eqb_refl.
  destruct (Z.to_nat (rq_length req)) as [|fuel] eqn:Ef; [lia|]. cbn [read_loop].
  destruct (rq_length req <=? 0) eqn:E0; [apply Z.leb_le in E0; lia|].
  rewrite run_bind, run_bindr, run_call. cbn [serve].
  destruct (rq_offset req <? 2 ^ 63) eqn:Eo; [apply Z.ltb_lt in Eo|by apply Herr; [..|left]].
  rewrite run_call. cbn [serve]. destruct (may_read_fd access); [exfalso; destruct Hbad as [?|[?|?]]; [lia|lia|done]|].
  by apply Herr; [..|right].
Qed.
End Read.

(** ** Writing *)

Class WriteRespFits {C : Codec} : Prop :=
  write_resp_fits : forall st seq total, in_width 64 seq -> in_width 64 total ->
    exists b, encode (MkWriteResponse OP_WRITE seq (status_as_u8 st) total) = Some b /\
              zlen b <= MAX_FRAME_SIZE.

(** Frames as they follow one another on a stream. *)
Definition stream_of (bs : list bytes) : bytes := concat (map (fun d => be32 (zlen d) ++ d) bs).

(** One Write RPC: chunks up to the one marked [done]. *)
Fixpoint well_ended (reqs : list WriteRequest) : Prop :=
  match reqs with
  | [] => False
  | [r] => wq_done r = true
  | r :: reqs => wq_done r = false /\ well_ended reqs
  end.

Definition total_len (reqs : list WriteRequest) : Z := foldr (fun r n => zlen (wq_data r) + n) 0 reqs.

Lemma total_len_nonneg reqs : 0 <= total_len reqs.
Proof. induction reqs; simpl; lia. Qed.

Section Write.
Context {C : Codec} {WF : WriteRespFits}.
Variables (hid fd flags access key : Z) (short : nat -> Z -> Z).
Abbreviation exec m s := (run (serve hid fd flags access key short) m s).
Abbreviation append := (has_bits flags 0x400).

(** What a chunk does to the file. *)
Definition put_chunk (d : bytes) (r : WriteRequest) : bytes :=
  if append then d ++ wq_data r else put d (wq_offset r) (wq_data r).

Lemma write_at_run r total s :
  may_write_fd access = true -> wq_offset r < 2 ^ 63 ->
  exists s', exec (write_at fd (wq_offset r) (wq_data r) total append) s =
               (Ok (sat_add64 total (zlen (wq_data r))), s') /\
    f_data s' = put_chunk (f_data s) r /\ f_sent s' = f_sent s.
Proof.
  intros Hacc Ho. unfold write_at, put_chunk. rewrite run_bindr. destruct append eqn:E.
  - rewrite run_ret. cbv iota. rewrite run_bindr, run_call. cbn [serve]. destruct (wq_data r) eqn:Ed.
    { rewrite run_ret, app_nil_r. by eexists. }
    rewrite <- Ed, Hacc. unfold do_write. rewrite E, run_ret. eexists. by split_and!.
  - rewrite run_call. cbn [serve]. rewrite (proj2 (Z.ltb_lt _ _)) by done.
    rewrite run_bindr, run_call. cbn [serve]. destruct (wq_data r) eqn:Ed; [rewrite run_ret; by eexists|].
    rewrite <- Ed, Hacc. unfold do_write. rewrite E, run_ret. eexists. by split_and!.
Qed.

(** A chunk for a file that is not open for writing. *)
Lemma write_at_ebadf r total s :
  may_write_fd access = false -> wq_data r <> [] ->
  exists e s', exec (write_at fd (wq_offset r) (wq_data r) total append) s = (Err e, s') /\
    (status_from_io e = StInvalidArg \/ status_from_io e = StIo) /\ f_data s' = f_data s /\ f_sent s' = f_sent s.
Proof.
  intros Hacc Hne. unfold write_at. rewrite run_bindr. destruct (wq_data r) eqn:Ed; [done|]. destruct append.
  - rewrite run_ret. cbv iota. rewrite run_bindr, run_call. cbn [serve]. rewrite Hacc.
    eexists _, s. split_and!; [reflexivity|by right|done..].
  - rewrite run_call. cbn [serve]. destruct (_ <? 2 ^ 63).
    + rewrite run_bindr, run_call. cbn [serve]. rewrite Hacc.
      eexists _, _. split_and!; [reflexivity|by right|done..].
    + eexists _, s. split_and!; [reflexivity|by left|done..].
Qed.

Lemma send_write_resp seq total s :
  in_width 64 seq -> in_width 64 total ->
  exists b s', exec (send_resp_tx (MkWriteResponse OP_WRITE seq (status_as_u8 StOk) total)) s = (Ok tt, s') /\
    encode (MkWriteResponse OP_WRITE seq (status_as_u8 StOk) total) = Some b /\
    f_sent s' = f_sent s ++ [b] /\ f_data s' = f_data s.
Proof.
  intros H1 H2. destruct (write_resp_fits StOk seq total H1 H2) as (b & Eb & Hb).
  unfold send_resp_tx. rewrite Eb. rewrite run_bindr, run_call. cbn [serve].
  destruct (_ <? zlen b) eqn:E; [apply Z.ltb_lt in E; lia|]. cbv iota.
  rewrite run_bindr, run_call. cbn [serve]. rewrite run_bind, run_call. cbn [serve]. rewrite run_ret.
  eexists b, _. by split_and!.
Qed.

(** The answer: every chunk is in the file and counted. *)
Definition written (seq : Z) (reqs : list WriteRequest) (total : Z) (s s' : fserver) : Prop :=
  f_data s' = foldl put_chunk (f_data s) reqs /\
  exists b, encode (MkWriteResponse OP_WRITE seq (status_as_u8 StOk) (total + total_len reqs)) = Some b /\
            f_sent s' = f_sent s ++ [b].

Lemma write_loop_run reqs bs fuel rest seq total s :
  Forall2 (fun r b => decode b = Some r /\ zlen b <= MAX_FRAME_SIZE) reqs bs ->
  may_write_fd access = true -> Forall (fun r => wq_offset r < 2 ^ 63) reqs ->
  well_ended reqs -> (length reqs <= fuel)%nat -> in_width 64 seq -> 0 <= total ->
  total + total_len reqs < 2 ^ 64 ->
  exists s', exec (write_loop fuel (stream_of bs ++ rest) fd seq total append false) s = (Ok tt, s') /\
    written seq reqs total s s'.
Proof.
  intros HF Hacc. revert fuel total s. induction HF as [|r b reqs bs [Hdec Hfit] HF IH];
    intros fuel total s Hoff Hwe Hfuel Hseq Ht Hlt; [done|]. apply Forall_cons in Hoff as [Ho Hoff].
  destruct fuel as [|fuel]; [simpl in Hfuel; lia|]. cbn [write_loop].
  assert (stream_of (b :: bs) ++ rest = be32 (zlen b) ++ b ++ (stream_of bs ++ rest)) as ->.
  { unfold stream_of. cbn [map concat]. by rewrite <- !app_assoc. }
  rewrite read_frame_app by done.
  rewrite run_bind, run_call. cbn [serve]. unfold decoded. rewrite run_bindr, Hdec, run_ret. cbn [ok_or].
  rewrite run_bind. destruct (write_at_run r total s Hacc Ho) as (s1 & -> & Hd & Hs).
  pose proof (total_len_nonneg reqs). cbn [total_len foldr] in Hlt. fold (total_len reqs) in Hlt.
  unfold sat_add64, u64_max. rewrite Z.min_l by lia.
  destruct reqs as [|r' reqs].
  - simpl in Hwe. rewrite Hwe.
    destruct (send_write_resp seq (total + zlen (wq_data r)) s1) as (b' & s' & Hrun & Eb & Hs' & Hd');
      [done|unfold in_width; lia|].
    exists s'. split; [destruct fuel; exact Hrun|]. split.
    + simpl. congruence.
    + exists b'. simpl. rewrite Z.add_0_r. split; [done|congruence].
  - destruct Hwe as [Hdn Hwe]. rewrite Hdn.
    destruct (IH fuel (total + zlen (wq_data r)) s1) as (s' & Hrun & Hd' & b' & Eb & Hs');
      [done|done|simpl in *; lia|done|lia|lia|].
    exists s'. split; [exact Hrun|]. split.
    + rewrite Hd', Hd. done.
    + exists b'. split; [|congruence]. rewrite <- Eb. f_equal. f_equal. simpl. lia.
Qed.

Lemma length_stream bs : (length bs <= length (stream_of bs))%nat.
Proof.
  induction bs as [|b bs IH]; [done|].
  change (stream_of (b :: bs)) with ((be32 (zlen b) ++ b) ++ stream_of bs).
  rewrite !length_app, be32_length. cbn [length]. lia.
Qed.

(** A whole Write RPC: [raw] is the first frame, the others follow on the
    stream. *)
Lemma handle_write_run raw r reqs bs rest s :
  decode raw = Some r -> wq_handle r = hid ->
  Forall2 (fun r b => decode b = Some r /\ zlen b <= MAX_FRAME_SIZE) reqs bs ->
  may_write_fd access = true -> Forall (fun r => wq_offset r < 2 ^ 63) (r :: reqs) ->
  well_ended (r :: reqs) -> in_width 64 (wq_seq r) -> total_len (r :: reqs) < 2 ^ 64 ->
  exists s', exec (handle_write (stream_of bs ++ rest) raw) s = (Ok tt, s') /\
    written (wq_seq r) (r :: reqs) 0 s s'.
Proof.
  intros Hdec Hh HF Hacc [Ho Hoff]%Forall_cons Hwe Hseq Hlt. unfold handle_write, decoded. rewrite run_bindr, Hdec, run_ret.
  cbn [ok_or]. rewrite run_bind, run_call. cbn [serve]. rewrite Hh, Z.eqb_refl. cbv zeta.
  unfold with_stripe. rewrite run_bind, run_call. cbn [serve]. rewrite run_bind, run_bind.
  destruct (write_at_run r 0 s Hacc Ho) as (s1 & -> & Hd & Hs).
  pose proof (total_len_nonneg reqs). cbn [total_len foldr] in Hlt. fold (total_len reqs) in Hlt.
  unfold sat_add64, u64_max. rewrite Z.min_l by lia. rewrite Z.add_0_l.
  assert (exists s', exec (write_loop (S (length (stream_of bs ++ rest))) (stream_of bs ++ rest) fd
                      (wq_seq r) (zlen (wq_data r)) append (wq_done r)) s1 = (Ok tt, s') /\
                     written (wq_seq r) (r :: reqs) 0 s s') as (s' & Hrun & Hw).
  { destruct reqs as [|r' reqs].
    - simpl in Hwe. rewrite Hwe. cbn [write_loop].
      destruct (send_write_resp (wq_seq r) (zlen (wq_data r)) s1) as (b & s' & Hrun & Eb & Hs' & Hd');
        [done|unfold in_width; lia|].
      exists s'. split; [done|]. split; [simpl; congruence|]. exists b.
      simpl. rewrite Z.add_0_r. split; [done|congruence].
    - destruct Hwe as [Hdn Hwe]. rewrite Hdn.
      destruct (write_loop_run (r' :: reqs) bs (S (length (stream_of bs ++ rest))) rest (wq_seq r)
                  (zlen (wq_data r)) s1) as (s' & Hrun & Hd' & b & Eb & Hs'); [done|done|done|done| |done|lia|lia|].
      { pose proof (length_stream bs). apply Forall2_length in HF. rewrite length_app. lia. }
      exists s'. split; [done|]. split; [by rewrite Hd', Hd|]. exists b.
      split; [|congruence]. rewrite <- Eb. f_equal. }
  rewrite Hrun. rewrite run_bind, run_call. cbn [serve]. rewrite run_ret. by exists s'.
Qed.

(** A Write RPC on a file that is not open for writing is refused at its first chunk. *)
Lemma handle_write_refused raw r recv s :
  decode raw = Some r -> wq_handle r = hid -> may_write_fd access = false -> wq_data r <> [] -> in_width 64 (wq_seq r) ->
  exists b st s', exec (handle_write recv raw) s = (Ok tt, s') /\ f_sent s' = f_sent s ++ [b] /\ f_data s' = f_data s /\
    encode (MkWriteResponse OP_WRITE (wq_seq r) (status_as_u8 st) 0) = Some b /\ (st = StInvalidArg \/ st = StIo).
Proof.
  intros Hdec Hh Hacc Hne Hseq. unfold handle_write, decoded. rewrite run_bindr, Hdec, run_ret.
  cbn [ok_or]. rewrite run_bind, run_call. cbn [serve]. rewrite Hh, Z.eqb_refl. cbv zeta.
  unfold with_stripe. rewrite run_bind, run_call. cbn [serve]. rewrite run_bind, run_bind.
  destruct (write_at_ebadf r 0 s Hacc Hne) as (e & s1 & -> & Hst & Hd & Hs).
  destruct (write_resp_fits (status_from_io e) (wq_seq r) 0 Hseq) as (b & Eb & Hb); [unfold in_width; lia|].
  unfold send_resp. rewrite Eb, run_bindr, run_call. cbn [serve]. rewrite (proj2 (Z.ltb_ge _ _)) by done. cbv iota.
  rewrite run_bindr, run_call. cbn [serve]. rewrite run_ret, run_bind, run_call. cbn [serve]. rewrite run_ret.
  exists b, (status_from_io e), (add_sent b s1). simpl. by rewrite Hs.
Qed.
End Write.

(** ** Listing a directory *)

Lemma readdir_loop_spec skip out items :
  0 <= skip -> (length out < 256)%nat ->
  readdir_loop skip out items =
  out ++ take (256 - length out) (drop (Z.to_nat skip) (map dir_entry items)).
Proof.
  revert skip out. induction items as [|it items IH]; intros skip out Hs Ho; simpl.
  { by rewrite drop_nil, take_nil, app_nil_r. }
  destruct (0 <? skip) eqn:E.
  - apply Z.ltb_lt in E. rewrite IH by lia. do 2 f_equal.
    replace (Z.to_nat skip) with (S (Z.to_nat (skip - 1))) by lia. done.
  - apply Z.ltb_ge in E. assert (skip = 0) as -> by lia. cbn [drop Z.to_nat].
    assert (256 - length out = S (256 - length (out ++ [dir_entry it])))%nat as Hlen.
    { rewrite length_app. simpl. lia. }
    rewrite Hlen. cbn [take]. destruct (256 <=? zlen (out ++ [dir_entry it])) eqn:E2.
    + apply Z.leb_le in E2. replace (256 - length (out ++ [dir_entry it]))%nat with 0%nat by lia.
      done.
    + apply Z.leb_gt in E2. rewrite IH by lia. rewrite <- app_assoc. done.
Qed.

(** The page at [cursor] of a directory. *)
Definition page_at (entries : list DirEntry) (cursor : Z) : list DirEntry :=
  take 256 (drop (Z.to_nat cursor) entries).

Definition readdir_response (seq cursor : Z) (entries : list DirEntry) : ReadDirResponse :=
  let page := page_at entries cursor in
  MkReadDirResponse OP_READ_DIR seq (status_as_u8 StOk) page (wrap64 (cursor + zlen page)) (zlen page <? 256).

Section ReadDir.
Context {C : Codec}.
Variables (hid fd flags access key : Z) (short : nat -> Z -> Z) (root : path).
Abbreviation exec m s := (run (serve hid fd flags access key short) m s).

Lemma walk_run p cs s : exec (walk p cs) s = (Ok (p ++ map Normal cs), s).
Proof.
  revert p. induction cs as [|c cs IH]; intros p; [by rewrite app_nil_r|].
  destruct cs as [|c' cs]; [done|]. cbn [walk].
  rewrite run_bind, run_call. cbn [serve]. change (is_symlink dir_meta) with false. cbv iota.
  etransitivity; [apply IH|]. unfold push. by rewrite <- app_assoc.
Qed.

Lemma resolve_run cp cs s :
  normalize cp = Ok cs -> exec (resolve root cp) s = (Ok (root ++ map Normal cs), s).
Proof.
  intros H. unfold resolve. rewrite H, run_bindr, walk_run. cbv iota.
  rewrite run_bind, run_call. cbn [serve]. cbv iota. rewrite run_bind, run_call. cbn [serve].
  rewrite run_bind, run_call. cbn [serve]. unfold path_starts_with. by rewrite strip_prefix_app.
Qed.

Lemma handle_readdir_run raw req cs b s :
  decode raw = Some req -> normalize (rdq_path req) = Ok cs -> 0 <= rdq_cursor req ->
  encode (readdir_response (rdq_seq req) (rdq_cursor req) (map dir_entry (f_dir s))) = Some b ->
  zlen b <= MAX_FRAME_SIZE ->
  exec (handle_readdir root raw) s = (Ok tt, add_sent b s).
Proof.
  intros Hdec Hn Hc Hb Hfit. unfold handle_readdir, decoded. rewrite run_bindr, Hdec, run_ret.
  cbn [ok_or]. rewrite run_bind, (resolve_run _ cs) by done. rewrite run_bind, run_call. cbn [serve].
  rewrite readdir_loop_spec by (simpl; lia). cbn [app length]. rewrite Nat.sub_0_r.
  fold (page_at (map dir_entry (f_dir s)) (rdq_cursor req)).
  rewrite bool_decide_true by done. cbn [negb]. rewrite orb_false_r.
  unfold then_tx0. rewrite run_bindr. unfold send_resp. unfold readdir_response in Hb. cbv zeta in Hb.
  rewrite Hb. rewrite run_bindr, run_call. cbn [serve].
  destruct (_ <? zlen b) eqn:E; [apply Z.ltb_lt in E; lia|]. cbv iota.
  rewrite run_bindr, run_call. cbn [serve]. rewrite run_ret. cbv iota.
  by rewrite run_bind, run_call.
Qed.
End ReadDir.
