(* ===== verification/Posix.v ===== *)
(** * A Linux file system

    The kernel the server runs on, as far as its calls describe it: inodes, the
    walk of a path with symbolic links ([path_resolution(7)]), [openat2] with
    [RESOLVE_BENEATH], the [*at] family, and files with cursors.  It answers the
    events of [Os.sysE] that go to the kernel.  Permissions, quotas and devices are
    left out: every process may do everything, which is the worst case for what
    follows.  An open file is named by a number that is never used again: it
    stands for the reference a [File] holds, not for the small integer. *)

From S2P Require Import Prelude Prog Text Status Frames FrameIo Os Sanitize FileServer.

(** ** State *)

Inductive kind : Type :=
| KDir (ents : gmap (list Z) Z)
| KFile (data : bytes)
| KLink (target : str).

Record inode := MkInode {
  i_kind : kind; i_mode : Z; i_uid : Z; i_gid : Z; i_atime : Z; i_mtime : Z
}.

(** An open file: its inode, its cursor, whether it appends, whether it is an
    O_PATH reference, which cannot be read or written, and its access mode
    (O_RDONLY, O_WRONLY, O_RDWR). *)
Record ofd := MkOfd { fd_ino : Z; fd_pos : Z; fd_append : bool; fd_opath : bool; fd_access : Z }.

Record posix := MkPosix {
  k_nodes : gmap Z inode;
  k_fds : gmap Z ofd;
  k_slash : Z;                (** the inode of [/] *)
  k_umask : Z;
  k_statvfs : statvfs_t
}.

Definition set_nodes (n : gmap Z inode) (k : posix) : posix :=
  MkPosix n (k_fds k) (k_slash k) (k_umask k) (k_statvfs k).
Definition set_fds (f : gmap Z ofd) (k : posix) : posix :=
  MkPosix (k_nodes k) f (k_slash k) (k_umask k) (k_statvfs k).

Definition put_node (i : Z) (n : inode) (k : posix) : posix := set_nodes (<[i := n]> (k_nodes k)) k.
Definition put_fd (fd : Z) (f : ofd) (k : posix) : posix := set_fds (<[fd := f]> (k_fds k)) k.

Definition set_kind (t : kind) (n : inode) : inode :=
  MkInode t (i_mode n) (i_uid n) (i_gid n) (i_atime n) (i_mtime n).
Definition set_imode (m : Z) (n : inode) : inode :=
  MkInode (i_kind n) m (i_uid n) (i_gid n) (i_atime n) (i_mtime n).
Definition set_itimes (a m : Z) (n : inode) : inode :=
  MkInode (i_kind n) (i_mode n) (i_uid n) (i_gid n) a m.

Definition new_ino (k : posix) : Z := fresh (dom (k_nodes k)).
Definition new_fd (k : posix) : Z := fresh (dom (k_fds k)).

(** ** errno *)

Definition EPERM : Z := 1.
Definition EBADF : Z := 9.
Definition EXDEV : Z := 18.
Definition ELOOP : Z := 40.

(** [io::Error::last_os_error()]: the kind std gives a code. *)
Definition os_error (code : Z) : io_error :=
  IoError
    (match code with
     | 2 => NotFound | 1 | 13 => PermissionDenied | 17 => AlreadyExists | 18 => CrossesDevices
     | 20 => NotADirectory | 21 => IsADirectory | 22 => InvalidInput | 28 => StorageFull
     | 39 => DirectoryNotEmpty | _ => Other
     end) (Some code).
Definition fail {A} (code : Z) (k : posix) : io A * posix := (Err (os_error code), k).

(** ** Walking *)

Definition kind_at (k : posix) (i : Z) : option kind := i_kind <$> k_nodes k !! i.
Definition ents_at (k : posix) (i : Z) : option (gmap (list Z) Z) :=
  match kind_at k i with Some (KDir e) => Some e | _ => None end.

(** The directory that lists directory [d]; [/] is its own parent. *)
Definition parent_ino (k : posix) (d : Z) : Z :=
  if d =? k_slash k then d
  else match List.find (fun p => match i_kind (snd p) with
                                 | KDir e => bool_decide (d ∈ map snd (map_to_list e))
                                 | _ => false
                                 end) (map_to_list (k_nodes k)) with
       | Some (p, _) => p
       | None => k_slash k
       end.

(** The components of a link's target. *)
Definition target_comp (s : str) : option comp :=
  if str_eqb s [] then None
  else if str_eqb s (lit ".") then Some CurDir
  else if str_eqb s (lit "..") then Some ParentDir
  else Some (Normal s).
Definition target_path (s : str) : path :=
  (match s with c :: _ => if is_slash c then [RootDir] else [] | [] => [] end)
  ++ omap target_comp (split is_slash s).

(** Where a walk stands: the names and inodes passed since [base], innermost
    first. *)
Definition here (base : Z) (stack : list (str * Z)) : Z :=
  match stack with [] => base | (_, i) :: _ => i end.

(** The walk of [todo] from [base].  [links] bounds the links followed (40 on
    Linux, then ELOOP); [beneath] is RESOLVE_BENEATH: no absolute path, no step
    above [base].  A link in the last place is followed if [follow] says so. *)
Fixpoint namei (k : posix) (beneath follow : bool) (links : nat) {struct links} :
    Z -> list (str * Z) -> path -> io (Z * list (str * Z)) :=
  fix go (base : Z) (stack : list (str * Z)) (todo : path) {struct todo} : io (Z * list (str * Z)) :=
    match todo with
    | [] => Ok (base, stack)
    | RootDir :: t => if beneath then Err (os_error EXDEV) else go (k_slash k) [] t
    | CurDir :: t =>
        match ents_at k (here base stack) with Some _ => go base stack t | None => Err (os_error ENOTDIR) end
    | ParentDir :: t =>
        match stack with
        | _ :: stack => go base stack t
        | [] => if beneath then Err (os_error EXDEV) else go (parent_ino k base) [] t
        end
    | Normal c :: t =>
        match ents_at k (here base stack) with
        | None => Err (os_error ENOTDIR)
        | Some e =>
            match e !! c with
            | None => Err (os_error ENOENT)
            | Some i =>
                match kind_at k i, (match t with [] => follow | _ => true end) with
                | Some (KLink target), true =>
                    match links with
                    | O => Err (os_error ELOOP)
                    | S links =>
                        if bool_decide (target_path target = []) then Err (os_error ENOENT)
                        else namei k beneath follow links base stack (target_path target ++ t)
                    end
                | _, _ => go base ((c, i) :: stack) t
                end
            end
        end
    end.

Definition MAXSYMLINKS : nat := 40.

(** A path of the process, from [/]. *)
Definition locate (k : posix) (follow : bool) (p : path) : io (Z * list (str * Z)) :=
  namei k false follow MAXSYMLINKS (k_slash k) [] p.
Definition locate_ino (k : posix) (follow : bool) (p : path) : io Z :=
  res_map (fun r => here (fst r) (snd r)) (locate k follow p).

(** ** Metadata *)

Definition type_bits (t : kind) : Z :=
  match t with KDir _ => 0x4000 | KFile _ => 0x8000 | KLink _ => 0xA000 end.

Definition size_of (t : kind) : Z :=
  match t with KDir _ => 0 | KFile d => zlen d | KLink s => str_len s end.

(** How many names an inode has. *)
Definition nlink_count (k : posix) (i : Z) : Z :=
  map_fold (fun _ n acc => match i_kind n with
                           | KDir e => acc + zlen (List.filter (fun p => snd p =? i) (map_to_list e))
                           | _ => acc
                           end) 0 (k_nodes k).

Definition metadata_of (k : posix) (i : Z) (n : inode) : metadata :=
  Metadata 1 i (Z.lor (type_bits (i_kind n)) (i_mode n)) (nlink_count k i) (i_uid n) (i_gid n)
    (size_of (i_kind n)) (Ok (i_atime n)) (Ok (i_mtime n)).

Definition stat_ino (k : posix) (i : Z) : io metadata :=
  match k_nodes k !! i with Some n => Ok (metadata_of k i n) | None => Err (os_error ENOENT) end.

(** ** Opening *)

Definition add_node (n : inode) (k : posix) : posix := put_node (new_ino k) n k.

(** An entry of a directory. *)
Definition set_entry (d : Z) (c : str) (j : option Z) (k : posix) : posix :=
  match k_nodes k !! d with
  | Some n =>
      match i_kind n with
      | KDir e => put_node d (set_kind (KDir (partial_alter (fun _ => j) c e)) n) k
      | _ => k
      end
  | None => k
  end.

Definition new_inode (t : kind) (mode : Z) : inode := MkInode t mode 0 0 0 0.

Definition access_of (flags : Z) : Z := Z.land flags 3.

Definition open_ino (i : Z) (flags : Z) (k : posix) : io Z * posix :=
  let opath := has_bits flags O_PATH in
  match kind_at k i with
  | None => fail ENOENT k
  | Some (KLink _) =>
      if opath then (Ok (new_fd k), put_fd (new_fd k) (MkOfd i 0 false true 0) k) else fail ELOOP k
  | Some (KDir _) =>
      if negb opath && negb (access_of flags =? 0) then fail EISDIR k
      else (Ok (new_fd k), put_fd (new_fd k) (MkOfd i 0 (has_bits flags O_APPEND) opath (access_of flags)) k)
  | Some (KFile _) =>
      if has_bits flags O_DIRECTORY then fail ENOTDIR k
      else
        let k := if has_bits flags O_TRUNC && negb opath then
                   match k_nodes k !! i with Some n => put_node i (set_kind (KFile []) n) k | None => k end
                 else k in
        (Ok (new_fd k), put_fd (new_fd k) (MkOfd i 0 (has_bits flags O_APPEND) opath (access_of flags)) k)
  end.

(** The last component of a path that creates. *)
Definition split_last (p : path) : option (path * str) :=
  match last p with Some (Normal c) => Some (removelast p, c) | _ => None end.

Definition do_open (beneath : bool) (base : Z) (p : path) (flags mode : Z) (k : posix) : io Z * posix :=
  let nofollow := has_bits flags O_NOFOLLOW in
  if has_bits flags O_CREAT then
    match split_last p with
    | None => fail EISDIR k
    | Some (dir, c) =>
        match namei k beneath true MAXSYMLINKS base [] dir with
        | Err e => (Err e, k)
        | Ok (base, stack) =>
            let d := here base stack in
            match ents_at k d with
            | None => fail ENOTDIR k
            | Some e =>
                match e !! c with
                | None =>
                    let i := new_ino k in
                    let k := set_entry d c (Some i) (add_node (new_inode (KFile []) (Z.land mode (Z.lnot (k_umask k)))) k) in
                    (Ok (new_fd k), put_fd (new_fd k) (MkOfd i 0 (has_bits flags O_APPEND) false (access_of flags)) k)
                | Some i =>
                    if has_bits flags O_EXCL then fail EEXIST k
                    else match kind_at k i with
                         | Some (KLink _) => fail ELOOP k  (** with O_NOFOLLOW, as every create here *)
                         | Some (KDir _) => fail EISDIR k
                         | _ => open_ino i flags k
                         end
                end
            end
        end
    end
  else
    match namei k beneath (negb nofollow) MAXSYMLINKS base [] p with
    | Err e => (Err e, k)
    | Ok (base, stack) => open_ino (here base stack) flags k
    end.

(** ** The [*at] family *)

Definition fd_dir (k : posix) (fd : Z) : option (Z * gmap (list Z) Z) :=
  match k_fds k !! fd with
  | Some f => match ents_at k (fd_ino f) with Some e => Some (fd_ino f, e) | None => None end
  | None => None
  end.

(** Run [body] on a directory descriptor. *)
Definition at_dir {A} (k : posix) (fd : Z) (body : Z -> gmap (list Z) Z -> io A * posix) : io A * posix :=
  match fd_dir k fd with Some (d, e) => body d e | None => fail ENOTDIR k end.

(** Each operation on directory [d], whose entries are [e]. *)

Definition create_in (c : str) (t : kind) (mode : Z) (k : posix) (d : Z) (e : gmap (list Z) Z) : io unit * posix :=
  match e !! c with
  | Some _ => fail EEXIST k
  | None => (Ok tt, set_entry d c (Some (new_ino k)) (add_node (new_inode t mode) k))
  end.

Definition unlink_in (c : str) (dir : bool) (k : posix) (d : Z) (e : gmap (list Z) Z) : io unit * posix :=
  match e !! c with
  | None => fail ENOENT k
  | Some i =>
      match kind_at k i, dir with
      | Some (KDir e'), true => if bool_decide (e' = ∅) then (Ok tt, set_entry d c None k) else fail ENOTEMPTY k
      | Some (KDir _), false => fail EISDIR k
      | _, true => fail ENOTDIR k
      | _, false => (Ok tt, set_entry d c None k)
      end
  end.

Definition create_entry (fd : Z) (c : str) (t : kind) (mode : Z) (k : posix) : io unit * posix :=
  at_dir k fd (create_in c t mode k).
Definition do_unlink (fd : Z) (c : str) (dir : bool) (k : posix) : io unit * posix :=
  at_dir k fd (unlink_in c dir k).

(** [fchmodat(dirfd, name, mode, 0)] follows a symbolic link. *)
Definition do_fchmodat (fd : Z) (c : str) (mode : Z) (k : posix) : io unit * posix :=
  match k_fds k !! fd with
  | None => fail EBADF k
  | Some f =>
      match namei k false true MAXSYMLINKS (fd_ino f) [] [Normal c] with
      | Err e => (Err e, k)
      | Ok (base, stack) =>
          match k_nodes k !! here base stack with
          | Some n => (Ok tt, put_node (here base stack) (set_imode mode n) k)
          | None => fail ENOENT k
          end
      end
  end.

Definition link_in (i : Z) (dc : str) (k : posix) (d : Z) (de : gmap (list Z) Z) : io unit * posix :=
  match de !! dc with
  | Some _ => fail EEXIST k
  | None => match kind_at k i with
            | Some (KDir _) => fail EPERM k
            | _ => (Ok tt, set_entry d dc (Some i) k)
            end
  end.

Definition do_link (sfd : Z) (sc : str) (dfd : Z) (dc : str) (k : posix) : io unit * posix :=
  at_dir k sfd (fun _ se =>
    match se !! sc with
    | None => fail ENOENT k
    | Some i => at_dir k dfd (link_in i dc k)
    end).

(** Whether directory [d] is [i] or below it. *)
Fixpoint below (k : posix) (fuel : nat) (i d : Z) : bool :=
  if i =? d then true
  else match fuel with
       | O => false
       | S fuel => match ents_at k i with
                   | Some e => existsb (fun p => below k fuel (snd p) d) (map_to_list e)
                   | None => false
                   end
       end.

Definition rename_in (i od : Z) (oc nc : str) (k : posix) (nd : Z) (ne : gmap (list Z) Z) : io unit * posix :=
  let move := (Ok tt, set_entry nd nc (Some i) (set_entry od oc None k)) in
  if match kind_at k i with Some (KDir _) => below k (size (k_nodes k)) i nd | _ => false end
  then fail EINVAL k
  else match ne !! nc with
       | None => move
       | Some j =>
           if i =? j then (Ok tt, k)
           else match kind_at k i, kind_at k j with
                | Some (KDir _), Some (KDir e') => if bool_decide (e' = ∅) then move else fail ENOTEMPTY k
                | Some (KDir _), _ => fail ENOTDIR k
                | _, Some (KDir _) => fail EISDIR k
                | _, _ => move
                end
       end.

Definition do_rename (ofd_ : Z) (oc : str) (nfd : Z) (nc : str) (k : posix) : io unit * posix :=
  at_dir k ofd_ (fun od oe =>
    match oe !! oc with
    | None => fail ENOENT k
    | Some i => at_dir k nfd (rename_in i od oc nc k)
    end).

Definition do_readlink (fd : Z) (c : str) (k : posix) : io str * posix :=
  at_dir k fd (fun _ e =>
    match e !! c with
    | None => fail ENOENT k
    | Some i => match kind_at k i with Some (KLink t) => (Ok t, k) | _ => fail EINVAL k end
    end).

(** ** Open files *)

Definition may_read (access : Z) : bool := negb (access =? O_WRONLY).
Definition may_write (access : Z) : bool := negb (access =? O_RDONLY).

(** Run [body] on an open regular file that is no O_PATH reference, if its access
    mode allows it. *)
Definition on_file {A} (may : Z -> bool) (code : Z) (k : posix) (fd : Z) (body : ofd -> inode -> bytes -> io A * posix) : io A * posix :=
  match k_fds k !! fd with
  | None => fail EBADF k
  | Some f =>
      if fd_opath f then fail EBADF k
      else if negb (may (fd_access f)) then fail code k
      else match k_nodes k !! fd_ino f with
           | Some n => match i_kind n with
                       | KFile d => body f n d
                       | KDir _ => fail EISDIR k
                       | KLink _ => fail EINVAL k
                       end
           | None => fail EBADF k
           end
  end.

Definition resize (d : bytes) (n : Z) : bytes :=
  take (Z.to_nat n) d ++ replicate (Z.to_nat n - length d) x00.

Definition move_fd (fd : Z) (f : ofd) (pos : Z) (k : posix) : posix :=
  put_fd fd (MkOfd (fd_ino f) pos (fd_append f) (fd_opath f) (fd_access f)) k.

Definition do_set_len (fd size : Z) (k : posix) : io unit * posix :=
  on_file may_write EINVAL k fd (fun f n d => (Ok tt, put_node (fd_ino f) (set_kind (KFile (resize d size)) n) k)).

Definition do_seek (fd o : Z) (k : posix) : io Z * posix :=
  match k_fds k !! fd with
  | Some f => if fd_opath f then fail EBADF k else (Ok o, move_fd fd f o k)
  | None => fail EBADF k
  end.

Definition do_read_fd (fd count : Z) (k : posix) : io bytes * posix :=
  on_file may_read EBADF k fd (fun f _ d => let b := slice d (fd_pos f) count in (Ok b, move_fd fd f (fd_pos f + zlen b) k)).

(** [write_all] makes no call for no bytes. *)
Definition do_write_fd (fd : Z) (b : bytes) (k : posix) : io unit * posix :=
  match b with
  | [] => (Ok tt, k)
  | _ =>
      on_file may_write EBADF k fd (fun f n d =>
        let pos := if fd_append f then zlen d else fd_pos f in
        (Ok tt, move_fd fd f (pos + zlen b) (put_node (fd_ino f) (set_kind (KFile (put d pos b)) n) k)))
  end.

(** Through a descriptor of any kind, O_PATH included. *)
Definition on_inode (k : posix) (fd : Z) (body : inode -> inode) : io unit * posix :=
  match k_fds k !! fd with
  | None => fail EBADF k
  | Some f => match k_nodes k !! fd_ino f with
              | Some n => (Ok tt, put_node (fd_ino f) (body n) k)
              | None => fail EBADF k
              end
  end.

Definition time_ok (t : timespec) : bool :=
  (tv_nsec t =? UTIME_OMIT) || ((0 <=? tv_nsec t) && (tv_nsec t <? 1000000000)).
Definition new_time (t : timespec) (old : Z) : Z :=
  if tv_nsec t =? UTIME_OMIT then old else tv_sec t * 1000000000 + tv_nsec t.

Definition do_utimens (fd : Z) (a m : timespec) (k : posix) : io unit * posix :=
  if time_ok a && time_ok m
  then on_inode k fd (fun n => set_itimes (new_time a (i_atime n)) (new_time m (i_mtime n)) n)
  else fail EINVAL k.

(** ** The kernel *)

Definition list_dir (k : posix) (e : gmap (list Z) Z) : list dir_item :=
  map (fun p => DirItem (fst p) (stat_ino k (snd p))) (map_to_list e).

Definition posix_call (X : Type) (e : sysE X) (k : posix) : X * posix :=
  match e in sysE X return X * posix with
  | SymlinkMetadata p => (res_bind (locate_ino k false p) (stat_ino k), k)
  | MetadataOf p => (res_bind (locate_ino k true p) (stat_ino k), k)
  | Exists p => (is_ok (locate_ino k true p), k)
  | Canonicalize p =>
      (res_map (fun r => RootDir :: map Normal (map fst (reverse (snd r)))) (locate k true p), k)
  | ReadDir p =>
      (res_bind (locate_ino k true p) (fun i =>
         match ents_at k i with Some e => Ok (list_dir k e) | None => Err (os_error ENOTDIR) end), k)
  | Statvfs p => (res_map (fun _ => k_statvfs k) (locate_ino k true p), k)
  | Open p flags mode => do_open false (k_slash k) p flags mode k
  | Openat2 dirfd rel flags mode resolve =>
      match k_fds k !! dirfd with
      | Some f => if has_bits resolve RESOLVE_BENEATH then do_open true (fd_ino f) rel flags mode k else fail EINVAL k
      | None => fail EBADF k
      end
  | Mkdirat fd name mode => create_entry fd name (KDir ∅) (Z.land mode (Z.lnot (k_umask k))) k
  | Fchmodat fd name mode => do_fchmodat fd name mode k
  | Unlinkat fd name flag => do_unlink fd name (has_bits flag AT_REMOVEDIR) k
  | Symlinkat target fd name => create_entry fd name (KLink target) 0x1ff k
  | Linkat sd sn dd dn => do_link sd sn dd dn k
  | Renameat od on nd nn => do_rename od on nd nn k
  | Readlinkat fd name _ => do_readlink fd name k
  | FileMetadata fd =>
      (match k_fds k !! fd with Some f => stat_ino k (fd_ino f) | None => Err (os_error EBADF) end, k)
  | SetLen fd size => do_set_len fd size k
  | SetPermissions fd mode | FchmodProc fd mode => on_inode k fd (set_imode mode)
  | UtimensProc fd a m => do_utimens fd a m k
  | SeekStart fd o => do_seek fd o k
  | ReadFile fd count => do_read_fd fd count k
  | WriteAll fd b => do_write_fd fd b k
  | SyncAll fd | SyncData fd => (Ok tt, k)
  | SendFrame b => (if MAX_FRAME_SIZE <? zlen b then Err (lit "frame too large") else Ok tt, k)
  | Finish => (Ok tt, k)
  | Close _ | RecordRx _ | RecordTx _ | LockStripe _ | UnlockStripe _ => (tt, k)
  | TryInsert _ _ _ | HandleRemove _ | GetFile _ | GetWriteCtx _ => (None, k)
  end.
