(* ===== verification/Jail.v ===== *)
(** * The jail

    What a server task's calls can do to the file system of [Posix], provided
    they meet the obligations of [Confine.srv_spec].  [inside] is the set of inodes
    the export root leads to, and those made since; everything else is outside.
    Each call keeps the entries of inside directories inside and leaves every
    outside inode as it was: a path of the client, a link in it or a name can lead
    nowhere else.  The one exception is [fchmodat], which follows links; for it only
    the permission bits of an outside inode can change. *)

From S2P Require Import Prelude Prog Text Status Frames FrameIo Os Sanitize WriteLock Confine FileServer Posix.

(** ** Inside and outside *)

(** Equal inodes, or equal up to the permission bits. *)
Definition same (strict : bool) (a b : option inode) : Prop :=
  if strict then a = b else set_imode 0 <$> a = set_imode 0 <$> b.

#[export] Instance same_equiv strict : Equivalence (same strict).
Proof. unfold same. destruct strict; split; red; congruence. Qed.

Lemma same_dom strict a b : same strict a b -> is_Some a <-> is_Some b.
Proof. unfold same. destruct strict, a, b; naive_solver. Qed.

Lemma same_kind strict a b : same strict a b -> i_kind <$> a = i_kind <$> b.
Proof. unfold same. destruct strict, a as [[]|], b as [[]|]; cbn; intros H; by simplify_eq. Qed.

Section Jail.
(** The file system at the start, the inodes inside it then, and how strictly
    the others are to be kept. *)
Context (k0 : posix) (J0 : gset Z) (strict : bool).

Definition inside (k : posix) : gset Z := J0 ∪ (dom (k_nodes k) ∖ dom (k_nodes k0)).

Record jailed (k : posix) : Prop := {
  j_slash : k_slash k = k_slash k0;
  j_grow : dom (k_nodes k0) ⊆ dom (k_nodes k);
  j_closed d e c i : d ∈ inside k -> ents_at k d = Some e -> e !! c = Some i -> i ∈ inside k;
  j_outside i : i ∉ inside k -> same strict (k_nodes k !! i) (k_nodes k0 !! i);
  j_dirs i : is_Some (ents_at k0 i) -> is_Some (ents_at k i)
}.

Lemma ents_at_node k d e : ents_at k d = Some e -> exists n, k_nodes k !! d = Some n /\ i_kind n = KDir e.
Proof.
  unfold ents_at, kind_at. destruct (k_nodes k !! d) as [n|]; simpl; [|done].
  destruct (i_kind n) eqn:E; [|done..]. intros [= <-]. eauto.
Qed.

Lemma jailed_start : (forall d e c i, d ∈ J0 -> ents_at k0 d = Some e -> e !! c = Some i -> i ∈ J0) -> jailed k0.
Proof.
  intros H. assert (inside k0 = J0) as E by (unfold inside; set_solver).
  split; [done|done| |done|done]. rewrite E. exact H.
Qed.

(** ** Walks stay inside *)

Definition all_inside (k : posix) (stack : list (str * Z)) : Prop := Forall (fun p => snd p ∈ inside k) stack.

Lemma here_inside k base stack : base ∈ inside k -> all_inside k stack -> here base stack ∈ inside k.
Proof. intros Hb. destruct 1 as [|[c i] s Hi _]; done. Qed.

Lemma namei_inside k follow links : jailed k -> forall base stack todo base' stack',
  base ∈ inside k -> all_inside k stack -> namei k true follow links base stack todo = Ok (base', stack') ->
  base' = base /\ all_inside k stack'.
Proof.
  intros Hj. induction links as [|links IHl]; intros base stack todo; revert stack;
    (induction todo as [|[| | |c] t IH]; intros stack base' stack' Hb Hs; cbn [namei]; [by intros [= <- <-]|done| | |]).
  1,4: destruct (ents_at k _); [by apply IH|done].
  1,3: destruct stack as [|p stack]; [done|]; inv Hs; by apply IH.
  all: destruct (ents_at k (here base stack)) as [e|] eqn:He; [|done];
    destruct (e !! c) as [i|] eqn:Hc; [|done];
    assert (i ∈ inside k) as Hi by (eapply j_closed; [exact Hj| |exact He|exact Hc]; by apply here_inside);
    assert (all_inside k ((c, i) :: stack)) by (by constructor);
    destruct (kind_at k i) as [[|?|target]|]; try by apply IH.
  all: destruct (match t with [] => follow | _ => true end); [|by apply IH]; try done.
  destruct (bool_decide _); [done|]. by apply IHl.
Qed.

Lemma namei_here k follow links base todo base' stack' :
  jailed k -> base ∈ inside k -> namei k true follow links base [] todo = Ok (base', stack') -> here base' stack' ∈ inside k.
Proof.
  intros Hj Hb H. destruct (namei_inside _ _ _ Hj _ _ _ _ _ Hb (Forall_nil_2 _) H) as [-> Hs]. by apply here_inside.
Qed.

(** ** Changes stay inside *)

Lemma inside_put k i n : is_Some (k_nodes k !! i) -> inside (put_node i n k) = inside k.
Proof.
  intros Hi. unfold inside, put_node. simpl. rewrite dom_insert_L.
  apply elem_of_dom in Hi. replace ({[i]} ∪ dom (k_nodes k)) with (dom (k_nodes k)) by set_solver. done.
Qed.

Lemma ents_at_put k i n d : ents_at (put_node i n k) d =
  if decide (d = i) then match i_kind n with KDir e => Some e | _ => None end else ents_at k d.
Proof.
  unfold ents_at, kind_at, put_node. simpl. destruct (decide (d = i)) as [->|Hne].
  - by rewrite lookup_insert_eq.
  - by rewrite lookup_insert_ne.
Qed.

Lemma put_node_jailed k i n :
  jailed k -> i ∈ inside k -> is_Some (k_nodes k !! i) ->
  (forall e c j, i_kind n = KDir e -> e !! c = Some j -> j ∈ inside k) ->
  (is_Some (ents_at k i) -> exists e, i_kind n = KDir e) -> jailed (put_node i n k).
Proof.
  intros [Hsl Hg Hc Ho Hds] Hi Hs Hn Hd. split.
  - done.
  - unfold put_node. simpl. rewrite dom_insert_L. set_solver.
  - intros d e c j. rewrite inside_put, ents_at_put by done. destruct (decide (d = i)) as [->|Hne]; [|by apply Hc].
    intros _. destruct (i_kind n) as [e'| |] eqn:E; [|done..]. intros [= ->]. by apply Hn.
  - intros j. rewrite inside_put by done. intros Hj. unfold put_node. simpl.
    rewrite lookup_insert_ne by set_solver. by apply Ho.
  - intros j Hj%Hds. rewrite ents_at_put. destruct (decide (j = i)) as [->|]; [|done].
    destruct (Hd Hj) as [e ->]. by eexists.
Qed.

Lemma new_ino_fresh k : new_ino k ∉ dom (k_nodes k).
Proof. exact (is_fresh (dom (k_nodes k))). Qed.

Lemma inside_add k n : jailed k -> inside (add_node n k) = {[new_ino k]} ∪ inside k.
Proof.
  intros Hj. pose proof (new_ino_fresh k). pose proof (j_grow _ Hj).
  unfold inside, add_node, put_node. simpl. rewrite dom_insert_L. set_solver.
Qed.

Lemma add_node_jailed k n :
  jailed k -> (forall e c j, i_kind n = KDir e -> e !! c = Some j -> j ∈ inside k) -> jailed (add_node n k).
Proof.
  intros Hj Hn. pose proof Hj as [Hsl Hg Hc Ho Hds]. pose proof (new_ino_fresh k) as Hf. split.
  - done.
  - unfold add_node, put_node. simpl. rewrite dom_insert_L. set_solver.
  - intros d e c j. rewrite inside_add by done. unfold add_node. rewrite ents_at_put.
    destruct (decide (d = new_ino k)) as [->|Hne].
    + intros _. destruct (i_kind n) as [e'| |] eqn:E; [|done..]. intros [= ->] Hj'.
      apply elem_of_union. right. by eapply Hn.
    + intros Hd He Hj'. apply elem_of_union. right. eapply Hc; [|done..]. set_solver.
  - intros j. rewrite inside_add by done. intros Hj'. unfold add_node, put_node. simpl.
    rewrite lookup_insert_ne by set_solver. apply Ho. set_solver.
  - intros j Hd%Hds. unfold add_node. rewrite ents_at_put. destruct (decide (j = new_ino k)) as [->|]; [|done].
    destruct Hd as [e (m & Hm & _)%ents_at_node]. destruct Hf. apply elem_of_dom. eauto.
Qed.

Lemma set_entry_jailed k d c j :
  jailed k -> d ∈ inside k -> (forall i, j = Some i -> i ∈ inside k) -> jailed (set_entry d c j k).
Proof.
  intros Hj Hd Hi. unfold set_entry. destruct (k_nodes k !! d) as [n|] eqn:Hn; [|done].
  destruct (i_kind n) as [e| |] eqn:Ek; [|done..].
  apply put_node_jailed; [done|done|eauto| |by eexists]. simpl. intros e' c' i [= <-].
  destruct (decide (c' = c)) as [->|Hne].
  - rewrite lookup_partial_alter_eq. apply Hi.
  - rewrite lookup_partial_alter_ne by done. intros Hc. eapply (j_closed _ Hj d e); [done| |done].
    unfold ents_at, kind_at. rewrite Hn. simpl. by rewrite Ek.
Qed.

Lemma inside_set_entry k d c j : inside (set_entry d c j k) = inside k.
Proof.
  unfold set_entry. destruct (k_nodes k !! d) eqn:E; [|done]. destruct (i_kind _); [|done..]. apply inside_put. eauto.
Qed.

Lemma set_entry_fds k d c j : k_fds (set_entry d c j k) = k_fds k.
Proof. unfold set_entry. destruct (k_nodes k !! d) as [n|]; [|done]. by destruct (i_kind n). Qed.

Lemma jailed_fds k f : jailed k -> jailed (set_fds f k).
Proof. by intros [? ? ? ? ?]. Qed.

(** A new mode for any inode, when modes are not held fast. *)
Lemma chmod_jailed k i n m :
  strict = false -> jailed k -> k_nodes k !! i = Some n -> jailed (put_node i (set_imode m n) k).
Proof.
  intros Hst [Hsl Hg Hc Ho Hds] Hn. assert (is_Some (k_nodes k !! i)) as Hi by eauto. split.
  - done.
  - unfold put_node. simpl. rewrite dom_insert_L. set_solver.
  - intros d e c j. rewrite inside_put, ents_at_put by done. destruct (decide (d = i)) as [->|]; [|by apply Hc].
    intros Hd He. eapply Hc; [done|]. unfold ents_at, kind_at. rewrite Hn. exact He.
  - intros j. rewrite inside_put by done. intros Hj. unfold put_node. simpl.
    destruct (decide (j = i)) as [->|]; [|rewrite lookup_insert_ne by done; by apply Ho].
    rewrite lookup_insert_eq. rewrite <- (Ho i Hj), Hn. unfold same. by rewrite Hst.
  - intros j Hj%Hds. rewrite ents_at_put. destruct (decide (j = i)) as [->|]; [|done].
    destruct Hj as [e (n' & Hm & Hk)%ents_at_node]. simplify_eq. simpl. rewrite Hk. by eexists.
Qed.

(** ** Open files *)

Definition fd_at (k : posix) (fd i : Z) : Prop := exists f, k_fds k !! fd = Some f /\ fd_ino f = i.
Definition fd_in (k : posix) (fd : Z) : Prop := exists i, fd_at k fd i /\ i ∈ inside k.

(** What later states keep: inodes, and the inode of every open file. *)
Record grows (k k' : posix) : Prop := {
  gr_nodes : dom (k_nodes k) ⊆ dom (k_nodes k');
  gr_fds fd i : fd_at k fd i -> fd_at k' fd i
}.

#[export] Instance grows_preorder : PreOrder grows.
Proof. split; [by intros k; split|]. intros a b c [] []. split; [set_solver|auto]. Qed.

Lemma grows_inside k k' i : grows k k' -> i ∈ inside k -> i ∈ inside k'.
Proof. intros [Hn _]. unfold inside. set_solver. Qed.

Lemma new_inside k n : jailed k -> new_ino k ∈ inside (add_node n k).
Proof. intros H. rewrite inside_add by done. set_solver. Qed.

Lemma grows_in k k' fd : grows k k' -> fd_in k fd -> fd_in k' fd.
Proof. intros Hg (i & Hi & Hin). exists i. split; [by apply Hg|by eapply grows_inside]. Qed.

Lemma grows_put_node k i n : grows k (put_node i n k).
Proof. split; [|done]. unfold put_node. simpl. rewrite dom_insert_L. set_solver. Qed.

Lemma grows_set_entry k d c j : grows k (set_entry d c j k).
Proof.
  unfold set_entry. destruct (k_nodes k !! d); [|done]. destruct (i_kind _); [|done..]. apply grows_put_node.
Qed.

Lemma new_fd_fresh k : k_fds k !! new_fd k = None.
Proof. apply not_elem_of_dom. exact (is_fresh (dom (k_fds k))). Qed.

Lemma grows_new_fd k f : grows k (put_fd (new_fd k) f k).
Proof.
  split; [done|]. intros fd i (g & Hg & <-). exists g. split; [|done]. unfold put_fd. simpl.
  rewrite lookup_insert_ne; [done|]. intros <-. by rewrite new_fd_fresh in Hg.
Qed.

Lemma grows_move k fd f pos : k_fds k !! fd = Some f -> grows k (move_fd fd f pos k).
Proof.
  intros Hf. split; [done|]. intros fd' i (g & Hg & <-). unfold move_fd, put_fd, fd_at. simpl.
  destruct (decide (fd' = fd)) as [->|]; [rewrite lookup_insert_eq|rewrite lookup_insert_ne by done; eauto].
  eexists. split; [done|]. simpl. congruence.
Qed.

(** A call that keeps the jail. *)
Definition keeps {A} (k : posix) (r : A * posix) : Prop := jailed (snd r) /\ grows k (snd r).

Lemma keeps_fail {A} k code : jailed k -> keeps (A := io A) k (fail code k).
Proof. by intros. Qed.

Lemma keeps_same {A} k (x : A) : jailed k -> keeps k (x, k).
Proof. by intros. Qed.

Lemma keeps_trans {A} k k' (r : A * posix) : grows k k' -> keeps k' r -> keeps k r.
Proof. intros Hg [Hj Hg']. split; [done|by etrans]. Qed.
#[local] Hint Resolve keeps_fail keeps_same : core.

Lemma keeps_new_fd k k' f : jailed k' -> grows k k' -> keeps (A := io Z) k (Ok (new_fd k'), put_fd (new_fd k') f k').
Proof. intros Hj Hg. split; [by apply jailed_fds|]. etrans; [exact Hg|apply grows_new_fd]. Qed.

(** An open makes a new file, of the inode asked for. *)
Definition opened (P : Z -> Prop) (k : posix) (r : io Z * posix) : Prop :=
  keeps k r /\ forall fd, fst r = Ok fd -> k_fds k !! fd = None /\ exists i, fd_at (snd r) fd i /\ P i.

Lemma opened_fail P k code : jailed k -> opened P k (fail code k).
Proof. intros. split; [auto|]. intros fd. unfold fail. by simpl. Qed.
#[local] Hint Resolve opened_fail : core.

Lemma opened_new (P : Z -> Prop) k k' i pos ap op ac :
  jailed k' -> grows k k' -> k_fds k' = k_fds k -> P i ->
  opened P k (Ok (new_fd k'), put_fd (new_fd k') (MkOfd i pos ap op ac) k').
Proof.
  intros Hj Hg Hf HP. split; [by apply keeps_new_fd|]. simpl. intros fd [= <-]. split.
  - rewrite <- Hf. apply new_fd_fresh.
  - exists i. split; [|done]. eexists. split; [apply lookup_insert_eq|done].
Qed.

Lemma open_ino_keeps i flags k :
  jailed k -> (i ∈ inside k \/ has_bits flags O_TRUNC = false) -> opened (fun j => j = i) k (open_ino i flags k).
Proof.
  intros Hj Hi. unfold open_ino. destruct (kind_at k i) as [[e|d|t]|] eqn:Ek; [| | |auto].
  - destruct (_ && _); [auto|by apply opened_new].
  - destruct (has_bits flags O_DIRECTORY); [auto|].
    destruct (has_bits flags O_TRUNC) eqn:Et; [|by apply opened_new]. destruct Hi as [Hi|]; [|done].
    destruct (negb _); [|by apply opened_new]. simpl.
    destruct (k_nodes k !! i) as [n|] eqn:En; [|by apply opened_new].
    apply opened_new; [|apply grows_put_node|done|done]. apply put_node_jailed; [done|done|eauto|done|].
    unfold ents_at. rewrite Ek. by intros [].
  - destruct (has_bits flags O_PATH); [by apply opened_new|auto].
Qed.

(** An open beneath a directory inside. *)
Lemma do_open_keeps base p flags mode k :
  jailed k -> base ∈ inside k -> opened (fun i => i ∈ inside (snd (do_open true base p flags mode k))) k (do_open true base p flags mode k).
Proof.
  intros Hj Hb. unfold do_open. destruct (has_bits flags O_CREAT).
  - destruct (split_last p) as [[dir c]|]; [|auto].
    destruct (namei _ _ _ _ _ _ dir) as [[b st]|e] eqn:En; [|by split; [auto|]].
    pose proof (namei_here _ _ _ _ _ _ _ Hj Hb En) as Hd.
    destruct (ents_at k (here b st)) as [e|] eqn:Ee; [|auto]. destruct (e !! c) as [i|] eqn:Ec.
    + destruct (has_bits flags O_EXCL); [auto|].
      assert (i ∈ inside k) as Hi by (by eapply j_closed).
      assert (opened (fun j => j ∈ inside (snd (open_ino i flags k))) k (open_ino i flags k)) as Ho.
      { destruct (open_ino_keeps i flags k Hj (or_introl Hi)) as [[Hj' Hg] Hf]. split; [done|].
        intros fd Hfd. destruct (Hf fd Hfd) as (? & j & Hat & ->). split; [done|]. exists i. split; [done|].
        by eapply grows_inside. }
      destruct (kind_at k i) as [[| |]|]; auto.
    + set (n := new_inode _ _). assert (jailed (add_node n k)) as Ha by (by apply add_node_jailed).
      assert (new_ino k ∈ inside (add_node n k)) as Hn by (by apply new_inside).
      assert (here b st ∈ inside (add_node n k)) by (by eapply grows_inside; [apply grows_put_node|]).
      apply opened_new; [apply set_entry_jailed; [done..|by intros ? [= <-]]| | |].
      * etrans; [apply grows_put_node|apply grows_set_entry].
      * by rewrite set_entry_fds.
      * change (new_ino k ∈ inside (set_entry (here b st) c (Some (new_ino k)) (add_node n k))).
        by rewrite inside_set_entry.
  - destruct (namei _ _ _ _ _ _ p) as [[b st]|e] eqn:En; [|by split; [auto|]].
    pose proof (namei_here _ _ _ _ _ _ _ Hj Hb En) as Hi.
    destruct (open_ino_keeps (here b st) flags k Hj (or_introl Hi)) as [[Hj' Hg] Hf]. split; [done|].
    intros fd Hfd. destruct (Hf fd Hfd) as (? & j & Hat & ->). split; [done|]. exists (here b st). split; [done|].
    by eapply grows_inside.
Qed.

(** ** The [*at] family *)

(** Whether a call is an [fchmodat] on a name that is a symbolic link. *)
Definition follows_link {X} (k : posix) (e : sysE X) : bool :=
  match e with
  | Fchmodat fd name _ =>
      match k_fds k !! fd with
      | Some f => match ents_at k (fd_ino f) with
                  | Some e => match e !! name with
                              | Some i => match kind_at k i with Some (KLink _) => true | _ => false end
                              | None => false
                              end
                  | None => false
                  end
      | None => false
      end
  | _ => false
  end.

Lemma at_dir_keeps {A} (k : posix) (fd : Z) (body : Z -> gmap (list Z) Z -> io A * posix) :
  jailed k -> fd_in k fd ->
  (forall d e, d ∈ inside k -> ents_at k d = Some e -> keeps k (body d e)) -> keeps k (at_dir k fd body).
Proof.
  intros Hj (i & (f & Hf & <-) & Hi) Hb. unfold at_dir, fd_dir. rewrite Hf.
  destruct (ents_at k (fd_ino f)) as [e|] eqn:Ee; [by apply Hb|auto].
Qed.

Lemma keeps_entry {A} k d c j (x : A) :
  jailed k -> d ∈ inside k -> (forall i, j = Some i -> i ∈ inside k) -> keeps k (x, set_entry d c j k).
Proof. intros. split; [by apply set_entry_jailed|apply grows_set_entry]. Qed.

Lemma keeps_new_entry {A} k d c n (x : A) :
  jailed k -> d ∈ inside k -> (forall e c j, i_kind n = KDir e -> e !! c = Some j -> j ∈ inside k) ->
  keeps k (x, set_entry d c (Some (new_ino k)) (add_node n k)).
Proof.
  intros Hj Hd Hn. assert (jailed (add_node n k)) by (by apply add_node_jailed).
  assert (grows k (add_node n k)) as Hg by apply grows_put_node. eapply keeps_trans; [exact Hg|].
  apply keeps_entry; [done|by eapply grows_inside|]. intros i [= <-]. by apply new_inside.
Qed.

Lemma create_entry_keeps fd c t mode k :
  jailed k -> fd_in k fd -> (forall e, t = KDir e -> e = ∅) -> keeps k (create_entry fd c t mode k).
Proof.
  intros Hj Hf Ht. apply at_dir_keeps; [done..|]. intros d e Hd He. unfold create_in. destruct (e !! c); [auto|].
  apply keeps_new_entry; [done..|]. simpl. intros e' c' j He'. rewrite (Ht e') by done. by rewrite lookup_empty.
Qed.

Lemma do_unlink_keeps fd c dir k : jailed k -> fd_in k fd -> keeps k (do_unlink fd c dir k).
Proof.
  intros Hj Hf. apply at_dir_keeps; [done..|]. intros d e Hd He. unfold unlink_in. destruct (e !! c) as [i|]; [|auto].
  assert (forall x, keeps (A := io unit) k (x, set_entry d c None k)) by (intros; by apply keeps_entry).
  destruct (kind_at k i) as [[e'| |]|], dir; auto. destruct (bool_decide _); auto.
Qed.

Lemma do_link_keeps sfd sc dfd dc k : jailed k -> fd_in k sfd -> fd_in k dfd -> keeps k (do_link sfd sc dfd dc k).
Proof.
  intros Hj Hs Hd. apply at_dir_keeps; [done..|]. intros d e Hin He. destruct (e !! sc) as [i|] eqn:Ec; [|auto].
  assert (i ∈ inside k) as Hi by (by eapply j_closed).
  apply at_dir_keeps; [done..|]. intros d' e' Hd' He'. unfold link_in.
  destruct (e' !! dc); [auto|].
  assert (keeps k (Ok tt : io unit, set_entry d' dc (Some i) k)) by (apply keeps_entry; [done..|]; by intros ? [= <-]).
  destruct (kind_at k i) as [[| |]|]; auto.
Qed.

Lemma do_rename_keeps ofd_ oc nfd nc k : jailed k -> fd_in k ofd_ -> fd_in k nfd -> keeps k (do_rename ofd_ oc nfd nc k).
Proof.
  intros Hj Ho Hn. apply at_dir_keeps; [done..|]. intros od oe Hod He. destruct (oe !! oc) as [i|] eqn:Ec; [|auto].
  assert (i ∈ inside k) as Hi by (by eapply j_closed).
  apply at_dir_keeps; [done..|]. intros nd ne Hnd Hne. unfold rename_in.
  assert (forall x, keeps (A := io unit) k (x, set_entry nd nc (Some i) (set_entry od oc None k))) as Hm.
  { intros x. eapply keeps_trans; [apply grows_set_entry|].
    apply keeps_entry; [by apply set_entry_jailed|by rewrite inside_set_entry|].
    intros ? [= <-]. by rewrite inside_set_entry. }
  destruct (match kind_at k i with Some (KDir _) => _ | _ => false end); [auto|].
  destruct (ne !! nc) as [j|]; [|auto]. destruct (i =? j); [auto|].
  destruct (kind_at k i) as [[| |]|], (kind_at k j) as [[| |]|]; auto; destruct (bool_decide _); auto.
Qed.

(** A new mode for an inode inside. *)
Lemma chmod_inside k i n m :
  jailed k -> i ∈ inside k -> k_nodes k !! i = Some n -> jailed (put_node i (set_imode m n) k).
Proof.
  intros Hj Hi Hn. apply put_node_jailed; [done|done|eauto| |].
  - simpl. intros e c j Hk Hc. eapply (j_closed _ Hj i e); [done| |done]. unfold ents_at, kind_at. rewrite Hn. simpl. by rewrite Hk.
  - intros [e (n' & Hm & He)%ents_at_node]. exists e. simpl. congruence.
Qed.

Lemma do_fchmodat_keeps fd c mode k :
  jailed k -> fd_in k fd -> (strict = true -> follows_link k (Fchmodat fd c mode) = false) ->
  keeps k (do_fchmodat fd c mode k).
Proof.
  intros Hj (d & (f & Hf & <-) & Hd) Hs. unfold do_fchmodat. rewrite Hf.
  destruct (namei _ _ _ _ _ _ _) as [[b st]|e] eqn:Ew; [|auto].
  destruct (k_nodes k !! here b st) as [n|] eqn:En; [|auto].
  split; [|apply grows_put_node]. destruct strict eqn:Est; [|by apply chmod_jailed].
  apply chmod_inside; [done| |done]. specialize (Hs eq_refl). simpl in Hs. rewrite Hf in Hs. cbn in Ew.
  destruct (ents_at k (fd_ino f)) as [e|] eqn:Ee; [|done]. destruct (e !! c) as [i|] eqn:Ec; [|done].
  assert (i ∈ inside k) by (by eapply j_closed).
  destruct (kind_at k i) as [[| |t]|] eqn:Ei; [| |done|]; by injection Ew as <- <-.
Qed.

(** ** Open files *)

Lemma on_file_keeps {A} may code (k : posix) (fd : Z) (body : ofd -> inode -> bytes -> io A * posix) :
  jailed k -> fd_in k fd ->
  (forall f n d, k_fds k !! fd = Some f -> fd_ino f ∈ inside k -> k_nodes k !! fd_ino f = Some n -> i_kind n = KFile d ->
     keeps k (body f n d)) -> keeps k (on_file may code k fd body).
Proof.
  intros Hj (i & (f & Hf & <-) & Hi) Hb. unfold on_file. rewrite Hf. destruct (fd_opath f); [auto|].
  destruct (negb (may _)); [auto|]. destruct (k_nodes k !! fd_ino f) as [n|] eqn:En; [|auto]. destruct (i_kind n) eqn:Ek; auto.
Qed.

Lemma keeps_file {A} k f n d (x : A) :
  jailed k -> fd_ino f ∈ inside k -> k_nodes k !! fd_ino f = Some n -> (forall e, i_kind n <> KDir e) ->
  keeps k (x, put_node (fd_ino f) (set_kind (KFile d) n) k).
Proof.
  intros Hj Hi Hn Hk. split; [|apply grows_put_node]. apply put_node_jailed; [done|done|eauto|done|].
  intros [e (m & Hm & He)%ents_at_node]. destruct (Hk e). congruence.
Qed.

Lemma keeps_move {A} k k' fd f pos (x : A) :
  jailed k' -> grows k k' -> k_fds k' !! fd = Some f -> keeps k (x, move_fd fd f pos k').
Proof. intros Hj Hg Hf. split; [by apply jailed_fds|]. etrans; [exact Hg|by apply grows_move]. Qed.

Lemma on_inode_keeps k fd body :
  jailed k -> fd_in k fd -> (forall n, i_kind (body n) = i_kind n) -> keeps k (on_inode k fd body).
Proof.
  intros Hj (i & (f & Hf & <-) & Hi) Hb. unfold on_inode. rewrite Hf.
  destruct (k_nodes k !! fd_ino f) as [n|] eqn:En; [|auto].
  split; [|apply grows_put_node]. apply put_node_jailed; [done|done|eauto| |].
  2:{ intros [e (m & Hm & He)%ents_at_node]. exists e. rewrite Hb. congruence. }
  intros e c j. rewrite Hb. intros Hk Hc. eapply (j_closed _ Hj (fd_ino f) e); [done| |done]. unfold ents_at, kind_at. rewrite En. simpl. by rewrite Hk.
Qed.

(** ** Every call *)

(** The files a call names are inside.  A plain open only looks. *)
Definition args_in {X} (k : posix) (e : sysE X) : Prop :=
  match e with
  | Open _ flags _ => has_bits flags O_CREAT = false /\ has_bits flags O_TRUNC = false
  | Openat2 fd _ _ _ _ | Mkdirat fd _ _ | Unlinkat fd _ _ | Symlinkat _ fd _ | Readlinkat fd _ _
  | FileMetadata fd | SetLen fd _ | SetPermissions fd _ | FchmodProc fd _ | UtimensProc fd _ _
  | SeekStart fd _ | ReadFile fd _ | WriteAll fd _ | SyncAll fd | SyncData fd => fd_in k fd
  | Fchmodat fd _ _ => fd_in k fd /\ (strict = true -> follows_link k e = false)
  | Linkat fd _ fd' _ | Renameat fd _ fd' _ => fd_in k fd /\ fd_in k fd'
  | _ => True
  end.

Lemma posix_keeps X (e : sysE X) k : jailed k -> args_in k e -> keeps k (posix_call X e k).
Proof.
  intros Hj Ha. destruct e; cbn [posix_call args_in] in *; auto.
  - destruct Ha as [Hc Ht]. unfold do_open. rewrite Hc.
    destruct (namei _ _ _ _ _ _ _) as [[b st]|e]; [|auto]. by apply open_ino_keeps; [|right].
  - destruct Ha as (i & (f & Hf & <-) & Hi). rewrite Hf. destruct (has_bits _ _); [|auto].
    by apply (do_open_keeps (fd_ino f)).
  - apply create_entry_keeps; [done..|]. by intros e [= <-].
  - destruct Ha. by apply do_fchmodat_keeps.
  - by apply do_unlink_keeps.
  - by apply create_entry_keeps.
  - destruct Ha. by apply do_link_keeps.
  - destruct Ha. by apply do_rename_keeps.
  - apply at_dir_keeps; [done..|]. intros d e _ _. destruct (e !! name); [|auto]. by destruct (kind_at _ _) as [[| |]|]; auto.
  - apply on_file_keeps; [done..|]. intros f n d Hf Hi Hn Hk. apply keeps_file; [done..|]. by rewrite Hk.
  - by apply on_inode_keeps.
  - by apply on_inode_keeps.
  - unfold do_utimens. destruct (_ && _); [by apply on_inode_keeps|auto].
  - destruct Ha as (i & (f & Hf & _) & _). unfold do_seek. rewrite Hf. destruct (fd_opath f); [auto|]. by apply keeps_move.
  - apply on_file_keeps; [done..|]. intros f n d Hf _ _ _. by apply keeps_move.
  - unfold do_write_fd. destruct data as [|x data]; [auto|]. set (b := x :: data).
    apply on_file_keeps; [done..|]. intros f n d Hf Hi Hn Hk. cbv zeta.
    destruct (keeps_file k f n (put d (if fd_append f then zlen d else fd_pos f) b) tt Hj Hi Hn); [by rewrite Hk|].
    by apply keeps_move.
Qed.

(** ** The export root *)

(** The names [cs] lead from directory [d] to [r], through directories that are
    not exported. *)
Fixpoint leads (d : Z) (cs : list str) (r : Z) : Prop :=
  match cs with
  | [] => d = r
  | c :: cs => (d ∉ J0) /\ exists e i, ents_at k0 d = Some e /\ e !! c = Some i /\ is_Some (ents_at k0 i) /\ leads i cs r
  end.

Lemma leads_namei k follow links cs base stack d r :
  jailed k -> leads d cs r -> here base stack = d ->
  exists stack', namei k false follow links base stack (map Normal cs) = Ok (base, stack') /\ here base stack' = r.
Proof.
  intros Hj. revert stack d. induction cs as [|c cs IH]; intros stack d; [intros -> <-; by exists stack; destruct links|].
  intros (Hd & e & i & He & Hc & Hi & Hl) Hh.
  assert (ents_at k d = Some e) as Hk.
  { assert (d ∉ inside k) as Hout%(j_outside _ Hj).
    { apply ents_at_node in He as (n & Hn & _). assert (d ∈ dom (k_nodes k0)) by (apply elem_of_dom; eauto).
      unfold inside. set_solver. }
    apply same_kind in Hout. unfold ents_at, kind_at in *. by rewrite Hout. }
  assert (forall stack', here base stack' = i -> exists s, namei k false follow links base stack' (map Normal cs) = Ok (base, s) /\ here base s = r)
    as IH' by (intros; by eapply IH).
  apply (j_dirs _ Hj) in Hi as [e' (n & Hn & Hkn)%ents_at_node].
  destruct (IH' ((c, i) :: stack) eq_refl) as (s & Hs & Hr). exists s. split; [|done].
  cbn [map]. destruct links; cbn [namei]; rewrite Hh, Hk, Hc; unfold kind_at; rewrite Hn; simpl; rewrite Hkn; exact Hs.
Qed.

(** The anchor of every [openat2]. *)
Lemma open_root_keeps cs r k :
  jailed k -> leads (k_slash k0) cs r ->
  opened (fun i => i = r) k (posix_call _ (Open (RootDir :: map Normal cs) anchor_flags 0) k).
Proof.
  intros Hj Hl. cbn [posix_call]. unfold do_open. change (has_bits anchor_flags O_CREAT) with false.
  change (negb (has_bits anchor_flags O_NOFOLLOW)) with true. rewrite (j_slash _ Hj).
  destruct (leads_namei k true MAXSYMLINKS cs (k_slash k0) [] _ r Hj Hl eq_refl) as (s & Hs & Hr).
  assert (namei k false true MAXSYMLINKS (k_slash k0) [] (RootDir :: map Normal cs) = Ok (k_slash k0, s)) as ->.
  { rewrite <- Hs. rewrite <- (j_slash _ Hj). reflexivity. }
  rewrite Hr. apply open_ino_keeps; [done|by right].
Qed.

Lemma openat2_keeps fd rel flags mode k :
  jailed k -> fd_in k fd ->
  let r := posix_call _ (Openat2 fd rel flags mode confine_flags) k in opened (fun i => i ∈ inside (snd r)) k r.
Proof.
  intros Hj (i & (f & Hf & <-) & Hi). cbn [posix_call]. rewrite Hf. cbv zeta.
  change (has_bits confine_flags RESOLVE_BENEATH) with true. cbv iota. by apply do_open_keeps.
Qed.
End Jail.

(** The export: [cs] lead from [/] to [r], and nothing the set [J0] of exported
    inodes leads to is outside it. *)
Record exports (k0 : posix) (J0 : gset Z) (cs : list str) (r : Z) : Prop := {
  ex_root : r ∈ J0;
  ex_leads : leads k0 J0 (k_slash k0) cs r;
  ex_closed d e c i : d ∈ J0 -> ents_at k0 d = Some e -> e !! c = Some i -> i ∈ J0
}.

(** The kernel has [openat2]: no open answers ENOSYS. *)
Definition implemented {A} (r : io A) : Prop := match r with Ok _ => True | Err e => ioe_raw e <> Some ENOSYS end.

Lemma namei_implemented k beneath follow links base stack todo : implemented (namei k beneath follow links base stack todo).
Proof.
  revert base stack todo. induction links as [|links IHl]; intros base stack todo; revert base stack;
    (induction todo as [|[| | |c] t IH]; intros base stack; cbn [namei]; [done|by destruct beneath| | |]).
  1,4: by destruct (ents_at k _).
  1,3: destruct stack; [by destruct beneath|done].
  all: destruct (ents_at k _) as [e|]; [|done]; destruct (e !! c) as [i|]; [|done];
    destruct (kind_at k i) as [[|?|target]|]; try done; destruct (match t with [] => follow | _ => true end); try done.
  by destruct (bool_decide _).
Qed.

Lemma open_ino_implemented i flags k : implemented (fst (open_ino i flags k)).
Proof.
  unfold open_ino. destruct (kind_at k i) as [[| |]|]; [|..|done].
  - by destruct (_ && _).
  - by destruct (has_bits flags O_DIRECTORY).
  - by destruct (has_bits _ _).
Qed.

Lemma do_open_implemented beneath base p flags mode k : implemented (fst (do_open beneath base p flags mode k)).
Proof.
  unfold do_open. destruct (has_bits flags O_CREAT).
  - destruct (split_last p) as [[dir c]|]; [|done].
    pose proof (namei_implemented k beneath true MAXSYMLINKS base [] dir) as H.
    destruct (namei _ _ _ _ _ _ _) as [[b st]|]; [|done]. destruct (ents_at k _) as [e|]; [|done].
    destruct (e !! c) as [i|]; [|done]. destruct (has_bits flags O_EXCL); [done|].
    pose proof (open_ino_implemented i flags k). by destruct (kind_at k i) as [[| |]|].
  - pose proof (namei_implemented k beneath (negb (has_bits flags O_NOFOLLOW)) MAXSYMLINKS base [] p) as H.
    destruct (namei _ _ _ _ _ _ _) as [[b st]|]; [|done]. apply open_ino_implemented.
Qed.

