(* ===== verification/ClientRpc.v ===== *)
(** * The client's RPCs

    The request/response methods of [ConnManager] in [src/client/src/conn.rs].
    Each opens a stream, sends its request frames and reads the answer; a
    deadline that expires is an error answer of the call that was pending.  The
    two loops whose length the server decides take fuel. *)

From S2P Require Import Prelude Prog Text Status Frames.

(** What an RPC does to its environment. *)
Inductive cliE : Type -> Type :=
| NextSeq : cliE Z                         (** [next_seq]: [fetch_add] on the counter *)
| OpenBi : cliE (anyhow unit)              (** [ensure_conn] and [open_bi] *)
| CSend (b : bytes) : cliE (anyhow unit)   (** [write_frame] on the stream *)
| CFinish : cliE (anyhow unit)
| CRecv : cliE (anyhow bytes).             (** [read_frame] on the stream *)

Abbreviation cli A := (prog cliE A).
Abbreviation cc e := (@call cliE _ e) (only parsing).

(** [encode(&x)?] and [decode(&raw)?] *)
Definition encoded {T} `{!Wire T} (x : T) : cli (anyhow bytes) :=
  Ret (ok_or (lit "msgpack encode") (encode x)).
Definition decoded_as (T : Type) `{!Wire T} (raw : bytes) : cli (anyhow T) :=
  Ret (ok_or (lit "msgpack decode") (decode raw)).

(** [opt.ok_or_else(|| anyhow!(msg))] and [check_status(..)?] *)
Definition required {A} (msg : str) (o : option A) : cli (anyhow A) := Ret (ok_or msg o).
Definition checked (status : Z) : cli (anyhow unit) := Ret (check_status status).

(** [slice::chunks(n)] for [n >= 1]; the slice's length is enough fuel. *)
Fixpoint chunks_fuel (fuel : nat) (n : nat) (l : bytes) : list bytes :=
  match fuel, l with
  | _, [] => []
  | O, _ => []
  | S fuel, _ => take n l :: chunks_fuel fuel n (drop n l)
  end.
Definition chunks (n : nat) (l : bytes) : list bytes := chunks_fuel (length l) n l.

Section Rpc.
Context {C : Codec}.
Variable cfg_chunk_size : Z.   (** [MountConfig::chunk_size] *)

(** [ConnManager::rpc] *)
Definition rpc {Req Resp} `{!Wire Req, !Wire Resp} (req : Req) : cli (anyhow Resp) :=
  _ <-? cc OpenBi ;;
  b <-? encoded req ;;
  _ <-? cc (CSend b) ;;
  _ <-? cc CFinish ;;
  raw <-? cc CRecv ;;
  decoded_as Resp raw.

Definition getattr (p : str) : cli (anyhow Stat) :=
  seq <- cc NextSeq ;;
  resp <-? rpc (Resp := GetAttrResponse) (MkGetAttrRequest OP_GET_ATTR seq p) ;;
  _ <-? checked (gar_status resp) ;;
  required (lit "missing stat") (gar_stat resp).

Definition setattr (p : str) (valid mode uid gid size atime mtime : Z) : cli (anyhow Stat) :=
  seq <- cc NextSeq ;;
  resp <-? rpc (Resp := SetAttrResponse)
             (MkSetAttrRequest OP_SET_ATTR seq p valid mode uid gid size atime mtime) ;;
  _ <-? checked (sar_status resp) ;;
  required (lit "missing stat") (sar_stat resp).

(** The [loop] of [readdir]. *)
Fixpoint readdir_from (fuel : nat) (p : str) (all : list DirEntry) (cursor : Z) :
    cli (anyhow (list DirEntry)) :=
  match fuel with
  | O => Ret (Err (lit "out of fuel"))
  | S fuel =>
      seq <- cc NextSeq ;;
      resp <-? rpc (Resp := ReadDirResponse) (MkReadDirRequest OP_READ_DIR seq p cursor) ;;
      _ <-? checked (rdr_status resp) ;;
      if rdr_eof resp then Ret (Ok (all ++ rdr_entries resp))
      else readdir_from fuel p (all ++ rdr_entries resp) (rdr_cursor resp)
  end.
Definition readdir (fuel : nat) (p : str) : cli (anyhow (list DirEntry)) := readdir_from fuel p [] 0.

Definition mkdir (p : str) (mode : Z) : cli (anyhow Stat) :=
  seq <- cc NextSeq ;;
  resp <-? rpc (Resp := GetAttrResponse) (MkMkDirRequest OP_MKDIR seq p mode) ;;
  _ <-? checked (gar_status resp) ;;
  required (lit "missing stat") (gar_stat resp).

Definition rmdir (p : str) : cli (anyhow unit) :=
  seq <- cc NextSeq ;;
  resp <-? rpc (Resp := StatusResponse) (MkPathRequest OP_RMDIR seq p) ;;
  checked (sr_status resp).

Definition unlink (p : str) : cli (anyhow unit) :=
  seq <- cc NextSeq ;;
  resp <-? rpc (Resp := StatusResponse) (MkPathRequest OP_UNLINK seq p) ;;
  checked (sr_status resp).

(** [RenameResponse] has the fields of [StatusResponse], and MessagePack maps
    carry no type name. *)
Definition rename (old new : str) (flags : Z) : cli (anyhow unit) :=
  seq <- cc NextSeq ;;
  resp <-? rpc (Resp := StatusResponse) (MkRenameRequest OP_RENAME seq old new flags) ;;
  checked (sr_status resp).

Definition symlink (target link : str) : cli (anyhow Stat) :=
  seq <- cc NextSeq ;;
  resp <-? rpc (Resp := GetAttrResponse) (MkSymlinkRequest OP_SYMLINK seq target link) ;;
  _ <-? checked (gar_status resp) ;;
  required (lit "missing stat") (gar_stat resp).

Definition readlink (p : str) : cli (anyhow str) :=
  seq <- cc NextSeq ;;
  resp <-? rpc (Resp := ReadLinkResponse) (MkPathRequest OP_READLINK seq p) ;;
  _ <-? checked (rkr_status resp) ;;
  Ret (Ok (rkr_target resp)).

Definition link (p l : str) : cli (anyhow Stat) :=
  seq <- cc NextSeq ;;
  resp <-? rpc (Resp := GetAttrResponse) (MkLinkRequest OP_LINK seq p l) ;;
  _ <-? checked (gar_status resp) ;;
  required (lit "missing stat") (gar_stat resp).

Definition statfs (p : str) : cli (anyhow StatFs) :=
  seq <- cc NextSeq ;;
  resp <-? rpc (Resp := StatFsResponse) (MkPathRequest OP_STAT_FS seq p) ;;
  _ <-? checked (sfr_status resp) ;;
  required (lit "missing statfs") (sfr_statfs resp).

Definition open (p : str) (flags : Z) : cli (anyhow (Z * Stat)) :=
  seq <- cc NextSeq ;;
  resp <-? rpc (Resp := OpenResponse) (MkOpenRequest OP_OPEN seq p flags) ;;
  _ <-? checked (opr_status resp) ;;
  stat <-? required (lit "missing stat") (opr_stat resp) ;;
  Ret (Ok (opr_handle resp, stat)).

Definition create (p : str) (flags mode : Z) : cli (anyhow (Z * Stat)) :=
  seq <- cc NextSeq ;;
  resp <-? rpc (Resp := OpenResponse) (MkCreateRequest OP_CREATE seq p flags mode) ;;
  _ <-? checked (opr_status resp) ;;
  stat <-? required (lit "missing stat") (opr_stat resp) ;;
  Ret (Ok (opr_handle resp, stat)).

Definition release (handle : Z) : cli (anyhow unit) :=
  seq <- cc NextSeq ;;
  resp <-? rpc (Resp := ReleaseResponse) (MkReleaseRequest OP_RELEASE seq handle) ;;
  checked (rlr_status resp).

(** The [loop] of [read]: frames until one says [eof]. *)
Fixpoint read_collect (fuel : nat) (data : bytes) : cli (anyhow bytes) :=
  match fuel with
  | O => Ret (Err (lit "out of fuel"))
  | S fuel =>
      raw <-? cc CRecv ;;
      resp <-? decoded_as ReadResponse raw ;;
      _ <-? checked (rr_status resp) ;;
      if rr_eof resp then Ret (Ok (data ++ rr_data resp))
      else read_collect fuel (data ++ rr_data resp)
  end.

Definition read (fuel : nat) (handle offset length : Z) : cli (anyhow bytes) :=
  _ <-? cc OpenBi ;;
  seq <- cc NextSeq ;;
  b <-? encoded (MkReadRequest OP_READ seq handle offset length) ;;
  _ <-? cc (CSend b) ;;
  _ <-? cc CFinish ;;
  read_collect fuel [].

(** The [for] loop of [write]: [i] counts the chunks sent. *)
Fixpoint write_chunks (seq handle offset chunk_size i n : Z) (cs : list bytes) : cli (anyhow unit) :=
  match cs with
  | [] => Ret (Ok tt)
  | chunk :: cs =>
      b <-? encoded (MkWriteRequest OP_WRITE seq handle (wrap64 (offset + wrap64 (i * chunk_size)))
                       chunk (i + 1 =? n)) ;;
      _ <-? cc (CSend b) ;;
      write_chunks seq handle offset chunk_size (i + 1) n cs
  end.

Definition write (handle offset : Z) (data : bytes) : cli (anyhow Z) :=
  let chunk_size := Z.max cfg_chunk_size 1 in
  _ <-? cc OpenBi ;;
  seq <- cc NextSeq ;;
  let cs := chunks (Z.to_nat chunk_size) data in
  _ <-? write_chunks seq handle offset chunk_size 0 (zlen cs) cs ;;
  raw <-? cc CRecv ;;
  resp <-? decoded_as WriteResponse raw ;;
  _ <-? checked (wr_status resp) ;;
  Ret (Ok (wr_written resp)).

Definition fsync (handle : Z) (datasync : bool) : cli (anyhow unit) :=
  seq <- cc NextSeq ;;
  resp <-? rpc (Resp := StatusResponse) (MkFsyncRequest OP_FSYNC seq handle datasync) ;;
  checked (sr_status resp).

Definition ping : cli (anyhow unit) :=
  seq <- cc NextSeq ;;
  resp <-? rpc (Resp := PingResponse) (MkPingRequest OP_PING seq) ;;
  checked (pgr_status resp).

(** [app_handshake] on an established connection; [client_id] is a fresh UUID. *)
Definition app_handshake (client_id : str) : cli (anyhow unit) :=
  _ <-? cc OpenBi ;;
  b <-? encoded (MkHandshakeRequest OP_HANDSHAKE 1 1 client_id [] cfg_chunk_size (lit "mtls")) ;;
  _ <-? cc (CSend b) ;;
  _ <-? cc CFinish ;;
  raw <-? cc CRecv ;;
  resp <-? decoded_as HandshakeResponse raw ;;
  if negb (hr_status resp =? 0) then Ret (Err (lit "server rejected handshake")) else Ret (Ok tt).
End Rpc.

(** ** Lemmas on chunks *)

Lemma chunks_fuel_enough n l fuel :
  (0 < n)%nat -> (length l <= fuel)%nat -> concat (chunks_fuel fuel n l) = l.
Proof.
  intros Hn. revert l. induction fuel as [|fuel IH]; intros l Hf.
  - destruct l; [done|simpl in Hf; lia].
  - destruct l as [|b l]; [done|]. cbn [chunks_fuel concat]. rewrite IH; [apply take_drop|].
    rewrite length_drop. simpl in *. lia.
Qed.

Lemma chunks_concat n l : (0 < n)%nat -> concat (chunks n l) = l.
Proof. intros Hn. by apply chunks_fuel_enough. Qed.

(** The wire decision of [readdir], [read] and [write] on the client is made on
    these; every other RPC is one exchange. *)
Lemma chunks_nil n l : chunks n l = [] -> l = [].
Proof. unfold chunks. by destruct l. Qed.
