(* ===== verification/EndToEnd.v ===== *)
(** * Client and server together

    A client's RPCs executed against the server's own dispatcher: what the
    client sends on a stream is what [dispatch_inner] reads, what the server
    sends is what the client reads.  The transport delivers frames in order and
    unchanged; QUIC promises that for one stream. *)

From S2P Require Import Prelude Prog Text Status Frames FrameIo Os Sanitize WriteLock Reply MetaOps DataOps CtrlOps Dispatch FileServer ClientRpc.

(** ** What the programs need of the codec for the data path *)

(** The envelope of a request is its opcode and sequence number. *)
Definition envelope_of {C : Codec} {T} `{!Wire T} (op_of seq_of : T -> Z) : Prop :=
  forall (x : T) b, encode x = Some b -> decode b = Some (MkEnvelope (op_of x) (seq_of x)).

(** Messages of the declared widths encode, within the frame limit. *)
Class DataCodec (C : Codec) : Prop := {
  dc_ReadRequest :: WireLaws ReadRequest;
  dc_ReadResponse :: WireLaws ReadResponse;
  dc_WriteRequest :: WireLaws WriteRequest;
  dc_WriteResponse :: WireLaws WriteResponse;
  dc_ReadDirRequest :: WireLaws ReadDirRequest;
  dc_ReadDirResponse :: WireLaws ReadDirResponse;
  dc_read_env : envelope_of rq_op rq_seq;
  dc_write_env : envelope_of wq_op wq_seq;
  dc_readdir_env : envelope_of rdq_op rdq_seq;
  dc_read_fits :: ReadFits;
  dc_write_resp_fits :: WriteRespFits;
  dc_read_req : forall seq h off len,
    in_width 64 seq -> in_width 64 h -> in_width 64 off -> in_width 32 len ->
    exists b, encode (MkReadRequest OP_READ seq h off len) = Some b /\ zlen b <= MAX_FRAME_SIZE;
  dc_write_req : forall seq h off data dn,
    in_width 64 seq -> in_width 64 h -> in_width 64 off -> zlen data <= MAX_CHUNK_SIZE ->
    exists b, encode (MkWriteRequest OP_WRITE seq h off data dn) = Some b /\ zlen b <= MAX_FRAME_SIZE
}.

(** What the programs need of the codec for the whole interface: a value that encodes
    decodes to itself, and a request is dispatched on its opcode. *)
Class ServiceCodec (C : Codec) : Prop := {
  sc_PingRequest :: WireLaws PingRequest;
  sc_PingResponse :: WireLaws PingResponse;
  sc_GetAttrRequest :: WireLaws GetAttrRequest;
  sc_GetAttrResponse :: WireLaws GetAttrResponse;
  sc_SetAttrRequest :: WireLaws SetAttrRequest;
  sc_SetAttrResponse :: WireLaws SetAttrResponse;
  sc_ReadDirRequest :: WireLaws ReadDirRequest;
  sc_ReadDirResponse :: WireLaws ReadDirResponse;
  sc_OpenRequest :: WireLaws OpenRequest;
  sc_OpenResponse :: WireLaws OpenResponse;
  sc_ReleaseRequest :: WireLaws ReleaseRequest;
  sc_ReleaseResponse :: WireLaws ReleaseResponse;
  sc_ReadRequest :: WireLaws ReadRequest;
  sc_ReadResponse :: WireLaws ReadResponse;
  sc_WriteRequest :: WireLaws WriteRequest;
  sc_WriteResponse :: WireLaws WriteResponse;
  sc_RenameRequest :: WireLaws RenameRequest;
  sc_PathRequest :: WireLaws PathRequest;
  sc_StatusResponse :: WireLaws StatusResponse;
  sc_ReadLinkResponse :: WireLaws ReadLinkResponse;
  sc_MkDirRequest :: WireLaws MkDirRequest;
  sc_CreateRequest :: WireLaws CreateRequest;
  sc_FsyncRequest :: WireLaws FsyncRequest;
  sc_StatFsResponse :: WireLaws StatFsResponse;
  sc_SymlinkRequest :: WireLaws SymlinkRequest;
  sc_LinkRequest :: WireLaws LinkRequest;
  sc_env_ping : envelope_of pgq_op pgq_seq;
  sc_env_getattr : envelope_of gaq_op gaq_seq;
  sc_env_setattr : envelope_of saq_op saq_seq;
  sc_env_readdir : envelope_of rdq_op rdq_seq;
  sc_env_open : envelope_of opq_op opq_seq;
  sc_env_release : envelope_of rlq_op rlq_seq;
  sc_env_read : envelope_of rq_op rq_seq;
  sc_env_write : envelope_of wq_op wq_seq;
  sc_env_rename : envelope_of rnq_op rnq_seq;
  sc_env_path : envelope_of pq_op pq_seq;
  sc_env_mkdir : envelope_of mdq_op mdq_seq;
  sc_env_create : envelope_of crq_op crq_seq;
  sc_env_fsync : envelope_of fsq_op fsq_seq;
  sc_env_symlink : envelope_of slq_op slq_seq;
  sc_env_link : envelope_of lkq_op lkq_seq
}.

(** ** One connection *)

(** The client's end, and a server in state [S]. *)
Record wire (S : Type) := MkNet {
  n_srv : S;
  n_seq : Z;                        (** the client's sequence counter *)
  n_out : list bytes;               (** frames sent on the open stream *)
  n_in : option (list bytes)        (** its answer frames still unread; [None]: not served yet *)
}.
Arguments MkNet {S} _ _ _ _.
Arguments n_srv {S} _.
Arguments n_seq {S} _.
Arguments n_out {S} _.
Arguments n_in {S} _.

Lemma frame_ok (b : bytes) : zlen b <= MAX_FRAME_SIZE -> (MAX_FRAME_SIZE <? zlen b) = false.
Proof. intros H. by apply Z.ltb_ge. Qed.

Section Wire.
Context {S : Type} (serve : list bytes -> S -> list bytes * S).   (** what it answers to a stream *)

Definition wire_exec (X : Type) (e : cliE X) (n : wire S) : X * wire S :=
  match e in cliE X return X * wire S with
  | NextSeq => (n_seq n, MkNet (n_srv n) (wrap64 (n_seq n + 1)) (n_out n) (n_in n))
  | OpenBi => (Ok tt, MkNet (n_srv n) (n_seq n) [] None)
  | CSend b =>
      if MAX_FRAME_SIZE <? zlen b then (Err (lit "frame too large"), n)
      else (Ok tt, MkNet (n_srv n) (n_seq n) (n_out n ++ [b]) (n_in n))
  | CFinish => (Ok tt, n)
  | CRecv =>
      let '(replies, s) := match n_in n with
                           | Some l => (l, n_srv n)
                           | None => serve (n_out n) (n_srv n)
                           end in
      match replies with
      | [] => (Err (lit "read length prefix"), MkNet s (n_seq n) (n_out n) (Some []))
      | b :: l => (Ok b, MkNet s (n_seq n) (n_out n) (Some l))
      end
  end.

Abbreviation exec m n := (run wire_exec m n).
Context {C : Codec}.

(** A request that goes out, and one frame that comes back. *)
Lemma rpc_run {Req Resp} `{!Wire Req, !Wire Resp} (req : Req) (resp : Resp) b rb s (w : wire S) :
  encode req = Some b -> zlen b <= MAX_FRAME_SIZE -> serve [b] (n_srv w) = ([rb], s) -> decode rb = Some resp ->
  exec (rpc req) w = (Ok resp, MkNet s (n_seq w) [b] (Some [])).
Proof.
  intros Eb Hb Hs Hr. unfold rpc. rewrite run_bindr, run_call. cbn [wire_exec].
  unfold encoded. rewrite run_bindr, run_ret, Eb. cbn [ok_or].
  rewrite run_bindr, run_call. cbn [wire_exec]. rewrite frame_ok by done. cbv iota.
  rewrite run_bindr, run_call. cbn [wire_exec n_srv n_seq n_out n_in app].
  rewrite run_bindr, run_call. cbn [wire_exec n_srv n_seq n_out n_in]. rewrite Hs.
  unfold decoded_as. by rewrite run_ret, Hr.
Qed.

(** Frames of a read, to the last. *)
Lemma read_collect_run fuel rs bs data n :
  Forall2 (fun r b => decode (T := ReadResponse) b = Some r) rs bs -> n_in n = Some bs ->
  Forall (fun r => rr_status r = status_as_u8 StOk) rs ->
  (exists init last, rs = init ++ [last] /\ rr_eof last = true /\
    Forall (fun r => rr_eof r = false /\ 1 <= zlen (rr_data r)) init) ->
  (length rs <= fuel)%nat ->
  exists n', exec (read_collect fuel data) n = (Ok (data ++ concat (map rr_data rs)), n') /\
    n_srv n' = n_srv n /\ n_seq n' = n_seq n.
Proof.
  intros HF. revert fuel data n. induction HF as [|r b rs bs Hdec HF IH];
    intros fuel data n Hin Hst Hend Hfuel.
  { destruct Hend as (i & l & H & _). symmetry in H. by apply app_nil in H as [_ ?]. }
  destruct fuel as [|fuel]; [simpl in Hfuel; lia|]. cbn [read_collect].
  rewrite run_bindr, run_call. cbn [wire_exec]. rewrite Hin. cbv iota.
  unfold decoded_as. rewrite run_bindr, run_ret, Hdec. cbn [ok_or].
  inv Hst. unfold checked. rewrite run_bindr, run_ret. rewrite H1.
  change (check_status (status_as_u8 StOk)) with (@Ok str unit tt). cbv iota.
  destruct Hend as (init & lst & Heq & Hl & Hi). destruct init as [|i init].
  - simpl in Heq. injection Heq as -> ->. rewrite Hl. rewrite run_ret. eexists.
    split; [simpl; rewrite app_nil_r; reflexivity|done].
  - simpl in Heq. injection Heq as -> ->. inv Hi. destruct H3 as [H3 _]. rewrite H3.
    destruct (IH fuel (data ++ rr_data i) (MkNet (n_srv n) (n_seq n) (n_out n) (Some bs))) as (n' & Hrun & Hsrv & Hseq);
      [done|done|exists init, lst; by split_and!|simpl in Hfuel; lia|].
    exists n'. rewrite Hrun. split; [|done]. cbn [map concat]. by rewrite <- app_assoc.
Qed.

(** The requests the [for] loop of [write] encodes. *)
Fixpoint write_reqs (h seq offset csz i n : Z) (cs : list bytes) : list WriteRequest :=
  match cs with
  | [] => []
  | c :: cs => MkWriteRequest OP_WRITE seq h (wrap64 (offset + wrap64 (i * csz))) c (i + 1 =? n)
               :: write_reqs h seq offset csz (i + 1) n cs
  end.

Lemma write_chunks_run h seq off csz i n cs bs (w : wire S) :
  Forall2 (fun r b => encode r = Some b /\ zlen b <= MAX_FRAME_SIZE) (write_reqs h seq off csz i n cs) bs ->
  exec (write_chunks seq h off csz i n cs) w = (Ok tt, MkNet (n_srv w) (n_seq w) (n_out w ++ bs) (n_in w)).
Proof.
  revert i bs w. induction cs as [|c cs IH]; intros i bs w HF.
  { apply Forall2_nil_inv_l in HF as ->. rewrite app_nil_r. by destruct w. }
  cbn [write_reqs] in HF. apply Forall2_cons_inv_l in HF as (b & bs' & [Eb Hb] & HF & ->). cbn [write_chunks].
  unfold encoded. rewrite run_bindr, run_ret, Eb. cbn [ok_or].
  rewrite run_bindr, run_call. cbn [wire_exec]. rewrite frame_ok by done. cbv iota.
  rewrite (IH _ bs') by done. cbn [n_srv n_seq n_out n_in]. by rewrite <- app_assoc.
Qed.
End Wire.

(** ** A server with one open file *)

Abbreviation net := (wire fserver).

Section Net.
Context {C : Codec}.
Variables (session : ClientSession) (root : path).
Variables (hid fd flags access key : Z) (short : nat -> Z -> Z).

(** The server serves the stream. *)
Definition serve_stream (out : list bytes) (s : fserver) : list bytes * fserver :=
  let s0 := MkFserver (f_data s) (f_pos s) (f_dir s) [] (f_reads s) in
  let '(_, s1) := run (serve hid fd flags access key short) (dispatch_inner session root (stream_of out)) s0 in
  (f_sent s1, s1).

Definition cli_exec (X : Type) (e : cliE X) (n : net) : X * net := wire_exec serve_stream X e n.

Abbreviation exec m n := (run cli_exec m n).

(** Serving a stream whose first frame is a request with a known envelope. *)
Lemma dispatch_first b bs env s :
  zlen b <= MAX_FRAME_SIZE -> decode b = Some env ->
  run (serve hid fd flags access key short) (dispatch_inner session root (stream_of (b :: bs))) s =
  run (serve hid fd flags access key short)
      (if env_op env =? OP_READ then handle_read b
       else if env_op env =? OP_WRITE then handle_write (stream_of bs) b
       else if env_op env =? OP_READ_DIR then handle_readdir root b
       else dispatch_inner session root (stream_of (b :: bs))) s.
Proof.
  intros Hb Henv.
  destruct (env_op env =? OP_READ) eqn:E1; [|destruct (env_op env =? OP_WRITE) eqn:E2;
    [|destruct (env_op env =? OP_READ_DIR) eqn:E3; [|done]]];
    unfold dispatch_inner;
    change (stream_of (b :: bs)) with ((be32 (zlen b) ++ b) ++ stream_of bs); rewrite <- app_assoc;
    rewrite read_frame_app by done; rewrite run_bind, run_call; cbn [serve];
    unfold decoded; rewrite run_bindr, Henv, run_ret; cbn [ok_or]; cbv zeta;
    [apply Z.eqb_eq in E1; rewrite E1|apply Z.eqb_eq in E2; rewrite E2|apply Z.eqb_eq in E3; rewrite E3];
    reflexivity.
Qed.

(** ** Reading *)

Context {DC : DataCodec C}.
Hypothesis short_ok : forall t n, 1 <= n -> 1 <= short t n <= n.

(** What the client collects when the server is done with its request [b]: the frames
    of [dispatch_inner]. *)
Lemma read_run_collect fuel off len n rs bs s1 res :
  in_width 64 (n_seq n) -> in_width 64 hid -> in_width 64 off -> in_width 32 len -> (0 < fuel)%nat ->
  (forall b, encode (MkReadRequest OP_READ (n_seq n) hid off len) = Some b ->
     run (serve hid fd flags access key short) (handle_read b)
       (MkFserver (f_data (n_srv n)) (f_pos (n_srv n)) (f_dir (n_srv n)) [] (f_reads (n_srv n))) = (Ok tt, s1)) ->
  f_sent s1 = bs -> Forall2 (fun r b => encode (T := ReadResponse) r = Some b) rs bs ->
  (forall w : net, n_in w = Some bs -> exists w', exec (read_collect fuel []) w = (res, w') /\ n_srv w' = n_srv w) ->
  exists n', exec (read fuel hid off len) n = (res, n') /\ n_srv n' = s1.
Proof.
  intros Hseq Hh Ho Hl Hf Hserve Hsent HF Hcollect. unfold read. rewrite run_bindr, run_call. cbn [cli_exec wire_exec].
  rewrite run_bind, run_call. cbn [cli_exec wire_exec n_seq].
  destruct (dc_read_req (n_seq n) hid off len) as (b & Eb & Hfit); [done..|].
  unfold encoded. rewrite run_bindr, run_ret, Eb. cbn [ok_or].
  rewrite run_bindr, run_call. cbn [cli_exec wire_exec]. rewrite frame_ok by done. cbv iota.
  rewrite run_bindr, run_call. cbn [cli_exec wire_exec n_srv n_seq n_out n_in app].
  destruct fuel as [|fuel]; [lia|]. cbn [read_collect] in *. rewrite run_bindr, run_call. cbn [cli_exec wire_exec n_in n_out].
  unfold serve_stream. cbn [n_srv].
  rewrite (dispatch_first _ _ (MkEnvelope OP_READ (n_seq n))) by (done || exact (dc_read_env _ _ Eb)).
  change (env_op (MkEnvelope OP_READ (n_seq n)) =? OP_READ) with true. cbv iota.
  rewrite (Hserve b Eb), Hsent.
  destruct (Hcollect (MkNet s1 (wrap64 (n_seq n + 1)) [b] (Some bs)) eq_refl) as (n' & Hrun & Hsrv).
  rewrite run_bindr, run_call in Hrun. cbn [cli_exec wire_exec n_in n_srv n_seq n_out] in Hrun. by exists n'.
Qed.

Abbreviation request_of n off len := (MkReadRequest OP_READ (n_seq n) hid off len).

(** A read that a file open for reading answers. *)
Lemma read_run fuel off len n :
  in_width 64 (n_seq n) -> in_width 64 hid -> 0 <= off < 2 ^ 63 -> 1 <= len <= MAX_READ_REQUEST ->
  may_read_fd access = true -> zlen (f_data (n_srv n)) < 2 ^ 63 -> (Z.to_nat len < fuel)%nat ->
  exists n', exec (read fuel hid off len) n = (Ok (slice (f_data (n_srv n)) off len), n') /\
    f_data (n_srv n') = f_data (n_srv n).
Proof.
  intros Hseq Hh Ho Hl Hacc Hb Hf. assert (in_width 64 off) as Hoff by (unfold in_width; lia).
  assert (in_width 32 len) as Hlen32 by (unfold in_width, MAX_READ_REQUEST in *; lia).
  destruct (dc_read_req (n_seq n) hid off len Hseq Hh Hoff Hlen32) as (b & Eb & _).
  set (s0 := MkFserver (f_data (n_srv n)) (f_pos (n_srv n)) (f_dir (n_srv n)) [] (f_reads (n_srv n))).
  destruct (handle_read_run hid fd flags access key short short_ok b (request_of n off len) s0)
    as (rs & bs & s1 & Hrun & Hsent & HF & Hdat & Hans); [by eapply decode_encode|done..|].
  cbn [rq_seq rq_offset rq_length] in Hans. pose proof (read_answer_length _ _ len _ _ ltac:(lia) Hans) as Hlen.
  destruct Hans as (Hc & Hst & Hend).
  destruct (read_run_collect fuel off len n rs bs s1 (Ok (slice (f_data (n_srv n)) off len))) as (n' & E & Hsrv);
    [done|done|done|done|lia| |done|done| |].
  - intros b' Eb'. by replace b' with b by congruence.
  - intros w Hin. destruct (read_collect_run serve_stream fuel rs bs [] w) as (w' & Hrc & Hsrv & _); [| |..|done|lia|].
    + eapply Forall2_impl; [exact HF|]. intros r b'. apply decode_encode.
    + done.
    + eapply Forall_impl; [exact Hst|]. by intros r (_ & _ & ?).
    + rewrite Hc in Hrc. by exists w'.
  - exists n'. rewrite Hsrv. by split.
Qed.

(** A read that is refused, and a read of nothing, which no frame answers. *)
Definition read_refused (off len : Z) : Prop :=
  len = 0 \/ MAX_READ_REQUEST < len \/ 2 ^ 63 <= off \/ may_read_fd access = false.

Lemma status_errno st : st = StInvalidArg \/ st = StIo ->
  exists e, check_status (status_as_u8 st) = Err e /\ rpc_to_errno e = EIO.
Proof. intros [-> | ->]; by eexists. Qed.

Lemma read_refused_run fuel off len n :
  in_width 64 (n_seq n) -> in_width 64 hid -> in_width 64 off -> in_width 32 len -> (0 < fuel)%nat -> read_refused off len ->
  exists e n', exec (read fuel hid off len) n = (Err e, n') /\ rpc_to_errno e = EIO /\ f_data (n_srv n') = f_data (n_srv n).
Proof.
  intros Hseq Hh Ho Hl Hf Hbad. destruct (dc_read_req (n_seq n) hid off len Hseq Hh Ho Hl) as (b & Eb & _).
  set (s0 := MkFserver (f_data (n_srv n)) (f_pos (n_srv n)) (f_dir (n_srv n)) [] (f_reads (n_srv n))).
  assert (decode b = Some (request_of n off len)) as Hdec by (by apply decode_encode).
  destruct fuel as [|fuel]; [lia|]. destruct (decide (len = 0)) as [->|Hne].
  - destruct (read_run_collect (S fuel) off 0 n [] [] s0 (Err (lit "read length prefix"))) as (n' & E & Hsrv);
      [done|done|done|done|lia| |done|done| |].
    + intros b' Eb'. replace b' with b by congruence.
      by apply (handle_read_none hid fd flags access key short b (request_of n off 0)).
    + intros w Hin. cbn [read_collect]. rewrite run_bindr, run_call. cbn [cli_exec wire_exec]. rewrite Hin. by eexists.
    + exists (lit "read length prefix"), n'. rewrite Hsrv. by split_and!.
  - destruct (handle_read_refused hid fd flags access key short b (request_of n off len) s0)
      as (rb & st & s1 & Hrun & Hsent & Hd & Erb & Hst); [done|done|cbn; unfold in_width in *; lia|done|done| |].
    { by destruct Hbad. }
    destruct (status_errno st Hst) as (e & He & Hio).
    destruct (read_run_collect (S fuel) off len n [MkReadResponse OP_READ (n_seq n) (status_as_u8 st) off [] true] [rb] s1 (Err e))
      as (n' & E & Hsrv); [done|done|done|done|lia| |done|by repeat constructor| |].
    + intros b' Eb'. by replace b' with b by congruence.
    + intros w Hin. cbn [read_collect]. rewrite run_bindr, run_call. cbn [cli_exec wire_exec]. rewrite Hin. cbv iota.
      unfold decoded_as. rewrite run_bindr, run_ret, (decode_encode _ _ Erb). cbn [ok_or].
      unfold checked. rewrite run_bindr, run_ret. cbn [rr_status]. rewrite He. by eexists.
    + exists e, n'. rewrite Hsrv. by split_and!.
Qed.

(** ** Writing *)

Lemma write_reqs_encode seq off csz i n cs :
  in_width 64 seq -> in_width 64 hid -> Forall (fun c => zlen c <= MAX_CHUNK_SIZE) cs ->
  exists bs, Forall2 (fun r b => encode r = Some b /\ zlen b <= MAX_FRAME_SIZE) (write_reqs hid seq off csz i n cs) bs.
Proof.
  intros Hs Hh HF. revert i. induction HF as [|c cs Hc _ IH]; intros i; [by exists []|]. cbn [write_reqs].
  destruct (dc_write_req seq hid (wrap64 (off + wrap64 (i * csz))) c (i + 1 =? n)) as (b & Eb & Hb);
    [done|done|apply wrap_range; lia|done|]. destruct (IH (i + 1)) as (bs & HF2). exists (b :: bs). by constructor.
Qed.

Lemma write_reqs_ended seq off csz i cs :
  cs <> [] -> well_ended (write_reqs hid seq off csz i (i + zlen cs) cs).
Proof.
  revert i. induction cs as [|c cs IH]; intros i Hne; [done|]. cbn [write_reqs length].
  destruct cs as [|c' cs].
  - simpl. apply Z.eqb_eq. lia.
  - split; [simpl; apply Z.eqb_neq; lia|].
    replace (i + Z.of_nat (S (length (c' :: cs)))) with ((i + 1) + zlen (c' :: cs)) by lia.
    by apply IH.
Qed.

Lemma write_reqs_total seq off csz i n cs :
  total_len (write_reqs hid seq off csz i n cs) = zlen (concat cs).
Proof.
  revert i. induction cs as [|c cs IH]; intros i; [done|]. cbn [write_reqs concat].
  change (total_len (?r :: ?rs)) with (zlen (wq_data r) + total_len rs).
  rewrite IH, length_app. cbn [wq_data]. lia.
Qed.

(** The chunks of one write, put one after the other. *)
Lemma put_chunks fuel seq off csz i n d l :
  (length l <= fuel)%nat -> 1 <= csz -> 0 <= i -> 0 <= off -> off + i * csz + zlen l < 2 ^ 64 ->
  foldl (put_chunk flags) d (write_reqs hid seq off csz i n (chunks_fuel fuel (Z.to_nat csz) l)) =
  if has_bits flags 0x400 then d ++ l else put d (off + i * csz) l.
Proof.
  intros Hf Hc. revert i d l Hf. induction fuel as [|fuel IH]; intros i d l Hf Hi Ho Hb.
  { destruct l; [|simpl in Hf; lia]. simpl. destruct (has_bits _ _); by rewrite ?app_nil_r. }
  destruct l as [|x l]; [simpl; destruct (has_bits _ _); by rewrite ?app_nil_r|].
  set (l' := x :: l) in *.
  change (chunks_fuel (S fuel) ?m l') with (take m l' :: chunks_fuel fuel m (drop m l')).
  cbn [write_reqs foldl].
  change (put_chunk flags d ?r) with
    (if has_bits flags 0x400 then d ++ wq_data r else put d (wq_offset r) (wq_data r)).
  cbn [wq_data wq_offset]. assert (0 <= i * csz) by nia.
  rewrite !wrap_small by (unfold in_width; rewrite ?wrap_small; unfold in_width; lia).
  destruct (decide (length l' <= Z.to_nat csz)%nat) as [Hs|Hs].
  { rewrite (take_ge l'), (drop_ge l') by done.
    assert (forall m, chunks_fuel fuel m [] = []) as -> by (by destruct fuel). simpl. done. }
  assert (zlen (take (Z.to_nat csz) l') = csz) as Hlen by (rewrite length_take; lia).
  rewrite IH; [|rewrite length_drop; simpl in *; lia|lia|lia|rewrite length_drop; lia].
  destruct (has_bits flags 0x400).
  - by rewrite <- app_assoc, take_drop.
  - replace (off + (i + 1) * csz) with ((off + i * csz) + zlen (take (Z.to_nat csz) l')) by (rewrite Hlen; lia).
    rewrite put_app by lia. by rewrite take_drop.
Qed.

Lemma chunks_fuel_small fuel m l : Forall (fun c => (length c <= m)%nat) (chunks_fuel fuel m l).
Proof.
  revert l. induction fuel as [|fuel IH]; intros l; destruct l as [|x l]; [constructor..|].
  cbn [chunks_fuel]. constructor; [|apply IH]. rewrite length_take. lia.
Qed.

(** The server's side of a Write RPC. *)
Lemma serve_write r reqs bs s :
  Forall2 (fun r b => encode r = Some b /\ zlen b <= MAX_FRAME_SIZE) (r :: reqs) bs ->
  wq_op r = OP_WRITE -> wq_handle r = hid -> may_write_fd access = true -> Forall (fun r => wq_offset r < 2 ^ 63) (r :: reqs) ->
  well_ended (r :: reqs) -> in_width 64 (wq_seq r) -> total_len (r :: reqs) < 2 ^ 64 ->
  exists b s1, serve_stream bs s = ([b], s1) /\
    encode (MkWriteResponse OP_WRITE (wq_seq r) (status_as_u8 StOk) (total_len (r :: reqs))) = Some b /\
    f_data s1 = foldl (put_chunk flags) (f_data s) (r :: reqs).
Proof.
  intros HF Hop Hh Hacc Hoff Hwe Hseq Htot. destruct bs as [|b bs]; [by apply Forall2_cons_nil_inv in HF|].
  apply Forall2_cons in HF as [[Eb Hfit] HF]. unfold serve_stream.
  rewrite (dispatch_first _ _ (MkEnvelope (wq_op r) (wq_seq r))) by (done || exact (dc_write_env _ _ Eb)).
  cbn [env_op]. rewrite Hop. change (OP_WRITE =? OP_READ) with false.
  change (OP_WRITE =? OP_WRITE) with true. cbv iota.
  rewrite <- (app_nil_r (stream_of bs)). set (s0 := MkFserver _ _ _ _ _).
  destruct (handle_write_run hid fd flags access key short b r reqs bs [] s0) as (s1 & -> & Hdat & b' & Eb' & Hsent);
    [by eapply decode_encode|done| |done|done|done|done|done|].
  { eapply Forall2_impl; [exact HF|]. intros r' b0 [? ?]. split; [by apply decode_encode|done]. }
  exists b', s1. simpl in Hsent. rewrite Hsent. by rewrite Z.add_0_l in Eb'.
Qed.

(** Every chunk is at an offset a file may have. *)
Lemma write_reqs_offsets fuel seq off csz i n l :
  1 <= csz -> 0 <= i -> 0 <= off -> off + i * csz + zlen l < 2 ^ 63 ->
  Forall (fun r => wq_offset r < 2 ^ 63) (write_reqs hid seq off csz i n (chunks_fuel fuel (Z.to_nat csz) l)).
Proof.
  intros Hc. revert i l. induction fuel as [|fuel IH]; intros i l Hi Ho Hb; destruct l as [|x l]; [constructor..|].
  set (l' := x :: l) in *. assert (1 <= zlen l') by (simpl; lia).
  change (chunks_fuel (S fuel) ?m l') with (take m l' :: chunks_fuel fuel m (drop m l')).
  cbn [write_reqs]. assert (0 <= i * csz) by nia. constructor.
  - cbn [wq_offset]. rewrite !wrap_small by (unfold in_width; rewrite ?wrap_small; unfold in_width; lia). lia.
  - destruct (decide (length l' <= Z.to_nat csz)%nat).
    + rewrite drop_ge by done. by destruct fuel.
    + apply IH; [lia|lia|]. rewrite length_drop. lia.
Qed.

Abbreviation sent_as cfg off data n bs :=
  (let csz := Z.max cfg 1 in let cs := chunks (Z.to_nat csz) data in
   Forall2 (fun r b => encode r = Some b /\ zlen b <= MAX_FRAME_SIZE)
     (write_reqs hid (n_seq n) off csz 0 (zlen cs) cs) bs).

(** What the client's write makes of the server's answer to its chunks. *)
Lemma write_run_answer cfg off data (n : net) st total (P : fserver -> Prop) :
  in_width 64 (n_seq n) -> in_width 64 hid -> cfg <= MAX_CHUNK_SIZE ->
  (forall bs, sent_as cfg off data n bs -> exists b s1, serve_stream bs (n_srv n) = ([b], s1) /\
     encode (MkWriteResponse OP_WRITE (n_seq n) (status_as_u8 st) total) = Some b /\ P s1) ->
  exists n', exec (write cfg hid off data) n = (res_map (fun _ => total) (check_status (status_as_u8 st)), n') /\ P (n_srv n').
Proof.
  intros Hseq Hh Hcfg Hserve. unfold write. cbv zeta in *. set (csz := Z.max cfg 1) in *.
  rewrite run_bindr, run_call. cbn [cli_exec wire_exec]. rewrite run_bind, run_call. cbn [cli_exec wire_exec n_seq n_srv n_out n_in].
  set (cs := chunks (Z.to_nat csz) data) in *. rewrite run_bindr.
  destruct (write_reqs_encode (n_seq n) off csz 0 (zlen cs) cs) as (bs & HF); [done|done| |].
  { unfold cs, chunks. eapply Forall_impl; [apply chunks_fuel_small|]. simpl. intros c Hc.
    unfold csz, MAX_CHUNK_SIZE in *. lia. }
  change (run cli_exec (write_chunks ?a ?b ?c ?d ?e ?f ?g) ?w) with (run (wire_exec serve_stream) (write_chunks a b c d e f g) w).
  rewrite (write_chunks_run serve_stream hid _ _ _ _ _ _ bs) by done.
  cbn [n_srv n_seq n_out n_in app]. cbv iota. rewrite run_bindr, run_call. cbn [cli_exec wire_exec n_in n_out n_srv].
  destruct (Hserve bs HF) as (b & s1 & -> & Eb & HP). cbv iota. unfold decoded_as. rewrite run_bindr, run_ret.
  rewrite (decode_encode _ _ Eb). cbn [ok_or]. unfold checked. rewrite run_bindr, run_ret.
  cbn [wr_status wr_written]. destruct (check_status (status_as_u8 st)) as [[]|e]; cbv iota; rewrite ?run_ret; by eexists.
Qed.

(** The chunks of non-empty data are a first one and others. *)
Lemma sent_first cfg off data (n : net) bs :
  data <> [] -> sent_as cfg off data n bs ->
  exists c reqs, c <> [] /\
    write_reqs hid (n_seq n) off (Z.max cfg 1) 0 (zlen (chunks (Z.to_nat (Z.max cfg 1)) data)) (chunks (Z.to_nat (Z.max cfg 1)) data) =
    MkWriteRequest OP_WRITE (n_seq n) hid (wrap64 (off + wrap64 (0 * Z.max cfg 1))) c
      (0 + 1 =? zlen (chunks (Z.to_nat (Z.max cfg 1)) data)) :: reqs.
Proof.
  intros Hne _. destruct data as [|x data]; [done|]. set (k := zlen (chunks _ _)). unfold chunks. cbn [length chunks_fuel write_reqs].
  do 2 eexists. split; [|reflexivity]. destruct (Z.to_nat (Z.max cfg 1)) as [|m] eqn:E; [lia|done].
Qed.

Lemma write_run cfg off data n :
  in_width 64 (n_seq n) -> in_width 64 hid -> cfg <= MAX_CHUNK_SIZE -> data <> [] ->
  0 <= off -> off + zlen data < 2 ^ 63 -> may_write_fd access = true ->
  exists n', exec (write cfg hid off data) n = (Ok (zlen data), n') /\
    f_data (n_srv n') =
      if has_bits flags 0x400 then f_data (n_srv n) ++ data else put (f_data (n_srv n)) off data.
Proof.
  intros Hseq Hh Hcfg Hne Ho Hb Hacc. apply (write_run_answer cfg off data n StOk (zlen data)
    (fun s => f_data s = if has_bits flags 0x400 then f_data (n_srv n) ++ data else put (f_data (n_srv n)) off data)); [done..|].
  intros bs HF. destruct (sent_first cfg off data n bs Hne HF) as (c & reqs & _ & E). cbv zeta in HF.
  set (csz := Z.max cfg 1) in *. set (cs := chunks (Z.to_nat csz) data) in *.
  assert (cs <> []) as Hcs by (intros Ecs; apply chunks_nil in Ecs; done).
  pose proof (write_reqs_ended (n_seq n) off csz 0 cs Hcs) as Hend. rewrite Z.add_0_l in Hend.
  pose proof (write_reqs_total (n_seq n) off csz 0 (zlen cs) cs) as Htot.
  assert (concat cs = data) as Hcat by (apply chunks_concat; unfold csz; lia). rewrite Hcat in Htot.
  pose proof (put_chunks (length data) (n_seq n) off csz 0 (zlen cs) (f_data (n_srv n)) data) as Hput.
  fold (chunks (Z.to_nat csz) data) in Hput. fold cs in Hput. rewrite Z.mul_0_l, Z.add_0_r in Hput.
  pose proof (write_reqs_offsets (length data) (n_seq n) off csz 0 (zlen cs) data) as Hoff.
  fold (chunks (Z.to_nat csz) data) in Hoff. fold cs in Hoff. rewrite Z.mul_0_l, Z.add_0_r in Hoff.
  rewrite E in *. assert (1 <= csz) by (unfold csz; lia).
  destruct (serve_write _ _ bs (n_srv n) HF eq_refl eq_refl Hacc (Hoff ltac:(done) ltac:(done) Ho Hb) Hend Hseq)
    as (b & s1 & -> & Eb & Hdat); [rewrite Htot; lia|].
  exists b, s1. rewrite Htot in Eb. split_and!; [done|done|]. rewrite Hdat. apply Hput; [done|done|done|done|lia].
Qed.

(** A file that is not open for writing is not written. *)
Lemma write_refused_run cfg off data n :
  in_width 64 (n_seq n) -> in_width 64 hid -> cfg <= MAX_CHUNK_SIZE -> data <> [] -> may_write_fd access = false ->
  exists e n', exec (write cfg hid off data) n = (Err e, n') /\ rpc_to_errno e = EIO /\ f_data (n_srv n') = f_data (n_srv n).
Proof.
  intros Hseq Hh Hcfg Hne Hacc.
  assert (forall bs, sent_as cfg off data n bs -> exists b st s1, serve_stream bs (n_srv n) = ([b], s1) /\
    encode (MkWriteResponse OP_WRITE (n_seq n) (status_as_u8 st) 0) = Some b /\ (st = StInvalidArg \/ st = StIo) /\
    f_data s1 = f_data (n_srv n)) as Hserve.
  { intros bs HF. destruct (sent_first cfg off data n bs Hne HF) as (c & reqs & Hc & E). cbv zeta in HF. rewrite E in HF.
    apply Forall2_cons_inv_l in HF as (b0 & bs' & [Eb Hfit] & HF & ->). unfold serve_stream.
    rewrite (dispatch_first _ _ (MkEnvelope OP_WRITE (n_seq n))) by (done || exact (dc_write_env _ _ Eb)).
    cbn [env_op]. change (OP_WRITE =? OP_READ) with false. change (OP_WRITE =? OP_WRITE) with true. cbv iota.
    set (s0 := MkFserver _ _ _ _ _).
    destruct (handle_write_refused hid fd flags access key short b0 _ (stream_of bs') s0 (decode_encode _ _ Eb) eq_refl Hacc Hc Hseq)
      as (b & st & s1 & -> & Hsent & Hd & Eb' & Hst). exists b, st, s1. by rewrite Hsent. }
  destruct (write_reqs_encode (n_seq n) off (Z.max cfg 1) 0 (zlen (chunks (Z.to_nat (Z.max cfg 1)) data))
    (chunks (Z.to_nat (Z.max cfg 1)) data)) as (bs & HF); [done|done| |].
  { unfold chunks. eapply Forall_impl; [apply chunks_fuel_small|]. simpl. intros c Hc. unfold MAX_CHUNK_SIZE in *. lia. }
  destruct (Hserve bs HF) as (b & st & s1 & Hs & Eb & Hst & Hd). destruct (status_errno st Hst) as (e & He & Hio).
  destruct (write_run_answer cfg off data n st 0 (fun s => f_data s = f_data (n_srv n)) Hseq Hh Hcfg) as (n' & E & Hd').
  { intros bs' HF'. assert (bs' = bs) as ->; [|by exists b, s1].
    clear -HF HF'. revert bs HF. induction HF' as [|r b' l bs' [E _] _ IH]; intros bs HF.
    - by apply Forall2_nil_inv_l in HF.
    - apply Forall2_cons_inv_l in HF as (b & bs1 & [E' _] & HF & ->). f_equal; [congruence|by apply IH]. }
  exists e, n'. rewrite E, He. by split_and!.
Qed.

(** A write of nothing sends no chunk, and nothing answers it. *)
Lemma write_nothing_run cfg off n :
  exists e n', exec (write cfg hid off []) n = (Err e, n') /\ rpc_to_errno e = EIO /\ f_data (n_srv n') = f_data (n_srv n).
Proof. exists (lit "read length prefix"). eexists. split_and!; [reflexivity..|done]. Qed.

(** ** Listing *)

Lemma readdir_rpc p cs seq cursor b (w : net) :
  normalize p = Ok cs -> 0 <= cursor ->
  encode (readdir_response seq cursor (map dir_entry (f_dir (n_srv w)))) = Some b ->
  zlen b <= MAX_FRAME_SIZE ->
  forall rb, encode (MkReadDirRequest OP_READ_DIR seq p cursor) = Some rb -> zlen rb <= MAX_FRAME_SIZE ->
  exists w', exec (rpc (Resp := ReadDirResponse) (MkReadDirRequest OP_READ_DIR seq p cursor)) w =
               (Ok (readdir_response seq cursor (map dir_entry (f_dir (n_srv w)))), w') /\
    f_dir (n_srv w') = f_dir (n_srv w) /\ n_seq w' = n_seq w.
Proof.
  intros Hp Hc Eb Hb rb Er Hr. set (s0 := MkFserver (f_data (n_srv w)) (f_pos (n_srv w)) (f_dir (n_srv w)) [] (f_reads (n_srv w))).
  exists (MkNet (add_sent b s0) (n_seq w) [rb] (Some [])). split; [|done].
  apply (rpc_run serve_stream _ _ rb b _ w Er Hr); [|by apply decode_encode]. unfold serve_stream.
  rewrite (dispatch_first _ _ (MkEnvelope OP_READ_DIR seq)) by (done || exact (dc_readdir_env _ _ Er)).
  change (env_op (MkEnvelope OP_READ_DIR seq) =? OP_READ) with false.
  change (env_op (MkEnvelope OP_READ_DIR seq) =? OP_WRITE) with false.
  change (env_op (MkEnvelope OP_READ_DIR seq) =? OP_READ_DIR) with true. cbv iota.
  rewrite (handle_readdir_run hid fd flags access key short root rb _ cs b) by (done || by eapply decode_encode).
  reflexivity.
Qed.

(** Every page of the directory, and its request, fits in a frame. *)
Definition pages_fit (p : str) (items : list dir_item) : Prop :=
  forall seq cursor, in_width 64 seq -> 0 <= cursor <= zlen items ->
    (exists b, encode (readdir_response seq cursor (map dir_entry items)) = Some b /\ zlen b <= MAX_FRAME_SIZE) /\
    (exists b, encode (MkReadDirRequest OP_READ_DIR seq p cursor) = Some b /\ zlen b <= MAX_FRAME_SIZE).

Lemma readdir_from_run fuel p cs cursor all (w : net) :
  normalize p = Ok cs -> pages_fit p (f_dir (n_srv w)) -> zlen (f_dir (n_srv w)) < 2 ^ 64 ->
  in_width 64 (n_seq w) -> 0 <= cursor <= zlen (f_dir (n_srv w)) ->
  (length (f_dir (n_srv w)) < Z.to_nat cursor + fuel)%nat ->
  all = take (Z.to_nat cursor) (map dir_entry (f_dir (n_srv w))) ->
  exists w', exec (readdir_from fuel p all cursor) w = (Ok (map dir_entry (f_dir (n_srv w))), w').
Proof.
  intros Hp. revert cursor all w.
  induction fuel as [|fuel IH]; intros cursor all w Hfit Hlen Hseq Hc Hf Hall; [lia|].
  cbn [readdir_from]. rewrite run_bind, run_call. cbn [cli_exec wire_exec]. rewrite run_bindr.
  destruct (Hfit (n_seq w) cursor Hseq Hc) as ((b & Eb & Hb) & rb & Er & Hr).
  destruct (readdir_rpc p cs (n_seq w) cursor b (MkNet (n_srv w) (wrap64 (n_seq w + 1)) (n_out w) (n_in w))
              Hp ltac:(lia) Eb Hb rb Er Hr) as (w' & -> & Hdir & Hs). cbn [n_srv n_seq] in *.
  unfold checked. rewrite run_bindr, run_ret. cbn [readdir_response rdr_status rdr_eof rdr_entries rdr_cursor].
  change (check_status (status_as_u8 StOk)) with (@Ok str unit tt). cbv iota zeta.
  set (es := map dir_entry (f_dir (n_srv w))) in *. set (page := page_at es cursor).
  assert (length es = length (f_dir (n_srv w))) as Hes by apply length_map.
  assert (length page = (256 `min` (length es - Z.to_nat cursor)))%nat as Hpl.
  { unfold page, page_at. by rewrite length_take, length_drop. }
  destruct (zlen page <? 256) eqn:E.
  - apply Z.ltb_lt in E. rewrite run_ret. exists w'. do 2 f_equal. subst all. unfold page, page_at.
    rewrite (take_ge (drop _ _)) by (rewrite length_drop; lia). apply take_drop.
  - apply Z.ltb_ge in E. rewrite wrap_small by (unfold in_width; lia).
    replace es with (map dir_entry (f_dir (n_srv w'))) by (by rewrite Hdir).
    apply IH; rewrite ?Hdir; [done|done|rewrite Hs; apply wrap_range; lia|lia|lia|].
    fold es. subst all. replace (Z.to_nat (cursor + zlen page)) with (Z.to_nat cursor + 256)%nat by lia.
    apply take_take_drop.
Qed.
End Net.
