(* ===== verification/ExampleCodec.v ===== *)
(** * An executable codec

    A concrete instance of [Codec] with which the theorems that take the codec
    as a parameter are instantiated and evaluated.  It is not MessagePack: a
    message is two words, sequence number and opcode, and its remaining
    fields (fixed-width words and raw data on the data path, an enumeration with
    stdpp's [Countable] elsewhere).  It has the properties the theorems ask of
    the real codec: [EnvelopeLaws], [DataCodec] and [ServiceCodec]. *)

From stdpp Require Import countable.
From S2P Require Import Prelude Text Status Frames Prog Os Sanitize WriteLock Confine Reply MetaOps DataOps CtrlOps Dispatch FileServer ClientRpc EndToEnd.

(** ** Bits as bytes *)

Fixpoint bytes_of_pos (p : positive) : bytes :=
  match p with
  | xH => []
  | xO p => x00 :: bytes_of_pos p
  | xI p => x01 :: bytes_of_pos p
  end.

Fixpoint pos_of_bytes (b : bytes) : option positive :=
  match b with
  | [] => Some xH
  | x00 :: b => xO <$> pos_of_bytes b
  | x01 :: b => xI <$> pos_of_bytes b
  | _ => None
  end.

Lemma pos_of_bytes_of_pos p : pos_of_bytes (bytes_of_pos p) = Some p.
Proof. induction p as [p IH|p IH|]; simpl; [by rewrite IH..|done]. Qed.

(** ** Little-endian words *)

Fixpoint le_bytes (n : nat) (z : Z) : bytes :=
  match n with O => [] | S n => byte_of_Z z :: le_bytes n (z / 256) end.
Fixpoint le_value (b : bytes) : Z :=
  match b with [] => 0 | x :: b => byte_to_Z x + 256 * le_value b end.

Lemma le_bytes_length n z : length (le_bytes n z) = n.
Proof. revert z. induction n as [|n IH]; intros z; simpl; [done|]. by rewrite IH. Qed.

Lemma le_value_bytes n z : 0 <= z < 256 ^ Z.of_nat n -> le_value (le_bytes n z) = z.
Proof.
  revert z. induction n as [|n IH]; intros z Hz.
  - simpl in *. lia.
  - cbn [le_bytes le_value]. rewrite byte_to_of_Z. rewrite Nat2Z.inj_succ, Z.pow_succ_r in Hz by lia.
    rewrite IH by (split; [apply Z.div_pos; lia|apply Z.div_lt_upper_bound; lia]).
    unfold wrap. change (2 ^ 8) with 256. pose proof (Z.div_mod z 256). lia.
Qed.

Definition word (n : nat) (z : Z) : option bytes :=
  if (0 <=? z) && (z <? 256 ^ Z.of_nat n) then Some (le_bytes n z) else None.

Lemma word_Some n z b :
  word n z = Some b -> b = le_bytes n z /\ length b = n /\ le_value b = z.
Proof.
  unfold word. destruct (_ && _) eqn:E; [|done]. intros [= <-]. apply andb_prop in E.
  split; [done|]. split; [apply le_bytes_length|apply le_value_bytes; lia].
Qed.

Lemma word_total n z : 0 <= z < 256 ^ Z.of_nat n -> word n z = Some (le_bytes n z).
Proof. intros H. unfold word. rewrite andb_true_intro by lia. done. Qed.

(** ** Payloads *)

Class Payload (P : Type) := {
  penc : P -> option bytes;
  pdec : bytes -> option P;
  pdec_penc : forall p b, penc p = Some b -> pdec b = Some p
}.

(** A value of a fixed number of bytes. *)
Class Fixed (P : Type) := {
  fsize : nat;
  fenc : P -> option bytes;
  fdec : bytes -> option P;
  fenc_ok : forall p b, fenc p = Some b -> length b = fsize /\ fdec b = Some p
}.

#[local] Hint Mode Payload ! : typeclass_instances.
#[local] Hint Mode Fixed ! : typeclass_instances.

#[local] Instance fixed_Z : Fixed Z.
Proof.
  refine (Build_Fixed Z 8 (word 8) (fun b => Some (le_value b)) _).
  intros p b H. apply word_Some in H as (_ & ? & ->). done.
Defined.

#[local] Instance fixed_bool : Fixed bool.
Proof.
  refine (Build_Fixed bool 1 (fun b => Some [if b then x01 else x00])
            (fun b => Some (bool_decide (b = [x01]))) _).
  by intros [] b [= <-].
Defined.

#[local] Instance fixed_prod {A B} `{!Fixed A, !Fixed B} : Fixed (A * B).
Proof.
  refine (Build_Fixed (A * B) (@fsize A _ + @fsize B _)
    (fun p => a ← fenc (fst p); b ← fenc (snd p); Some (a ++ b))
    (fun l => a ← fdec (take (@fsize A _) l); b ← fdec (drop (@fsize A _) l); Some (a, b)) _).
  intros [a b] l. simpl. destruct (fenc a) as [la|] eqn:Ea; [|done]. simpl.
  destruct (fenc b) as [lb|] eqn:Eb; [|done]. intros [= <-].
  apply fenc_ok in Ea as [Hla Ha]. apply fenc_ok in Eb as [Hlb Hb].
  rewrite length_app, Hla, Hlb. split; [done|].
  rewrite <- Hla, take_app_length, drop_app_length, Ha. simpl. by rewrite Hb.
Defined.

#[local] Instance payload_fixed {P} `{!Fixed P} : Payload P | 5.
Proof.
  refine (Build_Payload P fenc fdec _). intros p b H. by apply fenc_ok in H as [_ ?].
Defined.

(** Two words, a flag and raw data: the shape of Read answers and Write requests. *)
#[local] Instance payload_data : Payload (Z * Z * bytes * bool) | 0.
Proof.
  refine (Build_Payload (Z * Z * bytes * bool)
    (fun '(a, b, d, f) => h ← fenc (a, b, f); Some (h ++ d))
    (fun l => '(a, b, f) ← fdec (take 17 l); Some (a, b, drop 17 l, f)) _).
  intros [[[a b] d] f] l. destruct (fenc (a, b, f)) as [h|] eqn:E; [|done]. intros [= <-].
  apply fenc_ok in E as [Hl Hd]. change (@fsize (Z * Z * bool) _) with 17%nat in Hl.
  rewrite <- Hl, take_app_length, drop_app_length, Hd. done.
Defined.

#[local] Instance payload_countable {P} `{Countable P} : Payload P | 10.
Proof.
  refine (Build_Payload P (fun p => Some (bytes_of_pos (countable.encode p)))
            (fun b => q ← pos_of_bytes b; countable.decode q) _).
  intros p b [= <-]. rewrite pos_of_bytes_of_pos. simpl. apply countable.decode_encode.
Defined.

(** ** Messages with a common prefix *)

Definition header (op seq : Z) : option bytes := fenc (seq, op).
Definition get_header (b : bytes) : option (Z * Z * bytes) :=
  '(seq, op) ← fdec (P := Z * Z) (take 16 b); Some (op, seq, drop 16 b).

Arguments header : simpl never.
Arguments get_header : simpl never.

Lemma get_header_app op seq h rest :
  header op seq = Some h -> get_header (h ++ rest) = Some (op, seq, rest).
Proof.
  unfold header, get_header. intros H. apply fenc_ok in H as [Hl Hd].
  change (@fsize (Z * Z) _) with 16%nat in Hl. by rewrite <- Hl, take_app_length, drop_app_length, Hd.
Qed.

Class Packed (T P : Type) := {
  pk : T -> Z * Z * P;
  unpk : Z * Z * P -> T;
  unpk_pk : forall x, unpk (pk x) = x
}.

#[local] Instance byte_countable : Countable byte.
Proof.
  refine (inj_countable' byte_to_Z byte_of_Z _). apply byte_of_to_Z.
Defined.

#[local] Instance Stat_eq_dec : EqDecision Stat.
Proof. solve_decision. Defined.
#[local] Instance DirEntry_eq_dec : EqDecision DirEntry.
Proof. solve_decision. Defined.
#[local] Instance StatFs_eq_dec : EqDecision StatFs.
Proof. solve_decision. Defined.

#[local] Instance Stat_countable : Countable Stat.
Proof.
  refine (inj_countable'
    (fun s => (st_ino s, st_mode s, st_nlink s, st_uid s, st_gid s, st_size s, st_atime s,
               st_mtime s, st_ctime s, st_blksz s, st_blocks s))
    (fun '(a, b, c, d, e, f, g, h, i, j, k) => MkStat a b c d e f g h i j k) _).
  by intros [].
Defined.
#[local] Instance DirEntry_countable : Countable DirEntry.
Proof.
  refine (inj_countable' (fun s => (de_name s, de_ino s, de_mode s))
    (fun '(a, b, c) => MkDirEntry a b c) _). by intros [].
Defined.
#[local] Instance StatFs_countable : Countable StatFs.
Proof.
  refine (inj_countable'
    (fun s => (sf_blocks s, sf_bfree s, sf_bavail s, sf_files s, sf_ffree s, sf_bsize s,
               sf_namelen s, sf_frsize s))
    (fun '(a, b, c, d, e, f, g, h) => MkStatFs a b c d e f g h) _).
  by intros [].
Defined.

Section Packed.
Context {T P : Type} `{!Packed T P} `{!Payload P}.

Definition packed_wire : Wire T :=
  Build_Wire T
    (fun x => let '(op, seq, p) := pk x in h ← header op seq; q ← penc p; Some (h ++ q))
    (fun b => t ← get_header b; p ← pdec (snd t); Some (unpk (fst t, p))).

Lemma packed_encode x b :
  @encode T packed_wire x = Some b ->
  exists op seq p h q, pk x = (op, seq, p) /\ header op seq = Some h /\ penc p = Some q /\ b = h ++ q.
Proof.
  unfold encode, packed_wire. destruct (pk x) as [[op seq] p] eqn:E.
  destruct (header op seq) as [h|] eqn:Eh; [|discriminate 1].
  destruct (penc p) as [q|] eqn:Eq; [|discriminate 1]. intros [= <-]. by exists op, seq, p, h, q.
Qed.

#[local] Instance packed_laws : @WireLaws T packed_wire.
Proof.
  constructor. intros x b H. apply packed_encode in H as (op & seq & p & h & q & Ep & Eh & Eq & ->). cbn.
  rewrite (get_header_app _ _ _ _ Eh). cbn. rewrite (pdec_penc _ _ Eq). cbn. by rewrite <- Ep, unpk_pk.
Qed.
End Packed.

#[local] Instance envelope_wire : Wire Envelope :=
  Build_Wire Envelope
    (fun x => header (env_op x) (env_seq x))
    (fun b => t ← get_header b; Some (MkEnvelope (fst (fst t)) (snd (fst t)))).

(** ** The message types *)

#[local] Instance pk_HandshakeRequest : Packed HandshakeRequest (Z * str * list str * Z * str).
Proof.
  refine (Build_Packed _ _ (fun x => (hq_op x, hq_seq x, (hq_version x, hq_client_id x, hq_features x, hq_chunk_size x, hq_auth_type x)))
    (fun '(o, s, (a, b, c, d, e)) => MkHandshakeRequest o s a b c d e) _); by intros [].
Defined.
#[local] Instance pk_HandshakeResponse : Packed HandshakeResponse (Z * Z * list str * Z * str * str).
Proof.
  refine (Build_Packed _ _ (fun x => (hr_op x, hr_seq x, (hr_status x, hr_version x, hr_features x, hr_chunk_size x, hr_server_id x, hr_export_root x)))
    (fun '(o, s, (a, b, c, d, e, f)) => MkHandshakeResponse o s a b c d e f) _); by intros [].
Defined.
#[local] Instance pk_PingRequest : Packed PingRequest (unit).
Proof.
  refine (Build_Packed _ _ (fun x => (pgq_op x, pgq_seq x, tt))
    (fun '(o, s, _) => MkPingRequest o s ) _); by intros [].
Defined.
#[local] Instance pk_PingResponse : Packed PingResponse (Z).
Proof.
  refine (Build_Packed _ _ (fun x => (pgr_op x, pgr_seq x, pgr_status x))
    (fun '(o, s, a) => MkPingResponse o s a) _); by intros [].
Defined.
#[local] Instance pk_GetAttrRequest : Packed GetAttrRequest (str).
Proof.
  refine (Build_Packed _ _ (fun x => (gaq_op x, gaq_seq x, gaq_path x))
    (fun '(o, s, a) => MkGetAttrRequest o s a) _); by intros [].
Defined.
#[local] Instance pk_GetAttrResponse : Packed GetAttrResponse (Z * option Stat).
Proof.
  refine (Build_Packed _ _ (fun x => (gar_op x, gar_seq x, (gar_status x, gar_stat x)))
    (fun '(o, s, (a, b)) => MkGetAttrResponse o s a b) _); by intros [].
Defined.
#[local] Instance pk_SetAttrRequest : Packed SetAttrRequest (str * Z * Z * Z * Z * Z * Z * Z).
Proof.
  refine (Build_Packed _ _ (fun x => (saq_op x, saq_seq x, (saq_path x, saq_valid x, saq_mode x, saq_uid x, saq_gid x, saq_size x, saq_atime x, saq_mtime x)))
    (fun '(o, s, (a, b, c, d, e, f, g, h)) => MkSetAttrRequest o s a b c d e f g h) _); by intros [].
Defined.
#[local] Instance pk_SetAttrResponse : Packed SetAttrResponse (Z * option Stat).
Proof.
  refine (Build_Packed _ _ (fun x => (sar_op x, sar_seq x, (sar_status x, sar_stat x)))
    (fun '(o, s, (a, b)) => MkSetAttrResponse o s a b) _); by intros [].
Defined.
#[export] Instance pk_ReadDirRequest : Packed ReadDirRequest (str * Z).
Proof.
  refine (Build_Packed _ _ (fun x => (rdq_op x, rdq_seq x, (rdq_path x, rdq_cursor x)))
    (fun '(o, s, (a, b)) => MkReadDirRequest o s a b) _); by intros [].
Defined.
#[export] Instance pk_ReadDirResponse : Packed ReadDirResponse (Z * list DirEntry * Z * bool).
Proof.
  refine (Build_Packed _ _ (fun x => (rdr_op x, rdr_seq x, (rdr_status x, rdr_entries x, rdr_cursor x, rdr_eof x)))
    (fun '(o, s, (a, b, c, d)) => MkReadDirResponse o s a b c d) _); by intros [].
Defined.
#[local] Instance pk_OpenRequest : Packed OpenRequest (str * Z).
Proof.
  refine (Build_Packed _ _ (fun x => (opq_op x, opq_seq x, (opq_path x, opq_flags x)))
    (fun '(o, s, (a, b)) => MkOpenRequest o s a b) _); by intros [].
Defined.
#[local] Instance pk_OpenResponse : Packed OpenResponse (Z * Z * option Stat).
Proof.
  refine (Build_Packed _ _ (fun x => (opr_op x, opr_seq x, (opr_status x, opr_handle x, opr_stat x)))
    (fun '(o, s, (a, b, c)) => MkOpenResponse o s a b c) _); by intros [].
Defined.
#[local] Instance pk_ReleaseRequest : Packed ReleaseRequest (Z).
Proof.
  refine (Build_Packed _ _ (fun x => (rlq_op x, rlq_seq x, rlq_handle x))
    (fun '(o, s, a) => MkReleaseRequest o s a) _); by intros [].
Defined.
#[local] Instance pk_ReleaseResponse : Packed ReleaseResponse (Z).
Proof.
  refine (Build_Packed _ _ (fun x => (rlr_op x, rlr_seq x, rlr_status x))
    (fun '(o, s, a) => MkReleaseResponse o s a) _); by intros [].
Defined.
#[local] Instance pk_ReadRequest : Packed ReadRequest (Z * Z * Z).
Proof.
  refine (Build_Packed _ _ (fun x => (rq_op x, rq_seq x, (rq_handle x, rq_offset x, rq_length x)))
    (fun '(o, s, (a, b, c)) => MkReadRequest o s a b c) _); by intros [].
Defined.
#[local] Instance pk_ReadResponse : Packed ReadResponse (Z * Z * bytes * bool).
Proof.
  refine (Build_Packed _ _ (fun x => (rr_op x, rr_seq x, (rr_status x, rr_offset x, rr_data x, rr_eof x)))
    (fun '(o, s, (a, b, c, d)) => MkReadResponse o s a b c d) _); by intros [].
Defined.
#[local] Instance pk_WriteRequest : Packed WriteRequest (Z * Z * bytes * bool).
Proof.
  refine (Build_Packed _ _ (fun x => (wq_op x, wq_seq x, (wq_handle x, wq_offset x, wq_data x, wq_done x)))
    (fun '(o, s, (a, b, c, d)) => MkWriteRequest o s a b c d) _); by intros [].
Defined.
#[local] Instance pk_WriteResponse : Packed WriteResponse (Z * Z).
Proof.
  refine (Build_Packed _ _ (fun x => (wr_op x, wr_seq x, (wr_status x, wr_written x)))
    (fun '(o, s, (a, b)) => MkWriteResponse o s a b) _); by intros [].
Defined.
#[local] Instance pk_RenameRequest : Packed RenameRequest (str * str * Z).
Proof.
  refine (Build_Packed _ _ (fun x => (rnq_op x, rnq_seq x, (rnq_old x, rnq_new x, rnq_flags x)))
    (fun '(o, s, (a, b, c)) => MkRenameRequest o s a b c) _); by intros [].
Defined.
#[local] Instance pk_PathRequest : Packed PathRequest (str).
Proof.
  refine (Build_Packed _ _ (fun x => (pq_op x, pq_seq x, pq_path x))
    (fun '(o, s, a) => MkPathRequest o s a) _); by intros [].
Defined.
#[local] Instance pk_StatusResponse : Packed StatusResponse (Z).
Proof.
  refine (Build_Packed _ _ (fun x => (sr_op x, sr_seq x, sr_status x))
    (fun '(o, s, a) => MkStatusResponse o s a) _); by intros [].
Defined.
#[local] Instance pk_ReadLinkResponse : Packed ReadLinkResponse (Z * str).
Proof.
  refine (Build_Packed _ _ (fun x => (rkr_op x, rkr_seq x, (rkr_status x, rkr_target x)))
    (fun '(o, s, (a, b)) => MkReadLinkResponse o s a b) _); by intros [].
Defined.
#[local] Instance pk_MkDirRequest : Packed MkDirRequest (str * Z).
Proof.
  refine (Build_Packed _ _ (fun x => (mdq_op x, mdq_seq x, (mdq_path x, mdq_mode x)))
    (fun '(o, s, (a, b)) => MkMkDirRequest o s a b) _); by intros [].
Defined.
#[local] Instance pk_CreateRequest : Packed CreateRequest (str * Z * Z).
Proof.
  refine (Build_Packed _ _ (fun x => (crq_op x, crq_seq x, (crq_path x, crq_flags x, crq_mode x)))
    (fun '(o, s, (a, b, c)) => MkCreateRequest o s a b c) _); by intros [].
Defined.
#[local] Instance pk_FsyncRequest : Packed FsyncRequest (Z * bool).
Proof.
  refine (Build_Packed _ _ (fun x => (fsq_op x, fsq_seq x, (fsq_handle x, fsq_datasync x)))
    (fun '(o, s, (a, b)) => MkFsyncRequest o s a b) _); by intros [].
Defined.
#[local] Instance pk_StatFsResponse : Packed StatFsResponse (Z * option StatFs).
Proof.
  refine (Build_Packed _ _ (fun x => (sfr_op x, sfr_seq x, (sfr_status x, sfr_statfs x)))
    (fun '(o, s, (a, b)) => MkStatFsResponse o s a b) _); by intros [].
Defined.
#[local] Instance pk_SymlinkRequest : Packed SymlinkRequest (str * str).
Proof.
  refine (Build_Packed _ _ (fun x => (slq_op x, slq_seq x, (slq_target x, slq_link x)))
    (fun '(o, s, (a, b)) => MkSymlinkRequest o s a b) _); by intros [].
Defined.
#[local] Instance pk_LinkRequest : Packed LinkRequest (str * str).
Proof.
  refine (Build_Packed _ _ (fun x => (lkq_op x, lkq_seq x, (lkq_path x, lkq_link x)))
    (fun '(o, s, (a, b)) => MkLinkRequest o s a b) _); by intros [].
Defined.

Definition example_codec : Codec.
Proof. constructor; first [exact envelope_wire | apply packed_wire]. Defined.

Section Laws.
Context {T P : Type} `{!Packed T P} `{!Payload P}.

Lemma packed_agrees (seq_of : T -> Z) :
  (forall op seq p, seq_of (unpk (op, seq, p)) = seq) -> @SeqAgrees example_codec T packed_wire seq_of.
Proof.
  intros Hs raw env req. cbn. destruct (get_header raw) as [[[op seq] rest]|]; [|done]. cbn.
  intros [= <-]. destruct (pdec rest) as [pl|]; [|done]. cbn. intros [= <-]. apply Hs.
Qed.

Lemma packed_envelope (op_of seq_of : T -> Z) :
  (forall x, fst (pk x) = (op_of x, seq_of x)) ->
  @envelope_of example_codec T packed_wire op_of seq_of.
Proof.
  intros Ho x b H. apply packed_encode in H as (op & seq & p & h & q & Ep & Eh & _ & ->). cbn.
  rewrite (get_header_app _ _ _ _ Eh). cbn. specialize (Ho x). rewrite Ep in Ho. simpl in Ho.
  by injection Ho as -> ->.
Qed.
End Laws.

#[export] Instance example_envelope_laws : EnvelopeLaws example_codec.
Proof. constructor; apply packed_agrees; intros o s p; by repeat destruct p as [p]. Qed.

(** ** Sizes *)

Lemma fenc_Z z : in_width 64 z -> fenc z = Some (le_bytes 8 z).
Proof. intros H. apply word_total. exact H. Qed.

Lemma header_total op seq :
  in_width 64 op -> in_width 64 seq -> exists h, header op seq = Some h /\ length h = 16%nat.
Proof.
  intros Ho Hs. destruct (header op seq) as [h|] eqn:E.
  - exists h. split; [done|]. by apply fenc_ok in E as [? _].
  - exfalso. revert E. unfold header. cbn -[word]. by rewrite !word_total.
Qed.

Lemma fixed_size {P} `{!Fixed P} (p : P) b : fenc p = Some b -> zlen b = Z.of_nat (@fsize P _).
Proof. intros H. by apply fenc_ok in H as [-> _]. Qed.

(** A message of in-width words and [data] takes 33 bytes more than the data. *)
Lemma packed_data_fits {T} `{!Packed T (Z * Z * bytes * bool)} (x : T) op seq a c data f :
  pk x = (op, seq, (a, c, data, f)) -> in_width 64 op -> in_width 64 seq -> in_width 64 a -> in_width 64 c ->
  exists b, @encode T packed_wire x = Some b /\ zlen b = 33 + zlen data.
Proof.
  intros Hpk Ho Hs Ha Hc. destruct (header_total op seq Ho Hs) as (h & Eh & Hh).
  unfold encode, packed_wire. rewrite Hpk, Eh. cbn -[word le_bytes].
  rewrite (word_total 8 a), (word_total 8 c) by done. cbn -[word le_bytes]. eexists. split; [reflexivity|].
  rewrite !length_app, Hh, !le_bytes_length. simpl. lia.
Qed.

(** Any other message: the header and its payload. *)
Lemma packed_fits {T P} `{!Packed T P} `{!Payload P} (x : T) op seq p q :
  pk x = (op, seq, p) -> in_width 64 op -> in_width 64 seq -> penc p = Some q ->
  exists b, @encode T packed_wire x = Some b /\ zlen b = 16 + zlen q.
Proof.
  intros Hpk Ho Hs Hq. destruct (header_total op seq Ho Hs) as (h & Eh & Hh).
  exists (h ++ q). unfold encode, packed_wire. rewrite Hpk, Eh. cbn. rewrite Hq. split; [done|].
  rewrite length_app, Hh. lia.
Qed.

Lemma packed_fixed_fits {T P} `{!Packed T P} `{!Fixed P} (x : T) op seq p :
  pk x = (op, seq, p) -> in_width 64 op -> in_width 64 seq -> is_Some (fenc p) ->
  exists b, @encode T packed_wire x = Some b /\ zlen b = 16 + Z.of_nat (@fsize P _).
Proof.
  intros Hpk Ho Hs [q Hq]. destruct (packed_fits (Payload0 := payload_fixed) x op seq p q Hpk Ho Hs Hq) as (b & Eb & Hb).
  exists b. split; [done|]. by rewrite Hb, (fixed_size _ _ Hq).
Qed.

#[export] Instance example_data_codec : DataCodec example_codec.
Proof.
  assert (in_width 64 OP_READ /\ in_width 64 OP_WRITE) as [Hr Hw] by (unfold in_width, OP_READ, OP_WRITE; lia).
  assert (forall st, in_width 64 (status_as_u8 st)) as Hst by (intros []; unfold in_width; simpl; lia).
  constructor; try apply packed_laws; try (apply packed_envelope; by intros []).
  - intros st seq off buf eof Hs Ho Hb.
    destruct (packed_data_fits (Packed0 := pk_ReadResponse) (MkReadResponse OP_READ seq (status_as_u8 st) off buf eof)
                OP_READ seq (status_as_u8 st) off buf eof eq_refl) as (b & Eb & Hl); [done|done|done|done|].
    exists b. split; [exact Eb|]. rewrite Hl. unfold CHUNK, MAX_FRAME_SIZE in *. simpl. lia.
  - intros st seq total Hs Ht.
    destruct (packed_fixed_fits (Packed0 := pk_WriteResponse) (MkWriteResponse OP_WRITE seq (status_as_u8 st) total)
                OP_WRITE seq (status_as_u8 st, total) eq_refl) as (b & Eb & Hl); [done|done| |].
    { cbn -[word]. rewrite (word_total 8 total) by done. rewrite word_total by (destruct st; done). eauto. }
    exists b. split; [exact Eb|]. rewrite Hl. unfold MAX_FRAME_SIZE. simpl. lia.
  - intros seq h off len Hs Hh Ho Hl. assert (in_width 64 len) by (unfold in_width in *; lia).
    destruct (packed_fixed_fits (Packed0 := pk_ReadRequest) (MkReadRequest OP_READ seq h off len) OP_READ seq (h, off, len) eq_refl)
      as (b & Eb & Hlen); [done|done| |].
    { cbn -[word]. rewrite !word_total by done. eauto. }
    exists b. split; [exact Eb|]. rewrite Hlen. unfold MAX_FRAME_SIZE. simpl. lia.
  - intros seq h off data dn Hs Hh Ho Hd.
    destruct (packed_data_fits (Packed0 := pk_WriteRequest) (MkWriteRequest OP_WRITE seq h off data dn)
                OP_WRITE seq h off data dn eq_refl)
      as (b & Eb & Hl); [done|done|done|done|].
    exists b. split; [exact Eb|]. rewrite Hl. unfold MAX_CHUNK_SIZE, MAX_FRAME_SIZE in *. simpl. lia.
Qed.

#[export] Instance example_service_codec : ServiceCodec example_codec.
Proof. constructor; first [apply packed_laws | apply packed_envelope; by intros []]. Qed.
