(* ===== verification/Server.v ===== *)
(** * A server process

    The contract [srv_spec] leaves the environment of a task abstract.  Here it
    is implemented: a process with a descriptor table, the session's
    [HandleTable] and an arbitrary kernel, and the adequacy theorem that one
    request executed by [dispatch_inner] in it is confined and leaks nothing. *)

From S2P Require Import Prelude Prog Text Status Frames FrameIo Os Sanitize WriteLock Handles Confine Reply MetaOps DataOps CtrlOps Dispatch ExampleCodec.

(** A call of the program, whatever its result type. *)
Record any_call := AnyCall { ac_type : Type; ac_event : sysE ac_type }.

(** ** Who owns which descriptor

    [open] are the descriptors of the process, [tab] the handle table's map,
    [own] the descriptors of the running task. *)

Record fd_inv (open : gset Z) (tab : gmap Z OpenHandle) (own : gmap Z fd_kind) : Prop := FdInv {
  fi_tab : forall id h, tab !! id = Some h -> oh_file h ∈ open /\ own !! oh_file h = None;
  fi_inj : forall id id' h h', tab !! id = Some h -> tab !! id' = Some h' ->
    oh_file h = oh_file h' -> id = id';
  fi_own : forall fd, is_Some (own !! fd) -> fd ∈ open;
  fi_all : forall fd, fd ∈ open ->
    is_Some (own !! fd) \/ exists id h, tab !! id = Some h /\ oh_file h = fd
}.

Lemma fd_inv_empty : fd_inv ∅ ∅ ∅.
Proof.
  constructor.
  - intros id h H. by rewrite lookup_empty in H.
  - intros id id' h h' H. by rewrite lookup_empty in H.
  - intros fd [k H]. by rewrite lookup_empty in H.
  - set_solver.
Qed.

Lemma fd_inv_fresh open tab own k :
  fd_inv open tab own ->
  own !! fresh open = None /\ fd_inv ({[fresh open]} ∪ open) tab (<[fresh open := k]> own).
Proof.
  intros [H1 H2 H3 H4]. pose proof (is_fresh open) as Hf.
  assert (own !! fresh open = None) as Hn.
  { apply eq_None_not_Some. intros Hs. apply Hf, H3, Hs. }
  split; [done|]. constructor.
  - intros id h Hh. destruct (H1 _ _ Hh) as [Ho Hw]. split; [set_solver|].
    rewrite lookup_insert_ne; [done|]. intros E. apply Hf. by rewrite E.
  - done.
  - intros fd. rewrite lookup_insert_is_Some. set_solver.
  - intros fd. rewrite lookup_insert_is_Some'. set_solver.
Qed.

Lemma fd_inv_close open tab own fd :
  is_Some (own !! fd) -> fd_inv open tab own -> fd_inv (open ∖ {[fd]}) tab (delete fd own).
Proof.
  intros Hfd [H1 H2 H3 H4]. constructor.
  - intros id h Hh. destruct (H1 _ _ Hh) as [Ho Hw]. rewrite lookup_delete_None. split; [|by right].
    apply elem_of_difference. split; [done|]. intros E%elem_of_singleton. rewrite E in Hw. rewrite Hw in Hfd. by destruct Hfd.
  - done.
  - intros f. rewrite lookup_delete_is_Some. set_solver.
  - intros f [Hf Hne]%elem_of_difference. rewrite lookup_delete_is_Some. set_solver.
Qed.

(** A descriptor the task owns is remembered differently. *)
Lemma fd_inv_again open tab own fd k :
  is_Some (own !! fd) -> fd_inv open tab own -> fd_inv open tab (<[fd := k]> own).
Proof.
  intros Hfd [H1 H2 H3 H4]. constructor; [|done| |].
  - intros id h Hh. destruct (H1 _ _ Hh) as [Ho Hw]. split; [done|]. rewrite lookup_insert_ne; [done|].
    intros E. rewrite E, Hw in Hfd. by destruct Hfd.
  - intros f. rewrite lookup_insert_is_Some'. intros [<-|?]; auto.
  - intros f Hf. rewrite lookup_insert_is_Some'. destruct (H4 f Hf); auto.
Qed.

(** A handle leaves the table: its file becomes the task's. *)
Lemma fd_inv_remove open tab own id h k :
  tab !! id = Some h -> fd_inv open tab own ->
  own !! oh_file h = None /\ fd_inv open (delete id tab) (<[oh_file h := k]> own).
Proof.
  intros Hh [H1 H2 H3 H4]. destruct (H1 _ _ Hh) as [Ho Hw]. split; [done|]. constructor.
  - intros id' h' [Hne Hh']%lookup_delete_Some. destruct (H1 _ _ Hh') as [Ho' Hw']. split; [done|].
    rewrite lookup_insert_ne; [done|]. intros E. apply Hne. by eapply H2.
  - intros i i' h1 h2 [_ ?]%lookup_delete_Some [_ ?]%lookup_delete_Some. eauto.
  - intros f. rewrite lookup_insert_is_Some'. intros [<-|?]; auto.
  - intros f Hf. rewrite lookup_insert_is_Some'. destruct (H4 f Hf) as [?|(i & h' & Hi & <-)]; [auto|].
    destruct (decide (id = i)) as [->|Hne]; [left; left; congruence|].
    right. exists i, h'. by rewrite lookup_delete_ne.
Qed.

(** Dropping a handle that is being replaced closes its file. *)
Lemma fd_inv_drop open tab own id :
  fd_inv open tab own ->
  fd_inv (match tab !! id with Some old => open ∖ {[oh_file old]} | None => open end)
         (delete id tab) own.
Proof.
  intros H. destruct (tab !! id) as [h|] eqn:Hh; [|by rewrite delete_id].
  destruct (fd_inv_remove _ _ _ _ _ Beneath Hh H) as [Hn H'].
  apply (fd_inv_close _ _ _ (oh_file h)) in H'; [|rewrite lookup_insert_eq; eauto].
  by rewrite delete_insert_id in H'.
Qed.

(** The task's file enters the table. *)
Lemma fd_inv_insert open tab own id h k :
  own !! oh_file h = Some k -> tab !! id = None -> fd_inv open tab own ->
  fd_inv open (<[id := h]> tab) (delete (oh_file h) own).
Proof.
  intros Hk Hid [H1 H2 H3 H4].
  assert (forall i h', tab !! i = Some h' -> oh_file h' <> oh_file h) as Hne.
  { intros i h' Hi E. destruct (H1 _ _ Hi) as [_ Hn]. rewrite E in Hn. congruence. }
  constructor.
  - intros i h' [[-> ->]|[Hi Hh']]%lookup_insert_Some.
    + split; [eauto|apply lookup_delete_eq].
    + destruct (H1 _ _ Hh'). split; [done|]. apply lookup_delete_None. by right.
  - intros i i' h1 h2 [[-> ->]|[Hi Hh1]]%lookup_insert_Some [[-> ->]|[Hi' Hh2]]%lookup_insert_Some E;
      [done|exfalso; by eapply Hne|exfalso; by eapply Hne|eauto].
  - intros f. rewrite lookup_delete_is_Some. intros [_ ?]. auto.
  - intros f Hf. rewrite lookup_delete_is_Some. destruct (H4 f Hf) as [Hs|(i & h' & Hi & <-)].
    + destruct (decide (oh_file h = f)) as [<-|?]; [|auto]. right. exists id, h.
      by rewrite lookup_insert_eq.
    + right. exists i, h'. rewrite lookup_insert_ne; [done|congruence].
Qed.

Section World.
(** The kernel: any state, any answers. *)
Variable K : Type.
Variable kern : forall X, sysE X -> K -> X * K.
Variable path_hash : path -> Z.

Record world := MkWorld {
  w_kern : K;
  w_open : gset Z;          (** descriptors open in the process *)
  w_table : HandleTable;
  w_lock : option Z;        (** the stripe this task holds *)
  w_rx : Z; w_tx : Z;       (** the session's byte counters *)
  w_sent : list bytes;      (** frames sent on the stream *)
  w_log : list any_call     (** every call made *)
}.

Definition log_call {X} (e : sysE X) (w : world) : world :=
  MkWorld (w_kern w) (w_open w) (w_table w) (w_lock w) (w_rx w) (w_tx w) (w_sent w)
          (w_log w ++ [AnyCall X e]).
Definition set_kern (k : K) (w : world) : world :=
  MkWorld k (w_open w) (w_table w) (w_lock w) (w_rx w) (w_tx w) (w_sent w) (w_log w).
Definition set_open (o : gset Z) (w : world) : world :=
  MkWorld (w_kern w) o (w_table w) (w_lock w) (w_rx w) (w_tx w) (w_sent w) (w_log w).
Definition set_table (t : HandleTable) (w : world) : world :=
  MkWorld (w_kern w) (w_open w) t (w_lock w) (w_rx w) (w_tx w) (w_sent w) (w_log w).
Definition set_lock (l : option Z) (w : world) : world :=
  MkWorld (w_kern w) (w_open w) (w_table w) l (w_rx w) (w_tx w) (w_sent w) (w_log w).
Definition set_counts (rx tx : Z) (w : world) : world :=
  MkWorld (w_kern w) (w_open w) (w_table w) (w_lock w) rx tx (w_sent w) (w_log w).
Definition set_sent (s : list bytes) (w : world) : world :=
  MkWorld (w_kern w) (w_open w) (w_table w) (w_lock w) (w_rx w) (w_tx w) s (w_log w).

(** [ClientSession::record_rx], [record_tx]: [fetch_add] wraps. *)
Definition record_rx (n : Z) (w : world) : world := set_counts (wrap64 (w_rx w + n)) (w_tx w) w.
Definition record_tx (n : Z) (w : world) : world := set_counts (w_rx w) (wrap64 (w_tx w + n)) w.

(** The kernel decides whether an open succeeds; the descriptor is an unused
    one. *)
Definition exec_open (r : io Z) (w : world) : io Z * world :=
  match r with
  | Err e => (Err e, w)
  | Ok _ => let fd := fresh (w_open w) in (Ok fd, set_open ({[fd]} ∪ w_open w) w)
  end.

(** [HandleTable::try_insert]; [HashMap::insert] drops a handle it replaces,
    which closes its file. *)
Definition exec_insert (p : path) (flags fd : Z) (m : io metadata) (w : world) : option Z * world :=
  match try_insert path_hash (w_table w) p flags fd m with
  | (Err _, t) => (None, set_table t w)
  | (Ok id, t) =>
      let open := match ht_inner (w_table w) !! id with
                  | Some old => w_open w ∖ {[oh_file old]}
                  | None => w_open w
                  end in
      (Some id, set_open open (set_table t w))
  end.

Definition exec_call (X : Type) (e : sysE X) (w : world) : X * world :=
  match e in sysE X return X * world with
  | Open p flags mode =>
      let '(r, k) := kern _ (Open p flags mode) (w_kern w) in exec_open r (set_kern k w)
  | Openat2 d rel flags mode resolve =>
      let '(r, k) := kern _ (Openat2 d rel flags mode resolve) (w_kern w) in
      exec_open r (set_kern k w)
  | Close fd => (tt, set_open (w_open w ∖ {[fd]}) w)
  | TryInsert p flags fd =>
      let '(m, k) := kern _ (FileMetadata fd) (w_kern w) in
      exec_insert p flags fd m (set_kern k w)
  | HandleRemove id => let '(h, t) := ht_remove (w_table w) id in (h, set_table t w)
  | GetFile id => (get_file (w_table w) id, w)
  | GetWriteCtx id => (get_write_ctx (w_table w) id, w)
  | RecordRx n => (tt, record_rx n w)
  | RecordTx n => (tt, record_tx n w)
  | LockStripe i => (tt, set_lock (Some i) w)
  | UnlockStripe _ => (tt, set_lock None w)
  | SendFrame b =>
      let '(r, k) := kern _ (SendFrame b) (w_kern w) in
      match r with
      | Ok u => (Ok u, set_sent (w_sent w ++ [b]) (set_kern k w))
      | Err e => (Err e, set_kern k w)
      end
  | e => let '(r, k) := kern _ e (w_kern w) in (r, set_kern k w)
  end.

Definition exec (X : Type) (e : sysE X) (w : world) : X * world := exec_call X e (log_call e w).

(** ** What a call may name *)

(** The part of [srv_pre] that can be read off the call itself. *)
Definition call_safe (legacy : bool) (root : path) (c : any_call) : Prop :=
  match ac_event c with
  | SymlinkMetadata p | MetadataOf p | Exists p | Canonicalize p | ReadDir p | Statvfs p
  | TryInsert p _ _ => safe_path root p
  | Open p flags mode =>
      anchor_call root p flags mode \/
      (legacy = true /\ safe_path root p /\ (has_bits flags O_CREAT = true -> mode_ok mode))
  | Openat2 _ rel _ mode resolve => rel_ok rel /\ resolve = confine_flags /\ mode_ok mode
  | Mkdirat _ name mode | Fchmodat _ name mode => name_ok name /\ mode_ok mode
  | Unlinkat _ name _ | Symlinkat _ _ name | Readlinkat _ name _ => name_ok name
  | Linkat _ sn _ dn | Renameat _ sn _ dn => name_ok sn /\ name_ok dn
  | SetPermissions _ mode | FchmodProc _ mode => mode_ok mode
  | _ => True
  end.

Lemma srv_pre_call_safe legacy root X (e : sysE X) g : srv_pre legacy root X e g -> call_safe legacy root (AnyCall X e).
Proof. destruct e; cbn; tauto. Qed.

(** Between requests: the open descriptors are exactly the table's files. *)
Definition world_ok (w : world) : Prop :=
  fd_inv (w_open w) (ht_inner (w_table w)) ∅ /\ w_lock w = None.

(** The world and the ghost state of a running task. *)
Definition tracks (legacy : bool) (root : path) (log0 : list any_call) (w : world) (g : ghost) : Prop :=
  fd_inv (w_open w) (ht_inner (w_table w)) (g_own g) /\ w_lock w = g_lock g /\ w_sent w = g_sent g /\
  exists calls, w_log w = log0 ++ calls /\ Forall (call_safe legacy root) calls.

(** A kernel with [openat2] (Linux 5.6 or later) never answers an open with ENOSYS. *)
Definition has_openat2 : Prop :=
  (forall p f m k e k', kern _ (Open p f m) k = (Err e, k') -> ioe_raw e <> Some ENOSYS) /\
  (forall d p f m r k e k', kern _ (Openat2 d p f m r) k = (Err e, k') -> ioe_raw e <> Some ENOSYS).

Section Adequacy.
Variable (legacy : bool) (root : path).
Hypothesis Hkern : legacy = false -> has_openat2.

Lemma exec_open_ok log0 r w g k :
  tracks legacy root log0 w g -> (legacy = false -> forall e, r = Err e -> ioe_raw e <> Some ENOSYS) ->
  exists g', match fst (exec_open r w) with
             | Ok fd => g_own g !! fd = None /\ g' = own_add fd k g
             | Err e => (legacy = false -> ioe_raw e <> Some ENOSYS) /\ g' = g
             end /\ tracks legacy root log0 (snd (exec_open r w)) g'.
Proof.
  intros (Hfd & Hl & Hs & Hc) He. destruct r as [fd|e]; simpl;
    [|exists g; split; [split; [intros Hl'; by apply He|done]|by split_and!]].
  destruct (fd_inv_fresh _ _ _ k Hfd) as [Hn Hfd']. eexists. by split_and!.
Qed.

Lemma exec_insert_ok log0 p flags fd m w g :
  tracks legacy root log0 w g -> is_Some (g_own g !! fd) ->
  exists g', match fst (exec_insert p flags fd m w) with
             | Some _ => g' = own_del fd g
             | None => g' = g
             end /\ tracks legacy root log0 (snd (exec_insert p flags fd m w)) g'.
Proof.
  intros (Hfd & Hl & Hs & Hc) [kind Hown]. unfold exec_insert.
  destruct (try_insert _ _ _ _ _ _) as [[id|e] t] eqn:E; apply try_insert_inv in E as [_ E]; simpl.
  - destruct E as (-> & _ & _ & Hin). eexists. split; [done|]. split_and!; [|done..]. simpl.
    rewrite Hin, <- insert_delete_eq.
    by eapply (fd_inv_insert _ _ _ _ (MkOpenHandle _ _ _ _));
      [exact Hown|apply lookup_delete_eq|apply fd_inv_drop].
  - subst t. eexists. split; [done|]. by split_and!.
Qed.

Lemma exec_ok log0 X (e : sysE X) w g :
  tracks legacy root log0 w g -> srv_pre legacy root X e g ->
  exists g', srv_post legacy root X e g (fst (exec X e w)) g' /\ tracks legacy root log0 (snd (exec X e w)) g'.
Proof.
  intros Ht Hpre. unfold exec. assert (tracks legacy root log0 (log_call e w) g) as Ht'.
  { destruct Ht as (H1 & H2 & H3 & calls & H4 & H5). split_and!; [done..|].
    exists (calls ++ [AnyCall X e]). simpl. rewrite H4, app_assoc. split; [done|].
    apply Forall_app. split; [done|]. constructor; [|done]. by eapply srv_pre_call_safe. }
  clear Ht. revert Ht'. generalize (log_call e w). clear w. intros w Ht.
  assert (forall k, tracks legacy root log0 (set_kern k w) g) as Hk by done.
  destruct e; cbn [exec_call srv_post];
    try (destruct (kern _ _ _) as [x k] eqn:Ek; exists g; by split);
    try (exists g; by split).
  - destruct (kern _ _ _) as [r k] eqn:Ek. apply exec_open_ok; [done|].
    intros Hleg e ->. by eapply (proj1 (Hkern Hleg)).
  - destruct (kern _ _ _) as [r k] eqn:Ek. apply exec_open_ok; [done|].
    intros Hleg e ->. by eapply (proj2 (Hkern Hleg)).
  - destruct Ht as (Hfd & Hl & Hs & Hc). eexists. split; [done|]. split_and!; [|done..].
    by apply fd_inv_close.
  - destruct (kern _ _ _) as [[u|e] k] eqn:Ek; [|exists g; by split]. eexists. split; [reflexivity|].
    destruct Ht as (Hfd & Hl & Hs & Hc). split_and!; [|done..]. apply fd_inv_again; [apply Hpre|done].
  - destruct (kern _ _ _) as [m k] eqn:Ek. apply exec_insert_ok; [done|]. apply Hpre.
  - destruct Ht as (Hfd & Hl & Hs & Hc). simpl.
    destruct (ht_inner (w_table w) !! id) as [h|] eqn:Eh.
    + destruct (fd_inv_remove _ _ _ _ _ Beneath Eh Hfd) as [Hn Hfd'].
      eexists. split; [done|]. by split_and!.
    + exists g. split; [done|]. split_and!; [|done..]. simpl. by rewrite delete_id.
  - simpl. destruct (get_file _ _); eexists; (split; [done|]); done.
  - simpl. destruct (get_write_ctx _ _) as [[[fd fl] key]|]; eexists; (split; [done|]); done.
  - destruct Ht as (Hfd & Hl & Hs & Hc). eexists. split; [done|]. by split_and!.
  - destruct Ht as (Hfd & Hl & Hs & Hc). eexists. split; [done|]. by split_and!.
  - destruct (kern _ _ _) as [[[]|e] k]; simpl.
    + destruct Ht as (Hfd & Hl & Hs & Hc). eexists. split; [done|].
      split_and!; [done|done|simpl; by rewrite Hs|done].
    + exists g. by split.
Qed.
End Adequacy.
End World.

(** ** Theorems *)

(** C1: every request, against every environment.  For every byte string a client
    sends, and every answer of the kernel, the handle table and the stream at every
    call (other tasks may run in between), a server task keeps the contract
    [srv_spec].  Files are opened beneath an anchor on the export root with
    RESOLVE_BENEATH; the name space is changed at one safe name of a directory so
    opened, and [fchmodat], which follows a link, is called only on the name the task
    has just made there; mode bits outside 0o777 are never set; a write is made under
    the file's stripe; a query by path names a path lexically beneath the root.  When
    the task returns it owns no descriptor and no lock, and the frames it sent answer
    the request, one for every operation but Read.  This holds with a kernel that
    has openat2 ([legacy = false]) and with any kernel ([legacy = true]), where after
    an ENOSYS, and only then, a path lexically beneath the root is opened plainly. *)
Theorem dispatch_obligations {C : Codec} {EL : EnvelopeLaws C} legacy session root recv :
  wp (srv_spec legacy root) (dispatch_inner session root recv) ghost0 (fun r g =>
    g_own g = ∅ /\ g_lock g = None /\ frames_answer recv r (g_sent g)).
Proof.
  eapply wp_mono; [|by apply wp_dispatch_inner].
  intros r g ([Ho Hl] & fs & Hs & Hf). simpl in Hs. subst. by split_and!.
Qed.

(** A request the example codec encodes, framed. *)
Definition framed {T} `{!Wire T} (x : T) : bytes :=
  match encode x with
  | Some b => match write_frame [] b with Ok s => s | Err _ => [] end
  | None => []
  end.

Definition demo_session : ClientSession := MkClientSession [] [] false false.
Definition demo_root : path := [RootDir; Normal (lit "srv")].
Definition demo_open : bytes :=
  framed (Wire0 := @wire_OpenRequest example_codec) (MkOpenRequest OP_OPEN 3 (lit "a/b") 2).

Lemma dispatch_obligations_witness :
  wp (srv_spec true demo_root) (dispatch_inner (C := example_codec) demo_session demo_root demo_open) ghost0
     (fun r g => g_own g = ∅ /\ g_lock g = None).
Proof.
  eapply wp_mono; [|apply (dispatch_obligations (C := example_codec) (EL := example_envelope_laws)
                             true demo_session demo_root demo_open)].
  intros r g (H1 & H2 & _). by split.
Defined.

(** One request in a running process.  Whatever the kernel answers, executing
    [dispatch_inner] leaves the process with exactly the handle table's files open
    and no stripe held, every call it made named only what the contract allows, and
    the frames it sent answer the request. *)
Theorem server_task_confined {C : Codec} {EL : EnvelopeLaws C} (K : Type)
    (kern : forall X, sysE X -> K -> X * K) path_hash legacy session root recv (w : world K) :
  (legacy = false -> has_openat2 K kern) ->
  world_ok K w ->
  let '(r, w') := run (exec K kern path_hash) (dispatch_inner session root recv) w in
  world_ok K w' /\
  (exists calls, w_log K w' = w_log K w ++ calls /\ Forall (call_safe legacy root) calls) /\
  (exists fs, w_sent K w' = w_sent K w ++ fs /\ frames_answer recv r fs).
Proof.
  intros Hk [Hfd Hl].
  set (g := Ghost ∅ ∅ ∅ None (w_sent K w)).
  assert (tracks K legacy root (w_log K w) w g) as Ht.
  { split_and!; [done..|]. exists []. by rewrite app_nil_r. }
  pose proof (run_wp (srv_spec legacy root) (exec K kern path_hash) (tracks K legacy root (w_log K w))
    (fun X e s g' => exec_ok K kern path_hash legacy root Hk _ X e s g')
    (dispatch_inner session root recv) w g _ Ht
    (wp_dispatch_inner session root recv g eq_refl)) as (g' & Hout & Ht').
  destruct (run _ _ w) as [r w']. simpl in Hout, Ht'.
  destruct Hout as ([Ho Hlk] & fs & Hs & Hf). destruct Ht' as (Hfd' & Hl' & Hs' & Hc).
  simpl in Ho, Hlk, Hs. split_and!; [|done|].
  - split; [by rewrite Ho in Hfd'|congruence].
  - exists fs. split; [congruence|done].
Qed.

(** A kernel in which every open succeeds and no path is a symlink. *)
Definition demo_kern (X : Type) (e : sysE X) (k : unit) : X * unit :=
  (match e in sysE X return X with
   | Exists _ => true
   | Canonicalize p => Ok p
   | Open _ _ _ => Ok 0
   | Openat2 _ _ _ _ _ => Ok 0
   | FileMetadata fd => Ok (Metadata 1 fd 0x81a4 1 0 0 0 (Ok 0) (Ok 0))
   | SymlinkMetadata _ | MetadataOf _ => Ok (Metadata 1 2 0x81a4 1 0 0 0 (Ok 0) (Ok 0))
   | ReadDir _ => Ok []
   | Statvfs _ => Ok (MkStatvfs 0 0 0 0 0 0 0 0)
   | Mkdirat _ _ _ | Fchmodat _ _ _ | Unlinkat _ _ _ | Symlinkat _ _ _ | Linkat _ _ _ _
   | Renameat _ _ _ _ | SetLen _ _ | SetPermissions _ _ | FchmodProc _ _ | UtimensProc _ _ _
   | WriteAll _ _ | SyncAll _ | SyncData _ => Ok tt
   | Readlinkat _ _ _ => Ok []
   | SeekStart _ o => Ok o
   | ReadFile _ _ => Ok []
   | SendFrame _ | Finish => Ok tt
   | TryInsert _ _ _ | HandleRemove _ | GetFile _ | GetWriteCtx _ => None
   | Close _ | RecordRx _ | RecordTx _ | LockStripe _ | UnlockStripe _ => tt
   end, k).

Definition demo_world : world unit := MkWorld unit tt ∅ (with_limit 7 10) None 0 0 [] [].

(** An Open request: the file is retained in the table, its anchor is closed,
    one frame is sent. *)
Lemma server_task_confined_witness :
  let '(r, w) := run (exec unit demo_kern (fun _ => 0))
                     (dispatch_inner (C := example_codec) demo_session demo_root demo_open) demo_world in
  r = Ok tt /\ get_file (w_table unit w) (7 * 2 ^ 32 + 1) = Some 1 /\
  length (w_sent unit w) = 1%nat /\ world_ok unit w.
Proof.
  pose proof (server_task_confined (C := example_codec) (EL := example_envelope_laws) unit demo_kern
    (fun _ => 0) false demo_session demo_root demo_open demo_world) as H.
  destruct (run _ _ demo_world) as [r w] eqn:E. assert (Hw : world_ok unit w).
  { apply H; [intros _; split; [by intros ? ? ? ? ? ? [= <-]|by intros ? ? ? ? ? ? ? ? [= <-]]|].
    split; [apply fd_inv_empty|done]. }
  assert (is_ok r = true) by (apply (f_equal (fun p => is_ok (fst p))) in E; vm_compute in E; by symmetry).
  split_and!; [by destruct r as [[]|]| | |done].
  - apply (f_equal (fun p => get_file (w_table unit (snd p)) (7 * 2 ^ 32 + 1))) in E.
    vm_compute in E. by symmetry.
  - apply (f_equal (fun p => length (w_sent unit (snd p)))) in E. vm_compute in E. by symmetry.
Defined.
