(* ===== verification/Namespace.v ===== *)
(** * What the metadata handlers do to a file system

    The handlers of [src/server/src/ops/meta.rs] that change the name space, run to
    the end on the kernel of [Posix] with nobody else about: each is the POSIX call
    of its name on the path the client named, looked up beneath the export root.
    The reference is [plain], the walk of names through directories, and the kernel's
    own operation on the directory found; the handlers reach it through [resolve], an
    anchor on the root, an [openat2], the [*at] call, the optional directory sync and
    the answer. *)

From S2P Require Import Prelude Prog Text Status Frames Os Sanitize WriteLock Handles Confine Reply MetaOps FileServer ExampleCodec Server Posix Jail.

(** ** The environment of one task *)

(** What a task has besides the kernel: its session's handle table, with the
    [path_hash] of its keys, and the frames sent on its stream. *)
Record desk := MkDesk { dk_hash : path -> Z; dk_table : HandleTable; dk_sent : list bytes }.

Definition set_dk_table (t : HandleTable) (s : desk) : desk := MkDesk (dk_hash s) t (dk_sent s).
Definition post (b : bytes) (s : desk) : desk := MkDesk (dk_hash s) (dk_table s) (dk_sent s ++ [b]).

Definition kexec (X : Type) (e : sysE X) (s : posix * desk) : X * (posix * desk) :=
  match e in sysE X return X * (posix * desk) with
  | SendFrame b =>
      if MAX_FRAME_SIZE <? zlen b then (Err (lit "frame too large"), s) else (Ok tt, (fst s, post b (snd s)))
  | TryInsert p flags fd =>
      let '(r, t) := try_insert (dk_hash (snd s)) (dk_table (snd s)) p flags fd (fst (posix_call _ (FileMetadata fd) (fst s))) in
      (match r with Ok id => Some id | Err _ => None end, (fst s, set_dk_table t (snd s)))
  | HandleRemove id => let '(h, t) := ht_remove (dk_table (snd s)) id in (h, (fst s, set_dk_table t (snd s)))
  | GetFile id => (get_file (dk_table (snd s)) id, s)
  | GetWriteCtx id => (get_write_ctx (dk_table (snd s)) id, s)
  | e => let '(x, k) := posix_call _ e (fst s) in (x, (k, snd s))
  end.

(** The same file system: other files may be open. *)
Definition same_fs (k k' : posix) : Prop := exists f, k' = set_fds f k.

#[export] Instance same_fs_equiv : Equivalence same_fs.
Proof.
  split.
  - intros k. exists (k_fds k). by destruct k.
  - intros k k' [f ->]. exists (k_fds k). by destruct k.
  - intros k k' k'' [f ->] [g ->]. by exists g.
Qed.

(** Files stay open. *)
Definition keeps_fds (k k' : posix) : Prop := forall fd o, k_fds k !! fd = Some o -> k_fds k' !! fd = Some o.

Lemma map_reverse {A B} (f : A -> B) (l : list A) : map f (reverse l) = reverse (map f l).
Proof. induction l as [|x l IH]; [done|]. cbn [map]. by rewrite !reverse_cons, map_app, IH. Qed.

(** Open files do not matter to a walk. *)
Lemma namei_fds f k beneath follow links base stack todo :
  namei (set_fds f k) beneath follow links base stack todo = namei k beneath follow links base stack todo.
Proof.
  revert base stack todo. induction links as [|links IHl]; intros base stack todo; revert base stack;
    (induction todo as [|[| | |c] t IH]; intros base stack; cbn [namei]; [done|by destruct beneath| | |]).
  1,4: change (ents_at (set_fds f k)) with (ents_at k); by destruct (ents_at k _).
  1,3: destruct stack; [destruct beneath; [done|apply IH]|done].
  all: change (ents_at (set_fds f k)) with (ents_at k); destruct (ents_at k _) as [e|]; [|done];
    destruct (e !! c) as [i|]; [|done]; change (kind_at (set_fds f k)) with (kind_at k);
    destruct (kind_at k i) as [[|?|target]|]; try done; destruct (match t with [] => follow | _ => true end); try done.
  destruct (bool_decide _); [done|apply IHl].
Qed.

(** Nor to an operation on a directory. *)
Definition with_fds {A} (f : gmap Z ofd) (x : A * posix) : A * posix := (fst x, set_fds f (snd x)).

Lemma set_entry_set_fds f d c j k : set_entry d c j (set_fds f k) = set_fds f (set_entry d c j k).
Proof.
  unfold set_entry. cbn [k_nodes set_fds]. destruct (k_nodes k !! d) as [n|]; [|done]. by destruct (i_kind n).
Qed.

Lemma create_in_fds f c t m k d e : create_in c t m (set_fds f k) d e = with_fds f (create_in c t m k d e).
Proof.
  unfold create_in. destruct (e !! c); [done|]. change (new_ino (set_fds f k)) with (new_ino k).
  change (add_node (new_inode t m) (set_fds f k)) with (set_fds f (add_node (new_inode t m) k)).
  by rewrite set_entry_set_fds.
Qed.

Lemma unlink_in_fds f c dir k d e : unlink_in c dir (set_fds f k) d e = with_fds f (unlink_in c dir k d e).
Proof.
  unfold unlink_in. destruct (e !! c) as [i|]; [|done]. change (kind_at (set_fds f k)) with (kind_at k).
  rewrite set_entry_set_fds. destruct (kind_at k i) as [[e'| |]|], dir; try done. by destruct (bool_decide _).
Qed.

Lemma link_in_fds f i c k d e : link_in i c (set_fds f k) d e = with_fds f (link_in i c k d e).
Proof.
  unfold link_in. destruct (e !! c); [done|]. change (kind_at (set_fds f k)) with (kind_at k).
  rewrite set_entry_set_fds. by destruct (kind_at k i) as [[]|].
Qed.

Lemma below_fds f k fuel i d : below (set_fds f k) fuel i d = below k fuel i d.
Proof.
  revert i. induction fuel as [|fuel IH]; intros i; cbn [below]; [done|].
  destruct (i =? d); [done|]. change (ents_at (set_fds f k)) with (ents_at k). destruct (ents_at k i) as [e|]; [|done].
  induction (map_to_list e) as [|p l IHl]; [done|]. cbn [existsb]. by rewrite IH, IHl.
Qed.

Lemma rename_in_fds f i od oc nc k nd ne :
  rename_in i od oc nc (set_fds f k) nd ne = with_fds f (rename_in i od oc nc k nd ne).
Proof.
  unfold rename_in. change (kind_at (set_fds f k)) with (kind_at k). rewrite !set_entry_set_fds, below_fds.
  change (size (k_nodes (set_fds f k))) with (size (k_nodes k)).
  destruct (match kind_at k i with Some (KDir _) => _ | _ => false end); [done|].
  destruct (ne !! nc) as [j|]; [|done]. destruct (i =? j); [done|].
  destruct (kind_at k i) as [[| |]|], (kind_at k j) as [[| |]|]; try done; by destruct (bool_decide _).
Qed.

(** ** Walks without links *)

(** No symbolic link is met on the walk of [cs] from [d], the last name included. *)
Fixpoint clear (k : posix) (d : Z) (cs : list str) : bool :=
  match cs with
  | [] => true
  | c :: cs =>
      match ents_at k d with
      | Some e => match e !! c with
                  | Some i => match kind_at k i with Some (KLink _) => false | _ => clear k i cs end
                  | None => true
                  end
      | None => true
      end
  end.

(** The walk of names. *)
Fixpoint plain (k : posix) (d : Z) (cs : list str) : io Z :=
  match cs with
  | [] => Ok d
  | c :: cs =>
      match ents_at k d with
      | Some e => match e !! c with Some i => plain k i cs | None => Err (os_error ENOENT) end
      | None => Err (os_error ENOTDIR)
      end
  end.

Lemma clear_fds f k d cs : clear (set_fds f k) d cs = clear k d cs.
Proof.
  revert d. induction cs as [|c cs IH]; intros d; cbn [clear]; [done|]. change (ents_at (set_fds f k)) with (ents_at k).
  destruct (ents_at k d) as [e|]; [|done]. destruct (e !! c) as [i|]; [|done]. change (kind_at (set_fds f k)) with (kind_at k).
  by destruct (kind_at k i) as [[]|].
Qed.

Lemma plain_fds f k d cs : plain (set_fds f k) d cs = plain k d cs.
Proof.
  revert d. induction cs as [|c cs IH]; intros d; cbn [plain]; [done|]. change (ents_at (set_fds f k)) with (ents_at k).
  destruct (ents_at k d) as [e|]; [|done]. by destruct (e !! c) as [i|].
Qed.

Lemma namei_clear_app k beneath follow links base stack cs rest :
  clear k (here base stack) cs = true ->
  match plain k (here base stack) cs with
  | Err e => namei k beneath follow links base stack (map Normal cs ++ rest) = Err e
  | Ok i => exists stack', namei k beneath follow links base stack (map Normal cs ++ rest) =
                           namei k beneath follow links base stack' rest /\
              here base stack' = i /\ map fst stack' = reverse cs ++ map fst stack
  end.
Proof.
  revert stack. induction cs as [|c cs IH]; intros stack; [intros _; by exists stack|].
  cbn [clear plain map app]. destruct links; cbn [namei].
  all: destruct (ents_at k (here base stack)) as [e|]; [|done].
  all: destruct (e !! c) as [i|]; [|done].
  all: destruct (kind_at k i) as [[|?|t]|]; try done; intros Hc; specialize (IH ((c, i) :: stack) Hc); cbn [here] in IH.
  all: destruct (plain k i cs) as [j|e']; [|exact IH].
  all: destruct IH as (st & Hn & Hh & Hs); exists st; split; [exact Hn|]; split; [done|].
  all: by rewrite Hs, reverse_cons, <- app_assoc.
Qed.

Lemma namei_clear k beneath follow links base stack cs :
  clear k (here base stack) cs = true ->
  match plain k (here base stack) cs with
  | Err e => namei k beneath follow links base stack (map Normal cs) = Err e
  | Ok i => exists stack', namei k beneath follow links base stack (map Normal cs) = Ok (base, stack') /\
              here base stack' = i /\ map fst stack' = reverse cs ++ map fst stack
  end.
Proof.
  intros Hc. pose proof (namei_clear_app k beneath follow links base stack cs [] Hc) as H. rewrite app_nil_r in H.
  destruct (plain _ _ _); [|done]. destruct H as (st & H & ?). exists st. split; [|done]. rewrite H. by destruct links.
Qed.

Lemma clear_app k d cs ds i :
  clear k d cs = true -> plain k d cs = Ok i -> clear k d (cs ++ ds) = clear k i ds.
Proof.
  revert d. induction cs as [|c cs IH]; intros d; cbn [clear plain app]; [by intros _ [= ->]|].
  destruct (ents_at k d) as [e|]; [|done]. destruct (e !! c) as [j|]; [|done].
  destruct (kind_at k j) as [[|?|t]|]; try done; apply IH.
Qed.

Lemma clear_app_err k d cs ds e : clear k d cs = true -> plain k d cs = Err e -> clear k d (cs ++ ds) = true.
Proof.
  revert d. induction cs as [|c cs IH]; intros d; cbn [clear plain app]; [done|].
  destruct (ents_at k d) as [e0|]; [|done]. destruct (e0 !! c) as [j|]; [|done].
  destruct (kind_at k j) as [[|?|t]|]; try done; apply IH.
Qed.

Lemma plain_app k d cs ds :
  plain k d (cs ++ ds) = match plain k d cs with Ok i => plain k i ds | Err e => Err e end.
Proof.
  revert d. induction cs as [|c cs IH]; intros d; cbn [plain app]; [done|].
  destruct (ents_at k d) as [e|]; [|done]. by destruct (e !! c) as [j|].
Qed.

Lemma clear_prefix k d cs ds : clear k d (cs ++ ds) = true -> clear k d cs = true.
Proof.
  revert d. induction cs as [|c cs IH]; intros d; cbn [clear app]; [done|].
  destruct (ents_at k d) as [e|]; [|done]. destruct (e !! c) as [j|]; [|done].
  destruct (kind_at k j) as [[|?|t]|]; try done; apply IH.
Qed.

(** ** The export root *)

(** The names [rs] lead from [/] to the directory [r]. *)
Definition exported (k : posix) (rs : list str) (r : Z) : Prop :=
  clear k (k_slash k) rs = true /\ plain k (k_slash k) rs = Ok r /\ is_Some (ents_at k r).

(** The modes of a file system are permission bits. *)
Definition modes_ok (k : posix) : Prop := forall i n, k_nodes k !! i = Some n -> 0 <= i_mode n < 0x1000.

Section Root.
Context (rs : list str) (r : Z).
Abbreviation root := (RootDir :: map Normal rs).

(** A path of the process beneath the root. *)
Lemma locate_clear k follow cs :
  exported k rs r -> clear k r cs = true ->
  match plain k r cs with
  | Err e => locate k follow (root ++ map Normal cs) = Err e
  | Ok i => exists stack, locate k follow (root ++ map Normal cs) = Ok (k_slash k, stack) /\
              here (k_slash k) stack = i /\ map fst (reverse stack) = rs ++ cs
  end.
Proof.
  intros (Hc & Hp & _) Hcs. unfold locate. rewrite <- app_comm_cons, <- map_app.
  pose proof (namei_clear k false follow MAXSYMLINKS (k_slash k) [] (rs ++ cs)) as H. simpl here in H.
  rewrite (clear_app k _ rs cs r Hc Hp), plain_app, Hp in H. specialize (H Hcs).
  change (namei k false follow MAXSYMLINKS (k_slash k) [] (RootDir :: map Normal (rs ++ cs)))
    with (namei k false follow MAXSYMLINKS (k_slash k) [] (map Normal (rs ++ cs))).
  destruct (plain k r cs) as [i|e]; [|exact H]. destruct H as (st & Hn & Hh & Hs). exists st. split_and!; [done|done|].
  rewrite map_reverse, Hs. simpl. by rewrite app_nil_r, reverse_involutive.
Qed.

Lemma plain_found k cs i : clear k r cs = true -> plain k r cs = Ok i -> cs <> [] -> forall t, kind_at k i <> Some (KLink t).
Proof.
  intros Hc Hp Hne t Hk. destruct cs as [|c ds _] using rev_ind; [done|].
  rewrite plain_app in Hp. destruct (plain k r ds) as [d|] eqn:Ed; [|done].
  rewrite (clear_app k r ds [c] d (clear_prefix _ _ _ _ Hc) Ed) in Hc. cbn [clear plain] in *.
  destruct (ents_at k d) as [e|]; [|done]. destruct (e !! c) as [j|]; [|done]. injection Hp as ->. by rewrite Hk in Hc.
Qed.

Lemma mode_bits m : 0 <= m < 0x1000 -> Z.land m 0xF000 = 0.
Proof.
  intros Hm. apply Z.bits_inj'. intros b Hb. rewrite Z.land_spec, Z.bits_0. destruct (decide (b < 12)) as [Hlt|Hge].
  - assert (Z.testbit 0xF000 b = false) as ->; [|by rewrite andb_false_r].
    change 0xF000 with (Z.shiftl 15 12). rewrite Z.shiftl_spec by lia. by apply Z.testbit_neg_r; lia.
  - destruct (decide (m = 0)) as [->|Hz]; [by rewrite Z.bits_0|]. rewrite Z.bits_above_log2; [done|lia|].
    apply Z.log2_lt_pow2; [lia|]. apply Z.lt_le_trans with (2 ^ 12); [lia|]. apply Z.pow_le_mono_r; lia.
Qed.

Lemma is_symlink_kind k i n :
  modes_ok k -> k_nodes k !! i = Some n ->
  is_symlink (metadata_of k i n) = match i_kind n with KLink _ => true | _ => false end.
Proof.
  intros Hm Hn. unfold is_symlink, metadata_of. cbn [m_mode]. rewrite Z.land_lor_distr_l, (mode_bits (i_mode n)) by (by eapply Hm).
  by destruct (i_kind n).
Qed.

(** A link before the last name. *)
Fixpoint link_mid (k : posix) (d : Z) (cs : list str) : bool :=
  match cs with
  | [] | [_] => false
  | c :: cs =>
      match ents_at k d with
      | Some e => match e !! c with
                  | Some i => match kind_at k i with Some (KLink _) => true | _ => link_mid k i cs end
                  | None => false
                  end
      | None => false
      end
  end.

(** A name in a directory, itself not followed. *)
Lemma locate_last k ds c d e i :
  exported k rs r -> clear k r ds = true -> plain k r ds = Ok d -> ents_at k d = Some e -> e !! c = Some i ->
  locate_ino k false (root ++ map Normal (ds ++ [c])) = Ok i.
Proof.
  intros (Hc & Hp & _) Hcs Hd He Hi. unfold locate_ino, locate. rewrite <- app_comm_cons, <- map_app, app_assoc, map_app.
  pose proof (namei_clear_app k false false MAXSYMLINKS (k_slash k) [] (rs ++ ds) [Normal c]) as H. simpl here in H.
  rewrite (clear_app k _ rs ds r Hc Hp), plain_app, Hp, Hd in H. destruct (H Hcs) as (st & Hn & Hh & _).
  change (namei k false false MAXSYMLINKS (k_slash k) [] (RootDir :: map Normal (rs ++ ds) ++ map Normal [c]))
    with (namei k false false MAXSYMLINKS (k_slash k) [] (map Normal (rs ++ ds) ++ [Normal c])).
  rewrite Hn. cbn [namei MAXSYMLINKS]. rewrite Hh, He, Hi. by destruct (kind_at k i) as [[]|].
Qed.

(** The walk of [resolve] refuses exactly a link before the last name. *)
Lemma ns_walk_run k s ds cs :
  exported k rs r -> modes_ok k -> clear k r ds = true ->
  (forall d, plain k r ds = Ok d -> link_mid k d cs = false) ->
  run kexec (walk (root ++ map Normal ds) cs) (k, s) = (Ok (root ++ map Normal (ds ++ cs)), (k, s)).
Proof.
  intros Hex Hm. revert ds. induction cs as [|c cs IH]; intros ds Hc Hl; [by rewrite app_nil_r|].
  assert (push (root ++ map Normal ds) c = root ++ map Normal (ds ++ [c])) as Hpush.
  { unfold push. by rewrite map_app, <- app_assoc. }
  destruct cs as [|c' cs]; [cbn [walk]; by rewrite Hpush|]. cbn [walk]. rewrite Hpush, run_bind, run_call.
  cbn [kexec fst snd posix_call]. replace (ds ++ c :: c' :: cs) with ((ds ++ [c]) ++ c' :: cs) by (by rewrite <- app_assoc).
  assert (clear k r (ds ++ [c]) = true /\ forall d, plain k r (ds ++ [c]) = Ok d -> link_mid k d (c' :: cs) = false) as [Hc' Hl'].
  { rewrite plain_app. destruct (plain k r ds) as [d|e] eqn:Ed.
    - specialize (Hl d eq_refl). rewrite (clear_app k r ds [c] d Hc Ed). cbn [clear plain link_mid] in *.
      destruct (ents_at k d) as [e|]; [|done]. destruct (e !! c) as [i|]; [|done].
      destruct (kind_at k i) as [[| |]|]; try done; (split; [done|]); by intros ? [= <-].
    - split; [|done]. by eapply clear_app_err. }
  specialize (IH (ds ++ [c]) Hc' Hl'). unfold locate_ino. pose proof (locate_clear k false (ds ++ [c]) Hex Hc') as Hw.
  destruct (plain k r (ds ++ [c])) as [i|e] eqn:Ep; [|rewrite Hw; exact IH].
  destruct Hw as (st & -> & Hh & _). cbn [res_map res_bind fst snd]. rewrite Hh. unfold stat_ino.
  destruct (k_nodes k !! i) as [n|] eqn:En; [|exact IH]. cbn [res_bind]. rewrite is_symlink_kind by done.
  pose proof (plain_found k (ds ++ [c]) i Hc' Ep ltac:(by destruct ds)) as Hk. unfold kind_at in Hk. rewrite En in Hk. cbn in Hk.
  destruct (i_kind n) as [| |t]; [exact IH|exact IH|by destruct (Hk t)].
Qed.

Lemma walk_link_mid k s ds cs d :
  exported k rs r -> modes_ok k -> clear k r ds = true -> plain k r ds = Ok d -> link_mid k d cs = true ->
  run kexec (walk (root ++ map Normal ds) cs) (k, s) = (Err PathEscapes, (k, s)).
Proof.
  intros Hex Hm. revert ds d. induction cs as [|c cs IH]; intros ds d Hc Hd; [done|].
  destruct cs as [|c' cs]; [done|]. cbn [link_mid]. destruct (ents_at k d) as [e|] eqn:Ee; [|done].
  destruct (e !! c) as [i|] eqn:Ei; [|done]. intros Hl. cbn [walk]. rewrite run_bind, run_call. cbn [kexec fst snd posix_call].
  assert (push (root ++ map Normal ds) c = root ++ map Normal (ds ++ [c])) as ->.
  { unfold push. by rewrite map_app, <- app_assoc. }
  rewrite (locate_last k ds c d e i) by done. cbn [res_bind]. unfold stat_ino.
  assert (clear k r (ds ++ [c]) = match kind_at k i with Some (KLink _) => false | _ => true end) as Hc'.
  { rewrite (clear_app k r ds [c] d) by done. cbn [clear]. by rewrite Ee, Ei. }
  assert (plain k r (ds ++ [c]) = Ok i) as Hp' by (by rewrite plain_app, Hd; cbn [plain]; rewrite Ee, Ei).
  destruct (k_nodes k !! i) as [n|] eqn:En; unfold kind_at in *; rewrite En in *; cbn in Hl, Hc'.
  - rewrite is_symlink_kind by done. destruct (i_kind n); [by eapply IH|by eapply IH|done].
  - by eapply IH.
Qed.

(** Whether the path, its last link followed, is absent or beneath the root. *)
Definition stays (k : posix) (cs : list str) : bool :=
  match locate k true (root ++ map Normal cs) with
  | Ok (_, stack) => path_starts_with (RootDir :: map Normal (map fst (reverse stack))) root
  | Err _ => true
  end.

(** What [resolve] answers: the names beneath the root, or a refusal. *)
Definition ref_resolve (k : posix) (cp : str) : result resolve_err (list str) :=
  match normalize cp with
  | Err e => Err e
  | Ok cs => if link_mid k r cs then Err PathEscapes else if stays k cs then Ok cs else Err PathEscapes
  end.

Lemma ns_resolve_run k s cp :
  exported k rs r -> modes_ok k ->
  run kexec (resolve root cp) (k, s) = (res_map (fun cs => root ++ map Normal cs) (ref_resolve k cp), (k, s)).
Proof.
  intros Hex Hm. unfold resolve, ref_resolve. destruct (normalize cp) as [cs|e]; [|done]. rewrite run_bindr.
  destruct (link_mid k r cs) eqn:El.
  { pose proof (walk_link_mid k s [] cs r Hex Hm eq_refl eq_refl El) as H. rewrite app_nil_r in H. by rewrite H. }
  pose proof (ns_walk_run k s [] cs Hex Hm eq_refl ltac:(by intros d [= <-])) as H. rewrite app_nil_r in H. change ([] ++ cs) with cs in H. rewrite H.
  rewrite run_bind, run_call. cbn [kexec fst snd posix_call]. unfold locate_ino, stays.
  destruct (locate k true (root ++ map Normal cs)) as [[b st]|e] eqn:Ew; cbn [res_map is_ok]; [|done].
  rewrite run_bind, run_call. cbn [kexec fst snd posix_call]. rewrite Ew. cbn [res_map fst snd].
  rewrite run_bind, run_call. cbn [kexec fst snd posix_call].
  pose proof (locate_clear k true [] Hex eq_refl) as Hr. cbn [plain] in Hr. destruct Hr as (st' & Hr & _ & Hst').
  rewrite app_nil_r in Hr, Hst'. rewrite Hr. cbn [res_map fst snd]. rewrite Hst'.
  by destruct (path_starts_with _ _).
Qed.

(** A path without links stays. *)
Lemma clear_stays k cs : exported k rs r -> clear k r cs = true -> stays k cs = true.
Proof.
  intros Hex Hc. unfold stays. pose proof (locate_clear k true cs Hex Hc) as Hl.
  destruct (plain k r cs) as [i|e]; [|by rewrite Hl]. destruct Hl as (st & -> & _ & ->). unfold path_starts_with.
  by rewrite map_app, app_comm_cons, strip_prefix_app.
Qed.

(** The directory of a path [resolve] lets through is reached without links. *)
Lemma link_mid_clear k d cs c : link_mid k d (cs ++ [c]) = false -> clear k d cs = true.
Proof.
  revert d. induction cs as [|c0 cs IH]; intros d; [done|].
  assert (exists c1 l, cs ++ [c] = c1 :: l) as (c1 & l & E) by (destruct cs; simpl; eauto).
  cbn [app clear]. rewrite E in IH |- *. cbn [link_mid].
  destruct (ents_at k d) as [e|]; [|done]. destruct (e !! c0) as [i|]; [|done].
  destruct (kind_at k i) as [[| |]|]; try done; apply IH.
Qed.

(** ** The directory of an entry *)

(** The directory [cs] names. *)
Definition dir_at (k : posix) (cs : list str) : io Z :=
  match plain k r cs with
  | Err e => Err e
  | Ok d => match kind_at k d with
            | Some (KDir _) => Ok d
            | Some _ => Err (os_error ENOTDIR)
            | None => Err (os_error ENOENT)
            end
  end.

Definition dir_flags : Z := Z.lor O_PATH O_DIRECTORY.

Lemma open_ino_dir i k :
  (forall t, kind_at k i <> Some (KLink t)) ->
  open_ino i anchor_flags k =
  match kind_at k i with
  | Some (KDir _) => (Ok (new_fd k), put_fd (new_fd k) (MkOfd i 0 false true 0) k)
  | Some _ => fail ENOTDIR k
  | None => fail ENOENT k
  end.
Proof. intros Hk. unfold open_ino. destruct (kind_at k i) as [[| |t]|]; [done|done|by destruct (Hk t)|done]. Qed.

Lemma root_not_link k t : exported k rs r -> kind_at k r <> Some (KLink t).
Proof. intros (_ & _ & [e He]). unfold ents_at in He. by destruct (kind_at k r) as [[]|]. Qed.

Lemma clear_not_link k cs i t : exported k rs r -> clear k r cs = true -> plain k r cs = Ok i -> kind_at k i <> Some (KLink t).
Proof.
  intros Hex Hc Hp. destruct cs as [|c cs]; [injection Hp as <-; by apply root_not_link|]. by eapply plain_found.
Qed.

(** The anchor. *)
Lemma open_anchor k :
  exported k rs r ->
  posix_call _ (Open root anchor_flags 0) k = (Ok (new_fd k), put_fd (new_fd k) (MkOfd r 0 false true 0) k).
Proof.
  intros Hex. cbn [posix_call]. unfold do_open. change (has_bits anchor_flags O_CREAT) with false.
  change (negb (has_bits anchor_flags O_NOFOLLOW)) with true. cbv iota.
  pose proof (locate_clear k true [] Hex eq_refl) as Hl. cbn [plain] in Hl. destruct Hl as (st & Hl & Hh & _).
  rewrite app_nil_r in Hl. unfold locate in Hl. rewrite Hl, Hh, open_ino_dir by (intros t; by apply root_not_link).
  destruct Hex as (_ & _ & [e He]). unfold ents_at in He. by destruct (kind_at k r) as [[]|].
Qed.

(** What [openat2] is asked to walk. *)
Definition rel_of (cs : list str) : path := match cs with [] => [CurDir] | _ => map Normal cs end.

Lemma namei_rel k follow cs :
  exported k rs r -> clear k r cs = true ->
  match plain k r cs with
  | Err e => namei k true follow MAXSYMLINKS r [] (rel_of cs) = Err e
  | Ok i => exists stack, namei k true follow MAXSYMLINKS r [] (rel_of cs) = Ok (r, stack) /\ here r stack = i
  end.
Proof.
  intros (_ & _ & [e He]) Hc. destruct cs as [|c cs].
  - exists []. cbn. by rewrite He.
  - pose proof (namei_clear k true follow MAXSYMLINKS r [] (c :: cs) Hc) as H. simpl here in H. unfold rel_of.
    destruct (plain k r (c :: cs)); [|done]. destruct H as (st & ? & ? & _). by exists st.
Qed.

Lemma plain_implemented k d cs : implemented (plain k d cs).
Proof.
  revert d. induction cs as [|c cs IH]; intros d; cbn [plain]; [done|].
  destruct (ents_at k d) as [e|]; [|done]. by destruct (e !! c).
Qed.

(** A confined directory: its descriptor, or why not. *)
Definition dir_opened (k : posix) (s : desk) (d : io Z) (out : io Z * (posix * desk)) : Prop :=
  exists f, keeps_fds k (set_fds f k) /\
    match d with
    | Ok d => exists fd, out = (Ok fd, (set_fds f k, s)) /\ f !! fd = Some (MkOfd d 0 false true 0)
    | Err e => out = (Err e, (set_fds f k, s))
    end.

Lemma openat2_dir k cs s :
  exported k rs r -> clear k r cs = true -> path_no_nul root = true -> path_no_nul (rel_of cs) = true ->
  dir_opened k s (dir_at k cs) (run kexec (openat2_beneath root (root ++ map Normal cs) dir_flags 0) (k, s)) /\
  implemented (fst (run kexec (openat2_beneath root (root ++ map Normal cs) dir_flags 0) (k, s))).
Proof.
  intros Hex Hc Hn1 Hn2. unfold openat2_beneath. rewrite strip_prefix_app.
  replace (match map Normal cs with [] => [CurDir] | _ => map Normal cs end) with (rel_of cs) by (by destruct cs).
  rewrite Hn1, Hn2. cbn [negb]. rewrite run_bindr, run_call. cbn [kexec fst snd].
  change (Z.lor (Z.lor O_PATH O_DIRECTORY) O_CLOEXEC) with anchor_flags. rewrite (open_anchor k Hex).
  change (Z.lor dir_flags O_CLOEXEC) with anchor_flags. change (has_bits dir_flags O_CREAT) with false.
  set (k1 := put_fd (new_fd k) (MkOfd r 0 false true 0) k). assert (keeps_fds k k1) as Hk1.
  { intros fd o Hfd. subst k1. simpl. rewrite lookup_insert_ne; [done|]. intros <-. by rewrite new_fd_fresh in Hfd. }
  rewrite run_bind, run_call. cbn [kexec fst snd posix_call]. subst k1. cbn [k_fds put_fd set_fds]. rewrite lookup_insert_eq.
  change (has_bits (Z.lor RESOLVE_BENEATH RESOLVE_NO_MAGICLINKS) RESOLVE_BENEATH) with true. cbv iota.
  unfold do_open. change (has_bits anchor_flags O_CREAT) with false. change (negb (has_bits anchor_flags O_NOFOLLOW)) with true.
  cbv iota. cbn [fd_ino]. set (k1 := put_fd (new_fd k) (MkOfd r 0 false true 0) k) in *.
  assert (namei k1 true true MAXSYMLINKS r [] (rel_of cs) = namei k true true MAXSYMLINKS r [] (rel_of cs)) as ->
    by apply namei_fds.
  pose proof (namei_rel k true cs Hex Hc) as Hw. unfold dir_at. pose proof (plain_implemented k r cs) as Himp.
  destruct (plain k r cs) as [i|e] eqn:Ep.
  - destruct Hw as (st & -> & Hh). rewrite Hh. assert (forall t, kind_at k1 i <> Some (KLink t)) as Hnl.
    { intros t. change (kind_at k1 i) with (kind_at k i). by eapply clear_not_link. }
    rewrite (open_ino_dir i k1 Hnl). change (kind_at k1 i) with (kind_at k i).
    destruct (kind_at k i) as [[e|data|t]|] eqn:Ek; cbn.
    + split; [|done]. set (f := <[new_fd k1 := MkOfd i 0 false true 0]> (k_fds k1)). exists f. split.
      * intros fd o Hfd. subst f. simpl. rewrite lookup_insert_ne; [by apply Hk1|]. intros E.
        pose proof (Hk1 fd o Hfd) as H1. rewrite <- E in H1. by rewrite new_fd_fresh in H1.
      * exists (new_fd k1). split; [done|]. apply lookup_insert_eq.
    + split; [|done]. by exists (k_fds k1).
    + by destruct (Hnl t).
    + split; [|done]. by exists (k_fds k1).
  - rewrite Hw. cbn. split; [|done]. by exists (k_fds k1).
Qed.

Lemma open_confined_dir k cs s :
  exported k rs r -> clear k r cs = true -> path_no_nul root = true -> path_no_nul (rel_of cs) = true ->
  dir_opened k s (dir_at k cs) (run kexec (open_confined root (root ++ map Normal cs) dir_flags 0) (k, s)).
Proof.
  intros Hex Hc Hn1 Hn2. destruct (openat2_dir k cs s Hex Hc Hn1 Hn2) as [Hd Himp]. unfold open_confined. rewrite run_bind.
  destruct (run kexec (openat2_beneath _ _ _ _) (k, s)) as [[fd|e] w]; [done|]. cbn [fst] in Himp.
  rewrite bool_decide_false by (by intros E; apply Himp). done.
Qed.

(** [confined_parent] finds the directory of an entry. *)
Lemma confined_parent_run k cs c s :
  exported k rs r -> clear k r cs = true -> path_no_nul root = true -> path_no_nul (rel_of cs) = true -> no_nul c = true ->
  exists f, keeps_fds k (set_fds f k) /\
    match dir_at k cs with
    | Ok d => exists fd, run kexec (confined_parent root (root ++ map Normal (cs ++ [c]))) (k, s) = (Ok (fd, c), (set_fds f k, s)) /\
                f !! fd = Some (MkOfd d 0 false true 0)
    | Err e => run kexec (confined_parent root (root ++ map Normal (cs ++ [c]))) (k, s) = (Err e, (set_fds f k, s))
    end.
Proof.
  intros Hex Hc Hn1 Hn2 Hn3. unfold confined_parent. rewrite map_app, app_assoc. cbn [map].
  rewrite parent_snoc, file_name_snoc, Hn3. cbn [negb]. rewrite run_bindr.
  destruct (open_confined_dir k cs s Hex Hc Hn1 Hn2) as (f & Hf & Hd). exists f. split; [done|].
  destruct (dir_at k cs) as [d|e].
  - destruct Hd as (fd & E & Hfd). exists fd. unfold dir_flags in E. by rewrite E.
  - unfold dir_flags in Hd. by rewrite Hd.
Qed.

(** ** The reference operations *)

(** An operation on the entries of the directory [cs] names. *)
Definition in_dir {A : Type} (k : posix) (cs : list str) (body : Z -> gmap (list Z) Z -> io A * posix) : io A * posix :=
  match dir_at k cs with
  | Err e => (Err e, k)
  | Ok d => match ents_at k d with Some e => body d e | None => fail ENOTDIR k end
  end.

Definition ref_mkdir (cs : list str) (c : str) (mode : Z) (k : posix) : io unit * posix :=
  in_dir k cs (create_in c (KDir ∅) mode k).
Definition ref_remove (cs : list str) (c : str) (dir : bool) (k : posix) : io unit * posix :=
  in_dir k cs (unlink_in c dir k).
Definition ref_symlink (cs : list str) (c : str) (target : str) (k : posix) : io unit * posix :=
  in_dir k cs (create_in c (KLink target) 0x1ff k).
Definition ref_link (scs : list str) (sc : str) (dcs : list str) (dc : str) (k : posix) : io unit * posix :=
  in_dir k scs (fun _ se =>
    in_dir k dcs (fun d de => match se !! sc with None => fail ENOENT k | Some i => link_in i dc k d de end)).
Definition ref_rename (ocs : list str) (oc : str) (ncs : list str) (nc : str) (k : posix) : io unit * posix :=
  in_dir k ocs (fun od oe =>
    in_dir k ncs (fun d de => match oe !! oc with None => fail ENOENT k | Some i => rename_in i od oc nc k d de end)).
Definition ref_readlink (cs : list str) (c : str) (k : posix) : io str * posix :=
  in_dir k cs (fun _ e =>
    match e !! c with
    | None => fail ENOENT k
    | Some i => match kind_at k i with Some (KLink t) => (Ok t, k) | _ => fail EINVAL k end
    end).

Lemma dir_at_ents k cs d : dir_at k cs = Ok d -> exists e, ents_at k d = Some e.
Proof.
  unfold dir_at. destruct (plain k r cs) as [i|]; [|done]. destruct (kind_at k i) as [[e| |]|] eqn:E; try done.
  intros [= <-]. exists e. unfold ents_at. by rewrite E.
Qed.

Lemma at_dir_ofd {A : Type} (k : posix) (f : gmap Z ofd) (fd : Z) (o : ofd) (e : gmap (list Z) Z) (body : Z -> gmap (list Z) Z -> io A * posix) :
  f !! fd = Some o -> ents_at k (fd_ino o) = Some e -> at_dir (set_fds f k) fd body = body (fd_ino o) e.
Proof.
  intros Hf He. unfold at_dir, fd_dir. cbn [k_fds set_fds]. rewrite Hf.
  change (ents_at (set_fds f k)) with (ents_at k). by rewrite He.
Qed.

(** The outcome of a reference operation, with other files open. *)
Definition does {A : Type} (ref : io A * posix) (s : desk) (out : io A * (posix * desk)) : Prop :=
  exists f, out = (fst ref, (set_fds f (snd ref), s)).

Lemma run_with_file {A : Type} fd (body : sys A) k s :
  run kexec (with_file fd body) (k, s) = run kexec body (k, s).
Proof.
  unfold with_file. rewrite run_bind. destruct (run kexec body (k, s)) as [a [k' s']]. done.
Qed.

Section Ops.
Context (k : posix) (s : desk).
Hypothesis Hex : exported k rs r.
Hypothesis Hroot : path_no_nul root = true.

(** A name below a directory, none of which is a link. *)
Record entry_path (cs : list str) (c : str) : Prop := {
  ep_clear : clear k r cs = true;
  ep_nul : path_no_nul (rel_of cs) = true;
  ep_name : no_nul c = true
}.

(** An operation in one directory. *)
Lemma one_dir_run {A : Type} (mk : Z -> str -> sys (io A)) (cs : list str) (c : str) (ref : Z -> gmap (list Z) Z -> io A * posix) :
  entry_path cs c ->
  (forall f fd d e, f !! fd = Some (MkOfd d 0 false true 0) -> ents_at k d = Some e ->
     does (ref d e) s (run kexec (mk fd c) (set_fds f k, s))) ->
  does (in_dir k cs ref) s
    (run kexec (dn <-? confined_parent root (root ++ map Normal (cs ++ [c])) ;; with_file dn.1 (mk dn.1 dn.2)) (k, s)).
Proof.
  intros [H1 H2 H3] Hmk. rewrite run_bindr. unfold in_dir.
  destruct (confined_parent_run k cs c s Hex H1 Hroot H2 H3) as (f & _ & Hp). pose proof (dir_at_ents k cs) as Hd.
  destruct (dir_at k cs) as [d|e]; [|rewrite Hp; by exists f]. destruct Hp as (fd & -> & Hfd).
  destruct (Hd d eq_refl) as (e & He). rewrite He. cbv beta iota. cbn [fst snd]. rewrite run_with_file. by apply Hmk.
Qed.

End Ops.

Lemma exported_fds f k : exported k rs r -> exported (set_fds f k) rs r.
Proof. unfold exported. by rewrite clear_fds, plain_fds. Qed.

Lemma dir_at_fds f k cs : dir_at (set_fds f k) cs = dir_at k cs.
Proof. unfold dir_at. by rewrite plain_fds. Qed.

Lemma entry_path_fds f k cs c : entry_path k cs c -> entry_path (set_fds f k) cs c.
Proof. intros [H1 H2 H3]. split; [by rewrite clear_fds|done|done]. Qed.

(** ** The confined operations are the reference *)

Lemma set_entry_dir k d c j n e :
  k_nodes k !! d = Some n -> i_kind n = KDir e ->
  set_entry d c j k = put_node d (set_kind (KDir (partial_alter (fun _ => j) c e)) n) k.
Proof. intros Hn Hk. unfold set_entry. by rewrite Hn, Hk. Qed.

(** A new entry, its mode set afterwards. *)
Lemma chmod_new_entry k d c e m m' f fd :
  ents_at k d = Some e -> f !! fd = Some (MkOfd d 0 false true 0) ->
  do_fchmodat fd c m (set_fds f (set_entry d c (Some (new_ino k)) (add_node (new_inode (KDir ∅) m') k))) =
  (Ok tt, set_fds f (set_entry d c (Some (new_ino k)) (add_node (new_inode (KDir ∅) m) k))).
Proof.
  intros He Hf. destruct (ents_at_node k d e He) as (n & Hn & Hk). pose proof (new_ino_fresh k) as Hfresh.
  assert (new_ino k <> d) as Hne by (intros <-; apply Hfresh, elem_of_dom; eauto).
  assert (forall x, k_nodes (add_node x k) !! d = Some n) as Hd.
  { intros x. unfold add_node, put_node. simpl. by rewrite lookup_insert_ne. }
  rewrite !(set_entry_dir _ d c (Some (new_ino k)) n e (Hd _) Hk).
  unfold do_fchmodat. cbn [k_fds set_fds]. rewrite Hf. cbn [fd_ino]. rewrite namei_fds.
  change (namei ?k false true MAXSYMLINKS d [] [Normal c]) with (namei k false true (S (pred MAXSYMLINKS)) d [] [Normal c]).
  cbn [namei here]. rewrite ents_at_put, decide_True by done. cbn [i_kind set_kind]. rewrite lookup_partial_alter_eq.
  unfold kind_at. cbn [k_nodes put_node set_nodes add_node]. rewrite lookup_insert_ne, lookup_insert_eq by done.
  cbn [fmap option_fmap option_map i_kind new_inode here]. cbn [k_nodes set_fds put_node set_nodes add_node].
  rewrite lookup_insert_ne, lookup_insert_eq by done. f_equal. unfold put_node, set_nodes, set_fds, add_node. simpl. f_equal.
  rewrite (insert_insert_ne _ (new_ino k) d) by done. by rewrite insert_insert_eq.
Qed.

Section Ops2.
Context (k : posix) (s : desk).
Hypothesis Hex : exported k rs r.
Hypothesis Hroot : path_no_nul root = true.
Abbreviation path_of cs c := (root ++ map Normal (cs ++ [c])).

Lemma remove_confined_run cs c dir :
  entry_path k cs c -> does (ref_remove cs c dir k) s (run kexec (remove_confined root (path_of cs c) dir) (k, s)).
Proof.
  intros Hp. apply (one_dir_run k s Hex Hroot (fun fd c => sc (Unlinkat fd c (if dir then AT_REMOVEDIR else 0))) cs c); [done|].
  intros f fd d e Hf He. rewrite run_call. cbn [kexec fst snd posix_call]. unfold do_unlink.
  rewrite (at_dir_ofd k f fd _ e _ Hf He), unlink_in_fds.
  replace (has_bits (if dir then AT_REMOVEDIR else 0) AT_REMOVEDIR) with dir by (by destruct dir). by exists f.
Qed.

Lemma readlink_confined_run cs c :
  entry_path k cs c -> does (ref_readlink cs c k) s (run kexec (readlink_confined root (path_of cs c)) (k, s)).
Proof.
  intros Hp. apply (one_dir_run k s Hex Hroot (fun fd c => sc (Readlinkat fd c MAX_PATH_LEN)) cs c); [done|].
  intros f fd d e Hf He. rewrite run_call. cbn [kexec fst snd posix_call]. unfold do_readlink.
  rewrite (at_dir_ofd k f fd _ e _ Hf He). change (kind_at (set_fds f k)) with (kind_at k). exists f.
  destruct (e !! c) as [i|]; [|done]. by destruct (kind_at k i) as [[]|].
Qed.

Lemma symlink_confined_run cs c target :
  entry_path k cs c -> no_nul target = true ->
  does (ref_symlink cs c target k) s (run kexec (symlink_confined root (path_of cs c) target) (k, s)).
Proof.
  intros Hp Ht. unfold symlink_confined. rewrite Ht.
  apply (one_dir_run k s Hex Hroot (fun fd c => sc (Symlinkat target fd c)) cs c); [done|].
  intros f fd d e Hf He. rewrite run_call. cbn [kexec fst snd posix_call]. unfold create_entry.
  rewrite (at_dir_ofd k f fd _ e _ Hf He), create_in_fds. by exists f.
Qed.

(** The mode is what was asked for, whatever the server's umask. *)
Lemma mkdir_confined_run cs c mode :
  entry_path k cs c ->
  does (ref_mkdir cs c (Z.land mode perm_mask) k) s (run kexec (mkdir_confined root (path_of cs c) mode) (k, s)).
Proof.
  intros Hp. set (m := Z.land mode perm_mask).
  apply (one_dir_run k s Hex Hroot (fun fd c => _ <-? sc (Mkdirat fd c m) ;; sc (Fchmodat fd c m)) cs c); [done|].
  intros f fd d e Hf He. rewrite run_bindr, run_call. cbn [kexec fst snd posix_call]. unfold create_entry.
  rewrite (at_dir_ofd k f fd _ e _ Hf He), create_in_fds. unfold create_in.
  destruct (e !! c) as [i|] eqn:Ec; [by exists f|]. cbn [with_fds fst snd]. rewrite run_call. cbn [kexec fst snd posix_call].
  change (new_ino (set_fds f k)) with (new_ino k). rewrite (chmod_new_entry k d c e) by done. by exists f.
Qed.

(** Operations on two entries. *)
Lemma two_dir_run (mk : Z -> str -> Z -> str -> sys (io unit)) (cs : list str) (c : str) (cs' : list str) (c' : str)
    (ref : Z -> gmap (list Z) Z -> Z -> gmap (list Z) Z -> io unit * posix) :
  entry_path k cs c -> entry_path k cs' c' ->
  (forall f fd fd' d e d' e', f !! fd = Some (MkOfd d 0 false true 0) -> ents_at k d = Some e ->
     f !! fd' = Some (MkOfd d' 0 false true 0) -> ents_at k d' = Some e' ->
     does (ref d e d' e') s (run kexec (mk fd c fd' c') (set_fds f k, s))) ->
  does (in_dir k cs (fun d e => in_dir k cs' (ref d e))) s
    (run kexec (dn <-? confined_parent root (path_of cs c) ;;
                with_file dn.1 (dn' <-? confined_parent root (path_of cs' c') ;;
                                with_file dn'.1 (mk dn.1 dn.2 dn'.1 dn'.2))) (k, s)).
Proof.
  intros Hp [H1 H2 H3] Hmk.
  apply (one_dir_run k s Hex Hroot (fun fd c => dn' <-? confined_parent root (path_of cs' c') ;;
                                with_file dn'.1 (mk fd c dn'.1 dn'.2)) cs c _ Hp).
  intros f fd d e Hf He. rewrite run_bindr. unfold in_dir.
  destruct (confined_parent_run (set_fds f k) cs' c' s (exported_fds f k Hex)) as (g & Hg & Hp');
    [by rewrite clear_fds|done|done|done|]. rewrite dir_at_fds in Hp'. pose proof (dir_at_ents k cs') as Hd.
  destruct (dir_at k cs') as [d'|e'].
  - destruct Hp' as (fd' & -> & Hfd'). destruct (Hd d' eq_refl) as (e' & He'). rewrite He'. cbv beta iota. cbn [fst snd].
    rewrite run_with_file. apply (Hmk g); [by apply Hg|done|done|done].
  - rewrite Hp'. by exists g.
Qed.

Lemma link_confined_run cs c cs' c' :
  entry_path k cs c -> entry_path k cs' c' ->
  does (ref_link cs c cs' c' k) s (run kexec (link_confined root (path_of cs c) (path_of cs' c')) (k, s)).
Proof.
  intros Hp Hp'. apply (two_dir_run (fun fd c fd' c' => sc (Linkat fd c fd' c')) cs c cs' c'); [done..|].
  intros f fd fd' d e d' e' Hf He Hf' He'. rewrite run_call. cbn [kexec fst snd posix_call]. unfold do_link.
  rewrite (at_dir_ofd k f fd _ e _ Hf He). destruct (e !! c) as [i|]; [|by exists f].
  rewrite (at_dir_ofd k f fd' _ e' _ Hf' He'), link_in_fds. by exists f.
Qed.

Lemma rename_confined_run cs c cs' c' :
  entry_path k cs c -> entry_path k cs' c' ->
  does (ref_rename cs c cs' c' k) s (run kexec (rename_confined root (path_of cs c) (path_of cs' c')) (k, s)).
Proof.
  intros Hp Hp'. apply (two_dir_run (fun fd c fd' c' => sc (Renameat fd c fd' c')) cs c cs' c'); [done..|].
  intros f fd fd' d e d' e' Hf He Hf' He'. rewrite run_call. cbn [kexec fst snd posix_call]. unfold do_rename.
  rewrite (at_dir_ofd k f fd _ e _ Hf He). destruct (e !! c) as [i|]; [|by exists f].
  rewrite (at_dir_ofd k f fd' _ e' _ Hf' He'), rename_in_fds. by exists f.
Qed.
End Ops2.

(** ** Calls that only open files *)

Lemma open_ino_only_fds i flags k : has_bits flags O_TRUNC = false -> exists f, snd (open_ino i flags k) = set_fds f k.
Proof.
  intros Ht. unfold open_ino. rewrite Ht. assert (exists f, k = set_fds f k) as Hk by (exists (k_fds k); by destruct k).
  destruct (kind_at k i) as [[| |]|]; [|..|exact Hk].
  - destruct (_ && _); [exact Hk|]. by eexists.
  - destruct (has_bits flags O_DIRECTORY); [exact Hk|]. by eexists.
  - destruct (has_bits flags O_PATH); [by eexists|exact Hk].
Qed.

Lemma do_open_only_fds beneath base p flags mode k :
  has_bits flags O_CREAT = false -> has_bits flags O_TRUNC = false ->
  exists f, snd (do_open beneath base p flags mode k) = set_fds f k.
Proof.
  intros Hc Ht. unfold do_open. rewrite Hc. destruct (namei _ _ _ _ _ _ _) as [[b st]|e]; [by apply open_ino_only_fds|].
  exists (k_fds k). by destruct k.
Qed.

(** An open that neither creates nor truncates. *)
Lemma openat2_only_fds p flags k s :
  has_bits flags O_CREAT = false -> has_bits (Z.lor flags O_CLOEXEC) O_CREAT = false ->
  has_bits (Z.lor flags O_CLOEXEC) O_TRUNC = false ->
  exists f, snd (run kexec (openat2_beneath root p flags 0) (k, s)) = (set_fds f k, s).
Proof.
  intros Hc Hc' Ht. unfold openat2_beneath.
  assert (exists f, (k, s) = (set_fds f k, s)) as Hk by (exists (k_fds k); by destruct k).
  destruct (strip_prefix root p) as [rel|]; [|done].
  destruct (negb (path_no_nul _)); [done|]. destruct (negb (path_no_nul root)); [done|].
  rewrite run_bindr, run_call. cbn [kexec fst snd posix_call]. rewrite Hc.
  destruct (do_open_only_fds false (k_slash k) root anchor_flags 0 k eq_refl eq_refl) as (f & Hf).
  change (Z.lor (Z.lor O_PATH O_DIRECTORY) O_CLOEXEC) with anchor_flags.
  destruct (do_open false _ _ anchor_flags 0 k) as [[fd|e] k1]; cbn [snd] in Hf; subst k1; cbn [snd fst]; [|by exists f].
  rewrite run_bind, run_call. cbn [kexec fst snd posix_call]. cbn [k_fds set_fds].
  destruct (f !! fd) as [o|]; [|by exists f].
  change (has_bits (Z.lor RESOLVE_BENEATH RESOLVE_NO_MAGICLINKS) RESOLVE_BENEATH) with true. cbv iota.
  destruct (do_open_only_fds true (fd_ino o) (match rel with [] => [CurDir] | _ => rel end) _ 0 (set_fds f k) Hc' Ht) as (g & Hg).
  destruct (do_open true _ _ _ _ _) as [x k2]. cbn [snd] in Hg. subst k2. by exists g.
Qed.

Lemma open_confined_only_fds p flags k s :
  has_bits flags O_CREAT = false -> has_bits (Z.lor flags O_CLOEXEC) O_CREAT = false ->
  has_bits (Z.lor flags O_CLOEXEC) O_TRUNC = false ->
  exists f, snd (run kexec (open_confined root p flags 0) (k, s)) = (set_fds f k, s).
Proof.
  intros Hc Hc' Ht. unfold open_confined, open_plain. rewrite run_bind.
  destruct (openat2_only_fds p flags k s Hc Hc' Ht) as (f & Hf).
  destruct (run kexec (openat2_beneath _ _ _ _) (k, s)) as [[fd|e] w]; cbn [snd] in Hf; subst w; [by exists f|].
  destruct (bool_decide (ioe_raw e = Some ENOSYS)); [|by exists f]. destruct (path_no_nul p); [|by exists f].
  rewrite run_call. cbn [kexec fst snd posix_call].
  destruct (do_open_only_fds false (k_slash k) p (Z.lor flags O_CLOEXEC) 0 (set_fds f k) Hc' Ht) as (h & Hh).
  change (k_slash (set_fds f k)) with (k_slash k). destruct (do_open false _ _ _ _ _) as [x k3]. cbn in Hh. subst k3. by exists h.
Qed.

Lemma sync_parent_dir_run p k s : exists f, run kexec (sync_parent_dir root p) (k, s) = (tt, (set_fds f k, s)).
Proof.
  assert (exists f, (tt, (k, s)) = (tt, (set_fds f k, s))) as Hk by (exists (k_fds k); by destruct k).
  unfold sync_parent_dir. destruct (decide _); [done|]. destruct (parent p) as [par|]; [|done].
  rewrite run_bind. unfold fsync_dir_confined. rewrite run_bindr.
  destruct (open_confined_only_fds par (Z.lor (Z.lor O_RDONLY O_DIRECTORY) O_NOFOLLOW) k s eq_refl eq_refl eq_refl) as (f & Hf).
  destruct (run kexec (open_confined _ _ _ _) (k, s)) as [[fd|e] w]; cbn [snd] in Hf; subst w; by exists f.
Qed.

Lemma sync_if_ok_run session st p k s : exists f, run kexec (sync_if_ok session root st p) (k, s) = (tt, (set_fds f k, s)).
Proof.
  unfold sync_if_ok. destruct (_ && _); [apply sync_parent_dir_run|]. exists (k_fds k). by destruct k.
Qed.

(** ** The root itself *)

(** The export root has no entry a request could name. *)
Definition root_error : io_error :=
  match rs with [] => io_invalid_input | _ => io_error_of_kind PermissionDenied end.

Lemma confined_parent_root k s :
  path_no_nul root = true -> run kexec (confined_parent root root) (k, s) = (Err root_error, (k, s)).
Proof.
  unfold confined_parent, root_error. destruct rs as [|c cs _] using rev_ind; [done|]. intros Hn.
  assert (no_nul c = true) as Hc.
  { cbn [path_no_nul forallb] in Hn. unfold path_no_nul in Hn. cbn in Hn. rewrite map_app, forallb_app in Hn.
    apply andb_prop in Hn as [_ Hn]. cbn in Hn. by rewrite andb_true_r in Hn. }
  rewrite map_app, app_comm_cons. cbn [map]. rewrite parent_snoc, file_name_snoc, Hc. cbn [negb].
  assert (strip_prefix ((RootDir :: map Normal cs) ++ [Normal c]) (RootDir :: map Normal cs) = None) as Hs.
  { destruct (strip_prefix _ _) as [rest|] eqn:E; [|done]. apply strip_prefix_Some, (f_equal length) in E.
    rewrite !length_app in E. simpl in E. lia. }
  rewrite run_bindr. unfold open_confined, openat2_beneath. rewrite Hs. by destruct cs.
Qed.

(** An operation on the entry a path names. *)
Definition at_path {A : Type} (ps : list str) (k : posix) (ref : list str -> str -> io A * posix) : io A * posix :=
  match last ps with Some c => ref (removelast ps) c | None => (Err root_error, k) end.

Definition at_paths (ps qs : list str) (k : posix) (ref : list str -> str -> list str -> str -> io unit * posix) : io unit * posix :=
  at_path ps k (fun cs c =>
    match last qs with
    | Some c' => ref cs c (removelast qs) c'
    | None => in_dir k cs (fun _ _ => (Err root_error, k))
    end).

Definition symlink_ref (target : str) (k : posix) (cs : list str) (c : str) : io unit * posix :=
  if no_nul target then ref_symlink cs c target k else in_dir k cs (fun _ _ => (Err io_invalid_input, k)).

Lemma normalized_entry k cp ps cs c :
  ref_resolve k cp = Ok ps -> ps = cs ++ [c] -> entry_path k cs c.
Proof.
  unfold ref_resolve. destruct (normalize cp) as [ds|] eqn:En; [|done]. destruct (link_mid k r ds) eqn:El; [done|].
  destruct (stays k ds); [|done]. intros [= ->] ->. apply normalize_names, Forall_app in En as [H1 H2].
  split; [by eapply link_mid_clear| |exact (name_ok_no_nul c (proj1 (Forall_singleton _ _) H2))].
  assert (path_no_nul (map Normal cs) = true) as Hn; [|by destruct cs].
  clear El. unfold path_no_nul. induction H1 as [|c0 cs Hc _ IH]; [done|]. cbn [map forallb]. by rewrite (name_ok_no_nul c0 Hc), IH.
Qed.

Section Whole.
Context (k : posix) (s : desk).
Hypothesis Hex : exported k rs r.
Hypothesis Hroot : path_no_nul root = true.
Abbreviation path_to ps := (root ++ map Normal ps).

(** From entries to paths. *)
Lemma at_path_run {A : Type} (mk : path -> sys (io A)) cp ps ref :
  ref_resolve k cp = Ok ps ->
  (forall cs c, entry_path k cs c -> does (ref cs c) s (run kexec (mk (root ++ map Normal (cs ++ [c]))) (k, s))) ->
  run kexec (mk root) (k, s) = (Err root_error, (k, s)) ->
  does (at_path ps k ref) s (run kexec (mk (path_to ps)) (k, s)).
Proof.
  intros Hr Hmk Hroot'. unfold at_path. destruct ps as [|c cs _] using rev_ind.
  - rewrite app_nil_r, Hroot'. exists (k_fds k). by destruct k.
  - rewrite last_snoc, removelast_last. by eapply Hmk, normalized_entry.
Qed.

Ltac on_root := unfold mkdir_confined, remove_confined, symlink_confined, readlink_confined, rename_confined, link_confined;
  by rewrite run_bindr, confined_parent_root.

Lemma mkdir_path_run cp ps mode :
  ref_resolve k cp = Ok ps ->
  does (at_path ps k (fun cs c => ref_mkdir cs c (Z.land mode perm_mask) k)) s
    (run kexec (mkdir_confined root (path_to ps) mode) (k, s)).
Proof.
  intros H. eapply (at_path_run (fun p => mkdir_confined root p mode)); [done| |on_root].
  intros. by apply mkdir_confined_run.
Qed.

Lemma remove_path_run cp ps dir :
  ref_resolve k cp = Ok ps ->
  does (at_path ps k (fun cs c => ref_remove cs c dir k)) s (run kexec (remove_confined root (path_to ps) dir) (k, s)).
Proof.
  intros H. eapply (at_path_run (fun p => remove_confined root p dir)); [done| |on_root].
  intros. by apply remove_confined_run.
Qed.

Lemma readlink_path_run cp ps :
  ref_resolve k cp = Ok ps ->
  does (at_path ps k (fun cs c => ref_readlink cs c k)) s (run kexec (readlink_confined root (path_to ps)) (k, s)).
Proof.
  intros H. eapply (at_path_run (fun p => readlink_confined root p)); [done| |on_root].
  intros. by apply readlink_confined_run.
Qed.

Lemma symlink_path_run cp ps target :
  ref_resolve k cp = Ok ps ->
  does (at_path ps k (symlink_ref target k)) s (run kexec (symlink_confined root (path_to ps) target) (k, s)).
Proof.
  intros H. eapply (at_path_run (fun p => symlink_confined root p target)); [done| |on_root].
  intros cs c Hp. unfold symlink_ref. destruct (no_nul target) eqn:Et; [by apply symlink_confined_run|].
  unfold symlink_confined. rewrite Et.
  apply (one_dir_run k s Hex Hroot (fun _ _ => Ret (Err io_invalid_input)) cs c); [done|]. intros. by eexists.
Qed.

(** Two paths: the second may be the root. *)
Lemma at_paths_run (mk : path -> path -> sys (io unit)) (at2 : Z -> str -> Z -> str -> sys (io unit)) cp cq ps qs ref :
  (forall p q, mk p q = (dn <-? confined_parent root p ;;
                         with_file dn.1 (dn' <-? confined_parent root q ;; with_file dn'.1 (at2 dn.1 dn.2 dn'.1 dn'.2)))) ->
  ref_resolve k cp = Ok ps -> ref_resolve k cq = Ok qs ->
  (forall cs c cs' c', entry_path k cs c -> entry_path k cs' c' ->
     does (ref cs c cs' c') s (run kexec (mk (root ++ map Normal (cs ++ [c])) (root ++ map Normal (cs' ++ [c']))) (k, s))) ->
  does (at_paths ps qs k ref) s (run kexec (mk (path_to ps) (path_to qs)) (k, s)).
Proof.
  intros Hmk Hp Hq Href. apply (at_path_run (fun p => mk p (path_to qs)) cp); [done| |].
  - intros cs c Hcs. destruct qs as [|c' cs' _] using rev_ind.
    + rewrite app_nil_r, Hmk. apply (one_dir_run k s Hex Hroot (fun fd c => dn' <-? confined_parent root root ;;
        with_file dn'.1 (at2 fd c dn'.1 dn'.2)) cs c); [done|].
      intros f fd d e _ _. rewrite run_bindr, confined_parent_root by done. by exists f.
    + rewrite last_snoc, removelast_last. by eapply Href, normalized_entry.
  - rewrite Hmk, run_bindr. by rewrite confined_parent_root.
Qed.

Lemma link_paths_run cp cq ps qs :
  ref_resolve k cp = Ok ps -> ref_resolve k cq = Ok qs ->
  does (at_paths ps qs k (fun cs c cs' c' => ref_link cs c cs' c' k)) s
    (run kexec (link_confined root (path_to ps) (path_to qs)) (k, s)).
Proof.
  intros H1 H2. eapply (at_paths_run (link_confined root) (fun fd c fd' c' => sc (Linkat fd c fd' c'))); [done|done|done|].
  intros. by apply link_confined_run.
Qed.

Lemma rename_paths_run cp cq ps qs :
  ref_resolve k cp = Ok ps -> ref_resolve k cq = Ok qs ->
  does (at_paths ps qs k (fun cs c cs' c' => ref_rename cs c cs' c' k)) s
    (run kexec (rename_confined root (path_to ps) (path_to qs)) (k, s)).
Proof.
  intros H1 H2. eapply (at_paths_run (rename_confined root) (fun fd c fd' c' => sc (Renameat fd c fd' c'))); [done|done|done|].
  intros. by apply rename_confined_run.
Qed.
End Whole.

(** ** Requests and their answers *)

Inductive ns_request : Type :=
| RMkdir (q : MkDirRequest) | RRmdir (q : PathRequest) | RUnlink (q : PathRequest) | RReadlink (q : PathRequest)
| RSymlink (q : SymlinkRequest) | RRename (q : RenameRequest) | RLink (q : LinkRequest).

Inductive ns_response : Type :=
| AStat (a : GetAttrResponse) | AStatus (a : StatusResponse) | AText (a : ReadLinkResponse).

(** [stat] or [lstat] of a path beneath the root. *)
Definition stat_at (follow : bool) (ps : list str) (k : posix) : option Stat :=
  stat_ok (res_bind (locate_ino k follow (root ++ map Normal ps)) (stat_ino k)).

Definition stat_answer (op seq : Z) (follow : bool) (ps : list str) (out : io unit * posix) : ns_response * posix :=
  let st := status_of_io (fst out) in
  (AStat (MkGetAttrResponse op seq (status_as_u8 st)
            (if bool_decide (st = StOk) then stat_at follow ps (snd out) else None)), snd out).

Definition status_answer (op seq : Z) (out : io unit * posix) : ns_response * posix :=
  (AStatus (MkStatusResponse op seq (status_as_u8 (status_of_io (fst out)))), snd out).

Definition refused (op seq : Z) : ns_response := AStat (MkGetAttrResponse op seq (status_as_u8 StPermission) None).
Definition refused_status (op seq : Z) : ns_response := AStatus (MkStatusResponse op seq (status_as_u8 StPermission)).

(** What each request does, and its answer. *)
Definition ns_reference (q : ns_request) (k : posix) : ns_response * posix :=
  match q with
  | RMkdir q =>
      match ref_resolve k (mdq_path q) with
      | Err _ => (refused OP_MKDIR (mdq_seq q), k)
      | Ok ps => stat_answer OP_MKDIR (mdq_seq q) true ps
                   (at_path ps k (fun cs c => ref_mkdir cs c (Z.land (mdq_mode q) perm_mask) k))
      end
  | RRmdir q =>
      match ref_resolve k (pq_path q) with
      | Err _ => (refused_status OP_RMDIR (pq_seq q), k)
      | Ok ps => status_answer OP_RMDIR (pq_seq q) (at_path ps k (fun cs c => ref_remove cs c true k))
      end
  | RUnlink q =>
      match ref_resolve k (pq_path q) with
      | Err _ => (refused_status OP_UNLINK (pq_seq q), k)
      | Ok ps => status_answer OP_UNLINK (pq_seq q) (at_path ps k (fun cs c => ref_remove cs c false k))
      end
  | RReadlink q =>
      match ref_resolve k (pq_path q) with
      | Err _ => (AText (MkReadLinkResponse OP_READLINK (pq_seq q) (status_as_u8 StPermission) []), k)
      | Ok ps =>
          let '(rc, k) := at_path ps k (fun cs c => ref_readlink cs c k) in
          (AText (MkReadLinkResponse OP_READLINK (pq_seq q) (status_as_u8 (status_of_io rc))
                    (match rc with Ok t => t | Err _ => [] end)), k)
      end
  | RSymlink q =>
      if MAX_SYMLINK_TARGET_LEN <? str_len (slq_target q) then
        (AStat (MkGetAttrResponse OP_SYMLINK (slq_seq q) (status_as_u8 StInvalidArg) None), k)
      else match ref_resolve k (slq_link q) with
           | Err _ => (refused OP_SYMLINK (slq_seq q), k)
           | Ok ps => stat_answer OP_SYMLINK (slq_seq q) false ps (at_path ps k (symlink_ref (slq_target q) k))
           end
  | RRename q =>
      match ref_resolve k (rnq_old q), ref_resolve k (rnq_new q) with
      | Ok ps, Ok qs => status_answer OP_RENAME (rnq_seq q)
                          (at_paths ps qs k (fun cs c cs' c' => ref_rename cs c cs' c' k))
      | _, _ => (refused_status OP_RENAME (rnq_seq q), k)
      end
  | RLink q =>
      match ref_resolve k (lkq_path q), ref_resolve k (lkq_link q) with
      | Ok ps, Ok qs => stat_answer OP_LINK (lkq_seq q) true qs
                          (at_paths ps qs k (fun cs c cs' c' => ref_link cs c cs' c' k))
      | _, _ => (refused OP_LINK (lkq_seq q), k)
      end
  end.

Section Handlers.
Context {C : Codec} (session : ClientSession).

Definition ns_handler (q : ns_request) (raw : bytes) : sys (anyhow unit) :=
  match q with
  | RMkdir _ => handle_mkdir session root raw
  | RRmdir _ => handle_rmdir session root raw
  | RUnlink _ => handle_unlink session root raw
  | RReadlink _ => handle_readlink root raw
  | RSymlink _ => handle_symlink session root raw
  | RRename _ => handle_rename session root raw
  | RLink _ => handle_link session root raw
  end.

(** The request [raw] carries. *)
Definition ns_decodes (q : ns_request) (raw : bytes) : Prop :=
  match q with
  | RMkdir q => decode raw = Some q
  | RRmdir q | RUnlink q | RReadlink q => decode raw = Some q
  | RSymlink q => decode raw = Some q
  | RRename q => decode raw = Some q
  | RLink q => decode raw = Some q
  end.

Definition ns_encode (a : ns_response) : option bytes :=
  match a with AStat a => encode a | AStatus a => encode a | AText a => encode a end.

Lemma send_run {T} `{!Wire T} (x : T) b k s :
  encode x = Some b -> zlen b <= MAX_FRAME_SIZE -> run kexec (send_resp x) (k, s) = (Ok tt, (k, post b s)).
Proof.
  intros He Hb. unfold send_resp. rewrite He. rewrite run_bindr, run_call. cbn [kexec].
  assert ((MAX_FRAME_SIZE <? zlen b) = false) as -> by (by apply Z.ltb_ge). done.
Qed.

Lemma send_tx0_run {T} `{!Wire T} (x : T) b k s :
  encode x = Some b -> zlen b <= MAX_FRAME_SIZE -> run kexec (then_tx0 (send_resp x)) (k, s) = (Ok tt, (k, post b s)).
Proof. intros He Hb. unfold then_tx0. by rewrite run_bindr, (send_run x b). Qed.

Lemma stat_if_ok_run st (follow : bool) ps f k s :
  run kexec (stat_if_ok st (if follow then MetadataOf (root ++ map Normal ps) else SymlinkMetadata (root ++ map Normal ps)))
    (set_fds f k, s) = (if bool_decide (st = StOk) then stat_at follow ps k else None, (set_fds f k, s)).
Proof.
  unfold stat_if_ok. destruct (bool_decide _); [|done]. rewrite run_bind, run_call. unfold stat_at, locate_ino, locate.
  destruct follow; cbn [kexec fst snd posix_call]; unfold locate_ino, locate; rewrite namei_fds;
    by change (stat_ino (set_fds f k)) with (stat_ino k).
Qed.

(** The tail of the handlers that answer with a stat. *)
Lemma stat_tail_run op seq (follow : bool) ps (rc : io unit) f k s b :
  encode (MkGetAttrResponse op seq (status_as_u8 (status_of_io rc))
    (if bool_decide (status_of_io rc = StOk) then stat_at follow ps k else None)) = Some b -> zlen b <= MAX_FRAME_SIZE ->
  exists g, run kexec (sync_if_ok session root (status_of_io rc) (root ++ map Normal ps) ;;;
    stat <- stat_if_ok (status_of_io rc)
      (if follow then MetadataOf (root ++ map Normal ps) else SymlinkMetadata (root ++ map Normal ps)) ;;
    then_tx0 (send_stat_resp op seq (status_of_io rc) stat)) (set_fds f k, s) = (Ok tt, (set_fds g k, post b s)).
Proof.
  intros He Hb. rewrite run_bind. destruct (sync_if_ok_run session (status_of_io rc) (root ++ map Normal ps) (set_fds f k) s) as (g & ->).
  exists g. change (set_fds g (set_fds f k)) with (set_fds g k). rewrite run_bind, stat_if_ok_run. by apply send_tx0_run.
Qed.

Lemma status_tail_run op seq ps (rc : io unit) f k s b :
  encode (MkStatusResponse op seq (status_as_u8 (status_of_io rc))) = Some b -> zlen b <= MAX_FRAME_SIZE ->
  exists g, run kexec (sync_if_ok session root (status_of_io rc) (root ++ map Normal ps) ;;;
    then_tx0 (send_status op seq (status_of_io rc))) (set_fds f k, s) = (Ok tt, (set_fds g k, post b s)).
Proof.
  intros He Hb. rewrite run_bind. destruct (sync_if_ok_run session (status_of_io rc) (root ++ map Normal ps) (set_fds f k) s) as (g & ->).
  exists g. by apply send_tx0_run.
Qed.

Lemma decoded_run {T} `{!Wire T} raw (q : T) (body : T -> sys (anyhow unit)) w :
  decode raw = Some q -> run kexec (x <-? decoded raw ;; body x) w = run kexec (body q) w.
Proof. intros Hd. unfold decoded. rewrite Hd. by rewrite run_bindr. Qed.

(** A handler that refuses. *)
Lemma refuse_run {T} `{!Wire T} (x : T) b k s :
  encode x = Some b -> zlen b <= MAX_FRAME_SIZE ->
  exists f, run kexec (send_resp x) (k, s) = (Ok tt, (set_fds f k, post b s)).
Proof. intros. exists (k_fds k). rewrite (send_run x b) by done. by destruct k. Qed.

Section Runs.
Context (k : posix) (s : desk).
Hypothesis Hex : exported k rs r.
Hypothesis Hm : modes_ok k.
Hypothesis Hroot : path_no_nul root = true.

Ltac resolving := rewrite run_bind, (ns_resolve_run k s) by done.

Lemma mkdir_run q raw b :
  decode raw = Some q -> ns_encode (fst (ns_reference (RMkdir q) k)) = Some b -> zlen b <= MAX_FRAME_SIZE ->
  exists f, run kexec (handle_mkdir session root raw) (k, s) = (Ok tt, (set_fds f (snd (ns_reference (RMkdir q) k)), post b s)).
Proof.
  intros Hd He Hb. unfold handle_mkdir. rewrite (decoded_run _ _ _ _ Hd). resolving. cbn [ns_reference] in *.
  destruct (ref_resolve k (mdq_path q)) as [ps|e] eqn:Er; cbn [res_map] in *; [|by apply refuse_run].
  rewrite run_bind. destruct (mkdir_path_run k s Hex Hroot _ ps (mdq_mode q) Er) as (f & ->).
  by apply (stat_tail_run OP_MKDIR (mdq_seq q) true ps).
Qed.

Lemma symlink_run q raw b :
  decode raw = Some q -> ns_encode (fst (ns_reference (RSymlink q) k)) = Some b -> zlen b <= MAX_FRAME_SIZE ->
  exists f, run kexec (handle_symlink session root raw) (k, s) = (Ok tt, (set_fds f (snd (ns_reference (RSymlink q) k)), post b s)).
Proof.
  intros Hd He Hb. unfold handle_symlink. rewrite (decoded_run _ _ _ _ Hd). cbn [ns_reference] in *.
  destruct (_ <? _); [by apply refuse_run|]. resolving.
  destruct (ref_resolve k (slq_link q)) as [ps|e] eqn:Er; cbn [res_map] in *; [|by apply refuse_run].
  rewrite run_bind. destruct (symlink_path_run k s Hex Hroot _ ps (slq_target q) Er) as (f & ->).
  by apply (stat_tail_run OP_SYMLINK (slq_seq q) false ps).
Qed.

Lemma rmdir_run q raw b :
  decode raw = Some q -> ns_encode (fst (ns_reference (RRmdir q) k)) = Some b -> zlen b <= MAX_FRAME_SIZE ->
  exists f, run kexec (handle_rmdir session root raw) (k, s) = (Ok tt, (set_fds f (snd (ns_reference (RRmdir q) k)), post b s)).
Proof.
  intros Hd He Hb. unfold handle_rmdir. rewrite (decoded_run _ _ _ _ Hd). resolving. cbn [ns_reference] in *.
  destruct (ref_resolve k (pq_path q)) as [ps|e] eqn:Er; cbn [res_map] in *; [|by apply refuse_run].
  rewrite run_bind. destruct (remove_path_run k s Hex Hroot _ ps true Er) as (f & ->).
  by apply (status_tail_run OP_RMDIR (pq_seq q) ps).
Qed.

Lemma unlink_run q raw b :
  decode raw = Some q -> ns_encode (fst (ns_reference (RUnlink q) k)) = Some b -> zlen b <= MAX_FRAME_SIZE ->
  exists f, run kexec (handle_unlink session root raw) (k, s) = (Ok tt, (set_fds f (snd (ns_reference (RUnlink q) k)), post b s)).
Proof.
  intros Hd He Hb. unfold handle_unlink. rewrite (decoded_run _ _ _ _ Hd). resolving. cbn [ns_reference] in *.
  destruct (ref_resolve k (pq_path q)) as [ps|e] eqn:Er; cbn [res_map] in *; [|by apply refuse_run].
  rewrite run_bind. destruct (remove_path_run k s Hex Hroot _ ps false Er) as (f & ->).
  by apply (status_tail_run OP_UNLINK (pq_seq q) ps).
Qed.

Lemma readlink_run q raw b :
  decode raw = Some q -> ns_encode (fst (ns_reference (RReadlink q) k)) = Some b -> zlen b <= MAX_FRAME_SIZE ->
  exists f, run kexec (handle_readlink root raw) (k, s) = (Ok tt, (set_fds f (snd (ns_reference (RReadlink q) k)), post b s)).
Proof.
  intros Hd He Hb. unfold handle_readlink. rewrite (decoded_run _ _ _ _ Hd). resolving. cbn [ns_reference] in *.
  destruct (ref_resolve k (pq_path q)) as [ps|e] eqn:Er; cbn [res_map] in *; [|by apply refuse_run].
  rewrite run_bind. destruct (readlink_path_run k s Hex Hroot _ ps Er) as (f & ->).
  destruct (at_path ps k _) as [rc k']. cbn [fst snd] in *. exists f. destruct rc as [t|e]; by apply send_tx0_run.
Qed.

Lemma link_run q raw b :
  decode raw = Some q -> ns_encode (fst (ns_reference (RLink q) k)) = Some b -> zlen b <= MAX_FRAME_SIZE ->
  exists f, run kexec (handle_link session root raw) (k, s) = (Ok tt, (set_fds f (snd (ns_reference (RLink q) k)), post b s)).
Proof.
  intros Hd He Hb. unfold handle_link. rewrite (decoded_run _ _ _ _ Hd). resolving. cbn [ns_reference] in *.
  destruct (ref_resolve k (lkq_path q)) as [ps|e] eqn:Er; cbn [res_map] in *; [|by apply refuse_run]. resolving.
  destruct (ref_resolve k (lkq_link q)) as [qs|e] eqn:Eq; cbn [res_map] in *; [|by apply refuse_run].
  rewrite run_bind. destruct (link_paths_run k s Hex Hroot _ _ ps qs Er Eq) as (f & ->).
  by apply (stat_tail_run OP_LINK (lkq_seq q) true qs).
Qed.

Lemma rename_run q raw b :
  decode raw = Some q -> ns_encode (fst (ns_reference (RRename q) k)) = Some b -> zlen b <= MAX_FRAME_SIZE ->
  exists f, run kexec (handle_rename session root raw) (k, s) = (Ok tt, (set_fds f (snd (ns_reference (RRename q) k)), post b s)).
Proof.
  intros Hd He Hb. unfold handle_rename. rewrite (decoded_run _ _ _ _ Hd). resolving. cbn [ns_reference] in *.
  destruct (ref_resolve k (rnq_old q)) as [ps|e] eqn:Er; cbn [res_map] in *; [|by apply refuse_run]. resolving.
  destruct (ref_resolve k (rnq_new q)) as [qs|e] eqn:Eq; cbn [res_map] in *; [|by apply refuse_run].
  rewrite run_bind. destruct (rename_paths_run k s Hex Hroot _ _ ps qs Er Eq) as (f & ->).
  destruct (at_paths ps qs k _) as [rc k']. cbn [fst snd status_answer] in *. rewrite run_bind.
  match goal with |- context [run kexec (if ?c then ?m else ?n) ?w] =>
    assert (exists g, run kexec (if c then m else n) w = (tt, (set_fds g k', s))) as (g & ->) end.
  { destruct (_ && _); [|by exists f]. rewrite run_bind.
    destruct (sync_parent_dir_run (root ++ map Normal ps) (set_fds f k') s) as (g & ->).
    destruct (decide _); [by exists g|].
    destruct (sync_parent_dir_run (root ++ map Normal qs) (set_fds g (set_fds f k')) s) as (h & ->). by exists h. }
  exists g. by apply send_tx0_run.
Qed.
End Runs.
End Handlers.
End Root.

(** ** The handlers *)

(** The name-space handlers are the POSIX calls: mkdir, rmdir, unlink, readlink,
    symlink, rename and link, run to the end with nobody else about, leave the file
    system exactly as the reference operation does on the entry the client's path
    names beneath the root, or unchanged where the path is refused, and send one
    frame.  A new directory has the mode asked for, whatever the server's umask, and
    syncing directories changes nothing. *)
Lemma namespace_handlers_run {C : Codec} session rs r q raw k s b :
  exported k rs r -> modes_ok k -> path_no_nul (RootDir :: map Normal rs) = true -> ns_decodes q raw ->
  ns_encode (fst (ns_reference rs r q k)) = Some b -> zlen b <= MAX_FRAME_SIZE ->
  exists f, run kexec (ns_handler rs session q raw) (k, s) = (Ok tt, (set_fds f (snd (ns_reference rs r q k)), post b s)).
Proof.
  intros Hex Hm Hroot Hd He Hb. destruct q; cbn [ns_handler ns_decodes] in *.
  - by apply mkdir_run.
  - by apply rmdir_run.
  - by apply unlink_run.
  - by apply readlink_run.
  - by apply symlink_run.
  - by apply rename_run.
  - by apply link_run.
Qed.

(** [/srv] is exported; [/srv/out] is a link to [/etc], which exists. *)
Definition ns_kernel : posix :=
  MkPosix
    (<[1 := new_inode (KDir {[lit "srv" := 2; lit "etc" := 3]}) 0x1ed]>
     (<[2 := new_inode (KDir {[lit "out" := 4; lit "f" := 5]}) 0x1ed]>
      (<[3 := new_inode (KDir ∅) 0x1ed]>
       (<[4 := new_inode (KLink (lit "/etc")) 0x1ff]>
        {[5 := new_inode (KFile [x41]) 0x180]}))))
    ∅ 1 0x12 (MkStatvfs 0 0 0 0 0 0 0 0).

(** No handle, and no room for one. *)
Definition no_desk : desk := MkDesk (fun _ => 0) (with_limit 0 0) [].

Lemma ns_kernel_exported : exported ns_kernel [lit "srv"] 2.
Proof. split_and!; [by vm_compute..|by eexists]. Qed.

Lemma ns_kernel_modes : modes_ok ns_kernel.
Proof.
  apply map_Forall_to_list. apply (bool_decide_unpack _). by vm_compute.
Qed.

(** The server's umask takes nothing from the mode the client asked for. *)
Example ns_mkdir_mode :
  let q := RMkdir (MkMkDirRequest OP_MKDIR 1 (lit "/d") 0x1ff) in
  i_mode <$> k_nodes (snd (ns_reference [lit "srv"] 2 q ns_kernel)) !! new_ino ns_kernel = Some 0x1ff.
Proof. by vm_compute. Qed.

Definition ns_unlink : ns_request := RUnlink (MkPathRequest OP_UNLINK 1 (lit "/f")).
Definition ns_unlink_raw : bytes :=
  default [] (encode (Wire := @wire_PathRequest example_codec) (MkPathRequest OP_UNLINK 1 (lit "/f"))).
Definition ns_unlink_answer : bytes :=
  default [] (ns_encode (C := example_codec) (fst (ns_reference [lit "srv"] 2 ns_unlink ns_kernel))).

Example ns_unlink_gone :
  ents_at (snd (ns_reference [lit "srv"] 2 ns_unlink ns_kernel)) 2 = Some {[lit "out" := 4]}.
Proof. by vm_compute. Qed.

Lemma ns_unlink_encodes :
  ns_encode (C := example_codec) (fst (ns_reference [lit "srv"] 2 ns_unlink ns_kernel)) = Some ns_unlink_answer.
Proof. by vm_compute. Qed.
Lemma ns_unlink_fits : zlen ns_unlink_answer <= MAX_FRAME_SIZE.
Proof. apply Z.leb_le. by vm_compute. Qed.
Lemma ns_unlink_decodes : ns_decodes (C := example_codec) ns_unlink ns_unlink_raw.
Proof. by vm_compute. Qed.

(** A symbolic link whose target exists outside the export can be read, removed or
    renamed by nobody: [resolve] follows it and refuses the path. *)
Lemma outside_link_is_stuck :
  map (fun q => fst (ns_reference [lit "srv"] 2 q ns_kernel))
    [RUnlink (MkPathRequest OP_UNLINK 1 (lit "/out")); RReadlink (MkPathRequest OP_READLINK 2 (lit "/out"));
     RRename (MkRenameRequest OP_RENAME 3 (lit "/out") (lit "/in") 0)] =
  [refused_status OP_UNLINK 1;
   AText (MkReadLinkResponse OP_READLINK 2 (status_as_u8 StPermission) []); refused_status OP_RENAME 3].
Proof. by vm_compute. Qed.
