(* ===== verification/Attributes.v ===== *)
(** * What the attribute handlers do to a file system

    The handlers of [src/server/src/ops/meta.rs] that read or change what a path
    leads to (getattr, setattr, readdir, statfs), run to the end on the kernel of
    [Posix] as [Namespace] runs those that change the name space.  The reference
    finds an inode, reads or changes it, and answers; the handlers reach it through
    [resolve], an anchor on the root, an [openat2] and a descriptor. *)

From S2P Require Import Prelude Prog Text Status Frames Os Sanitize WriteLock Confine Reply MetaOps FileServer ExampleCodec Server Posix Jail Namespace.

(** ** A path opened beneath the root *)

(** File systems a walk cannot tell apart. *)
Definition same_tree (k k' : posix) : Prop :=
  k_slash k' = k_slash k /\ (forall i, ents_at k' i = ents_at k i) /\
  forall i t, kind_at k' i = Some (KLink t) <-> kind_at k i = Some (KLink t).

Lemma plain_same_tree k k' d cs : same_tree k k' -> plain k' d cs = plain k d cs.
Proof.
  intros (_ & He & _). revert d. induction cs as [|c cs IH]; intros d; cbn [plain]; [done|]. rewrite He.
  destruct (ents_at k d) as [e|]; [|done]. by destruct (e !! c).
Qed.

Lemma clear_same_tree k k' d cs : same_tree k k' -> clear k' d cs = clear k d cs.
Proof.
  intros (_ & He & Hl). revert d. induction cs as [|c cs IH]; intros d; cbn [clear]; [done|]. rewrite He.
  destruct (ents_at k d) as [e|]; [|done]. destruct (e !! c) as [i|]; [|done]. rewrite IH. specialize (Hl i).
  destruct (kind_at k' i) as [[| |t']|], (kind_at k i) as [[| |t]|]; try done.
  all: first [destruct (proj1 (Hl t') eq_refl); done | by pose proof (proj1 (Hl t') eq_refl) | by pose proof (proj2 (Hl t) eq_refl)].
Qed.

Lemma exported_same_tree rs r k k' : same_tree k k' -> exported k rs r -> exported k' rs r.
Proof.
  intros Ht (Hc & Hp & He). destruct (Ht) as (Hs & Hents & _). unfold exported.
  by rewrite Hs, (clear_same_tree k), (plain_same_tree k), Hents.
Qed.

(** Only what the inode lists or where it leads matters. *)
Lemma put_node_same_tree i n n' k :
  k_nodes k !! i = Some n -> i_kind n' = i_kind n \/ (exists d d', i_kind n = KFile d /\ i_kind n' = KFile d') ->
  same_tree k (put_node i n' k).
Proof.
  intros Hn Hk. assert (forall j, kind_at (put_node i n' k) j = if decide (j = i) then Some (i_kind n') else kind_at k j) as E.
  { intros j. unfold kind_at. cbn [k_nodes put_node set_nodes]. destruct (decide (j = i)) as [->|Hne].
    - by rewrite lookup_insert_eq.
    - by rewrite lookup_insert_ne. }
  assert (kind_at k i = Some (i_kind n)) as Ei by (unfold kind_at; by rewrite Hn).
  split_and!; [done|intros j|intros j t].
  - unfold ents_at. rewrite E. destruct (decide (j = i)) as [->|_]; [|done]. rewrite Ei.
    destruct Hk as [->|(d & d' & -> & ->)]; done.
  - rewrite E. destruct (decide (j = i)) as [->|_]; [|done]. rewrite Ei. destruct Hk as [->|(d & d' & -> & ->)]; [done|].
    split; by intros [= ].
Qed.

Section Root.
Context (rs : list str) (r : Z).
Abbreviation root := (RootDir :: map Normal rs).

(** What [openat2] starts from: the anchor is open. *)
Definition anchored (k : posix) : posix := put_fd (new_fd k) (MkOfd r 0 false true 0) k.

(** Opening beneath the root is one [openat2] from the anchor. *)
Lemma open_confined_posix k s ps flags mode :
  exported k rs r -> path_no_nul root = true -> path_no_nul (rel_of ps) = true ->
  run kexec (open_confined root (root ++ map Normal ps) flags mode) (k, s) =
  let '(x, k') := do_open true r (rel_of ps) (Z.lor flags O_CLOEXEC) (if has_bits flags O_CREAT then mode else 0) (anchored k) in
  (x, (k', s)).
Proof.
  intros Hex Hn1 Hn2. unfold open_confined, openat2_beneath. rewrite strip_prefix_app, run_bind.
  replace (match map Normal ps with [] => [CurDir] | _ => map Normal ps end) with (rel_of ps) by (by destruct ps).
  rewrite Hn1, Hn2. cbn [negb]. rewrite run_bindr, run_call. cbn [kexec fst snd].
  change (Z.lor (Z.lor O_PATH O_DIRECTORY) O_CLOEXEC) with anchor_flags. rewrite (open_anchor rs r k Hex).
  rewrite run_bind, run_call. cbn [kexec fst snd posix_call]. cbn [k_fds put_fd set_fds]. rewrite lookup_insert_eq.
  change (has_bits (Z.lor RESOLVE_BENEATH RESOLVE_NO_MAGICLINKS) RESOLVE_BENEATH) with true. cbv iota. cbn [fd_ino].
  change (put_fd (new_fd k) (MkOfd r 0 false true 0) k) with (anchored k).
  pose proof (do_open_implemented true r (rel_of ps) (Z.lor flags O_CLOEXEC) (if has_bits flags O_CREAT then mode else 0) (anchored k)) as Hi.
  destruct (do_open true _ _ _ _ _) as [[fd|e] k2]; [done|]. cbn [fst] in Hi. rewrite run_bind, run_call. cbn [kexec fst snd posix_call].
  rewrite run_ret. rewrite bool_decide_false by (by intros E; apply Hi). done.
Qed.

(** The inode a path names, every link on the way resolved beneath the root. *)
Definition file_at (follow : bool) (ps : list str) (k : posix) : io Z :=
  res_map (fun w => here (fst w) (snd w)) (namei k true follow MAXSYMLINKS r [] (rel_of ps)).

Lemma file_at_fds f follow ps k : file_at follow ps (set_fds f k) = file_at follow ps k.
Proof. unfold file_at. by rewrite namei_fds. Qed.

(** An open that does not create opens that inode. *)
Lemma do_open_file k ps flags :
  has_bits flags O_CREAT = false ->
  do_open true r (rel_of ps) flags 0 (anchored k) =
  match file_at (negb (has_bits flags O_NOFOLLOW)) ps k with
  | Err e => (Err e, anchored k)
  | Ok i => open_ino i flags (anchored k)
  end.
Proof.
  intros Hc. unfold do_open. rewrite Hc. unfold file_at. change (namei (anchored k)) with (namei (set_fds (k_fds (anchored k)) k)).
  rewrite namei_fds. by destruct (namei k _ _ _ _ _ _) as [[b st]|e].
Qed.

(** ** The reference operations *)

(** The size of a regular file. *)
Definition ref_truncate (ps : list str) (size : Z) (k : posix) : io unit * posix :=
  match file_at false ps k with
  | Err e => (Err e, k)
  | Ok i => match k_nodes k !! i with
            | None => fail ENOENT k
            | Some n => match i_kind n with
                        | KFile d => (Ok tt, put_node i (set_kind (KFile (resize d size)) n) k)
                        | KDir _ => fail EISDIR k
                        | KLink _ => fail ELOOP k
                        end
            end
  end.

(** A time in nanoseconds, if it is given; a fraction of a second before 1970
    cannot be set. *)
Definition settable (t : option Z) : bool := match t with Some ns => 0 <=? Z.rem ns 1000000000 | None => true end.

(** The mode, then the times: a time that cannot be set leaves the mode changed. *)
Definition ref_attrs (ps : list str) (mode : option Z) (atime mtime : option Z) (k : posix) : io unit * posix :=
  match file_at true ps k with
  | Err e => (Err e, k)
  | Ok i => match k_nodes k !! i with
            | None => fail ENOENT k
            | Some n =>
                let n := match mode with Some m => set_imode (Z.land m perm_mask) n | None => n end in
                if settable atime && settable mtime
                then (Ok tt, put_node i (set_itimes (default (i_atime n) atime) (default (i_mtime n) mtime) n) k)
                else fail EINVAL (put_node i n k)
            end
  end.

Definition given (req : SetAttrRequest) (bit : Z) (x : Z) : option Z := if has_bits (saq_valid req) bit then Some x else None.

Definition ref_setattr (req : SetAttrRequest) (ps : list str) (k : posix) : io unit * posix :=
  let '(x, k) := if has_bits (saq_valid req) 0x8 then ref_truncate ps (saq_size req) k else (Ok tt, k) in
  match x with
  | Err e => (Err e, k)
  | Ok _ =>
      if has_bits (saq_valid req) (Z.lor (Z.lor 0x1 0x10) 0x20)
      then ref_attrs ps (given req 0x1 (saq_mode req)) (given req 0x10 (saq_atime req)) (given req 0x20 (saq_mtime req)) k
      else (Ok tt, k)
  end.

(** ** The steps of [handle_setattr] are the reference *)

Lemma ns_to_timespec_ok ns : time_ok (ns_to_timespec ns) = (0 <=? Z.rem ns 1000000000).
Proof.
  unfold time_ok, ns_to_timespec, UTIME_OMIT. cbn [tv_nsec]. pose proof (Z.rem_bound_abs ns 1000000000 ltac:(lia)).
  destruct (Z.eqb_spec (Z.rem ns 1000000000) 1073741822); [lia|]. destruct (Z.leb_spec 0 (Z.rem ns 1000000000)); [|done].
  by apply andb_true_iff; split; [|apply Z.ltb_lt; lia].
Qed.

Lemma ns_to_timespec_time ns old : new_time (ns_to_timespec ns) old = ns.
Proof.
  unfold new_time, ns_to_timespec, UTIME_OMIT. cbn [tv_nsec tv_sec]. pose proof (Z.rem_bound_abs ns 1000000000 ltac:(lia)).
  destruct (Z.eqb_spec (Z.rem ns 1000000000) 1073741822); [lia|]. pose proof (Z.quot_rem' ns 1000000000). lia.
Qed.

(** The two arguments of [utimensat]. *)
Definition time_arg (t : option Z) : timespec := match t with Some ns => ns_to_timespec ns | None => utime_omit end.

Lemma time_arg_ok t : time_ok (time_arg t) = settable t.
Proof. destruct t as [ns|]; [apply ns_to_timespec_ok|done]. Qed.

Lemma time_arg_time t old : new_time (time_arg t) old = default old t.
Proof. destruct t as [ns|]; [apply ns_to_timespec_time|done]. Qed.

Lemma put_put i n n' k : put_node i n' (put_node i n k) = put_node i n' k.
Proof. unfold put_node, set_nodes. simpl. by rewrite insert_insert_eq. Qed.

Lemma put_same i n k : k_nodes k !! i = Some n -> put_node i n k = k.
Proof. intros Hn. unfold put_node, set_nodes. rewrite insert_id by done. by destruct k. Qed.

Lemma put_set_fds i n f k : put_node i n (set_fds f k) = set_fds f (put_node i n k).
Proof. done. Qed.

(** An operation on the inode behind a descriptor. *)
Lemma on_inode_run k f fd o n body :
  f !! fd = Some o -> k_nodes k !! fd_ino o = Some n ->
  on_inode (set_fds f k) fd body = (Ok tt, set_fds f (put_node (fd_ino o) (body n) k)).
Proof. intros Hf Hn. unfold on_inode. cbn [k_fds k_nodes set_fds]. by rewrite Hf, Hn. Qed.

Lemma setattr_mode_run k (s : desk) req i n f fd o :
  f !! fd = Some o -> fd_ino o = i -> k_nodes k !! i = Some n ->
  run kexec (setattr_mode req fd) (set_fds f k, s) =
  (None, (set_fds f (put_node i (match given req 0x1 (saq_mode req) with Some m => set_imode (Z.land m perm_mask) n | None => n end) k), s)).
Proof.
  intros Hf Ho Hn. unfold setattr_mode, given. destruct (has_bits (saq_valid req) 0x1).
  - rewrite run_bind, run_call. cbn [kexec fst snd posix_call]. subst i. by rewrite (on_inode_run k f fd o n).
  - by rewrite put_same.
Qed.

Lemma setattr_times_run k (s : desk) req i n f fd o :
  f !! fd = Some o -> fd_ino o = i -> k_nodes k !! i = Some n ->
  let a := given req 0x10 (saq_atime req) in let m := given req 0x20 (saq_mtime req) in
  run kexec (setattr_times req fd) (set_fds f k, s) =
  if settable a && settable m
  then (None, (set_fds f (put_node i (set_itimes (default (i_atime n) a) (default (i_mtime n) m) n) k), s))
  else (Some (status_from_io (os_error EINVAL)), (set_fds f k, s)).
Proof.
  intros Hf Ho Hn a m. unfold setattr_times.
  replace (if has_bits (saq_valid req) 0x10 then ns_to_timespec (saq_atime req) else utime_omit) with (time_arg a)
    by (subst a; unfold given; by destruct (has_bits _ _)).
  replace (if has_bits (saq_valid req) 0x20 then ns_to_timespec (saq_mtime req) else utime_omit) with (time_arg m)
    by (subst m; unfold given; by destruct (has_bits _ _)).
  rewrite run_bind, run_call. cbn [kexec fst snd posix_call]. unfold do_utimens. rewrite !time_arg_ok.
  destruct (settable a && settable m); [|done]. subst i. rewrite (on_inode_run k f fd o n) by done.
  by rewrite !time_arg_time.
Qed.

Section Steps.
Context (k : posix) (s : desk).
Hypothesis Hex : exported k rs r.
Hypothesis Hroot : path_no_nul root = true.

(** What a step reports. *)
Definition err_of (x : io unit) : option Status := match x with Ok _ => None | Err e => Some (status_from_io e) end.
Definition steps (ref : io unit * posix) (out : option Status * (posix * desk)) : Prop :=
  exists f, out = (err_of (fst ref), (set_fds f (snd ref), s)).

Lemma setattr_size_run req ps :
  path_no_nul (rel_of ps) = true -> has_bits (saq_valid req) 0x8 = true ->
  steps (ref_truncate ps (saq_size req) k) (run kexec (setattr_size root req (root ++ map Normal ps)) (k, s)).
Proof.
  intros Hn Hv. unfold setattr_size. rewrite Hv, run_bind, run_bindr, open_confined_posix by done.
  change (has_bits (Z.lor O_WRONLY O_NOFOLLOW) O_CREAT) with false. cbv iota.
  rewrite do_open_file by done. change (negb (has_bits _ O_NOFOLLOW)) with false. unfold ref_truncate.
  destruct (file_at false ps k) as [i|e]; [|by exists (k_fds (anchored k))].
  unfold open_ino. change (kind_at (anchored k) i) with (kind_at k i). unfold kind_at.
  destruct (k_nodes k !! i) as [n|] eqn:En; [|by exists (k_fds (anchored k))]. cbn [fmap option_fmap option_map].
  destruct (i_kind n) as [e|d|t] eqn:Ek; [by exists (k_fds (anchored k))| |by exists (k_fds (anchored k))].
  set (k1 := anchored k). set (o := MkOfd i 0 false false O_WRONLY).
  change (if has_bits (Z.lor (Z.lor O_WRONLY O_NOFOLLOW) O_CLOEXEC) O_DIRECTORY then _ else _) with
    (Ok (new_fd k1) : io Z, put_fd (new_fd k1) o k1).
  cbv beta iota. unfold with_file. rewrite run_bind, run_call. cbn [kexec fst snd posix_call].
  unfold do_set_len, on_file. cbn [k_fds k_nodes put_fd set_fds]. rewrite lookup_insert_eq. cbn [fd_opath fd_ino fd_access o]. change (negb (may_write O_WRONLY)) with false. cbv iota.
  change (k_nodes k1) with (k_nodes k). rewrite En, Ek. rewrite run_bind, run_call. cbn [kexec fst snd posix_call]. rewrite !run_ret.
  by eexists.
Qed.

Lemma setattr_attrs_run req ps :
  path_no_nul (rel_of ps) = true -> has_bits (saq_valid req) (Z.lor (Z.lor 0x1 0x10) 0x20) = true ->
  steps (ref_attrs ps (given req 0x1 (saq_mode req)) (given req 0x10 (saq_atime req)) (given req 0x20 (saq_mtime req)) k)
    (run kexec (setattr_attrs root req (root ++ map Normal ps)) (k, s)).
Proof.
  intros Hn Hv. unfold setattr_attrs. rewrite Hv, run_bind, open_confined_posix by done.
  change (has_bits O_PATH O_CREAT) with false. cbv iota.
  rewrite do_open_file by done. change (negb (has_bits _ O_NOFOLLOW)) with true. unfold ref_attrs.
  destruct (file_at true ps k) as [i|e]; [|by exists (k_fds (anchored k))].
  set (k1 := anchored k). set (o := MkOfd i 0 false true 0).
  assert (k_nodes k !! i = None \/ exists n, k_nodes k !! i = Some n) as [En|[n En]]
    by (destruct (k_nodes k !! i); eauto).
  { unfold open_ino, kind_at. change (k_nodes k1) with (k_nodes k). rewrite En. by exists (k_fds k1). }
  assert (open_ino i (Z.lor O_PATH O_CLOEXEC) k1 = (Ok (new_fd k1), put_fd (new_fd k1) o k1)) as ->.
  { unfold open_ino, kind_at. change (k_nodes k1) with (k_nodes k). rewrite En. simpl. by destruct (i_kind n). }
  rewrite En. set (f := <[new_fd k1 := o]> (k_fds k1)). change (put_fd (new_fd k1) o k1) with (set_fds f k).
  assert (f !! new_fd k1 = Some o) as Hf by apply lookup_insert_eq. cbv beta iota zeta.
  unfold with_file. rewrite run_bind, run_bind, (setattr_mode_run k s req i n f _ o) by done. cbv beta iota.
  set (n1 := match given req 0x1 _ with Some m => _ | None => n end). set (a := given req 0x10 _). set (m := given req 0x20 _).
  assert (k_nodes (put_node i n1 k) !! i = Some n1) as Hn1 by apply lookup_insert_eq.
  destruct (has_bits (saq_valid req) 0x10 || has_bits (saq_valid req) 0x20) eqn:Et.
  - rewrite (setattr_times_run (put_node i n1 k) s req i n1 f _ o) by done. fold a m.
    destruct (settable a && settable m); cbv beta iota; rewrite run_bind, run_call; cbn [kexec fst snd posix_call];
      rewrite run_ret; exists f; [by rewrite put_put|done].
  - apply orb_false_iff in Et as [Ea Em]. subst a m. unfold given. rewrite Ea, Em. cbn [settable default andb].
    replace (set_itimes (i_atime n1) (i_mtime n1) n1) with n1 by (by destruct n1).
    rewrite run_ret, run_bind, run_call. by exists f.
Qed.
End Steps.

Lemma truncate_same_tree ps size k : same_tree k (snd (ref_truncate ps size k)).
Proof.
  assert (same_tree k k) as Hk by done. unfold ref_truncate. destruct (file_at false ps k) as [i|e]; [|done].
  destruct (k_nodes k !! i) as [n|] eqn:En; [|done]. destruct (i_kind n) as [e|d|t] eqn:Ek; [done| |done].
  eapply put_node_same_tree; [done|]. right. cbn. rewrite Ek. eauto.
Qed.

(** The size and then the rest, whatever fails. *)
Lemma setattr_steps_run req ps k s :
  exported k rs r -> path_no_nul root = true -> path_no_nul (rel_of ps) = true ->
  steps s (ref_setattr req ps k)
    (run kexec (err <- setattr_size root req (root ++ map Normal ps) ;;
                match err with Some e => Ret (Some e) | None => setattr_attrs root req (root ++ map Normal ps) end) (k, s)).
Proof.
  intros Hex Hroot Hn. rewrite run_bind. unfold ref_setattr. destruct (has_bits (saq_valid req) 0x8) eqn:E8.
  - destruct (setattr_size_run k s Hex Hroot req ps Hn E8) as (f & ->).
    pose proof (truncate_same_tree ps (saq_size req) k) as Ht.
    destruct (ref_truncate ps (saq_size req) k) as [[[]|e] k1]; cbn [fst snd err_of] in *; [|by exists f].
    destruct (has_bits (saq_valid req) (Z.lor _ _)) eqn:Ev.
    + assert (exported (set_fds f k1) rs r) as Hex1 by (apply exported_fds; by eapply exported_same_tree).
      destruct (setattr_attrs_run (set_fds f k1) s Hex1 Hroot req ps Hn Ev) as (g & ->).
      unfold steps, ref_attrs. rewrite file_at_fds. destruct (file_at true ps k1) as [i|e]; [|by exists g].
      cbn [k_nodes set_fds]. destruct (k_nodes k1 !! i) as [n|]; [|by exists g].
      destruct (settable _ && settable _); by exists g.
    + unfold setattr_attrs. rewrite Ev. by exists f.
  - unfold setattr_size. rewrite E8, run_ret. destruct (has_bits (saq_valid req) (Z.lor _ _)) eqn:Ev.
    + by apply setattr_attrs_run.
    + unfold setattr_attrs. rewrite Ev. exists (k_fds k). by destruct k.
Qed.

(** ** Requests and their answers *)

Inductive at_request : Type :=
| RGetattr (q : GetAttrRequest) | RSetattr (q : SetAttrRequest) | RReaddir (q : ReadDirRequest) | RStatfs (q : PathRequest).

Inductive at_response : Type :=
| AAttr (a : GetAttrResponse) | ASet (a : SetAttrResponse) | ADir (a : ReadDirResponse) | AFs (a : StatFsResponse).

(** [stat] of a path beneath the root: the status and the attributes. *)
Definition stat_of (ps : list str) (k : posix) : io metadata :=
  res_bind (locate_ino k true (root ++ map Normal ps)) (stat_ino k).

(** The entries of the directory a path leads to. *)
Definition entries_of (ps : list str) (k : posix) : io (list DirEntry) :=
  res_bind (locate_ino k true (root ++ map Normal ps)) (fun i =>
    match ents_at k i with Some e => Ok (map dir_entry (list_dir k e)) | None => Err (os_error ENOTDIR) end).

Definition at_reference (q : at_request) (k : posix) : at_response * posix :=
  match q with
  | RGetattr q =>
      (AAttr (match ref_resolve rs r k (gaq_path q) with
              | Err _ => MkGetAttrResponse OP_GET_ATTR (gaq_seq q) (status_as_u8 StPermission) None
              | Ok ps => MkGetAttrResponse OP_GET_ATTR (gaq_seq q) (status_as_u8 (status_of_io (stat_of ps k))) (stat_ok (stat_of ps k))
              end), k)
  | RSetattr q =>
      match ref_resolve rs r k (saq_path q) with
      | Err _ => (ASet (MkSetAttrResponse OP_SET_ATTR (saq_seq q) (status_as_u8 StPermission) None), k)
      | Ok ps =>
          let '(x, k) := ref_setattr q ps k in
          (ASet (match x with
                 | Err e => MkSetAttrResponse OP_SET_ATTR (saq_seq q) (status_as_u8 (status_from_io e)) None
                 | Ok _ => MkSetAttrResponse OP_SET_ATTR (saq_seq q) (status_as_u8 (status_of_io (stat_of ps k))) (stat_ok (stat_of ps k))
                 end), k)
      end
  | RReaddir q =>
      (ADir (match ref_resolve rs r k (rdq_path q) with
             | Err _ => MkReadDirResponse OP_READ_DIR (rdq_seq q) (status_as_u8 StPermission) [] 0 true
             | Ok ps => match entries_of ps k with
                        | Err e => MkReadDirResponse OP_READ_DIR (rdq_seq q) (status_as_u8 (status_from_io e)) []
                                     (wrap64 (rdq_cursor q)) true
                        | Ok es => readdir_response (rdq_seq q) (rdq_cursor q) es
                        end
             end), k)
  | RStatfs q =>
      (AFs (match ref_resolve rs r k (pq_path q) with
            | Err _ => MkStatFsResponse OP_STAT_FS (pq_seq q) (status_as_u8 StPermission) None
            | Ok ps => MkStatFsResponse OP_STAT_FS (pq_seq q) (status_as_u8 StOk)
                         (Some (match locate_ino k true (root ++ map Normal ps) with
                                | Ok _ => statfs_of (k_statvfs k)
                                | Err _ => StatFs_default
                                end))
            end), k)
  end.

Section Handlers.
Context {C : Codec}.

Definition at_handler (q : at_request) (raw : bytes) : sys (anyhow unit) :=
  match q with
  | RGetattr _ => handle_getattr root raw
  | RSetattr _ => handle_setattr root raw
  | RReaddir _ => handle_readdir root raw
  | RStatfs _ => handle_statfs root raw
  end.

Definition at_decodes (q : at_request) (raw : bytes) : Prop :=
  match q with
  | RGetattr q => decode raw = Some q
  | RSetattr q => decode raw = Some q
  | RReaddir q => decode raw = Some q /\ 0 <= rdq_cursor q
  | RStatfs q => decode raw = Some q
  end.

Definition at_encode (a : at_response) : option bytes :=
  match a with AAttr a => encode a | ASet a => encode a | ADir a => encode a | AFs a => encode a end.

(** The path [resolve] lets through has no NUL. *)
Lemma resolved_no_nul k cp ps :
  ref_resolve rs r k cp = Ok ps -> path_no_nul root = true ->
  path_no_nul (rel_of ps) = true /\ path_no_nul (root ++ map Normal ps) = true.
Proof.
  unfold ref_resolve. destruct (normalize cp) as [cs|] eqn:En; [|done]. destruct (link_mid k r cs); [done|].
  destruct (stays rs k cs); [|done]. intros [= ->] Hroot. apply normalize_names in En.
  assert (path_no_nul (map Normal ps) = true) as Hn.
  { unfold path_no_nul. clear -En. induction En as [|c cs Hc _ IH]; [done|]. cbn [map forallb]. by rewrite (name_ok_no_nul c Hc), IH. }
  split; [by destruct ps|]. unfold path_no_nul in *. by rewrite forallb_app, Hroot, Hn.
Qed.

Section Runs.
Context (k : posix) (s : desk).
Hypothesis Hex : exported k rs r.
Hypothesis Hm : modes_ok k.
Hypothesis Hroot : path_no_nul root = true.

(** What a request does and sends. *)
Definition answered (out : anyhow unit * (posix * desk)) (q : at_request) : Prop :=
  forall b, at_encode (fst (at_reference q k)) = Some b -> zlen b <= MAX_FRAME_SIZE ->
  exists f, out = (Ok tt, (set_fds f (snd (at_reference q k)), post b s)).

Ltac resolving := rewrite run_bind, (ns_resolve_run rs r k s) by done.

Lemma sent_run {T} `{!Wire T} (x : T) b f k' :
  encode x = Some b -> zlen b <= MAX_FRAME_SIZE ->
  exists g, run kexec (then_tx0 (send_resp x)) (set_fds f k', s) = (Ok tt, (set_fds g k', post b s)).
Proof. intros. exists f. by apply send_tx0_run. Qed.

Lemma sent_here {T} `{!Wire T} (x : T) b :
  encode x = Some b -> zlen b <= MAX_FRAME_SIZE ->
  exists g, run kexec (then_tx0 (send_resp x)) (k, s) = (Ok tt, (set_fds g k, post b s)).
Proof. intros. exists (k_fds k). rewrite (send_tx0_run x b) by done. by destruct k. Qed.

Lemma getattr_run q raw : decode raw = Some q -> answered (run kexec (handle_getattr root raw) (k, s)) (RGetattr q).
Proof.
  intros Hd b He Hb. unfold handle_getattr. rewrite (decoded_run _ _ _ _ Hd). resolving. cbn [at_reference] in *.
  destruct (ref_resolve rs r k (gaq_path q)) as [ps|e]; cbn [res_map fst snd] in *; [|by apply refuse_run].
  rewrite run_bind, run_call. by apply sent_here.
Qed.

Lemma setattr_run q raw : decode raw = Some q -> answered (run kexec (handle_setattr root raw) (k, s)) (RSetattr q).
Proof.
  intros Hd b He Hb. unfold handle_setattr. rewrite (decoded_run _ _ _ _ Hd). resolving. cbn [at_reference] in *.
  destruct (ref_resolve rs r k (saq_path q)) as [ps|e] eqn:Er; cbn [res_map fst snd] in *; [|by apply refuse_run].
  destruct (resolved_no_nul k _ ps Er Hroot) as [Hn _].
  destruct (setattr_steps_run q ps k s Hex Hroot Hn) as (f & Hs).
  rewrite run_bind in Hs |- *. destruct (run kexec (setattr_size _ _ _) _) as [err w]. rewrite run_bind, Hs.
  destruct (ref_setattr q ps k) as [[[]|e] k']; cbn [fst snd err_of] in *; [|by apply sent_run].
  rewrite run_bind, run_call. cbn [kexec fst snd posix_call]. unfold locate_ino, locate. rewrite namei_fds.
  by apply sent_run.
Qed.

Lemma readdir_run q raw :
  decode raw = Some q -> 0 <= rdq_cursor q -> answered (run kexec (handle_readdir root raw) (k, s)) (RReaddir q).
Proof.
  intros Hd Hc b He Hb. unfold handle_readdir. rewrite (decoded_run _ _ _ _ Hd). resolving. cbn [at_reference] in *.
  destruct (ref_resolve rs r k (rdq_path q)) as [ps|e]; cbn [res_map fst snd] in *; [|by apply refuse_run].
  rewrite run_bind, run_call. cbn [kexec fst snd posix_call]. unfold entries_of in He.
  destruct (locate_ino k true (root ++ map Normal ps)) as [i|e]; cbn [res_bind] in *.
  2: rewrite Z.add_0_r; by apply sent_here.
  destruct (ents_at k i) as [es|].
  2: rewrite Z.add_0_r; by apply sent_here.
  rewrite readdir_loop_spec by (simpl; lia). cbn [app length]. rewrite Nat.sub_0_r.
  fold (page_at (map dir_entry (list_dir k es)) (rdq_cursor q)). rewrite bool_decide_true by done. cbn [negb].
  rewrite orb_false_r. by apply sent_here.
Qed.

Lemma statfs_run q raw : decode raw = Some q -> answered (run kexec (handle_statfs root raw) (k, s)) (RStatfs q).
Proof.
  intros Hd b He Hb. unfold handle_statfs. rewrite (decoded_run _ _ _ _ Hd). resolving. cbn [at_reference] in *.
  destruct (ref_resolve rs r k (pq_path q)) as [ps|e] eqn:Er; cbn [res_map fst snd] in *; [|by apply refuse_run].
  destruct (resolved_no_nul k _ ps Er Hroot) as [_ Hn]. unfold query_statfs. rewrite Hn, run_bind, run_bind, run_call.
  cbn [kexec fst snd posix_call]. rewrite run_ret. destruct (locate_ino k true _) as [i|e]; by apply sent_here.
Qed.

(** The attribute handlers are the reference. *)
Lemma attribute_handlers_run q raw : at_decodes q raw -> answered (run kexec (at_handler q raw) (k, s)) q.
Proof.
  destruct q as [q|q|q|q]; cbn [at_decodes at_handler].
  - apply getattr_run.
  - apply setattr_run.
  - intros [Hd Hc]. by apply readdir_run.
  - apply statfs_run.
Qed.
End Runs.
End Handlers.
End Root.
