(* ===== verification/Reference.v ===== *)
(** * Properties of the reference operations

    What [Namespace] and [Attributes] compare the handlers with: the reference
    operations do not depend on which files happen to be open, and they keep what a
    request starts from: the export root where it is, everything outside it
    untouched, and modes made of permission bits.  At the end, what an open does with a
    path that was resolved earlier. *)

From S2P Require Import Prelude Prog Text Status Frames Os Sanitize WriteLock Confine Reply MetaOps FileServer Posix Jail Namespace Attributes.

(** ** Open files do not matter *)

Lemma with_fds_fail {A} f code k : with_fds f (fail (A := A) code k) = fail code (set_fds f k).
Proof. done. Qed.

Section Root.
Context (rs : list str) (r : Z).
Abbreviation root := (RootDir :: map Normal rs).

Lemma link_mid_fds f k d cs : link_mid (set_fds f k) d cs = link_mid k d cs.
Proof.
  revert d. induction cs as [|c cs IH]; intros d; [done|]. destruct cs as [|c' cs]; [done|]. cbn [link_mid].
  change (ents_at (set_fds f k)) with (ents_at k). destruct (ents_at k d) as [e|]; [|done]. destruct (e !! c) as [i|]; [|done].
  change (kind_at (set_fds f k)) with (kind_at k). destruct (kind_at k i) as [[| |]|]; done || apply IH.
Qed.

Lemma locate_fds f k follow p : locate (set_fds f k) follow p = locate k follow p.
Proof. unfold locate. apply namei_fds. Qed.

Lemma locate_ino_fds f k follow p : locate_ino (set_fds f k) follow p = locate_ino k follow p.
Proof. unfold locate_ino. by rewrite locate_fds. Qed.

Lemma ref_resolve_fds f k cp : ref_resolve rs r (set_fds f k) cp = ref_resolve rs r k cp.
Proof.
  unfold ref_resolve. destruct (normalize cp) as [cs|e]; [|done]. rewrite link_mid_fds. unfold stays. by rewrite locate_fds.
Qed.

(** An outcome that is the same but for the files open before. *)
Definition fds_free {A} (op : posix -> A * posix) : Prop := forall f k, op (set_fds f k) = with_fds f (op k).

Lemma in_dir_fds {A : Type} (cs : list str) (body : posix -> Z -> gmap (list Z) Z -> io A * posix) :
  (forall f k d e, body (set_fds f k) d e = with_fds f (body k d e)) -> fds_free (fun k => in_dir r k cs (body k)).
Proof.
  intros Hb f k. unfold in_dir. rewrite dir_at_fds. destruct (dir_at r k cs) as [d|e]; [|done].
  change (ents_at (set_fds f k)) with (ents_at k). destruct (ents_at k d) as [e|]; [apply Hb|done].
Qed.

Lemma at_path_fds {A : Type} (ps : list str) (ref : list str -> str -> posix -> io A * posix) :
  (forall cs c, fds_free (ref cs c)) -> fds_free (fun k => at_path rs ps k (fun cs c => ref cs c k)).
Proof. intros Hr f k. unfold at_path. destruct (last ps); [apply Hr|done]. Qed.

Lemma at_paths_fds (ps qs : list str) (ref : list str -> str -> list str -> str -> posix -> io unit * posix) :
  (forall cs c cs' c', fds_free (ref cs c cs' c')) ->
  fds_free (fun k => at_paths rs r ps qs k (fun cs c cs' c' => ref cs c cs' c' k)).
Proof.
  intros Hr. unfold at_paths. apply (at_path_fds ps (fun cs c k => match last qs with
    | Some c' => ref cs c (removelast qs) c' k | None => in_dir r k cs (fun _ _ => (Err (root_error rs), k)) end)).
  intros cs c. destruct (last qs); [apply Hr|]. by apply (in_dir_fds cs (fun k _ _ => (Err (root_error rs), k))).
Qed.

Lemma ref_mkdir_fds cs c m : fds_free (ref_mkdir r cs c m).
Proof. apply (in_dir_fds cs (create_in c (KDir ∅) m)). intros. apply create_in_fds. Qed.

Lemma ref_remove_fds cs c dir : fds_free (ref_remove r cs c dir).
Proof. apply (in_dir_fds cs (unlink_in c dir)). intros. apply unlink_in_fds. Qed.

Lemma symlink_ref_fds target cs c : fds_free (fun k => symlink_ref r target k cs c).
Proof.
  unfold symlink_ref. destruct (no_nul target).
  - apply (in_dir_fds cs (create_in c (KLink target) 0x1ff)). intros. apply create_in_fds.
  - by apply (in_dir_fds cs (fun k _ _ => (Err io_invalid_input, k))).
Qed.

Lemma ref_readlink_fds cs c : fds_free (ref_readlink r cs c).
Proof.
  apply (in_dir_fds cs (fun k _ e => match e !! c with
    | None => fail ENOENT k
    | Some i => match kind_at k i with Some (KLink t) => (Ok t, k) | _ => fail EINVAL k end end)).
  intros f k d e. destruct (e !! c) as [i|]; [|done]. change (kind_at (set_fds f k)) with (kind_at k).
  by destruct (kind_at k i) as [[]|].
Qed.

Lemma two_dirs_fds (cs cs' : list str) (body : posix -> Z -> gmap (list Z) Z -> Z -> gmap (list Z) Z -> io unit * posix) :
  (forall f k d e d' e', body (set_fds f k) d e d' e' = with_fds f (body k d e d' e')) ->
  fds_free (fun k => in_dir r k cs (fun d e => in_dir r k cs' (body k d e))).
Proof.
  intros Hb. apply (in_dir_fds cs (fun k d e => in_dir r k cs' (body k d e))). intros f k d e.
  by apply (in_dir_fds cs' (fun k => body k d e)).
Qed.

Lemma ref_link_fds cs c cs' c' : fds_free (ref_link r cs c cs' c').
Proof.
  apply (two_dirs_fds cs cs' (fun k _ e d' e' => match e !! c with None => fail ENOENT k | Some i => link_in i c' k d' e' end)).
  intros f k d e d' e'. destruct (e !! c) as [i|]; [apply link_in_fds|done].
Qed.

Lemma ref_rename_fds cs c cs' c' : fds_free (ref_rename r cs c cs' c').
Proof.
  apply (two_dirs_fds cs cs' (fun k d e d' e' => match e !! c with None => fail ENOENT k | Some i => rename_in i d c c' k d' e' end)).
  intros f k d e d' e'. destruct (e !! c) as [i|]; [apply rename_in_fds|done].
Qed.

Lemma stat_at_fds f follow ps k : stat_at rs follow ps (set_fds f k) = stat_at rs follow ps k.
Proof. unfold stat_at. by rewrite locate_ino_fds. Qed.

Lemma stat_answer_fds op seq follow ps f out :
  stat_answer rs op seq follow ps (with_fds f out) = with_fds f (stat_answer rs op seq follow ps out).
Proof. unfold stat_answer, with_fds. cbn [fst snd]. by rewrite stat_at_fds. Qed.

(** The answer and the file system are those of the reference, whatever is open. *)
Lemma ns_reference_fds q : fds_free (ns_reference rs r q).
Proof.
  intros f k. destruct q as [q|q|q|q|q|q|q]; cbn [ns_reference]; rewrite ?ref_resolve_fds.
  - destruct (ref_resolve rs r k _) as [ps|e]; [|done].
    rewrite (at_path_fds ps (fun cs c k => ref_mkdir r cs c (Z.land (mdq_mode q) perm_mask) k)) by (intros; apply ref_mkdir_fds).
    by rewrite stat_answer_fds.
  - destruct (ref_resolve rs r k _) as [ps|e]; [|done].
    by rewrite (at_path_fds ps (fun cs c k => ref_remove r cs c true k)) by (intros; apply ref_remove_fds).
  - destruct (ref_resolve rs r k _) as [ps|e]; [|done].
    by rewrite (at_path_fds ps (fun cs c k => ref_remove r cs c false k)) by (intros; apply ref_remove_fds).
  - destruct (ref_resolve rs r k _) as [ps|e]; [|done].
    rewrite (at_path_fds ps (fun cs c k => ref_readlink r cs c k)) by (intros; apply ref_readlink_fds).
    by destruct (at_path rs ps k _).
  - destruct (_ <? _); [done|]. destruct (ref_resolve rs r k _) as [ps|e]; [|done].
    rewrite (at_path_fds ps (fun cs c k => symlink_ref r (slq_target q) k cs c)) by (intros; apply symlink_ref_fds).
    by rewrite stat_answer_fds.
  - destruct (ref_resolve rs r k (rnq_old q)) as [ps|e]; [|done]. destruct (ref_resolve rs r k (rnq_new q)) as [qs|e]; [|done].
    by rewrite (at_paths_fds ps qs (fun cs c cs' c' k => ref_rename r cs c cs' c' k)) by (intros; apply ref_rename_fds).
  - destruct (ref_resolve rs r k (lkq_path q)) as [ps|e]; [|done]. destruct (ref_resolve rs r k (lkq_link q)) as [qs|e]; [|done].
    rewrite (at_paths_fds ps qs (fun cs c cs' c' k => ref_link r cs c cs' c' k)) by (intros; apply ref_link_fds).
    by rewrite stat_answer_fds.
Qed.

Lemma ref_truncate_fds ps size : fds_free (ref_truncate r ps size).
Proof.
  intros f k. unfold ref_truncate. rewrite file_at_fds. destruct (file_at r false ps k) as [i|e]; [|done].
  change (k_nodes (set_fds f k)) with (k_nodes k). destruct (k_nodes k !! i) as [n|]; [|done]. by destruct (i_kind n).
Qed.

Lemma ref_attrs_fds ps mode a m : fds_free (ref_attrs r ps mode a m).
Proof.
  intros f k. unfold ref_attrs. rewrite file_at_fds. destruct (file_at r true ps k) as [i|e]; [|done].
  change (k_nodes (set_fds f k)) with (k_nodes k). destruct (k_nodes k !! i) as [n|]; [|done]. cbv zeta.
  by destruct (settable a && settable m).
Qed.

Lemma ref_setattr_fds req ps : fds_free (ref_setattr r req ps).
Proof.
  intros f k. unfold ref_setattr. assert (exists x k', (if has_bits (saq_valid req) 0x8 then ref_truncate r ps (saq_size req) k else (Ok tt, k)) = (x, k') /\
    (if has_bits (saq_valid req) 0x8 then ref_truncate r ps (saq_size req) (set_fds f k) else (Ok tt, set_fds f k)) = (x, set_fds f k')) as (x & k' & -> & ->).
  { destruct (has_bits _ _); [|by exists (Ok tt), k]. rewrite ref_truncate_fds. destruct (ref_truncate r ps _ k) as [x k']. by exists x, k'. }
  destruct x as [[]|e]; [|done]. destruct (has_bits _ _); [apply ref_attrs_fds|done].
Qed.

Lemma stat_of_fds f ps k : stat_of rs ps (set_fds f k) = stat_of rs ps k.
Proof. unfold stat_of. by rewrite locate_ino_fds. Qed.

Lemma at_reference_fds q : fds_free (at_reference rs r q).
Proof.
  intros f k. destruct q as [q|q|q|q]; cbn [at_reference]; rewrite ref_resolve_fds.
  - destruct (ref_resolve rs r k _) as [ps|e]; [by rewrite stat_of_fds|done].
  - destruct (ref_resolve rs r k _) as [ps|e]; [|done]. rewrite ref_setattr_fds.
    destruct (ref_setattr r q ps k) as [x k']. unfold with_fds. cbn [fst snd]. by rewrite stat_of_fds.
  - destruct (ref_resolve rs r k _) as [ps|e]; [|done]. unfold entries_of. by rewrite locate_ino_fds.
  - destruct (ref_resolve rs r k _) as [ps|e]; [|done]. by rewrite locate_ino_fds.
Qed.
End Root.

(** ** What a request starts from is kept *)

Section Keep.
Context (k0 : posix) (J0 : gset Z) (rs : list str) (r : Z).
Hypothesis Hex : exports k0 J0 rs r.
Hypothesis Hdir : is_Some (ents_at k0 r).

(** Nothing outside the export has changed, and modes are permission bits. *)
Record good (k : posix) : Prop := { gd_jail : jailed k0 J0 true k; gd_modes : modes_ok k }.
Abbreviation inn k := (inside k0 J0 k).

Lemma export_root_inside k : r ∈ inn k.
Proof. unfold inside. pose proof (ex_root _ _ _ _ Hex). set_solver. Qed.

Lemma good_fds f k : good k -> good (set_fds f k).
Proof. intros [Hj Hm]. split; [by apply jailed_fds|done]. Qed.

Lemma leads_plain k d cs : jailed k0 J0 true k -> leads k0 J0 d cs r -> clear k d cs = true /\ plain k d cs = Ok r.
Proof.
  intros Hj. revert d. induction cs as [|c cs IH]; intros d; [by intros ->|]. intros (Hd & e & i & He & Hc & Hi & Hl).
  assert (ents_at k d = Some e) as Hk.
  { assert (d ∉ inn k) as Hout%(j_outside _ _ _ _ Hj).
    { apply ents_at_node in He as (n & Hn & _). assert (d ∈ dom (k_nodes k0)) by (apply elem_of_dom; eauto).
      unfold inside. set_solver. }
    apply same_kind in Hout. unfold ents_at, kind_at in *. by rewrite Hout. }
  cbn [clear plain]. rewrite Hk, Hc. apply (j_dirs _ _ _ _ Hj) in Hi as [e' (n & Hn & Hkn)%ents_at_node].
  unfold kind_at. rewrite Hn. simpl. rewrite Hkn. by apply IH.
Qed.

(** The root is where it was. *)
Lemma good_exported k : good k -> exported k rs r.
Proof.
  intros [Hj _]. destruct (leads_plain k (k_slash k0) rs Hj (ex_leads _ _ _ _ Hex)) as [Hc Hp].
  unfold exported. rewrite (j_slash _ _ _ _ Hj). split_and!; [done|done|]. by apply (j_dirs _ _ _ _ Hj).
Qed.

Lemma modes_put i n k : modes_ok k -> 0 <= i_mode n < 0x1000 -> modes_ok (put_node i n k).
Proof.
  intros Hm Hn j m Hj. unfold put_node in Hj. simpl in Hj.
  apply lookup_insert_Some in Hj as [[-> ->]|[_ Hj]]; [done|by eapply Hm].
Qed.

Lemma modes_set_entry d c j k : modes_ok k -> modes_ok (set_entry d c j k).
Proof.
  intros Hm. unfold set_entry. destruct (k_nodes k !! d) as [n|] eqn:En; [|done]. destruct (i_kind n); [|done..].
  apply modes_put; [done|]. simpl. by eapply Hm.
Qed.

Lemma good_entry d c j k : good k -> d ∈ inn k -> (forall i, j = Some i -> i ∈ inn k) -> good (set_entry d c j k).
Proof. intros [Hj Hm] Hd Hi. split; [by apply set_entry_jailed|by apply modes_set_entry]. Qed.

Lemma good_new_entry d c t m k :
  good k -> d ∈ inn k -> (forall e, t = KDir e -> e = ∅) -> 0 <= m < 0x1000 ->
  good (set_entry d c (Some (new_ino k)) (add_node (new_inode t m) k)).
Proof.
  intros [Hj Hm] Hd Ht Hmode. split.
  - destruct (keeps_new_entry k0 J0 true k d c (new_inode t m) tt Hj Hd) as [H _]; [|done].
    simpl. intros e c' j He. rewrite (Ht e) by done. by rewrite lookup_empty.
  - apply modes_set_entry. by apply modes_put.
Qed.

(** A new inode in place of one inside, of the same kind or, for a file, with
    other contents. *)
Lemma good_put i n n' k :
  good k -> i ∈ inn k -> k_nodes k !! i = Some n -> 0 <= i_mode n' < 0x1000 ->
  i_kind n' = i_kind n \/ (exists d d', i_kind n = KFile d /\ i_kind n' = KFile d') -> good (put_node i n' k).
Proof.
  intros [Hj Hm] Hi Hn Hmode Hk. split; [|by apply modes_put]. apply put_node_jailed; [done|done|eauto| |].
  - intros e c j He. destruct Hk as [E|(d & d' & _ & E)]; [|congruence]. rewrite E in He. intros Hc.
    eapply (j_closed _ _ _ _ Hj i e); [done| |done]. unfold ents_at, kind_at. rewrite Hn. simpl. by rewrite He.
  - intros [e (n1 & Hn1 & He)%ents_at_node]. simplify_eq. destruct Hk as [->|(d & d' & E & _)]; [by exists e|congruence].
Qed.

Lemma plain_inside k d cs i : good k -> d ∈ inn k -> plain k d cs = Ok i -> i ∈ inn k.
Proof.
  intros [Hj _]. revert d. induction cs as [|c cs IH]; intros d Hd; [by intros [= <-]|]. cbn [plain].
  destruct (ents_at k d) as [e|] eqn:He; [|done]. destruct (e !! c) as [j|] eqn:Hc; [|done].
  apply IH. by eapply (j_closed _ _ _ _ Hj).
Qed.

Lemma file_at_inside follow ps k i : good k -> file_at r follow ps k = Ok i -> i ∈ inn k.
Proof.
  intros [Hj _]. unfold file_at. destruct (namei k true follow MAXSYMLINKS r [] (rel_of ps)) as [[b st]|e] eqn:E; [|done].
  intros [= <-]. by eapply namei_here, E; [|apply export_root_inside].
Qed.

(** An outcome whose file system is good. *)
Abbreviation goodr out := (good (snd out)).

Lemma in_dir_good {A : Type} (k : posix) (cs : list str) (body : Z -> gmap (list Z) Z -> io A * posix) :
  good k -> (forall d e, d ∈ inn k -> ents_at k d = Some e -> goodr (body d e)) -> goodr (in_dir r k cs body).
Proof.
  intros Hg Hb. unfold in_dir, dir_at. destruct (plain k r cs) as [d|e] eqn:Ep; [|done].
  destruct (kind_at k d) as [[| |]|]; try done. destruct (ents_at k d) as [e|] eqn:Ee; [|done].
  apply Hb; [|done]. eapply plain_inside; [done|apply export_root_inside|done].
Qed.

Lemma at_path_good {A : Type} (ps : list str) (k : posix) (ref : list str -> str -> io A * posix) :
  good k -> (forall cs c, goodr (ref cs c)) -> goodr (at_path rs ps k ref).
Proof. intros Hg Hr. unfold at_path. by destruct (last ps). Qed.

Lemma at_paths_good (ps qs : list str) (k : posix) ref :
  good k -> (forall cs c cs' c', goodr (ref cs c cs' c')) -> goodr (at_paths rs r ps qs k ref).
Proof. intros Hg Hr. apply at_path_good; [done|]. intros cs c. destruct (last qs); [done|]. by apply in_dir_good. Qed.

Lemma create_in_good c t m k d e :
  good k -> d ∈ inn k -> (forall e, t = KDir e -> e = ∅) -> 0 <= m < 0x1000 -> goodr (create_in c t m k d e).
Proof. intros. unfold create_in. destruct (e !! c); [done|]. by apply good_new_entry. Qed.

Lemma unlink_in_good c dir k d e : good k -> d ∈ inn k -> goodr (unlink_in c dir k d e).
Proof.
  intros Hg Hd. unfold unlink_in. destruct (e !! c) as [i|]; [|done]. assert (good (set_entry d c None k)) by (by apply good_entry).
  destruct (kind_at k i) as [[e'| |]|], dir; try done. by destruct (bool_decide _).
Qed.

Lemma link_in_good i c k d e : good k -> d ∈ inn k -> i ∈ inn k -> goodr (link_in i c k d e).
Proof.
  intros Hg Hd Hi. unfold link_in. destruct (e !! c); [done|].
  assert (good (set_entry d c (Some i) k)) by (apply good_entry; [done|done|by intros ? [= <-]]). by destruct (kind_at k i) as [[]|].
Qed.

Lemma rename_in_good i od oc nc k nd ne :
  good k -> od ∈ inn k -> nd ∈ inn k -> i ∈ inn k -> goodr (rename_in i od oc nc k nd ne).
Proof.
  intros Hg Hod Hnd Hi. unfold rename_in.
  assert (good (set_entry nd nc (Some i) (set_entry od oc None k))) as Hm.
  { apply good_entry; [by apply good_entry|by rewrite inside_set_entry|]. intros ? [= <-]. by rewrite inside_set_entry. }
  destruct (match kind_at k i with Some (KDir _) => _ | _ => false end); [done|].
  destruct (ne !! nc) as [j|]; [|done]. destruct (i =? j); [done|].
  destruct (kind_at k i) as [[| |]|], (kind_at k j) as [[| |]|]; try done; by destruct (bool_decide _).
Qed.

Lemma perm_mode m : 0 <= Z.land m perm_mask < 0x1000.
Proof.
  change perm_mask with (Z.ones 9). rewrite Z.land_ones by lia. pose proof (Z.mod_pos_bound m (2 ^ 9)). lia.
Qed.

Lemma entry_inside k d e c i : good k -> d ∈ inn k -> ents_at k d = Some e -> e !! c = Some i -> i ∈ inn k.
Proof. intros [Hj _]. apply (j_closed _ _ _ _ Hj). Qed.

(** Every name-space request. *)
Lemma ns_reference_good q k : good k -> goodr (ns_reference rs r q k).
Proof.
  intros Hg. destruct q as [q|q|q|q|q|q|q]; cbn [ns_reference].
  - destruct (ref_resolve rs r k _) as [ps|e]; [|done]. apply at_path_good; [done|]. intros cs c.
    apply in_dir_good; [done|]. intros d e Hd _. apply create_in_good; [done|done|by intros ? [= <-]|apply perm_mode].
  - destruct (ref_resolve rs r k _) as [ps|e]; [|done]. apply at_path_good; [done|]. intros cs c.
    apply in_dir_good; [done|]. intros d e Hd _. by apply unlink_in_good.
  - destruct (ref_resolve rs r k _) as [ps|e]; [|done]. apply at_path_good; [done|]. intros cs c.
    apply in_dir_good; [done|]. intros d e Hd _. by apply unlink_in_good.
  - destruct (ref_resolve rs r k _) as [ps|e]; [|done].
    assert (goodr (at_path rs ps k (fun cs c => ref_readlink r cs c k))) as H; [|by destruct (at_path rs ps k _)].
    apply at_path_good; [done|]. intros cs c. apply in_dir_good; [done|]. intros d e _ _.
    destruct (e !! c) as [i|]; [|done]. by destruct (kind_at k i) as [[]|].
  - destruct (_ <? _); [done|]. destruct (ref_resolve rs r k _) as [ps|e]; [|done]. apply at_path_good; [done|]. intros cs c.
    unfold symlink_ref. destruct (no_nul _); (apply in_dir_good; [done|]; intros d e Hd _); [by apply create_in_good|done].
  - destruct (ref_resolve rs r k (rnq_old q)) as [ps|e]; [|done]. destruct (ref_resolve rs r k (rnq_new q)) as [qs|e]; [|done].
    apply at_paths_good; [done|]. intros cs c cs' c'. apply in_dir_good; [done|]. intros d e Hd He.
    apply in_dir_good; [done|]. intros d' e' Hd' _. destruct (e !! c) as [i|] eqn:Ei; [|done].
    apply rename_in_good; [done..|]. by apply (entry_inside k d e c).
  - destruct (ref_resolve rs r k (lkq_path q)) as [ps|e]; [|done]. destruct (ref_resolve rs r k (lkq_link q)) as [qs|e]; [|done].
    apply at_paths_good; [done|]. intros cs c cs' c'. apply in_dir_good; [done|]. intros d e Hd He.
    apply in_dir_good; [done|]. intros d' e' Hd' _. destruct (e !! c) as [i|] eqn:Ei; [|done].
    apply link_in_good; [done..|]. by apply (entry_inside k d e c).
Qed.

Lemma ref_truncate_good ps size k : good k -> goodr (ref_truncate r ps size k).
Proof.
  intros Hg. unfold ref_truncate. destruct (file_at r false ps k) as [i|e] eqn:Ei; [|done].
  destruct (k_nodes k !! i) as [n|] eqn:En; [|done]. destruct (i_kind n) as [e|d|t] eqn:Ek; [done| |done].
  eapply good_put; [done|by eapply file_at_inside|done|exact (gd_modes _ Hg i n En)|]. right. simpl. eauto.
Qed.

Lemma ref_attrs_good ps mode a m k : good k -> goodr (ref_attrs r ps mode a m k).
Proof.
  intros Hg. unfold ref_attrs. destruct (file_at r true ps k) as [i|e] eqn:Ei; [|done].
  destruct (k_nodes k !! i) as [n|] eqn:En; [|done]. cbv zeta.
  set (n1 := match mode with Some m => _ | None => n end).
  assert (0 <= i_mode n1 < 0x1000 /\ i_kind n1 = i_kind n) as [H1 H2].
  { destruct mode; subst n1; (split; [|done]); [apply perm_mode|exact (gd_modes _ Hg i n En)]. }
  pose proof (file_at_inside _ _ _ _ Hg Ei). destruct (settable a && settable m); (eapply good_put; [done|done|done|done|by left]).
Qed.

(** Every attribute request. *)
Lemma at_reference_good q k : good k -> goodr (at_reference rs r q k).
Proof.
  intros Hg. destruct q as [q|q|q|q]; try done. cbn [at_reference]. destruct (ref_resolve rs r k _) as [ps|e]; [|done].
  assert (goodr (ref_setattr r q ps k)) as H; [|by destruct (ref_setattr r q ps k)]. unfold ref_setattr.
  assert (goodr (if has_bits (saq_valid q) 0x8 then ref_truncate r ps (saq_size q) k else (Ok tt, k))) as H1.
  { destruct (has_bits _ _); [by apply ref_truncate_good|done]. }
  destruct (if has_bits (saq_valid q) 0x8 then _ else _) as [[[]|e] k1]; [|done]. destruct (has_bits _ _); [|done].
  by apply ref_attrs_good.
Qed.
End Keep.

(** ** A path that was resolved earlier *)

Lemma has_bits_cloexec flags mask : Z.land O_CLOEXEC mask = 0 -> has_bits (Z.lor flags O_CLOEXEC) mask = has_bits flags mask.
Proof. intros H. unfold has_bits. by rewrite Z.land_lor_distr_l, H, Z.lor_0_r. Qed.

Lemma anchored_jailed k0 J0 r k : jailed k0 J0 true k -> jailed k0 J0 true (anchored r k).
Proof. apply jailed_fds. Qed.

(** An open that does not create, of a name that leads to a regular file. *)
Lemma open_file_plain rs r k cs i d flags :
  exported k rs r -> clear k r cs = true -> plain k r cs = Ok i -> kind_at k i = Some (KFile d) ->
  has_bits flags O_CREAT = false -> has_bits flags O_DIRECTORY = false ->
  exists fd, fst (do_open true r (rel_of cs) (Z.lor flags O_CLOEXEC) 0 (anchored r k)) = Ok fd /\
    fd_at (snd (do_open true r (rel_of cs) (Z.lor flags O_CLOEXEC) 0 (anchored r k))) fd i.
Proof.
  intros Hex Hc Hp Hk Hcr Hdir. rewrite do_open_file by (by rewrite has_bits_cloexec).
  pose proof (namei_rel rs r k (negb (has_bits (Z.lor flags O_CLOEXEC) O_NOFOLLOW)) cs Hex Hc) as H. rewrite Hp in H.
  destruct H as (st & Hn & Hh). unfold file_at. rewrite Hn. cbn [res_map fst snd]. rewrite Hh.
  unfold open_ino. change (kind_at (anchored r k)) with (kind_at k). rewrite Hk, has_bits_cloexec, Hdir by done.
  cbv zeta. eexists. split; [reflexivity|]. eexists. split; [apply lookup_insert_eq|done].
Qed.

(** C40: the window between [resolve] and the open.  A client's string is resolved on one
    state of the file system and opened on another: in between the other requests may
    have put symbolic links and other files where the checked ones were.  Still, for every
    string, every flags and mode and every tree that keeps the export, nothing outside
    the export changes, and a descriptor that is returned is new and of a file of the
    export.  And a string whose names lead, in the tree that is there at the open,
    through directories to a regular file opens that file, if it is not to be created
    and a directory is not asked for. *)
Theorem open_after_resolve k0 J0 rs r s p flags mode k dk k1 dk1 :
  exports k0 J0 rs r -> is_Some (ents_at k0 r) -> path_no_nul (RootDir :: map Normal rs) = true ->
  good k0 J0 k -> good k0 J0 k1 ->
  fst (run kexec (resolve (RootDir :: map Normal rs) s) (k, dk)) = Ok p ->
  let '(res, (k2, _)) := run kexec (open_confined (RootDir :: map Normal rs) p flags mode) (k1, dk1) in
  jailed k0 J0 true k2 /\
  (forall fd, res = Ok fd -> k_fds k1 !! fd = None /\ exists i, fd_at k2 fd i /\ i ∈ inside k0 J0 k2) /\
  (has_bits flags O_CREAT = false -> has_bits flags O_DIRECTORY = false ->
   forall cs i d, normalize s = Ok cs -> clear k1 r cs = true -> plain k1 r cs = Ok i -> kind_at k1 i = Some (KFile d) ->
     exists fd, res = Ok fd /\ fd_at k2 fd i).
Proof.
  intros Hex Hdir Hnul Hg Hg1. pose proof (good_exported k0 J0 rs r Hex Hdir) as Hexp.
  rewrite (ns_resolve_run rs r k dk s (Hexp k Hg) (gd_modes _ _ _ Hg)). cbn [fst].
  destruct (ref_resolve rs r k s) as [ps|e] eqn:Er; [|done]. intros E.
  assert (p = (RootDir :: map Normal rs) ++ map Normal ps) as -> by (by injection E). clear E.
  destruct (resolved_no_nul rs r k s ps Er Hnul) as [Hn _].
  rewrite (open_confined_posix rs r k1 dk1 ps flags mode (Hexp k1 Hg1) Hnul Hn).
  pose proof (do_open_keeps k0 J0 true r (rel_of ps) (Z.lor flags O_CLOEXEC) (if has_bits flags O_CREAT then mode else 0)
    (anchored r k1) (anchored_jailed _ _ _ _ (gd_jail _ _ _ Hg1)) (export_root_inside k0 J0 rs r Hex Hdir _)) as [[Hj _] Ho].
  assert (forall cs i d, has_bits flags O_CREAT = false -> has_bits flags O_DIRECTORY = false ->
    normalize s = Ok cs -> clear k1 r cs = true -> plain k1 r cs = Ok i -> kind_at k1 i = Some (KFile d) ->
    exists fd, fst (do_open true r (rel_of ps) (Z.lor flags O_CLOEXEC) (if has_bits flags O_CREAT then mode else 0) (anchored r k1)) = Ok fd /\
      fd_at (snd (do_open true r (rel_of ps) (Z.lor flags O_CLOEXEC) (if has_bits flags O_CREAT then mode else 0) (anchored r k1))) fd i) as Hfile.
  { intros cs i d Hcr Hd Hcs Hc Hp Hk. rewrite Hcr. unfold ref_resolve in Er. rewrite Hcs in Er.
    assert (cs = ps) as -> by (destruct (link_mid k r cs), (stays rs k cs); congruence). by eapply open_file_plain; [apply Hexp|..]. }
  destruct (do_open _ _ _ _ _ _) as [res k2]. cbn [fst snd] in *. split_and!; [done| |by eauto].
  intros fd E. destruct (Ho fd E) as [Hnew Hin]. split; [|done].
  unfold anchored in Hnew. cbn [put_fd set_fds k_fds] in Hnew. by apply lookup_insert_None in Hnew as [? _].
Qed.

Lemma open_after_resolve_witness :
  let k := MkPosix (<[1 := new_inode (KDir {[lit "srv" := 2; lit "etc" := 3]}) 0x1ed]>
             (<[2 := new_inode (KDir {[lit "f" := 4]}) 0x1ed]> (<[3 := new_inode (KDir ∅) 0x1ed]>
               {[4 := new_inode (KFile [x61]) 0x1a4]}))) ∅ 1 0x12 (MkStatvfs 0 0 0 0 0 0 0 0) in
  let '(res, (k2, _)) := run kexec (open_confined [RootDir; Normal (lit "srv")] [RootDir; Normal (lit "srv"); Normal (lit "f")]
                           O_RDONLY 0) (k, no_desk) in
  exists fd, res = Ok fd /\ fd_at k2 fd 4.
Proof.
  intros k.
  assert (exports k {[2; 4]} [lit "srv"] 2) as Hex.
  { split; [set_solver| |].
    - split; [apply (bool_decide_unpack _); by vm_compute|]. eexists _, 2. split_and!; [done|by vm_compute|by eexists|done].
    - intros d e c i Hd He Hc. apply elem_of_union in Hd as [->%elem_of_singleton| ->%elem_of_singleton].
      + assert (ents_at k 2 = Some {[lit "f" := 4]}) as E by reflexivity. rewrite E in He. injection He as <-. apply lookup_singleton_Some in Hc as [_ <-]. set_solver.
      + done. }
  assert (good k {[2; 4]} k) as Hg.
  { split; [apply jailed_start; intros d e c i; by apply (ex_closed _ _ _ _ Hex)|].
    apply map_Forall_to_list. apply (bool_decide_unpack _). by vm_compute. }
  pose proof (open_after_resolve k {[2; 4]} [lit "srv"] 2 (lit "/./f") [RootDir; Normal (lit "srv"); Normal (lit "f")]
    O_RDONLY 0 k no_desk k no_desk Hex ltac:(by eexists) eq_refl Hg Hg ltac:(by vm_compute)) as H.
  change (map Normal [lit "srv"]) with [Normal (lit "srv")] in H.
  destruct (run kexec _ _) as [res [k2 dk2]]. destruct H as (_ & _ & H).
  apply (H eq_refl eq_refl [lit "f"] 4 [x61]); by vm_compute.
Defined.
