(* ===== verification/Volume.v ===== *)
(** * A session on a file system

    The server's service to one client, as it should be: a [volume] is a file system
    and a table of open files, which are inodes, without descriptors, cursors, locks
    or paths, and [vol_serve] is what each request does to it and the frames it is
    answered with.  [Namespace] and [Attributes] give the operations on paths; here
    are those on open files, and what it takes for a process to hold a volume.
    [Service] proves that the server does. *)

From S2P Require Import Prelude Prog Text Status Frames FrameIo Os Sanitize WriteLock Handles Reply MetaOps DataOps FileServer Posix Jail Namespace Attributes.

(** ** What every call keeps *)

(** A call changes inodes, opens files and moves cursors, and nothing else. *)
Section Calls.
Context (R : posix -> posix -> Prop) `{!PreOrder R}.
Hypothesis R_node : forall i n k, R k (put_node i n k).
Hypothesis R_new : forall f k, R k (put_fd (new_fd k) f k).
Hypothesis R_move : forall fd f pos k, k_fds k !! fd = Some f -> R k (move_fd fd f pos k).

Lemma call_entry d c j k : R k (set_entry d c j k).
Proof. unfold set_entry. destruct (k_nodes k !! d) as [n|]; [|done]. by destruct (i_kind n). Qed.

Lemma call_new_entry d c i n k : R k (set_entry d c (Some i) (add_node n k)).
Proof. etrans; [|apply call_entry]. apply R_node. Qed.

Lemma call_open_ino i flags k : R k (snd (open_ino i flags k)).
Proof.
  unfold open_ino. destruct (kind_at k i) as [[| |]|]; [| | |done].
  - destruct (_ && _); [done|apply R_new].
  - destruct (has_bits flags O_DIRECTORY); [done|]. cbv zeta. cbn [snd]. etrans; [|apply R_new].
    destruct (_ && _); [|done]. by destruct (k_nodes k !! i).
  - destruct (has_bits _ _); [apply R_new|done].
Qed.

Lemma call_do_open beneath base p flags mode k : R k (snd (do_open beneath base p flags mode k)).
Proof.
  unfold do_open. destruct (has_bits flags O_CREAT).
  - destruct (split_last p) as [[dir c]|]; [|done]. destruct (namei _ _ _ _ _ _ _) as [[b st]|]; [|done].
    destruct (ents_at k _) as [e|]; [|done]. destruct (e !! c) as [i|].
    + destruct (has_bits flags O_EXCL); [done|]. pose proof (call_open_ino i flags k). by destruct (kind_at k i) as [[| |]|].
    + cbn [snd]. etrans; [|apply R_new]. apply call_new_entry.
  - destruct (namei _ _ _ _ _ _ _) as [[b st]|]; [apply call_open_ino|done].
Qed.

Lemma call_at_dir {A} (k : posix) (fd : Z) (body : Z -> gmap (list Z) Z -> io A * posix) :
  (forall d e, R k (snd (body d e))) -> R k (snd (at_dir k fd body)).
Proof. intros Hb. unfold at_dir. destruct (fd_dir k fd) as [[d e]|]; [apply Hb|done]. Qed.

Lemma call_on_file {A} may code (k : posix) (fd : Z) (body : ofd -> inode -> bytes -> io A * posix) :
  (forall f n d, k_fds k !! fd = Some f -> R k (snd (body f n d))) -> R k (snd (on_file may code k fd body)).
Proof.
  intros Hb. unfold on_file. destruct (k_fds k !! fd) as [f|] eqn:Ef; [|done]. destruct (fd_opath f); [done|].
  destruct (negb _); [done|]. destruct (k_nodes k !! fd_ino f) as [n|]; [|done]. destruct (i_kind n); [done| |done]. by apply Hb.
Qed.

Lemma call_on_inode k fd body : R k (snd (on_inode k fd body)).
Proof. unfold on_inode. destruct (k_fds k !! fd) as [f|]; [|done]. destruct (k_nodes k !! fd_ino f); done || apply R_node. Qed.

Lemma call_create_in c t m k d e : R k (snd (create_in c t m k d e)).
Proof. unfold create_in. destruct (e !! c); [done|apply call_new_entry]. Qed.

Lemma call_rename_in i od oc nc k nd ne : R k (snd (rename_in i od oc nc k nd ne)).
Proof.
  unfold rename_in. assert (R k (set_entry nd nc (Some i) (set_entry od oc None k))) as Hm by (etrans; apply call_entry).
  destruct (match kind_at k i with Some (KDir _) => _ | _ => false end); [done|]. destruct (ne !! nc) as [j|]; [|done].
  destruct (i =? j); [done|]. destruct (kind_at k i) as [[| |]|], (kind_at k j) as [[| |]|]; try done; by destruct (bool_decide _).
Qed.

Lemma call_posix X (e : sysE X) k : R k (snd (posix_call X e k)).
Proof.
  destruct e; cbn [posix_call]; try done.
  - apply call_do_open.
  - destruct (k_fds k !! _) as [f|]; [|done]. destruct (has_bits _ _); [apply call_do_open|done].
  - apply call_at_dir. intros. apply call_create_in.
  - unfold do_fchmodat. destruct (k_fds k !! _) as [f|]; [|done]. destruct (namei _ _ _ _ _ _ _) as [[b st]|]; [|done].
    destruct (k_nodes k !! _); done || apply R_node.
  - apply call_at_dir. intros d e. unfold unlink_in. destruct (e !! _) as [i|]; [|done].
    destruct (kind_at k i) as [[e'| |]|], (has_bits _ _); try destruct (bool_decide _); done || apply call_entry.
  - apply call_at_dir. intros. apply call_create_in.
  - apply call_at_dir. intros d e. destruct (e !! _) as [i|]; [|done]. apply call_at_dir. intros d' e'. unfold link_in.
    destruct (e' !! _); [done|]. destruct (kind_at k i) as [[]|]; done || apply call_entry.
  - apply call_at_dir. intros d e. destruct (e !! _) as [i|]; [|done]. apply call_at_dir. intros. apply call_rename_in.
  - apply call_at_dir. intros d e. destruct (e !! _) as [i|]; [|done]. by destruct (kind_at k i) as [[]|].
  - apply call_on_file. intros. apply R_node.
  - apply call_on_inode.
  - apply call_on_inode.
  - unfold do_utimens. destruct (_ && _); [apply call_on_inode|done].
  - unfold do_seek. destruct (k_fds k !! _) as [f|] eqn:Ef; [|done]. destruct (fd_opath f); [done|]. by apply R_move.
  - apply call_on_file. intros. by apply R_move.
  - unfold do_write_fd. destruct data as [|x data]; [done|]. apply call_on_file. intros f n d Hf. cbn [snd].
    etrans; [apply R_node|]. by apply R_move.
Qed.

Lemma call_kexec X (e : sysE X) w : R (fst w) (fst (snd (kexec X e w))).
Proof.
  destruct w as [k s]. pose proof (call_posix X e k) as H.
  destruct e; cbn [kexec fst snd] in *; try done;
    repeat match goal with
           | |- context [let '(_, _) := posix_call ?T ?e ?k in _] => destruct (posix_call T e k) as [??]
           | |- context [if ?b then _ else _] => destruct b
           | |- context [let '(_, _) := try_insert ?a ?b ?c ?d ?e ?f in _] => destruct (try_insert a b c d e f) as [??]
           end; done.
Qed.

Lemma call_run {A} (m : sys A) w : R (fst w) (fst (snd (run kexec m w))).
Proof.
  revert w. induction m as [a|X e cont IH]; intros w; [done|]. pose proof (call_kexec X e w) as H.
  change (run kexec (Vis e cont) w) with (let '(x, w') := kexec X e w in run kexec (cont x) w').
  destruct (kexec X e w) as [x w']. etrans; [exact H|apply IH].
Qed.
End Calls.

(** Every open file is still open, its cursor perhaps moved. *)
Definition fds_kept (k k' : posix) : Prop :=
  forall fd o, k_fds k !! fd = Some o ->
    exists pos, k_fds k' !! fd = Some (MkOfd (fd_ino o) pos (fd_append o) (fd_opath o) (fd_access o)).

#[export] Instance fds_kept_preorder : PreOrder fds_kept.
Proof.
  split.
  - intros k fd o Ho. exists (fd_pos o). by destruct o.
  - intros k k' k'' H1 H2 fd o (pos & Ho)%H1. destruct (H2 _ _ Ho) as (pos' & Ho'). by exists pos'.
Qed.

Lemma fds_kept_eq k k' : k_fds k' = k_fds k -> fds_kept k k'.
Proof. intros E fd o Ho. exists (fd_pos o). rewrite E. by destruct o. Qed.

Lemma fds_kept_new k k' f : k_fds k' = k_fds k -> fds_kept k (put_fd (new_fd k') f k').
Proof.
  intros E fd o Ho. exists (fd_pos o). unfold put_fd. simpl. rewrite lookup_insert_ne; [rewrite E; by destruct o|].
  intros <-. rewrite <- E in Ho. by rewrite new_fd_fresh in Ho.
Qed.

(** Whatever the server does, open files stay what they are. *)
Lemma run_kept {A} (m : sys A) w : fds_kept (fst w) (fst (snd (run kexec m w))).
Proof.
  apply call_run; [apply _|intros; by apply fds_kept_eq|intros; by apply fds_kept_new|].
  intros fd f pos k Hf fd' o Ho. unfold move_fd, put_fd. simpl. destruct (decide (fd' = fd)) as [->|Hne].
  - rewrite lookup_insert_eq. exists pos. congruence.
  - rewrite lookup_insert_ne by done. exists (fd_pos o). by destruct o.
Qed.

(** No inode is forgotten. *)
Definition grown (k k' : posix) : Prop := dom (k_nodes k) ⊆ dom (k_nodes k').

#[export] Instance grown_preorder : PreOrder grown.
Proof. unfold grown. split; [by intros k|]. intros k k' k''. set_solver. Qed.

Lemma run_grown {A} (m : sys A) w : grown (fst w) (fst (snd (run kexec m w))).
Proof.
  apply (call_run grown); [|intros; unfold grown; reflexivity..]. intros i n k. unfold grown, put_node. simpl. rewrite dom_insert_L. set_solver.
Qed.

(** ** The reference *)

(** An open file: its inode, the flags the client gave, the access it got. *)
Record vhandle := MkVhandle { vh_ino : Z; vh_flags : Z; vh_access : Z }.

Record volume := MkVolume {
  v_fs : posix;
  v_open : gmap Z vhandle;
  v_next : Z;       (** the next handle *)
  v_max : Z         (** how many may be open *)
}.

Definition set_vfs (k : posix) (v : volume) : volume := MkVolume k (v_open v) (v_next v) (v_max v).

(** A new handle, unless too many are open. *)
Definition v_insert (h : vhandle) (v : volume) : option Z * volume :=
  if v_max v <=? Z.of_nat (size (v_open v)) then (None, v)
  else (Some (v_next v), MkVolume (v_fs v) (<[v_next v := h]> (v_open v)) (wrap64 (v_next v + 1)) (v_max v)).

Definition v_remove (id : Z) (v : volume) : volume := MkVolume (v_fs v) (delete id (v_open v)) (v_next v) (v_max v).

(** The inode an open for [access] finds. *)
Definition ref_open (r : Z) (ps : list str) (access : Z) (k : posix) : io Z :=
  match file_at r true ps k with
  | Err e => Err e
  | Ok i => match kind_at k i with
            | Some (KDir _) => if access =? O_RDONLY then Ok i else Err (os_error EISDIR)
            | Some (KFile _) => Ok i
            | Some (KLink _) => Err (os_error ELOOP)
            | None => Err (os_error ENOENT)
            end
  end.

(** The inode a create makes or finds.  A file that is there gets the mode too. *)
Definition ref_create (r : Z) (ps : list str) (flags mode : Z) (k : posix) : io Z * posix :=
  match last ps with
  | None => fail EISDIR k
  | Some c =>
      match plain k r (removelast ps) with
      | Err e => (Err e, k)
      | Ok d =>
          match ents_at k d with
          | None => fail ENOTDIR k
          | Some e =>
              match e !! c with
              | None => (Ok (new_ino k), set_entry d c (Some (new_ino k)) (add_node (new_inode (KFile []) mode) k))
              | Some i =>
                  if has_bits flags 0x80 then fail EEXIST k
                  else match k_nodes k !! i with
                       | None => fail ENOENT k
                       | Some n =>
                           match i_kind n with
                           | KDir _ => fail EISDIR k
                           | KLink _ => fail ELOOP k
                           | KFile _ =>
                               (Ok i, put_node i (set_imode mode (if has_bits flags 0x200 then set_kind (KFile []) n else n)) k)
                           end
                       end
              end
          end
      end
  end.

(** The contents of the open file [h], if its access allows. *)
Definition data_of (may : Z -> bool) (h : vhandle) (k : posix) : io (inode * bytes) :=
  if negb (may (vh_access h)) then Err (os_error EBADF)
  else match k_nodes k !! vh_ino h with
       | Some n => match i_kind n with
                   | KFile d => Ok (n, d)
                   | KDir _ => Err (os_error EISDIR)
                   | KLink _ => Err (os_error EINVAL)
                   end
       | None => Err (os_error EBADF)
       end.

(** The frames of a read. *)
Fixpoint read_frames (fuel : nat) (seq off len : Z) (d : bytes) : list ReadResponse :=
  match fuel with
  | O => []
  | S fuel =>
      let buf := slice d off (Z.min len CHUNK) in
      let fin := (zlen buf =? 0) || (len - zlen buf =? 0) in
      MkReadResponse OP_READ seq (status_as_u8 StOk) off buf fin ::
        (if fin then [] else read_frames fuel seq (off + zlen buf) (len - zlen buf) d)
  end.

Definition read_error (q : ReadRequest) (st : Status) : list ReadResponse :=
  [MkReadResponse OP_READ (rq_seq q) (status_as_u8 st) (rq_offset q) [] true].

Definition ref_read (q : ReadRequest) (v : volume) : list ReadResponse :=
  if MAX_READ_REQUEST <? rq_length q then read_error q StInvalidArg
  else match v_open v !! rq_handle q with
       | None => read_error q StStale
       | Some h =>
           if rq_length q <=? 0 then []
           else match data_of may_read h (v_fs v) with
                | Err e => read_error q (status_from_io e)
                | Ok (_, d) => read_frames (Z.to_nat (rq_length q)) (rq_seq q) (rq_offset q) (rq_length q) d
                end
       end.

(** The chunks of a write, all of them or none. *)
Definition ref_write (q : WriteRequest) (more : list WriteRequest) (v : volume) : WriteResponse * volume :=
  let answer st total := MkWriteResponse OP_WRITE (wq_seq q) (status_as_u8 st) total in
  match v_open v !! wq_handle q with
  | None => (answer StStale 0, v)
  | Some h =>
      match data_of may_write h (v_fs v) with
      | Ok (n, d) =>
          (answer StOk (total_len (q :: more)),
           set_vfs (put_node (vh_ino h) (set_kind (KFile (foldl (put_chunk (vh_flags h)) d (q :: more))) n) (v_fs v)) v)
      | Err e => if total_len (q :: more) =? 0 then (answer StOk 0, v) else (answer (status_from_io e) 0, v)
      end
  end.

Inductive vrequest : Type :=
| VNames (q : ns_request) | VAttrs (q : at_request)
| VOpen (q : OpenRequest) | VCreate (q : CreateRequest) | VRelease (q : ReleaseRequest) | VFsync (q : FsyncRequest)
| VRead (q : ReadRequest) | VWrite (q : WriteRequest) (more : list WriteRequest) | VPing (q : PingRequest).

Section Serve.
Context {C : Codec} (rs : list str) (r : Z).

Definition open_answer (op seq : Z) (st : Status) (h : Z) (stat : option Stat) : list (option bytes) :=
  [encode (MkOpenResponse op seq (status_as_u8 st) h stat)].

(** Enter an inode in the table. *)
Definition opened_answer (op seq : Z) (h : vhandle) (v : volume) : list (option bytes) * volume :=
  match v_insert h v with
  | (Some id, v') => (open_answer op seq StOk id (stat_ok (stat_ino (v_fs v) (vh_ino h))), v')
  | (None, v') => (open_answer op seq StNoSpace 0 None, v')
  end.

(** The access an open asks for. *)
Definition open_access (flags : Z) : Z := match Z.land flags 0x3 with 1 => O_WRONLY | 2 => O_RDWR | _ => O_RDONLY end.

Definition vol_serve (q : vrequest) (v : volume) : list (option bytes) * volume :=
  match q with
  | VNames q => let '(a, k) := ns_reference rs r q (v_fs v) in ([ns_encode a], set_vfs k v)
  | VAttrs q => let '(a, k) := at_reference rs r q (v_fs v) in ([at_encode a], set_vfs k v)
  | VOpen q =>
      match ref_resolve rs r (v_fs v) (opq_path q) with
      | Err _ => (open_answer OP_OPEN (opq_seq q) StPermission 0 None, v)
      | Ok ps =>
          match ref_open r ps (open_access (opq_flags q)) (v_fs v) with
          | Err e => (open_answer OP_OPEN (opq_seq q) (status_from_io e) 0 None, v)
          | Ok i => opened_answer OP_OPEN (opq_seq q) (MkVhandle i (opq_flags q) (open_access (opq_flags q))) v
          end
      end
  | VCreate q =>
      match ref_resolve rs r (v_fs v) (crq_path q) with
      | Err _ => (open_answer OP_CREATE (crq_seq q) StPermission 0 None, v)
      | Ok ps =>
          match ref_create r ps (crq_flags q) (Z.land (crq_mode q) perm_mask) (v_fs v) with
          | (Err e, _) => (open_answer OP_CREATE (crq_seq q) (status_from_io e) 0 None, v)
          | (Ok i, k) => opened_answer OP_CREATE (crq_seq q) (MkVhandle i (crq_flags q) O_RDWR) (set_vfs k v)
          end
      end
  | VRelease q => ([encode (MkReleaseResponse OP_RELEASE (rlq_seq q) (status_as_u8 StOk))], v_remove (rlq_handle q) v)
  | VFsync q =>
      let st := match v_open v !! fsq_handle q with Some _ => StOk | None => StStale end in
      ([encode (MkStatusResponse OP_FSYNC (fsq_seq q) (status_as_u8 st))], v)
  | VRead q => (map encode (ref_read q v), v)
  | VWrite q more => let '(a, v) := ref_write q more v in ([encode a], v)
  | VPing q => ([encode (MkPingResponse OP_PING (pgq_seq q) (status_as_u8 StOk))], v)
  end.

(** One after the other: all the frames, and the volume at the end. *)
Fixpoint vol_session (qs : list vrequest) (v : volume) : list (option bytes) * volume :=
  match qs with
  | [] => ([], v)
  | q :: qs =>
      let '(a, v) := vol_serve q v in
      let '(b, v) := vol_session qs v in (a ++ b, v)
  end.
End Serve.

(** ** A process that holds a volume *)

(** An open file of the process is the open file of the volume. *)
Definition is_file (h : vhandle) (o : ofd) : Prop :=
  fd_ino o = vh_ino h /\ fd_access o = vh_access h /\ fd_opath o = false /\ fd_append o = has_bits (vh_flags h) 0x400.
Definition backs (f : gmap Z ofd) (h : vhandle) (oh : OpenHandle) : Prop :=
  oh_flags oh = vh_flags h /\ exists o, f !! oh_file oh = Some o /\ is_file h o.

Record holds (v : volume) (k : posix) (t : HandleTable) : Prop := {
  hd_fs : exists f, k = set_fds f (v_fs v);
  hd_next : ht_counter t = v_next v;
  hd_max : ht_max_handles t = v_max v;
  hd_open id : match v_open v !! id, ht_inner t !! id with
               | Some h, Some oh => backs (k_fds k) h oh
               | None, None => True
               | _, _ => False
               end
}.

Lemma backs_kept k k' h oh : fds_kept k k' -> backs (k_fds k) h oh -> backs (k_fds k') h oh.
Proof.
  intros Hk (Hf & o & Ho & Hi). split; [done|]. destruct (Hk _ _ Ho) as (pos & Ho'). eexists. split; [exact Ho'|exact Hi].
Qed.

(** The process has gone on, and its file system is that of [v']. *)
Lemma holds_kept v k t k' fs :
  holds v k t -> fds_kept k k' -> (exists f, k' = set_fds f fs) -> holds (set_vfs fs v) k' t.
Proof.
  intros [Hf Hn Hm Ho] Hk Hfs. split; [done..|]. intros id. specialize (Ho id). cbn [v_open set_vfs].
  destruct (v_open v !! id), (ht_inner t !! id); try done. by eapply backs_kept.
Qed.

Lemma holds_size v k t : holds v k t -> size (ht_inner t) = size (v_open v).
Proof.
  intros Hh. rewrite <- !size_dom. f_equal. apply set_eq. intros id. rewrite !elem_of_dom. pose proof (hd_open _ _ _ Hh id) as H.
  destruct (v_open v !! id), (ht_inner t !! id); try done; split; intros [? ?]; done.
Qed.

(** An open file enters both tables. *)
Lemma holds_insert v k t h p flags fd o m hash :
  holds v k t -> k_fds k !! fd = Some o -> is_file h o -> flags = vh_flags h ->
  match v_insert h v with
  | (Some id, v') => exists t', try_insert hash t p flags fd m = (Ok id, t') /\ holds v' k t'
  | (None, v') => v' = v /\ exists e, try_insert hash t p flags fd m = (Err e, t)
  end.
Proof.
  intros Hh Ho Hi ->. unfold v_insert, try_insert. rewrite (holds_size v k t Hh). destruct Hh as [Hf Hn Hm Hop]. rewrite Hm.
  destruct (v_max v <=? _); [split; [done|by eexists]|]. eexists. rewrite Hn. split; [done|].
  split; [done|done|done|]. intros id. cbn [v_open ht_inner]. destruct (decide (id = v_next v)) as [->|Hne].
  - rewrite !lookup_insert_eq. split; [done|]. by exists o.
  - rewrite !lookup_insert_ne by done. apply Hop.
Qed.

Lemma holds_remove v k t id : holds v k t -> holds (v_remove id v) k (snd (ht_remove t id)).
Proof.
  intros [Hf Hn Hm Ho]. split; [done..|]. intros id'. cbn [v_open v_remove ht_remove snd ht_inner].
  destruct (decide (id' = id)) as [->|Hne]; [by rewrite !lookup_delete_eq|]. rewrite !lookup_delete_ne by done. apply Ho.
Qed.

(** Frames that go out. *)
Definition frames (ans : list (option bytes)) (bs : list bytes) : Prop :=
  Forall2 (fun x b => x = Some b /\ zlen b <= MAX_FRAME_SIZE) ans bs.
Definition posts (bs : list bytes) (s : desk) : desk := MkDesk (dk_hash s) (dk_table s) (dk_sent s ++ bs).

Lemma posts_nil s : posts [] s = s.
Proof. unfold posts. rewrite app_nil_r. by destruct s. Qed.
Lemma posts_app bs bs' s : posts bs' (posts bs s) = posts (bs ++ bs') s.
Proof. unfold posts. cbn. by rewrite <- app_assoc. Qed.

Lemma frames_one x bs : frames [x] bs -> exists b, bs = [b] /\ x = Some b /\ zlen b <= MAX_FRAME_SIZE.
Proof.
  intros (b & l & [He Hb] & Hl%Forall2_nil_inv_l & ->)%Forall2_cons_inv_l. subst l. eauto.
Qed.

Lemma send_resp_run {T} `{!Wire T} (x : T) bs k s :
  frames [encode x] bs -> run kexec (send_resp x) (k, s) = (Ok tt, (k, posts bs s)).
Proof. intros (b & -> & He & Hb)%frames_one. by apply (send_run x b). Qed.

Lemma send_resp_tx_run {T} `{!Wire T} (x : T) bs k s :
  frames [encode x] bs -> run kexec (send_resp_tx x) (k, s) = (Ok tt, (k, posts bs s)).
Proof.
  intros (b & -> & He & Hb)%frames_one. unfold send_resp_tx. rewrite He, run_bindr, run_call. cbn [kexec].
  assert ((MAX_FRAME_SIZE <? zlen b) = false) as -> by (by apply Z.ltb_ge). done.
Qed.

Lemma then_tx0_run {T} `{!Wire T} (x : T) bs k s :
  frames [encode x] bs -> run kexec (then_tx0 (send_resp x)) (k, s) = (Ok tt, (k, posts bs s)).
Proof. intros H. unfold then_tx0. by rewrite run_bindr, (send_resp_run x bs). Qed.

(** What a request does: its frames, and the process still holds the volume. *)
Definition served (ans : list (option bytes) * volume) (s : desk) (out : anyhow unit * (posix * desk)) : Prop :=
  forall bs, frames (fst ans) bs ->
  exists k' t', out = (Ok tt, (k', posts bs (set_dk_table t' s))) /\ holds (snd ans) k' t'.

Lemma served_same ans v k s (out : anyhow unit * (posix * desk)) :
  holds v k (dk_table s) -> (forall bs, frames ans bs -> out = (Ok tt, (k, posts bs s))) -> served (ans, v) s out.
Proof. intros Hh Ho bs Hb. exists k, (dk_table s). rewrite (Ho bs Hb). split; [|done]. by destruct s. Qed.
