(* ===== verification/Service.v ===== *)
(** * The server's service

    Every handler of [src/server/src/ops/] with the session's handle table, run
    through [dispatch_inner] on the kernel of [Posix] for one client whose requests
    come one after the other, is the service [Volume] describes. *)

From S2P Require Import Prelude Prog Text Status Frames FrameIo Os Sanitize WriteLock Handles Confine Reply MetaOps DataOps CtrlOps Dispatch FileServer ExampleCodec Server Posix Jail Namespace Attributes Reference Volume.

(** ** Opening *)

Section Session.
Context {C : Codec} (session : ClientSession) (rs : list str) (r : Z).
Abbreviation root := (RootDir :: map Normal rs).
Hypothesis Hroot : path_no_nul root = true.

Lemma open_flags_facts flags :
  let fl := Z.lor (open_oflags flags) O_CLOEXEC in
  has_bits (open_oflags flags) O_CREAT = false /\ has_bits fl O_CREAT = false /\ has_bits fl O_NOFOLLOW = false /\
  has_bits fl O_DIRECTORY = false /\ has_bits fl O_TRUNC = false /\ has_bits fl O_PATH = false /\
  has_bits fl O_APPEND = has_bits flags 0x400 /\ access_of fl = open_access flags.
Proof.
  unfold open_oflags, open_access. destruct (has_bits flags 0x400), (Z.land flags 3) as [|[p|[p|p|]|]|p]; by vm_compute.
Qed.

Lemma open_file_run ps flags k s :
  exported k rs r -> path_no_nul (rel_of ps) = true ->
  let fd := new_fd (anchored r k) in
  run kexec (open_confined root (root ++ map Normal ps) (open_oflags flags) 0) (k, s) =
  match ref_open r ps (open_access flags) k with
  | Err e => (Err e, (anchored r k, s))
  | Ok i => (Ok fd, (put_fd fd (MkOfd i 0 (has_bits flags 0x400) false (open_access flags)) (anchored r k), s))
  end.
Proof.
  intros Hex Hn fd. destruct (open_flags_facts flags) as (H1 & H2 & H3 & H4 & H5 & H6 & H7 & H8).
  rewrite (open_confined_posix rs r k s ps) by done. rewrite H1, (do_open_file r k ps) by done. rewrite H3. cbn [negb].
  unfold ref_open. destruct (file_at r true ps k) as [i|e]; [|done]. unfold open_ino.
  change (kind_at (anchored r k) i) with (kind_at k i). rewrite H4, H5, H6, H7, H8. cbn [negb andb].
  destruct (kind_at k i) as [[e|d|t]|]; try done. change O_RDONLY with 0. by destruct (open_access flags =? 0).
Qed.

Lemma insert_run v k s h p fd o :
  holds v k (dk_table s) -> k_fds k !! fd = Some o -> is_file h o ->
  match v_insert h v with
  | (Some id, v') => exists t', kexec _ (TryInsert p (vh_flags h) fd) (k, s) = (Some id, (k, set_dk_table t' s)) /\ holds v' k t'
  | (None, v') => v' = v /\ kexec _ (TryInsert p (vh_flags h) fd) (k, s) = (None, (k, s))
  end.
Proof.
  intros Hh Ho Hi. cbn [kexec fst snd].
  pose proof (holds_insert v k (dk_table s) h p _ fd o (fst (posix_call _ (FileMetadata fd) k)) (dk_hash s) Hh Ho Hi eq_refl) as H.
  destruct (v_insert h v) as [[id|] v'].
  - destruct H as (t' & -> & Ht). by exists t'.
  - destruct H as (-> & e & ->). split; [done|]. unfold set_dk_table. by destruct s.
Qed.

Lemma anchored_kept k : fds_kept k (anchored r k).
Proof. by apply fds_kept_new. Qed.

Lemma holds_same v k t k' : holds v k t -> fds_kept k k' -> (exists f, k' = set_fds f (v_fs v)) -> holds v k' t.
Proof. intros Hh Hk Hf. pose proof (holds_kept v k t k' (v_fs v) Hh Hk Hf) as H. by destruct v. Qed.

Lemma ref_open_fds ps access f k : ref_open r ps access (set_fds f k) = ref_open r ps access k.
Proof. unfold ref_open. rewrite file_at_fds. by destruct (file_at r true ps k). Qed.

(** ** Creating *)

Lemma create_flags_facts flags :
  let fl := Z.lor (create_oflags flags) O_CLOEXEC in
  has_bits (create_oflags flags) O_CREAT = true /\ has_bits fl O_CREAT = true /\ has_bits fl O_EXCL = has_bits flags 0x80 /\
  has_bits fl O_TRUNC = has_bits flags 0x200 /\ has_bits fl O_APPEND = has_bits flags 0x400 /\
  has_bits fl O_DIRECTORY = false /\ has_bits fl O_PATH = false /\ access_of fl = O_RDWR.
Proof. unfold create_oflags. destruct (has_bits flags 0x80), (has_bits flags 0x200), (has_bits flags 0x400); by vm_compute. Qed.

(** A new entry, its mode set afterwards. *)
Lemma new_entry_chmod k d c e t m m' :
  ents_at k d = Some e ->
  let k1 := set_entry d c (Some (new_ino k)) (add_node (new_inode t m') k) in
  k_nodes k1 !! new_ino k = Some (new_inode t m') /\
  put_node (new_ino k) (new_inode t m) k1 = set_entry d c (Some (new_ino k)) (add_node (new_inode t m) k).
Proof.
  intros He k1. subst k1. destruct (ents_at_node k d e He) as (n & Hn & Hk). pose proof (new_ino_fresh k) as Hfresh.
  assert (new_ino k <> d) as Hne by (intros <-; apply Hfresh, elem_of_dom; eauto).
  assert (forall x, k_nodes (add_node x k) !! d = Some n) as Hd.
  { intros x. unfold add_node, put_node. simpl. by rewrite lookup_insert_ne. }
  rewrite !(set_entry_dir _ d c (Some (new_ino k)) n e (Hd _) Hk). unfold put_node, set_nodes, add_node. simpl. split.
  - by rewrite lookup_insert_ne, lookup_insert_eq.
  - unfold put_node, set_nodes. simpl. f_equal. rewrite (insert_insert_ne _ (new_ino k) d) by done. by rewrite insert_insert_eq.
Qed.

(** What an open that creates leaves, up to the mode. *)
Definition created (k : posix) (s : desk) (flags mode : Z) (ref : io Z * posix) (out : io Z * (posix * desk)) : Prop :=
  match ref with
  | (Err e, k') => k' = k /\ out = (Err e, (anchored r k, s))
  | (Ok i, k') =>
      exists fd k1, out = (Ok fd, (k1, s)) /\ fds_kept k k1 /\ k_fds k1 !! fd = Some (MkOfd i 0 (has_bits flags 0x400) false O_RDWR) /\
        kexec _ (SetPermissions fd mode) (k1, s) = (Ok tt, (set_fds (k_fds k1) k', s))
  end.

Lemma created_file k s flags mode i n kx :
  let kf := set_fds (k_fds (anchored r k)) kx in
  k_nodes kx !! i = Some n ->
  created k s flags mode (Ok i, put_node i (set_imode mode n) kx)
    (Ok (new_fd kf), (put_fd (new_fd kf) (MkOfd i 0 (has_bits flags 0x400) false O_RDWR) kf, s)).
Proof.
  intros kf Hn. eexists _, _. split; [done|]. split_and!.
  - etrans; [apply anchored_kept|]. by apply fds_kept_new.
  - apply lookup_insert_eq.
  - cbn [kexec fst snd posix_call]. unfold on_inode. cbn [k_fds put_fd set_fds]. rewrite lookup_insert_eq. cbn [fd_ino].
    change (k_nodes (put_fd (new_fd kf) ?o kf)) with (k_nodes kx). by rewrite Hn.
Qed.

Lemma split_last_snoc cs c : split_last (map Normal (cs ++ [c])) = Some (map Normal cs, c).
Proof. unfold split_last. rewrite map_app. cbn [map]. rewrite last_snoc. by rewrite removelast_last. Qed.

Lemma create_file_run ps flags mode k s :
  exported k rs r -> path_no_nul (rel_of ps) = true -> (forall cs c, ps = cs ++ [c] -> clear k r cs = true) ->
  created k s flags mode (ref_create r ps flags mode k)
    (run kexec (open_confined root (root ++ map Normal ps) (create_oflags flags) mode) (k, s)).
Proof.
  intros Hex Hn Hc. destruct (create_flags_facts flags) as (H1 & H2 & H3 & H4 & H5 & H6 & H7 & H8).
  rewrite (open_confined_posix rs r k s ps) by done. rewrite H1. unfold do_open, ref_create. rewrite H2.
  destruct ps as [|c cs _] using rev_ind; [done|]. rewrite last_snoc, removelast_last.
  replace (rel_of (cs ++ [c])) with (map Normal (cs ++ [c])) by (by destruct cs). rewrite split_last_snoc.
  set (f0 := k_fds (anchored r k)). change (anchored r k) with (set_fds f0 k). rewrite namei_fds.
  pose proof (namei_clear k true true MAXSYMLINKS r [] cs (Hc cs c eq_refl)) as Hw. simpl here in Hw.
  destruct (plain k r cs) as [d|e]; [|by rewrite Hw]. destruct Hw as (st & -> & -> & _).
  change (ents_at (set_fds f0 k) d) with (ents_at k d). destruct (ents_at k d) as [e|] eqn:Ee; [|done].
  rewrite H3, H5, H8. destruct (e !! c) as [i|] eqn:Ec.
  - destruct (has_bits flags 0x80); [done|]. change (kind_at (set_fds f0 k) i) with (kind_at k i).
    unfold open_ino. change (kind_at (set_fds f0 k) i) with (kind_at k i). unfold kind_at.
    destruct (k_nodes k !! i) as [n|] eqn:En; [|done]. cbn [fmap option_fmap option_map].
    destruct (i_kind n) as [e'|data|t] eqn:Ek; [done| |done]. rewrite H4, H5, H6, H7, H8. cbn [negb andb]. rewrite andb_true_r.
    destruct (has_bits flags 0x200).
    + change (k_nodes (set_fds f0 k)) with (k_nodes k). rewrite En.
      change (put_node i ?m (set_fds f0 k)) with (set_fds f0 (put_node i m k)).
      pose proof (created_file k s flags mode i (set_kind (KFile []) n) (put_node i (set_kind (KFile []) n) k) (lookup_insert_eq _ _ _)) as H.
      by rewrite put_put in H.
    + by apply (created_file k s flags mode i n k).
  - set (m' := Z.land mode _). change (new_ino (set_fds f0 k)) with (new_ino k).
    change (add_node ?m (set_fds f0 k)) with (set_fds f0 (add_node m k)). rewrite set_entry_set_fds.
    destruct (new_entry_chmod k d c e (KFile []) mode m' Ee) as [Hn1 Hput].
    pose proof (created_file k s flags mode (new_ino k) _ _ Hn1) as H.
    change (set_imode mode (new_inode (KFile []) m')) with (new_inode (KFile []) mode) in H. by rewrite Hput in H.
Qed.

Lemma ref_create_fds ps flags mode : fds_free (ref_create r ps flags mode).
Proof.
  intros f k. unfold ref_create. destruct (last ps) as [c|]; [|done]. rewrite plain_fds. destruct (plain k r _) as [d|e]; [|done].
  change (ents_at (set_fds f k)) with (ents_at k). destruct (ents_at k d) as [e|]; [|done]. destruct (e !! c) as [i|].
  - destruct (has_bits flags 0x80); [done|]. change (k_nodes (set_fds f k)) with (k_nodes k). destruct (k_nodes k !! i) as [n|]; [|done].
    by destruct (i_kind n).
  - change (new_ino (set_fds f k)) with (new_ino k). change (add_node ?m (set_fds f k)) with (set_fds f (add_node m k)).
    by rewrite set_entry_set_fds.
Qed.

(** ** Reading *)

(** The frames carry the slice, and the last one says so. *)
Lemma read_frames_answer fuel seq off len d :
  0 <= off -> 1 <= len <= Z.of_nat fuel -> read_answer seq off len d (read_frames fuel seq off len d).
Proof.
  revert off len. induction fuel as [|fuel IH]; intros off len Ho Hl; [lia|]. cbn [read_frames]. set (buf := slice d off (Z.min len CHUNK)).
  assert (buf = slice d off (zlen buf) /\ 0 <= zlen buf <= len /\ (zlen buf = 0 -> (length d <= Z.to_nat off)%nat)) as (Hb & Hlen & Hz).
  { subst buf. unfold slice. set (l := drop (Z.to_nat off) d). set (m := Z.to_nat (Z.min len CHUNK)).
    assert (length l = length d - Z.to_nat off)%nat as El by apply length_drop.
    rewrite Nat2Z.id, !length_take. split_and!; [by rewrite <- take_take, firstn_all|lia|unfold m, CHUNK; lia|].
    unfold m, CHUNK. lia. }
  destruct (Z.eqb_spec (zlen buf) 0) as [E0|E0]; [cbn [orb]; by apply read_answer_last; auto|].
  destruct (Z.eqb_spec (len - zlen buf) 0) as [E1|E1]; cbn [orb].
  - apply read_answer_last; [done|]. right. lia.
  - eapply read_answer_cons; [done|lia|done|reflexivity|]. apply IH; lia.
Qed.

Lemma data_of_fds may h f k : data_of may h (set_fds f k) = data_of may h k.
Proof. done. Qed.

(** A read or write on the open file, as its contents allow. *)
Lemma on_file_data {A} may h k fd o (body : ofd -> inode -> bytes -> io A * posix) :
  k_fds k !! fd = Some o -> is_file h o ->
  on_file may EBADF k fd body = match data_of may h k with Ok (n, d) => body o n d | Err e => (Err e, k) end.
Proof.
  intros Ho (Hi & Ha & Hp & _). unfold on_file, data_of. rewrite Ho, Hp, Ha, Hi. destruct (negb _); [done|].
  destruct (k_nodes k !! vh_ino h) as [n|]; [|done]. by destruct (i_kind n).
Qed.

Lemma seek_run h k fd o off :
  k_fds k !! fd = Some o -> is_file h o ->
  exists o', posix_call _ (SeekStart fd off) k = (Ok off, put_fd fd o' k) /\ is_file h o' /\ fd_pos o' = off.
Proof.
  intros Ho (Hi & Ha & Hp & Hap). cbn [posix_call]. unfold do_seek. rewrite Ho, Hp. eexists. split; [done|]. by split.
Qed.

Lemma read_loop_frames h n d fuel fd seq off len k s bs o :
  k_fds k !! fd = Some o -> is_file h o -> data_of may_read h k = Ok (n, d) ->
  0 <= off -> 0 <= len <= Z.of_nat fuel -> off + len < 2 ^ 64 ->
  frames (map encode (if len <=? 0 then [] else read_frames fuel seq off len d)) bs ->
  exists f, run kexec (read_loop fuel fd seq off len) (k, s) = (Ok tt, (set_fds f k, posts bs s)).
Proof.
  revert off len k s bs o. induction fuel as [|fuel IH]; intros off len k s bs o Ho Hi Hd Hoff Hlen Hb Hf.
  { assert (len = 0) as -> by lia. inv Hf. exists (k_fds k). rewrite posts_nil. by destruct k. }
  cbn [read_loop]. destruct (Z.leb_spec len 0) as [Hz|Hz].
  { inv Hf. exists (k_fds k). rewrite posts_nil. by destruct k. }
  cbn [read_frames map] in Hf. set (buf := slice d off (Z.min len CHUNK)) in *.
  apply Forall2_cons_inv_l in Hf as (b & bs' & [Eb Hfit] & Hf & ->).
  assert (0 <= zlen buf <= len) as Hbuf.
  { subst buf. unfold slice. rewrite length_take. unfold CHUNK. lia. }
  destruct (seek_run h k fd o off Ho Hi) as (o1 & Hseek & Hi1 & Hpos). set (k1 := put_fd fd o1 k) in *.
  assert (k_fds k1 !! fd = Some o1) as Ho1 by apply lookup_insert_eq.
  rewrite run_bind, run_bindr, run_call. cbn [kexec fst snd]. rewrite Hseek, run_call. cbn [kexec fst snd posix_call].
  unfold do_read_fd. rewrite (on_file_data may_read h k1 fd o1) by done. change (data_of may_read h k1) with (data_of may_read h k).
  rewrite Hd, Hpos. fold buf. cbv zeta. set (k2 := move_fd fd o1 _ k1). unfold sat_sub. rewrite Z.max_l by lia.
  rewrite Eb, run_bindr, run_call. cbn [kexec fst snd]. assert ((MAX_FRAME_SIZE <? zlen b) = false) as -> by (by apply Z.ltb_ge).
  rewrite run_bind, run_call. cbn [kexec fst snd posix_call].
  assert (exists g, k2 = set_fds g k) as (g & Hg) by (by eexists).
  destruct (Z.eqb_spec (zlen buf) 0) as [E0|E0].
  - inv Hf. exists g. rewrite run_bindr, run_call. cbn [kexec fst snd posix_call]. rewrite run_ret. by rewrite Hg.
  - rewrite wrap_small by (unfold in_width; lia).
    destruct (IH (off + zlen buf) (len - zlen buf) k2 (post b s) bs' (MkOfd (fd_ino o1) (fd_pos o1 + zlen buf) (fd_append o1) (fd_opath o1) (fd_access o1))) as (f & Hrun).
    + subst k2. rewrite Hpos. apply lookup_insert_eq.
    + done.
    + done.
    + lia.
    + lia.
    + lia.
    + cbn [orb] in Hf. destruct (Z.eqb_spec (len - zlen buf) 0) as [E1|E1], (Z.leb_spec (len - zlen buf) 0); try lia; done.
    + exists f. rewrite Hrun. change (post b s) with (posts [b] s). rewrite posts_app. by rewrite Hg.
Qed.

(** ** Writing *)

(** The file system with contents [d] in the inode [i]. *)
Definition with_data (i : Z) (n : inode) (d : bytes) (k : posix) : posix := put_node i (set_kind (KFile d) n) k.

Lemma with_data_with i n d d' k : put_node i (set_kind (KFile d') (set_kind (KFile d) n)) (with_data i n d k) = with_data i n d' k.
Proof. unfold with_data. by rewrite put_put. Qed.

(** Writing at the end is appending. *)
Lemma put_end d b : put d (zlen d) b = d ++ b.
Proof.
  destruct b as [|x b]; [by rewrite app_nil_r|]. set (c := x :: b). unfold put. change (match c with [] => d | _ => ?e end) with e.
  subst c. rewrite Nat2Z.id, Nat.sub_diag. cbn [replicate]. rewrite app_nil_r, take_ge by lia. rewrite drop_ge by (simpl; lia). by rewrite app_nil_r.
Qed.

Section Chunks.
Context (h : vhandle) (n : inode) (k : posix) (fd : Z).

(** The open file, its contents [d], whatever else is open. *)
Definition writing (d : bytes) (k' : posix) : Prop :=
  exists f o, k' = set_fds f (with_data (vh_ino h) n d k) /\ f !! fd = Some o /\ is_file h o.

Lemma write_at_chunk q total d k' s :
  may_write (vh_access h) = true -> writing d k' ->
  exists k2, run kexec (write_at fd (wq_offset q) (wq_data q) total (has_bits (vh_flags h) 0x400)) (k', s) =
    (Ok (sat_add64 total (zlen (wq_data q))), (k2, s)) /\ writing (put_chunk (vh_flags h) d q) k2.
Proof.
  intros Hw (f & o & -> & Ho & Hi). unfold write_at. set (kd := with_data (vh_ino h) n d k).
  assert (forall f o, f !! fd = Some o -> is_file h o -> (has_bits (vh_flags h) 0x400 = false -> fd_pos o = wq_offset q) ->
    exists k2, run kexec (_ <-? sc (WriteAll fd (wq_data q)) ;; Ret (Ok (sat_add64 total (zlen (wq_data q))))) (set_fds f kd, s) =
      (Ok (sat_add64 total (zlen (wq_data q))), (k2, s)) /\ writing (put_chunk (vh_flags h) d q) k2) as Hwrite.
  { clear f o Ho Hi. intros f o Ho Hi Hpos. rewrite run_bindr, run_call. cbn [kexec fst snd posix_call]. unfold do_write_fd.
    unfold put_chunk. destruct (wq_data q) as [|x b'] eqn:Eb.
    { eexists. split; [done|]. exists f, o. split_and!; [|done|done]. cbn [put]. rewrite app_nil_r. by destruct (has_bits _ _). }
    set (b := x :: b') in *. rewrite (on_file_data may_write h (set_fds f kd) fd o) by done.
    assert (data_of may_write h (set_fds f kd) = Ok (set_kind (KFile d) n, d)) as ->.
    { unfold data_of. rewrite Hw. subst kd. cbn [negb k_nodes set_fds with_data put_node set_nodes]. by rewrite lookup_insert_eq. }
    cbv zeta. destruct Hi as (H1 & H2 & H3 & H4). rewrite H1, H4. change (put_node ?i ?m (set_fds f kd)) with (set_fds f (put_node i m kd)).
    assert (put d (if has_bits (vh_flags h) 0x400 then zlen d else fd_pos o) b =
      (if has_bits (vh_flags h) 0x400 then d ++ b else put d (wq_offset q) b)) as ->.
    { destruct (has_bits (vh_flags h) 0x400) eqn:Ea; [by rewrite put_end|by rewrite Hpos]. }
    unfold kd at 1. rewrite with_data_with. eexists. split; [done|]. eexists _, _. split; [done|]. split; [apply lookup_insert_eq|by split]. }
  rewrite run_bindr. destruct (has_bits (vh_flags h) 0x400) eqn:Ea.
  - rewrite run_ret. by apply (Hwrite f o).
  - destruct (seek_run h (set_fds f kd) fd o (wq_offset q) Ho Hi) as (o1 & Hseek & Hi1 & Hpos).
    rewrite run_call. cbn [kexec fst snd]. rewrite Hseek. change (put_fd fd o1 (set_fds f kd)) with (set_fds (<[fd := o1]> f) kd).
    apply (Hwrite _ o1); [apply lookup_insert_eq|done|done].
Qed.
(** The chunks of the stream, to the one that ends it. *)
Lemma write_loop_chunks reqs bs fuel rest seq total d k' s out :
  may_write (vh_access h) = true -> writing d k' ->
  Forall2 (fun q b => decode b = Some q /\ zlen b <= MAX_FRAME_SIZE) reqs bs -> well_ended reqs -> (length reqs <= fuel)%nat ->
  0 <= total -> total + total_len reqs < 2 ^ 64 ->
  frames [encode (MkWriteResponse OP_WRITE seq (status_as_u8 StOk) (total + total_len reqs))] out ->
  exists k2, run kexec (write_loop fuel (stream_of bs ++ rest) fd seq total (has_bits (vh_flags h) 0x400) false) (k', s) =
    (Ok tt, (k2, posts out s)) /\ writing (foldl (put_chunk (vh_flags h)) d reqs) k2.
Proof.
  intros Hw Hk HF. revert fuel total d k' Hk. induction HF as [|q b reqs bs [Hdec Hfit] HF IH];
    intros fuel total d k' Hk Hwe Hfuel Ht Hlt Hout; [done|].
  destruct fuel as [|fuel]; [simpl in Hfuel; lia|]. cbn [write_loop].
  assert (stream_of (b :: bs) ++ rest = be32 (zlen b) ++ b ++ (stream_of bs ++ rest)) as ->.
  { unfold stream_of. cbn [map concat]. by rewrite <- !app_assoc. }
  rewrite read_frame_app by done. rewrite run_bind, run_call. cbn [kexec fst snd posix_call].
  rewrite (decoded_run _ _ _ _ Hdec), run_bind. destruct (write_at_chunk q total d k' s Hw Hk) as (k1 & -> & Hk1).
  pose proof (total_len_nonneg reqs). cbn [total_len foldr] in Hlt, Hout. fold (total_len reqs) in Hlt, Hout.
  unfold sat_add64, u64_max. rewrite Z.min_l by lia. destruct reqs as [|q' reqs].
  - simpl in Hwe. rewrite Hwe. exists k1. split; [|done]. simpl in Hout. rewrite Z.add_0_r in Hout.
    destruct fuel; by apply send_resp_tx_run.
  - destruct Hwe as [Hdn Hwe]. rewrite Hdn.
    destruct (IH fuel (total + zlen (wq_data q)) (put_chunk (vh_flags h) d q) k1) as (k2 & Hrun & Hk2);
      [done|done|simpl in *; lia|lia|lia|by rewrite <- Z.add_assoc|]. by exists k2.
Qed.

(** A file that cannot be written takes no bytes, and refuses the first. *)
Lemma write_at_refused q total f o e s :
  data_of may_write h k = Err e -> f !! fd = Some o -> is_file h o ->
  exists g o', g !! fd = Some o' /\ is_file h o' /\
    run kexec (write_at fd (wq_offset q) (wq_data q) total (has_bits (vh_flags h) 0x400)) (set_fds f k, s) =
    (match wq_data q with [] => Ok (sat_add64 total 0) | _ => Err e end, (set_fds g k, s)).
Proof.
  intros Hd Ho Hi. unfold write_at.
  assert (forall g o', g !! fd = Some o' -> is_file h o' ->
    run kexec (_ <-? sc (WriteAll fd (wq_data q)) ;; Ret (Ok (sat_add64 total (zlen (wq_data q))))) (set_fds g k, s) =
    (match wq_data q with [] => Ok (sat_add64 total 0) | _ => Err e end, (set_fds g k, s))) as Hwrite.
  { intros g o' Hg Hi'. rewrite run_bindr, run_call. cbn [kexec fst snd posix_call]. unfold do_write_fd.
    destruct (wq_data q) as [|x b]; [done|]. rewrite (on_file_data may_write h (set_fds g k) fd o') by done.
    change (data_of may_write h (set_fds g k)) with (data_of may_write h k). by rewrite Hd. }
  rewrite run_bindr. destruct (has_bits (vh_flags h) 0x400).
  - rewrite run_ret. exists f, o. split_and!; [done|done|]. by apply (Hwrite f o).
  - destruct (seek_run h (set_fds f k) fd o (wq_offset q) Ho Hi) as (o1 & Hseek & Hi1 & _).
    exists (<[fd := o1]> f), o1. split_and!; [apply lookup_insert_eq|done|]. rewrite run_call. cbn [kexec fst snd]. rewrite Hseek.
    apply (Hwrite _ o1); [apply lookup_insert_eq|done].
Qed.

Lemma write_loop_refused reqs bs fuel rest seq f o e s out :
  data_of may_write h k = Err e -> f !! fd = Some o -> is_file h o ->
  Forall2 (fun q b => decode b = Some q /\ zlen b <= MAX_FRAME_SIZE) reqs bs -> well_ended reqs -> (length reqs <= fuel)%nat ->
  frames [encode (MkWriteResponse OP_WRITE seq (status_as_u8 (if total_len reqs =? 0 then StOk else status_from_io e)) 0)] out ->
  exists g, run kexec (write_loop fuel (stream_of bs ++ rest) fd seq 0 (has_bits (vh_flags h) 0x400) false) (set_fds f k, s) =
    (Ok tt, (set_fds g k, posts out s)).
Proof.
  intros Hd Ho Hi HF. revert fuel f o Ho Hi. induction HF as [|q b reqs bs [Hdec Hfit] HF IH];
    intros fuel f o Ho Hi Hwe Hfuel Hout; [done|].
  destruct fuel as [|fuel]; [simpl in Hfuel; lia|]. cbn [write_loop].
  assert (stream_of (b :: bs) ++ rest = be32 (zlen b) ++ b ++ (stream_of bs ++ rest)) as ->.
  { unfold stream_of. cbn [map concat]. by rewrite <- !app_assoc. }
  rewrite read_frame_app by done. rewrite run_bind, run_call. cbn [kexec fst snd posix_call].
  rewrite (decoded_run _ _ _ _ Hdec), run_bind. destruct (write_at_refused q 0 f o e s Hd Ho Hi) as (g & o' & Hg & Hi' & ->).
  cbn [total_len foldr] in Hout. fold (total_len reqs) in Hout. pose proof (total_len_nonneg reqs).
  destruct (wq_data q) as [|x bd] eqn:Eq.
  - change (sat_add64 0 0) with 0. change (zlen (@nil Byte.byte) + total_len reqs) with (total_len reqs) in Hout.
    destruct reqs as [|q' reqs].
    + simpl in Hwe. rewrite Hwe. exists g. destruct fuel; by apply send_resp_tx_run.
    + destruct Hwe as [Hdn Hwe]. rewrite Hdn. apply (IH fuel g o'); [done|done|done|simpl in *; lia|done].
  - exists g. apply send_resp_run. destruct (Z.eqb_spec (zlen (x :: bd) + total_len reqs) 0) as [E|_]; [simpl in E; lia|done].
Qed.
End Chunks.

(** The first chunk is like the others. *)
Lemma write_body_loop q raw bs fd append k s :
  decode raw = Some q -> zlen raw <= MAX_FRAME_SIZE ->
  run kexec (w <- write_at fd (wq_offset q) (wq_data q) 0 append ;;
             match w with
             | Err e => send_resp (MkWriteResponse OP_WRITE (wq_seq q) (status_as_u8 (status_from_io e)) 0)
             | Ok total => write_loop (S (length (stream_of bs))) (stream_of bs) fd (wq_seq q) total append (wq_done q)
             end) (k, s) =
  run kexec (write_loop (S (S (length (stream_of bs)))) (stream_of (raw :: bs) ++ []) fd (wq_seq q) 0 append false) (k, s).
Proof.
  intros Hdec Hfit. rewrite app_nil_r. set (fuel := S (length (stream_of bs))).
  change (stream_of (raw :: bs)) with ((be32 (zlen raw) ++ raw) ++ stream_of bs). rewrite <- app_assoc.
  cbn [write_loop]. rewrite read_frame_app by done. etrans; [|symmetry; rewrite run_bind, run_call; reflexivity]. cbn [kexec fst snd posix_call].
  by rewrite (decoded_run _ _ _ _ Hdec).
Qed.

Section Step.
Context (v : volume) (k : posix) (s : desk).
Hypothesis Hh : holds v k (dk_table s).
Hypothesis Hex : exported k rs r.
Hypothesis Hm : modes_ok k.

Lemma resolve_volume cp :
  run kexec (resolve root cp) (k, s) = (res_map (fun cs => root ++ map Normal cs) (ref_resolve rs r (v_fs v) cp), (k, s)).
Proof. rewrite (ns_resolve_run rs r k s) by done. destruct (hd_fs _ _ _ Hh) as [f ->]. by rewrite ref_resolve_fds. Qed.

Lemma resolved_volume cp ps : ref_resolve rs r (v_fs v) cp = Ok ps -> path_no_nul (rel_of ps) = true.
Proof. intros H. by apply (resolved_no_nul rs r (v_fs v) cp ps H). Qed.

Ltac refusing := eapply served_same; [exact Hh|]; intros bs Hb; by apply send_resp_run.

Lemma handle_open_run q raw :
  decode raw = Some q -> served (vol_serve rs r (VOpen q) v) s (run kexec (handle_open root raw) (k, s)).
Proof.
  intros Hd. unfold handle_open. rewrite (decoded_run _ _ _ _ Hd), run_bind, resolve_volume. cbn [vol_serve].
  destruct (ref_resolve rs r (v_fs v) (opq_path q)) as [ps|e] eqn:Er; cbn [res_map]; [|refusing].
  rewrite run_bind, (open_file_run ps _ k s Hex (resolved_volume _ _ Er)).
  destruct (hd_fs _ _ _ Hh) as [f Hf]. rewrite Hf at 1. rewrite ref_open_fds.
  destruct (ref_open r ps _ (v_fs v)) as [i|e].
  2:{ eapply (served_same _ v (anchored r k)); [|intros bs Hb; by apply send_resp_run].
      eapply holds_same; [exact Hh|apply anchored_kept|]. rewrite Hf. by eexists. }
  set (fd := new_fd (anchored r k)). set (o := MkOfd i 0 _ false _). set (k2 := put_fd fd o (anchored r k)).
  assert (k_fds k2 !! fd = Some o) as Ho by apply lookup_insert_eq.
  assert (holds v k2 (dk_table s)) as Hh2.
  { eapply holds_same; [exact Hh| |subst k2; rewrite Hf; by eexists].
    etrans; [apply anchored_kept|]. by apply fds_kept_new. }
  rewrite run_bind, run_call. cbn [kexec fst snd posix_call]. rewrite Ho. cbn [fd_ino o].
  replace (stat_ino k2 i) with (stat_ino (v_fs v) i) by (subst k2; by rewrite Hf).
  rewrite run_bind, run_call. unfold opened_answer. set (h := MkVhandle i _ _).
  pose proof (insert_run v k2 s h (root ++ map Normal ps) fd o Hh2 Ho ltac:(done)) as Hi.
  destruct (v_insert h v) as [[id|] v'].
  - destruct Hi as (t' & E & Ht). change (vh_flags h) with (opq_flags q) in E. rewrite E. intros bs Hb. exists k2, t'.
    split; [|done]. by apply then_tx0_run.
  - destruct Hi as (-> & E). change (vh_flags h) with (opq_flags q) in E. rewrite E. rewrite run_bind, run_call.
    eapply (served_same _ v k2); [done|]. intros bs Hb. by apply send_resp_run.
Qed.

Lemma handle_create_run q raw :
  decode raw = Some q -> served (vol_serve rs r (VCreate q) v) s (run kexec (handle_create session root raw) (k, s)).
Proof.
  intros Hd. unfold handle_create. rewrite (decoded_run _ _ _ _ Hd), run_bind, resolve_volume. cbn [vol_serve].
  destruct (ref_resolve rs r (v_fs v) (crq_path q)) as [ps|e] eqn:Er; cbn [res_map]; [|refusing].
  destruct (hd_fs _ _ _ Hh) as [f Hf]. set (mode := Z.land (crq_mode q) perm_mask).
  assert (forall cs c, ps = cs ++ [c] -> clear k r cs = true) as Hc.
  { intros cs c E. rewrite Hf, clear_fds. exact (ep_clear _ _ _ _ (normalized_entry rs r (v_fs v) _ ps cs c Er E)). }
  pose proof (create_file_run ps (crq_flags q) mode k s Hex (resolved_volume _ _ Er) Hc) as H.
  rewrite run_bind. destruct (run kexec (open_confined _ _ _ _) (k, s)) as [x w].
  assert (ref_create r ps (crq_flags q) mode k = with_fds f (ref_create r ps (crq_flags q) mode (v_fs v))) as E
    by (rewrite Hf; apply ref_create_fds).
  rewrite E in H. destruct (ref_create r ps (crq_flags q) mode (v_fs v)) as [[i|e] fs]; cbn [created with_fds fst snd] in H.
  2:{ destruct H as [_ [= -> ->]]. eapply (served_same _ v (anchored r k)); [|intros bs Hb; by apply send_resp_tx_run].
      eapply holds_same; [exact Hh|apply anchored_kept|]. rewrite Hf. by eexists. }
  destruct H as (fd & k1 & [= -> ->] & Hk & Ho & Hp). rewrite run_bind, run_call, Hp.
  set (k2 := set_fds (k_fds k1) (set_fds f fs)). change (k_fds k1) with (k_fds k2) in Ho.
  assert (holds (set_vfs fs v) k2 (dk_table s)) as Hh2 by (eapply holds_kept; [exact Hh|exact Hk|by eexists]).
  rewrite run_bind, run_call. cbn [kexec fst snd posix_call]. rewrite Ho. cbn [fd_ino].
  change (stat_ino k2 i) with (stat_ino (v_fs (set_vfs fs v)) i). rewrite run_bind, run_call.
  unfold opened_answer. set (h := MkVhandle i _ _).
  pose proof (insert_run (set_vfs fs v) k2 s h (root ++ map Normal ps) fd _ Hh2 Ho ltac:(done)) as Hi.
  change (vh_flags h) with (crq_flags q) in Hi. destruct (v_insert h (set_vfs fs v)) as [[id|] v'].
  - destruct Hi as (t' & -> & Ht). intros bs Hb. rewrite run_bind.
    assert (exists g, run kexec (if s_sync_metadata session then sync_parent_dir root (root ++ map Normal ps) else Ret tt)
      (k2, set_dk_table t' s) = (tt, (set_fds g k2, set_dk_table t' s))) as (g & Hg).
    { destruct (s_sync_metadata session); [by apply sync_parent_dir_run|]. by exists (k_fds k2). }
    pose proof (run_kept (if s_sync_metadata session then sync_parent_dir root (root ++ map Normal ps) else Ret tt) (k2, set_dk_table t' s)) as Hkg.
    rewrite Hg in Hkg |- *. exists (set_fds g k2), t'. split; [by apply send_resp_tx_run|].
    eapply holds_same; [exact Ht|exact Hkg|]. destruct (hd_fs _ _ _ Ht) as (g' & Hg'). rewrite Hg'. by eexists.
  - destruct Hi as (-> & ->). rewrite run_bind, run_call.
    eapply (served_same _ (set_vfs fs v) k2); [done|]. intros bs Hb. by apply send_resp_tx_run.
Qed.

(** ** The other handlers of open files *)

Lemma handle_release_run q raw :
  decode raw = Some q -> served (vol_serve rs r (VRelease q) v) s (run kexec (handle_release session raw) (k, s)).
Proof.
  intros Hd bs Hb. unfold handle_release. rewrite (decoded_run _ _ _ _ Hd), run_bind, run_call. cbn [kexec fst snd vol_serve] in *.
  exists k, (snd (ht_remove (dk_table s) (rlq_handle q))). split; [|by apply holds_remove].
  cbn [ht_remove snd]. set (s' := set_dk_table _ s). destruct (ht_inner (dk_table s) !! rlq_handle q) as [h|].
  - rewrite run_with_file, run_bind. destruct (s_sync_on_close session).
    + rewrite run_bind, run_call. by apply send_resp_run.
    + by apply send_resp_run.
  - by apply send_resp_run.
Qed.

(** What the table says of a handle. *)
Lemma handle_lookup id :
  match v_open v !! id with
  | Some h => exists oh, ht_inner (dk_table s) !! id = Some oh /\ backs (k_fds k) h oh
  | None => ht_inner (dk_table s) !! id = None
  end.
Proof. pose proof (hd_open _ _ _ Hh id) as H. destruct (v_open v !! id), (ht_inner (dk_table s) !! id); try done. eauto. Qed.

Lemma handle_fsync_run q raw :
  decode raw = Some q -> served (vol_serve rs r (VFsync q) v) s (run kexec (handle_fsync raw) (k, s)).
Proof.
  intros Hd. eapply (served_same _ v k); [done|]. intros bs Hb. unfold handle_fsync.
  rewrite (decoded_run _ _ _ _ Hd), run_bind, run_call. cbn [kexec fst snd]. unfold get_file. pose proof (handle_lookup (fsq_handle q)) as H.
  destruct (v_open v !! fsq_handle q) as [h|].
  - destruct H as (oh & -> & _). cbn [fmap option_fmap option_map]. rewrite run_bind.
    destruct (fsq_datasync q); rewrite run_call; by apply send_resp_tx_run.
  - rewrite H. by apply send_resp_run.
Qed.

Lemma handle_ping_run q raw :
  decode raw = Some q -> served (vol_serve rs r (VPing q) v) s (run kexec (handle_ping raw) (k, s)).
Proof.
  intros Hd. eapply (served_same _ v k); [done|]. intros bs Hb. unfold handle_ping. rewrite (decoded_run _ _ _ _ Hd).
  by apply send_resp_tx_run.
Qed.

(** The handlers of paths. *)
Lemma names_run q raw :
  ns_decodes q raw -> served (vol_serve rs r (VNames q) v) s (run kexec (ns_handler rs session q raw) (k, s)).
Proof.
  intros Hd bs Hb. destruct (hd_fs _ _ _ Hh) as [f Hf]. pose proof (ns_reference_fds rs r q f (v_fs v)) as E. rewrite <- Hf in E.
  cbn [vol_serve] in *. destruct (ns_reference rs r q (v_fs v)) as [a fs]. apply frames_one in Hb as (b & -> & He & Hb).
  pose proof (namespace_handlers_run session rs r q raw k s b Hex Hm Hroot Hd) as H. rewrite E in H. destruct (H He Hb) as (g & Hg).
  exists (set_fds g (set_fds f fs)), (dk_table s). split.
  - rewrite Hg. by destruct s.
  - eapply holds_kept; [exact Hh| |by eexists]. pose proof (run_kept (ns_handler rs session q raw) (k, s)) as Hk. by rewrite Hg in Hk.
Qed.

Lemma attrs_run q raw :
  at_decodes q raw -> served (vol_serve rs r (VAttrs q) v) s (run kexec (at_handler rs q raw) (k, s)).
Proof.
  intros Hd bs Hb. destruct (hd_fs _ _ _ Hh) as [f Hf]. pose proof (at_reference_fds rs r q f (v_fs v)) as E. rewrite <- Hf in E.
  cbn [vol_serve] in *. destruct (at_reference rs r q (v_fs v)) as [a fs]. apply frames_one in Hb as (b & -> & He & Hb).
  pose proof (attribute_handlers_run rs r k s Hex Hm Hroot q raw Hd b) as H. rewrite E in H. destruct (H He Hb) as (g & Hg).
  exists (set_fds g (set_fds f fs)), (dk_table s). split.
  - rewrite Hg. by destruct s.
  - eapply holds_kept; [exact Hh| |by eexists]. pose proof (run_kept (at_handler rs q raw) (k, s)) as Hk. by rewrite Hg in Hk.
Qed.

Lemma handle_read_frames q raw :
  decode raw = Some q -> 0 <= rq_offset q -> rq_offset q + rq_length q < 2 ^ 64 ->
  served (vol_serve rs r (VRead q) v) s (run kexec (handle_read raw) (k, s)).
Proof.
  intros Hd Hoff Hb bs Hf. unfold handle_read. rewrite (decoded_run _ _ _ _ Hd). cbn [vol_serve fst snd] in *. unfold ref_read in Hf.
  destruct (MAX_READ_REQUEST <? rq_length q).
  { exists k, (dk_table s). split; [|done]. unfold send_read_err. rewrite (send_resp_run _ bs) by done. by destruct s. }
  rewrite run_bind, run_call. cbn [kexec fst snd]. unfold get_file. pose proof (handle_lookup (rq_handle q)) as Hl.
  destruct (v_open v !! rq_handle q) as [h|].
  2:{ rewrite Hl. exists k, (dk_table s). split; [|done]. cbn [fmap option_fmap option_map]. unfold send_read_err.
      rewrite (send_resp_run _ bs) by done. by destruct s. }
  destruct Hl as (oh & -> & _ & o & Ho & Hi). cbn [fmap option_fmap option_map]. set (fd := oh_file oh) in *.
  assert (forall out, (exists f, out = (Ok tt, (set_fds f k, posts bs s)) /\ fds_kept k (set_fds f k)) ->
    exists k' t', out = (Ok tt : anyhow unit, (k', posts bs (set_dk_table t' s))) /\ holds v k' t') as Hend.
  { intros out (f & -> & Hk). exists (set_fds f k), (dk_table s). split; [by destruct s|].
    eapply holds_same; [exact Hh|exact Hk|]. destruct (hd_fs _ _ _ Hh) as (g & Hg). rewrite Hg. by eexists. }
  apply Hend. pose proof (run_kept (read_loop (Z.to_nat (rq_length q)) fd (rq_seq q) (rq_offset q) (rq_length q)) (k, s)) as Hkept.
  assert (exists f, run kexec (read_loop (Z.to_nat (rq_length q)) fd (rq_seq q) (rq_offset q) (rq_length q)) (k, s) =
    (Ok tt, (set_fds f k, posts bs s))) as (f & E); [|rewrite E in Hkept; by exists f].
  clear Hkept Hend. destruct (Z.leb_spec (rq_length q) 0) as [Hz|Hz].
  { inv Hf. exists (k_fds k). rewrite posts_nil. replace (Z.to_nat (rq_length q)) with 0%nat by lia. cbn [read_loop].
    assert ((rq_length q <=? 0) = true) as -> by (by apply Z.leb_le). by destruct k. }
  assert (data_of may_read h (v_fs v) = data_of may_read h k) as Ed by (destruct (hd_fs _ _ _ Hh) as (g & ->); done).
  rewrite Ed in Hf. destruct (data_of may_read h k) as [[n d]|e] eqn:Edata.
  - apply (read_loop_frames h n d _ fd _ _ _ k s bs o); [done|done|done|done|lia|done|].
    assert ((rq_length q <=? 0) = false) as -> by (by apply Z.leb_gt). done.
  - replace (Z.to_nat (rq_length q)) with (S (pred (Z.to_nat (rq_length q)))) by lia. cbn [read_loop].
    assert ((rq_length q <=? 0) = false) as -> by (by apply Z.leb_gt).
    destruct (seek_run h k fd o (rq_offset q) Ho Hi) as (o1 & Hseek & Hi1 & _). set (k1 := put_fd fd o1 k) in *.
    rewrite run_bind, run_bindr, run_call. cbn [kexec fst snd]. rewrite Hseek, run_call. cbn [kexec fst snd posix_call].
    unfold do_read_fd. rewrite (on_file_data may_read h k1 fd o1) by (done || apply lookup_insert_eq).
    change (data_of may_read h k1) with (data_of may_read h k). rewrite Edata. unfold send_read_err.
    eexists. by apply send_resp_run.
Qed.

Lemma handle_write_chunks q raw more bs :
  Forall2 (fun q b => decode b = Some q /\ zlen b <= MAX_FRAME_SIZE) (q :: more) (raw :: bs) ->
  well_ended (q :: more) -> total_len (q :: more) < 2 ^ 64 ->
  served (vol_serve rs r (VWrite q more) v) s (run kexec (handle_write (stream_of bs) raw) (k, s)).
Proof.
  intros HF Hwe Hlt out Hout. pose proof HF as [[Hdec Hfit] HF']%Forall2_cons_1. unfold handle_write.
  rewrite (decoded_run _ _ _ _ Hdec), run_bind, run_call. cbn [kexec fst snd vol_serve] in *. unfold get_write_ctx.
  pose proof (handle_lookup (wq_handle q)) as Hl. unfold ref_write in *. destruct (v_open v !! wq_handle q) as [h|].
  2:{ rewrite Hl. exists k, (dk_table s). split; [|done]. cbn [fmap option_fmap option_map].
      rewrite (send_resp_run _ out) by done. by destruct s. }
  destruct Hl as (oh & -> & Hfl & o & Ho & Hi). cbn [fmap option_fmap option_map]. rewrite Hfl.
  set (fd := oh_file oh) in *. unfold with_stripe.
  rewrite run_bind, run_call. cbn [kexec fst snd posix_call]. rewrite run_bind.
  assert (length (q :: more) <= S (S (length (stream_of bs))))%nat as Hfuel.
  { pose proof (length_stream bs). apply Forall2_length in HF'. simpl. lia. }
  rewrite (write_body_loop q raw bs fd _ k s) by done. destruct (hd_fs _ _ _ Hh) as (g & Hg).
  pose proof (run_kept (write_loop (S (S (length (stream_of bs)))) (stream_of (raw :: bs) ++ []) fd (wq_seq q) 0
    (has_bits (vh_flags h) 0x400) false) (k, s)) as Hkept.
  assert (data_of may_write h (v_fs v) = data_of may_write h k) as Ed by (rewrite Hg; done).
  rewrite Ed in *. destruct (data_of may_write h k) as [[n d]|e] eqn:Edata.
  - assert (may_write (vh_access h) = true /\ k_nodes k !! vh_ino h = Some n /\ i_kind n = KFile d) as (Hw & Hn & Hkd).
    { unfold data_of in Edata. destruct (may_write (vh_access h)); [|done]. cbn [negb] in Edata.
      destruct (k_nodes k !! vh_ino h) as [n'|]; [|done]. destruct (i_kind n') eqn:E; [done| |done]. injection Edata as -> ->. done. }
    destruct (write_loop_chunks h n k fd (q :: more) (raw :: bs) (S (S (length (stream_of bs)))) [] (wq_seq q) 0 d k s out)
      as (k2 & Hrun & f2 & o2 & Hk2 & _); [done| |done|done|done|done|done|done|].
    { exists (k_fds k), o. split_and!; [|done|done]. unfold with_data. rewrite put_same; [by destruct k|].
      rewrite Hn. f_equal. destruct n. cbn in *. by subst. }
    rewrite Hrun in Hkept |- *. rewrite run_bind, run_call. exists k2, (dk_table s). split; [by destruct s|].
    eapply holds_kept; [exact Hh|exact Hkept|]. exists f2. rewrite Hk2, Hg. done.
  - assert (exists f2, run kexec (write_loop (S (S (length (stream_of bs)))) (stream_of (raw :: bs) ++ []) fd (wq_seq q) 0
      (has_bits (vh_flags h) 0x400) false) (k, s) = (Ok tt, (set_fds f2 k, posts out s))) as (f2 & Hrun).
    { assert (set_fds (k_fds k) k = k) as Ek by (by destruct k).
      pose proof (write_loop_refused h k fd (q :: more) (raw :: bs) (S (S (length (stream_of bs)))) [] (wq_seq q) (k_fds k) o e s out) as H.
      rewrite Ek in H. apply H; [done..|]. by destruct (total_len (q :: more) =? 0). }
    rewrite Hrun in Hkept |- *. rewrite run_bind, run_call. exists (set_fds f2 k), (dk_table s). split; [by destruct s|].
    assert (holds v (set_fds f2 k) (dk_table s)) as Hend.
    { eapply holds_same; [exact Hh|exact Hkept|]. rewrite Hg. by eexists. }
    by destruct (total_len (q :: more) =? 0).
Qed.

(** ** Requests as they arrive *)

(** The operation a request is dispatched on. *)
Definition op_of (q : vrequest) : Z :=
  match q with
  | VNames (RMkdir _) => OP_MKDIR | VNames (RRmdir _) => OP_RMDIR | VNames (RUnlink _) => OP_UNLINK
  | VNames (RReadlink _) => OP_READLINK | VNames (RSymlink _) => OP_SYMLINK | VNames (RRename _) => OP_RENAME
  | VNames (RLink _) => OP_LINK
  | VAttrs (RGetattr _) => OP_GET_ATTR | VAttrs (RSetattr _) => OP_SET_ATTR | VAttrs (RReaddir _) => OP_READ_DIR
  | VAttrs (RStatfs _) => OP_STAT_FS
  | VOpen _ => OP_OPEN | VCreate _ => OP_CREATE | VRelease _ => OP_RELEASE | VFsync _ => OP_FSYNC
  | VRead _ => OP_READ | VWrite _ _ => OP_WRITE | VPing _ => OP_PING
  end.

(** The frames [raw :: rest] of a stream carry the request. *)
Definition carries (q : vrequest) (raw : bytes) (rest : list bytes) : Prop :=
  match q with
  | VNames q => ns_decodes q raw
  | VAttrs q => at_decodes q raw
  | VOpen q => decode raw = Some q
  | VCreate q => decode raw = Some q
  | VRelease q => decode raw = Some q
  | VFsync q => decode raw = Some q
  | VRead q => decode raw = Some q /\ 0 <= rq_offset q /\ rq_offset q + rq_length q < 2 ^ 64
  | VWrite q more =>
      Forall2 (fun q b => decode b = Some q /\ zlen b <= MAX_FRAME_SIZE) (q :: more) (raw :: rest) /\
      well_ended (q :: more) /\ total_len (q :: more) < 2 ^ 64
  | VPing q => decode raw = Some q
  end.

Definition arrives (q : vrequest) (bs : list bytes) : Prop :=
  match bs with
  | [] => False
  | raw :: rest =>
      zlen raw <= MAX_FRAME_SIZE /\ (exists env, decode (T := Envelope) raw = Some env /\ env_op env = op_of q) /\ carries q raw rest
  end.

(** The handler of each. *)
Definition handler_of (q : vrequest) (raw : bytes) (recv : bytes) : sys (anyhow unit) :=
  match q with
  | VNames q => ns_handler rs session q raw
  | VAttrs q => at_handler rs q raw
  | VOpen _ => handle_open root raw
  | VCreate _ => handle_create session root raw
  | VRelease _ => handle_release session raw
  | VFsync _ => handle_fsync raw
  | VRead _ => handle_read raw
  | VWrite _ _ => handle_write recv raw
  | VPing _ => handle_ping raw
  end.

Lemma dispatch_handler q raw rest :
  arrives q (raw :: rest) ->
  run kexec (dispatch_inner session root (stream_of (raw :: rest))) (k, s) = run kexec (handler_of q raw (stream_of rest)) (k, s).
Proof.
  intros (Hfit & (env & Henv & Hop) & _). unfold dispatch_inner.
  change (stream_of (raw :: rest)) with ((be32 (zlen raw) ++ raw) ++ stream_of rest). rewrite <- app_assoc.
  rewrite read_frame_app by done. rewrite run_bind, run_call. cbn [kexec fst snd posix_call].
  rewrite (decoded_run _ _ _ _ Henv). cbv zeta. rewrite Hop.
  destruct q as [[]|[]|q|q|q|q|q|q more|q]; reflexivity.
Qed.

(** One request, through the dispatcher. *)
Lemma dispatch_served q bs :
  arrives q bs -> served (vol_serve rs r q v) s (run kexec (dispatch_inner session root (stream_of bs)) (k, s)).
Proof.
  destruct bs as [|raw rest]; [done|]. intros Ha. rewrite (dispatch_handler q) by done. destruct Ha as (_ & _ & Hc).
  destruct q as [q|q|q|q|q|q|q|q more|q]; cbn [carries handler_of] in *.
  - by apply names_run.
  - by apply attrs_run.
  - by apply handle_open_run.
  - by apply handle_create_run.
  - by apply handle_release_run.
  - by apply handle_fsync_run.
  - destruct Hc as (? & ? & ?). by apply handle_read_frames.
  - destruct Hc as (? & ? & ?). by apply handle_write_chunks.
  - by apply handle_ping_run.
Qed.
End Step.

(** ** The volume stays sound *)

Section Sound.
Context (k0 : posix) (J0 : gset Z).
Hypothesis Hx : exports k0 J0 rs r.
Hypothesis Hdir : is_Some (ents_at k0 r).
Abbreviation inn k := (inside k0 J0 k).

Lemma ref_create_good ps flags mode k :
  good k0 J0 k -> 0 <= mode < 0x1000 -> good k0 J0 (snd (ref_create r ps flags mode k)).
Proof.
  intros Hg Hmode. unfold ref_create. destruct (last ps) as [c|]; [|done]. destruct (plain k r _) as [d|e] eqn:Ep; [|done].
  assert (d ∈ inn k) as Hd by (eapply plain_inside; [exact Hg|by eapply export_root_inside|exact Ep]).
  destruct (ents_at k d) as [e|] eqn:Ee; [|done]. destruct (e !! c) as [i|] eqn:Ei.
  - destruct (has_bits flags 0x80); [done|]. destruct (k_nodes k !! i) as [n|] eqn:En; [|done].
    destruct (i_kind n) as [e'|data|t] eqn:Ek; [done| |done].
    eapply good_put; [exact Hg|by apply (entry_inside k0 J0 k d e c i)|exact En|done|].
    destruct (has_bits flags 0x200); [right|by left]. simpl. eauto.
  - by apply good_new_entry.
Qed.

(** The file system is good, and every open file is inside. *)
Record sound (v : volume) : Prop := {
  so_good : good k0 J0 (v_fs v);
  so_open id h : v_open v !! id = Some h -> vh_ino h ∈ inn (v_fs v)
}.

Lemma sound_fs fs v : sound v -> good k0 J0 fs -> grown (v_fs v) fs -> sound (set_vfs fs v).
Proof.
  intros [Hg Ho] Hf Hgr. split; [done|]. intros id h Hid%Ho. unfold grown, inside in *. cbn [v_fs set_vfs]. set_solver.
Qed.

Lemma sound_insert h v : sound v -> vh_ino h ∈ inn (v_fs v) -> sound (snd (v_insert h v)).
Proof.
  intros [Hg Ho] Hi. unfold v_insert. destruct (_ <=? _); [done|]. split; [done|]. cbn [snd v_open v_fs].
  intros id h' [[_ <-]|[_ H]]%lookup_insert_Some; [done|by eapply Ho].
Qed.

(** The inode a create answers with is inside. *)
Lemma ref_create_inside ps flags mode k i k' :
  good k0 J0 k -> ref_create r ps flags mode k = (Ok i, k') -> i ∈ inn k' /\ grown k k'.
Proof.
  intros Hg. unfold ref_create. destruct (last ps) as [c|]; [|done]. destruct (plain k r _) as [d|e] eqn:Ep; [|done].
  assert (d ∈ inn k) as Hd by (eapply plain_inside; [exact Hg|by eapply export_root_inside|exact Ep]).
  destruct (ents_at k d) as [e|] eqn:Ee; [|done]. destruct (e !! c) as [j|] eqn:Ei.
  - destruct (has_bits flags 0x80); [done|]. destruct (k_nodes k !! j) as [n|] eqn:En; [|done].
    destruct (i_kind n) as [e'|data|t] eqn:Ek; [done| |done]. intros [= <- <-].
    assert (j ∈ inn k) by (by apply (entry_inside k0 J0 k d e c j)). unfold grown, inside, put_node in *. simpl. rewrite dom_insert_L. set_solver.
  - intros [= <- <-]. destruct (keeps_new_entry k0 J0 true k d c (new_inode (KFile []) mode) tt (gd_jail _ _ _ Hg) Hd) as [_ [Hn _]]; [done|].
    split; [|exact Hn]. rewrite inside_set_entry. apply (new_inside k0 J0 true), (gd_jail _ _ _ Hg).
Qed.

Lemma ref_write_sound q more v : sound v -> sound (snd (ref_write q more v)).
Proof.
  intros Hs. unfold ref_write. destruct (v_open v !! wq_handle q) as [h|] eqn:Eh; [|done]. pose proof (so_open _ Hs _ _ Eh) as Hi.
  unfold data_of. destruct (negb _); [by destruct (_ =? 0)|]. destruct (k_nodes (v_fs v) !! vh_ino h) as [n|] eqn:En; [|by destruct (_ =? 0)].
  destruct (i_kind n) as [e|d|t] eqn:Ek; [by destruct (_ =? 0)| |by destruct (_ =? 0)]. cbn [snd]. apply sound_fs; [done| |].
  - eapply good_put; [apply (so_good _ Hs)|exact Hi|exact En|exact (gd_modes _ _ _ (so_good _ Hs) _ _ En)|]. right. simpl. eauto.
  - unfold grown, put_node. simpl. rewrite dom_insert_L. set_solver.
Qed.

(** A request keeps the volume sound; [grown] is what the server's calls give. *)
Lemma vol_serve_sound q v :
  sound v -> grown (v_fs v) (v_fs (snd (vol_serve rs r q v))) -> sound (snd (vol_serve rs r q v)).
Proof.
  intros Hs Hgr. pose proof (so_good _ Hs) as Hg. destruct q as [q|q|q|q|q|q|q|q more|q]; cbn [vol_serve] in *.
  - pose proof (ns_reference_good k0 J0 rs r Hx Hdir q (v_fs v) Hg) as H. destruct (ns_reference rs r q (v_fs v)). by apply sound_fs.
  - pose proof (at_reference_good k0 J0 rs r Hx Hdir q (v_fs v) Hg) as H. destruct (at_reference rs r q (v_fs v)). by apply sound_fs.
  - destruct (ref_resolve rs r (v_fs v) _) as [ps|e]; [|done]. destruct (ref_open r ps _ (v_fs v)) as [i|e] eqn:Eo; [|done].
    assert (i ∈ inn (v_fs v)) as Hi.
    { unfold ref_open in Eo. destruct (file_at r true ps (v_fs v)) as [j|] eqn:Ef; [|done].
      assert (i = j) as -> by (destruct (kind_at (v_fs v) j) as [[]|]; try destruct (_ =? O_RDONLY); congruence).
      by eapply file_at_inside. }
    unfold opened_answer. set (h := MkVhandle i _ _).
    pose proof (sound_insert h v Hs Hi) as H. by destruct (v_insert h v) as [[id|] v'].
  - destruct (ref_resolve rs r (v_fs v) _) as [ps|e]; [|done].
    pose proof (ref_create_good ps (crq_flags q) (Z.land (crq_mode q) perm_mask) (v_fs v) Hg (perm_mode _)) as Hgood.
    destruct (ref_create r ps _ _ (v_fs v)) as [[i|e] fs] eqn:Ec; [|done].
    destruct (ref_create_inside _ _ _ _ _ _ Hg Ec) as [Hi Hgr']. unfold opened_answer. set (h := MkVhandle i _ _).
    pose proof (sound_insert h (set_vfs fs v) (sound_fs fs v Hs Hgood Hgr') Hi) as H. by destruct (v_insert h (set_vfs fs v)) as [[id|] v'].
  - split; [done|]. intros id h H. cbn [snd v_open v_remove] in H. apply lookup_delete_Some in H as [_ H]. by eapply (so_open _ Hs).
  - done.
  - done.
  - pose proof (ref_write_sound q more v Hs). by destruct (ref_write q more v).
  - done.
Qed.

(** ** One request after the other *)

(** The streams of a client that waits for each answer. *)
Fixpoint serve_all (streams : list (list bytes)) (w : posix * desk) : posix * desk :=
  match streams with
  | [] => w
  | bs :: streams => serve_all streams (snd (run kexec (dispatch_inner session root (stream_of bs)) w))
  end.

Lemma holds_grown v v' k k' t t' : holds v k t -> holds v' k' t' -> grown k k' -> grown (v_fs v) (v_fs v').
Proof. intros Hh Hh'. destruct (hd_fs _ _ _ Hh) as [f ->], (hd_fs _ _ _ Hh') as [f' ->]. done. Qed.

Lemma step_sound q bs v k s out :
  sound v -> holds v k (dk_table s) -> arrives q bs -> frames (fst (vol_serve rs r q v)) out ->
  exists k' t', run kexec (dispatch_inner session root (stream_of bs)) (k, s) = (Ok tt, (k', posts out (set_dk_table t' s))) /\
    holds (snd (vol_serve rs r q v)) k' t' /\ sound (snd (vol_serve rs r q v)).
Proof.
  intros Hs Hh Ha Hout. pose proof (so_good _ Hs) as Hg. destruct (hd_fs _ _ _ Hh) as [f Hf].
  assert (exported k rs r) as Hex by (rewrite Hf; by eapply exported_fds, good_exported).
  assert (modes_ok k) as Hm by (rewrite Hf; exact (gd_modes _ _ _ Hg)).
  destruct (dispatch_served v k s Hh Hex Hm q bs Ha out Hout) as (k' & t' & Hrun & Hh'). exists k', t'. split_and!; [done|done|].
  apply vol_serve_sound; [done|]. eapply holds_grown; [exact Hh|exact Hh'|].
  pose proof (run_grown (dispatch_inner session root (stream_of bs)) (k, s)) as H. by rewrite Hrun in H.
Qed.

Lemma session_run qs streams v k s out :
  sound v -> holds v k (dk_table s) -> Forall2 arrives qs streams -> frames (fst (vol_session rs r qs v)) out ->
  exists k' t', serve_all streams (k, s) = (k', posts out (set_dk_table t' s)) /\
    holds (snd (vol_session rs r qs v)) k' t' /\ sound (snd (vol_session rs r qs v)).
Proof.
  intros Hs Hh HF. revert v k s out Hs Hh. induction HF as [|q bs qs streams Ha HF IH]; intros v k s out Hs Hh Hout.
  - apply Forall2_nil_inv_l in Hout as ->. exists k, (dk_table s). split; [|done]. rewrite posts_nil. by destruct s.
  - cbn [vol_session] in *. pose proof (step_sound q bs v k s) as Hstep. destruct (vol_serve rs r q v) as [a v1].
    specialize (IH v1). destruct (vol_session rs r qs v1) as [b v2]. cbn [fst snd] in *.
    apply Forall2_app_inv_l in Hout as (o1 & o2 & Ho1 & Ho2 & ->).
    destruct (Hstep o1 Hs Hh Ha Ho1) as (k1 & t1 & Hrun & Hh1 & Hs1). cbn [serve_all]. rewrite Hrun.
    destruct (IH k1 (posts o1 (set_dk_table t1 s)) o2 Hs1 Hh1 Ho2) as (k2 & t2 & Hall & Hh2 & Hs2).
    exists k2, t2. cbn [snd]. rewrite Hall. split; [|done]. f_equal. change (set_dk_table t2 (posts o1 (set_dk_table t1 s))) with (posts o1 (set_dk_table t2 s)).
    apply posts_app.
Qed.
End Sound.
End Session.

(** What a write put into a file is what a read through any handle of it finds. *)
Lemma write_then_read q more v h n d q' h' :
  v_open v !! wq_handle q = Some h -> data_of may_write h (v_fs v) = Ok (n, d) ->
  v_open v !! rq_handle q' = Some h' -> vh_ino h' = vh_ino h -> may_read (vh_access h') = true ->
  0 <= rq_offset q' -> 1 <= rq_length q' <= MAX_READ_REQUEST ->
  read_answer (rq_seq q') (rq_offset q') (rq_length q') (foldl (put_chunk (vh_flags h)) d (q :: more))
    (ref_read q' (snd (ref_write q more v))).
Proof.
  intros Hh Hd Hh' Hi Hr Ho Hl. unfold ref_write. rewrite Hh, Hd. cbv zeta. cbn [snd]. set (d' := foldl _ d (q :: more)). unfold ref_read.
  cbn [v_open set_vfs v_fs]. rewrite Hh'. assert ((MAX_READ_REQUEST <? rq_length q') = false) as -> by (apply Z.ltb_ge; lia).
  assert ((rq_length q' <=? 0) = false) as -> by (apply Z.leb_gt; lia). unfold data_of. rewrite Hr, Hi. cbn [negb put_node set_nodes k_nodes].
  rewrite lookup_insert_eq. cbn [i_kind set_kind]. apply read_frames_answer; lia.
Qed.

(** ** A session from its start *)

(** The volume of a session that has opened nothing. *)
Definition fresh_volume (k : posix) (uuid max : Z) : volume := MkVolume k ∅ (ht_counter (with_limit uuid max)) max.

Lemma fresh_holds k uuid max : holds (fresh_volume k uuid max) k (with_limit uuid max).
Proof.
  split; [exists (k_fds k); by destruct k|done|done|]. intros id. cbn [v_open fresh_volume with_limit ht_inner]. by rewrite !lookup_empty.
Qed.

Lemma fresh_sound k J rs r uuid max :
  exports k J rs r -> modes_ok k -> sound k J (fresh_volume k uuid max).
Proof.
  intros Hx Hm. split.
  - split; [|done]. apply jailed_start. intros d e c i. by apply (ex_closed _ _ _ _ Hx).
  - intros id h H. cbn [v_open fresh_volume] in H. by rewrite lookup_empty in H.
Qed.

(** ** Theorems *)

(** C4: the server is the file service its operations are named for.  A client that
    sends its requests one after the other, whatever they are (any of the eighteen
    operations, any path, any handle, any flags, any range), gets exactly the frames
    of the reference, and leaves the file system exactly as the reference leaves it:
    POSIX operations on the names beneath the export root, and open files that are
    inodes, which a rename or an unlink does not take away, whose reads and writes
    through every handle meet in the same contents, and which a release or an unknown
    handle ends.  Nothing outside the export changes, and the next request starts
    from the same ground. *)
Theorem session_refines {C : Codec} session rs r k0 J0 qs streams v k s out :
  exports k0 J0 rs r -> is_Some (ents_at k0 r) -> path_no_nul (RootDir :: map Normal rs) = true ->
  sound k0 J0 v -> holds v k (dk_table s) ->
  Forall2 arrives qs streams -> frames (fst (vol_session rs r qs v)) out ->
  exists k' t', serve_all session rs streams (k, s) = (k', posts out (set_dk_table t' s)) /\
    holds (snd (vol_session rs r qs v)) k' t' /\ sound k0 J0 (snd (vol_session rs r qs v)).
Proof. intros Hx Hd Hroot. by apply session_run. Qed.

(** A file created, written, unlinked, read while it is still open, and released. *)
Definition tour_handle : Z := 7 * 2 ^ 32 + 1.
Definition tour : list vrequest :=
  [VCreate (MkCreateRequest OP_CREATE 1 (lit "/n") 2 0x1a4);
   VWrite (MkWriteRequest OP_WRITE 2 tour_handle 0 [x41; x42] true) [];
   VNames (RUnlink (MkPathRequest OP_UNLINK 3 (lit "/n")));
   VRead (MkReadRequest OP_READ 4 tour_handle 0 10);
   VRelease (MkReleaseRequest OP_RELEASE 5 tour_handle);
   VRead (MkReadRequest OP_READ 6 tour_handle 0 10)].

Definition tour_raw : list bytes :=
  [default [] (encode (Wire := @wire_CreateRequest example_codec) (MkCreateRequest OP_CREATE 1 (lit "/n") 2 0x1a4));
   default [] (encode (Wire := @wire_WriteRequest example_codec) (MkWriteRequest OP_WRITE 2 tour_handle 0 [x41; x42] true));
   default [] (encode (Wire := @wire_PathRequest example_codec) (MkPathRequest OP_UNLINK 3 (lit "/n")));
   default [] (encode (Wire := @wire_ReadRequest example_codec) (MkReadRequest OP_READ 4 tour_handle 0 10));
   default [] (encode (Wire := @wire_ReleaseRequest example_codec) (MkReleaseRequest OP_RELEASE 5 tour_handle));
   default [] (encode (Wire := @wire_ReadRequest example_codec) (MkReadRequest OP_READ 6 tour_handle 0 10))].

Definition tour_volume : volume := fresh_volume ns_kernel 7 4.
Definition tour_desk : desk := MkDesk (fun _ => 0) (with_limit 7 4) [].
Definition tour_end : list (option bytes) * volume := vol_session (C := example_codec) [lit "srv"] 2 tour tour_volume.
Definition tour_frames : list bytes := map (default []) (fst tour_end).

(** What was written is read after the name is gone, and not after the release. *)
Definition tour_data (b : bytes) : option (bytes * Z) :=
  (fun a => (rr_data a, rr_status a)) <$> decode (Wire := @wire_ReadResponse example_codec) b.

Example tour_reads :
  map tour_data (take 2 (drop 3 tour_frames)) = [Some ([x41; x42], 0); Some ([], 0)] /\
  map tour_data (drop 6 tour_frames) = [Some ([], status_as_u8 StStale)].
Proof. by vm_compute. Qed.

Example tour_gone : ents_at (v_fs (snd tour_end)) 2 = ents_at ns_kernel 2.
Proof. by vm_compute. Qed.

Lemma ns_kernel_exports : exports ns_kernel {[2; 4; 5]} [lit "srv"] 2.
Proof.
  split; [set_solver| |].
  - cbn [leads]. split; [change (k_slash ns_kernel) with 1; set_solver|]. eexists _, 2. split_and!; [done|by vm_compute|by eexists|done].
  - intros d e c i Hd He Hc. assert (d = 2 \/ d = 4 \/ d = 5) as [-> | [-> | ->]] by set_solver; [|done|done].
    change (ents_at ns_kernel 2) with (Some {[lit "out" := 4; lit "f" := 5]} : option (gmap (list Z) Z)) in He. injection He as <-.
    apply lookup_insert_Some in Hc as [[_ <-]|[_ Hc]]; [set_solver|]. apply lookup_singleton_Some in Hc as [_ <-]. set_solver.
Qed.

#[local] Ltac fits := apply Z.leb_le; by vm_compute.
#[local] Ltac envelope op n := exists (MkEnvelope op n); split; by vm_compute.

Lemma tour_arrives : Forall2 (arrives (C := example_codec)) tour (map (fun b => [b]) tour_raw).
Proof.
  repeat apply Forall2_cons_2; [..|constructor]; (split; [fits|split]).
  - envelope OP_CREATE 1.
  - by vm_compute.
  - envelope OP_WRITE 2.
  - split; [|by split]. apply Forall2_cons_2; [split; [by vm_compute|fits]|constructor].
  - envelope OP_UNLINK 3.
  - by vm_compute.
  - envelope OP_READ 4.
  - split; [by vm_compute|by split].
  - envelope OP_RELEASE 5.
  - by vm_compute.
  - envelope OP_READ 6.
  - split; [by vm_compute|by split].
Qed.

Lemma frames_all l :
  forallb (fun x => match x with Some b => zlen b <=? MAX_FRAME_SIZE | None => false end) l = true -> frames l (map (default []) l).
Proof.
  induction l as [|[b|] l IH]; [constructor| |done]. cbn [forallb map default]. intros [Hb%Z.leb_le Hl]%andb_prop.
  constructor; [done|by apply IH].
Qed.

Lemma tour_fits : frames (fst tour_end) tour_frames.
Proof. apply frames_all. by vm_compute. Qed.

Lemma tour_sound : sound ns_kernel {[2; 4; 5]} tour_volume.
Proof. apply (fresh_sound ns_kernel {[2; 4; 5]} [lit "srv"] 2); [apply ns_kernel_exports|apply ns_kernel_modes]. Qed.

Lemma session_refines_witness :
  exists k' t', serve_all (C := example_codec) demo_session [lit "srv"] (map (fun b => [b]) tour_raw) (ns_kernel, tour_desk) =
    (k', posts tour_frames (set_dk_table t' tour_desk)) /\ holds (snd tour_end) k' t' /\ sound ns_kernel {[2; 4; 5]} (snd tour_end).
Proof.
  exact (session_refines (C := example_codec) demo_session [lit "srv"] 2 ns_kernel {[2; 4; 5]} tour (map (fun b => [b]) tour_raw)
    tour_volume ns_kernel tour_desk tour_frames ns_kernel_exports (proj2 (proj2 ns_kernel_exported)) eq_refl tour_sound
    (fresh_holds ns_kernel 7 4) tour_arrives tour_fits).
Defined.
