(* ===== verification/Typing.v ===== *)
(** * Field widths

    The sources give every field and every argument of a call a machine type;
    here it is a [Z].  This file gives each message of [src/common/src/frames.rs]
    and [src/common/src/stat.rs] its type as a decidable predicate, states what a
    kernel's answers and a server task's calls are in the same terms, and proves
    that a task never leaves them: wherever Rust's arithmetic wraps, saturates or
    is cast, so does the model's, and nowhere else does a value outgrow its
    field. *)

From S2P Require Import Prelude Prog Text Status Frames FrameIo Os Sanitize WriteLock Handles Confine Reply MetaOps DataOps CtrlOps Dispatch ExampleCodec Server.

(** ** Types *)

#[export] Instance in_width_dec w z : Decision (in_width w z).
Proof. unfold in_width. apply _. Defined.

(** [i64] *)
Definition in_i64 (z : Z) : Prop := - 2 ^ 63 <= z < 2 ^ 63.
#[export] Instance in_i64_dec z : Decision (in_i64 z).
Proof. unfold in_i64. apply _. Defined.

Abbreviation u8 := (in_width 8).
Abbreviation u32 := (in_width 32).
Abbreviation u64 := (in_width 64).

(** A type with its values, decidable. *)
Class Typed (T : Type) := {
  typed : T -> Prop;
  typed_dec x :: Decision (typed x)
}.

Definition opt_ok {T} `{!Typed T} (o : option T) : Prop := match o with Some x => typed x | None => True end.
#[export] Instance opt_ok_dec {T} `{!Typed T} (o : option T) : Decision (opt_ok o).
Proof. destruct o; apply _. Defined.
#[export] Instance typed_option {T} `{!Typed T} : Typed (option T) := {| typed := opt_ok |}.
#[export] Instance typed_list {T} `{!Typed T} : Typed (list T) := {| typed l := Forall typed l |}.

Definition Stat_ok (s : Stat) : Prop :=
  u64 (st_ino s) /\ u32 (st_mode s) /\ u32 (st_nlink s) /\ u32 (st_uid s) /\ u32 (st_gid s) /\ u64 (st_size s) /\
  in_i64 (st_atime s) /\ in_i64 (st_mtime s) /\ in_i64 (st_ctime s) /\ u32 (st_blksz s) /\ u64 (st_blocks s).
Definition StatFs_ok (s : StatFs) : Prop :=
  u64 (sf_blocks s) /\ u64 (sf_bfree s) /\ u64 (sf_bavail s) /\ u64 (sf_files s) /\ u64 (sf_ffree s) /\
  u32 (sf_bsize s) /\ u32 (sf_namelen s) /\ u32 (sf_frsize s).

#[export] Instance Stat_ok_dec s : Decision (Stat_ok s).
Proof. unfold Stat_ok. apply _. Defined.
#[export] Instance StatFs_ok_dec s : Decision (StatFs_ok s).
Proof. unfold StatFs_ok. apply _. Defined.

#[export] Instance typed_Stat : Typed Stat := {| typed := Stat_ok |}.
#[export] Instance typed_StatFs : Typed StatFs := {| typed := StatFs_ok |}.
#[export] Instance typed_DirEntry : Typed DirEntry := {| typed e := u64 (de_ino e) /\ u32 (de_mode e) |}.

(** *** Requests *)

#[export] Instance typed_Envelope : Typed Envelope := {| typed x := u8 (env_op x) /\ u64 (env_seq x) |}.
#[export] Instance typed_HandshakeRequest : Typed HandshakeRequest :=
  {| typed x := u8 (hq_op x) /\ u64 (hq_seq x) /\ u8 (hq_version x) /\ u32 (hq_chunk_size x) |}.
#[export] Instance typed_PingRequest : Typed PingRequest := {| typed x := u8 (pgq_op x) /\ u64 (pgq_seq x) |}.
#[export] Instance typed_GetAttrRequest : Typed GetAttrRequest := {| typed x := u8 (gaq_op x) /\ u64 (gaq_seq x) |}.
#[export] Instance typed_SetAttrRequest : Typed SetAttrRequest :=
  {| typed x := u8 (saq_op x) /\ u64 (saq_seq x) /\ u32 (saq_valid x) /\ u32 (saq_mode x) /\ u32 (saq_uid x) /\
       u32 (saq_gid x) /\ u64 (saq_size x) /\ in_i64 (saq_atime x) /\ in_i64 (saq_mtime x) |}.
#[export] Instance typed_ReadDirRequest : Typed ReadDirRequest :=
  {| typed x := u8 (rdq_op x) /\ u64 (rdq_seq x) /\ u64 (rdq_cursor x) |}.
#[export] Instance typed_OpenRequest : Typed OpenRequest :=
  {| typed x := u8 (opq_op x) /\ u64 (opq_seq x) /\ u32 (opq_flags x) |}.
#[export] Instance typed_ReleaseRequest : Typed ReleaseRequest :=
  {| typed x := u8 (rlq_op x) /\ u64 (rlq_seq x) /\ u64 (rlq_handle x) |}.
#[export] Instance typed_ReadRequest : Typed ReadRequest :=
  {| typed x := u8 (rq_op x) /\ u64 (rq_seq x) /\ u64 (rq_handle x) /\ u64 (rq_offset x) /\ u32 (rq_length x) |}.
#[export] Instance typed_WriteRequest : Typed WriteRequest :=
  {| typed x := u8 (wq_op x) /\ u64 (wq_seq x) /\ u64 (wq_handle x) /\ u64 (wq_offset x) |}.
#[export] Instance typed_RenameRequest : Typed RenameRequest :=
  {| typed x := u8 (rnq_op x) /\ u64 (rnq_seq x) /\ u32 (rnq_flags x) |}.
#[export] Instance typed_PathRequest : Typed PathRequest := {| typed x := u8 (pq_op x) /\ u64 (pq_seq x) |}.
#[export] Instance typed_MkDirRequest : Typed MkDirRequest :=
  {| typed x := u8 (mdq_op x) /\ u64 (mdq_seq x) /\ u32 (mdq_mode x) |}.
#[export] Instance typed_CreateRequest : Typed CreateRequest :=
  {| typed x := u8 (crq_op x) /\ u64 (crq_seq x) /\ u32 (crq_flags x) /\ u32 (crq_mode x) |}.
#[export] Instance typed_FsyncRequest : Typed FsyncRequest :=
  {| typed x := u8 (fsq_op x) /\ u64 (fsq_seq x) /\ u64 (fsq_handle x) |}.
#[export] Instance typed_SymlinkRequest : Typed SymlinkRequest := {| typed x := u8 (slq_op x) /\ u64 (slq_seq x) |}.
#[export] Instance typed_LinkRequest : Typed LinkRequest := {| typed x := u8 (lkq_op x) /\ u64 (lkq_seq x) |}.

(** *** Responses *)

#[export] Instance typed_HandshakeResponse : Typed HandshakeResponse :=
  {| typed x := u8 (hr_op x) /\ u64 (hr_seq x) /\ u8 (hr_status x) /\ u8 (hr_version x) /\ u32 (hr_chunk_size x) |}.
#[export] Instance typed_PingResponse : Typed PingResponse :=
  {| typed x := u8 (pgr_op x) /\ u64 (pgr_seq x) /\ u8 (pgr_status x) |}.
#[export] Instance typed_GetAttrResponse : Typed GetAttrResponse :=
  {| typed x := u8 (gar_op x) /\ u64 (gar_seq x) /\ u8 (gar_status x) /\ typed (gar_stat x) |}.
#[export] Instance typed_SetAttrResponse : Typed SetAttrResponse :=
  {| typed x := u8 (sar_op x) /\ u64 (sar_seq x) /\ u8 (sar_status x) /\ typed (sar_stat x) |}.
#[export] Instance typed_ReadDirResponse : Typed ReadDirResponse :=
  {| typed x := u8 (rdr_op x) /\ u64 (rdr_seq x) /\ u8 (rdr_status x) /\ typed (rdr_entries x) /\ u64 (rdr_cursor x) |}.
#[export] Instance typed_OpenResponse : Typed OpenResponse :=
  {| typed x := u8 (opr_op x) /\ u64 (opr_seq x) /\ u8 (opr_status x) /\ u64 (opr_handle x) /\ typed (opr_stat x) |}.
#[export] Instance typed_ReleaseResponse : Typed ReleaseResponse :=
  {| typed x := u8 (rlr_op x) /\ u64 (rlr_seq x) /\ u8 (rlr_status x) |}.
#[export] Instance typed_ReadResponse : Typed ReadResponse :=
  {| typed x := u8 (rr_op x) /\ u64 (rr_seq x) /\ u8 (rr_status x) /\ u64 (rr_offset x) |}.
#[export] Instance typed_WriteResponse : Typed WriteResponse :=
  {| typed x := u8 (wr_op x) /\ u64 (wr_seq x) /\ u8 (wr_status x) /\ u64 (wr_written x) |}.
#[export] Instance typed_StatusResponse : Typed StatusResponse :=
  {| typed x := u8 (sr_op x) /\ u64 (sr_seq x) /\ u8 (sr_status x) |}.
#[export] Instance typed_ReadLinkResponse : Typed ReadLinkResponse :=
  {| typed x := u8 (rkr_op x) /\ u64 (rkr_seq x) /\ u8 (rkr_status x) |}.
#[export] Instance typed_StatFsResponse : Typed StatFsResponse :=
  {| typed x := u8 (sfr_op x) /\ u64 (sfr_seq x) /\ u8 (sfr_status x) /\ typed (sfr_statfs x) |}.

(** ** The codec

    serde fills a [u8] only with a value of eight bits, and so on: a message whose
    fields do not fit is refused. *)

Class TypedWire (T : Type) `{!Wire T, !Typed T} : Prop := decode_typed b x : decode b = Some x -> typed x.

Class TypedCodec (C : Codec) : Prop := {
  tw_Envelope :: TypedWire Envelope;
  tw_HandshakeRequest :: TypedWire HandshakeRequest;
  tw_PingRequest :: TypedWire PingRequest;
  tw_GetAttrRequest :: TypedWire GetAttrRequest;
  tw_SetAttrRequest :: TypedWire SetAttrRequest;
  tw_ReadDirRequest :: TypedWire ReadDirRequest;
  tw_OpenRequest :: TypedWire OpenRequest;
  tw_ReleaseRequest :: TypedWire ReleaseRequest;
  tw_ReadRequest :: TypedWire ReadRequest;
  tw_WriteRequest :: TypedWire WriteRequest;
  tw_RenameRequest :: TypedWire RenameRequest;
  tw_PathRequest :: TypedWire PathRequest;
  tw_MkDirRequest :: TypedWire MkDirRequest;
  tw_CreateRequest :: TypedWire CreateRequest;
  tw_FsyncRequest :: TypedWire FsyncRequest;
  tw_SymlinkRequest :: TypedWire SymlinkRequest;
  tw_LinkRequest :: TypedWire LinkRequest
}.

(** ** The contract *)

(** [std::fs::Metadata]'s getters, [struct statvfs]. *)
Definition metadata_ok (m : metadata) : Prop :=
  u64 (m_dev m) /\ u64 (m_ino m) /\ u32 (m_mode m) /\ u64 (m_nlink m) /\ u32 (m_uid m) /\ u32 (m_gid m) /\ u64 (m_len m).
Definition statvfs_ok (s : statvfs_t) : Prop :=
  u64 (f_blocks s) /\ u64 (f_bfree s) /\ u64 (f_bavail s) /\ u64 (f_files s) /\ u64 (f_ffree s).

(** [b] encodes a response all of whose fields fit. *)
Definition typed_reply (b : bytes) : Prop :=
  exists (T : Type) (w : Wire T) (i : IsResponse T) (t : Typed T) (x : T), encode x = Some b /\ typed x.

(** Open flags are a [c_int], modes a [mode_t], offsets and sizes [u64]; lengths
    counted are those of frames. *)
Definition typed_pre {X} (e : sysE X) : Prop :=
  match e with
  | Open _ flags mode => in_width 31 flags /\ u32 mode
  | Openat2 _ _ flags mode resolve => in_width 31 flags /\ u32 mode /\ u64 resolve
  | Mkdirat _ _ mode | Fchmodat _ _ mode | SetPermissions _ mode | FchmodProc _ mode => in_width 9 mode
  | Unlinkat _ _ flag => in_width 31 flag
  | Readlinkat _ _ bufsize => u64 bufsize
  | SetLen _ size => u64 size
  | UtimensProc _ at_ mt => in_i64 (tv_sec at_) /\ in_i64 (tv_nsec at_) /\ in_i64 (tv_sec mt) /\ in_i64 (tv_nsec mt)
  | SeekStart _ offset => u64 offset
  | ReadFile _ count => 0 < count <= CHUNK
  | TryInsert _ flags _ => u32 flags
  | HandleRemove id | GetFile id | GetWriteCtx id => u64 id
  | RecordRx n | RecordTx n => 0 <= n <= MAX_FRAME_SIZE
  | LockStripe i | UnlockStripe i => 0 <= i < STRIPES
  | SendFrame b => typed_reply b
  | _ => True
  end.

(** [write_frame] fails on a frame above the limit. *)
Definition typed_post {X} (e : sysE X) : X -> Prop :=
  match e in sysE X return X -> Prop with
  | SymlinkMetadata _ | MetadataOf _ | FileMetadata _ =>
      fun r => match r with Ok m => metadata_ok m | Err _ => True end
  | ReadDir _ => fun r => match r with
      | Ok items => Forall (fun it => match di_meta it with Ok m => metadata_ok m | Err _ => True end) items
      | Err _ => True
      end
  | Statvfs _ => fun r => match r with Ok s => statvfs_ok s | Err _ => True end
  | TryInsert _ _ _ => fun o => match o with Some id => u64 id | None => True end
  | GetWriteCtx _ => fun o => match o with Some (_, flags, key) => u32 flags /\ in_width 128 key | None => True end
  | SendFrame b => fun r => match r with Ok _ => zlen b <= MAX_FRAME_SIZE | Err _ => True end
  | _ => fun _ => True
  end.

Definition typed_spec : spec sysE unit :=
  Spec _ _ (fun X e _ => typed_pre e) (fun X e _ x _ => typed_post e x).

(** Every call of [m] is in range, whatever the answers. *)
Abbreviation fits m := (wp typed_spec m tt (fun _ _ => True)).

(** ** Values *)

Lemma as_i64_range z : in_i64 (as_i64 z).
Proof.
  unfold as_i64, in_i64. pose proof (wrap_range 64 z ltac:(lia)) as H. unfold in_width in H.
  destruct (wrap64 z <? 2 ^ 63) eqn:E; lia.
Qed.

Lemma time_ns_range t : in_i64 (time_ns t).
Proof. unfold time_ns. destruct t as [z|]; [destruct (0 <=? z)|]; first [apply as_i64_range | unfold in_i64; lia]. Qed.

Lemma metadata_to_stat_typed m : metadata_ok m -> typed (metadata_to_stat m).
Proof.
  unfold metadata_ok. intros (Hd & Hi & Hm & Hn & Hu & Hg & Hl). cbn. unfold Stat_ok. cbn.
  pose proof (wrap_range 64 (m_len m + 511) ltac:(lia)) as Hw. unfold nlink_of, u32_max.
  split_and!; try done; try apply time_ns_range; unfold in_width in *; try lia.
  split; [apply Z.div_pos; lia|]. apply Z.div_lt_upper_bound; lia.
Qed.

Lemma stat_ok_typed r : match r with Ok m => metadata_ok m | Err _ => True end -> typed (stat_ok r).
Proof. destruct r as [m|]; [apply metadata_to_stat_typed|done]. Qed.

Lemma statfs_of_typed s : statvfs_ok s -> typed (statfs_of s).
Proof.
  intros (? & ? & ? & ? & ?). cbn. unfold StatFs_ok. cbn. split_and!; try done; apply wrap_range; lia.
Qed.

Lemma readdir_loop_typed skip out items :
  Forall typed out -> Forall (fun it => match di_meta it with Ok m => metadata_ok m | Err _ => True end) items ->
  Forall typed (readdir_loop skip out items).
Proof.
  intros Ho H. revert skip out Ho. induction H as [|it items Hit _ IH]; intros skip out Ho; simpl; [done|].
  destruct (0 <? skip); [by apply IH|].
  assert (Forall typed (out ++ [dir_entry it])) as Ho'.
  { apply Forall_app. split; [done|]. constructor; [|done]. unfold dir_entry.
    destruct (di_meta it) as [m|]; cbn; [|done]. destruct Hit as (_ & ? & ? & _). done. }
  destruct (256 <=? _); [done|]. by apply IH.
Qed.

Lemma ns_to_timespec_range ns : in_i64 ns -> in_i64 (tv_sec (ns_to_timespec ns)) /\ in_i64 (tv_nsec (ns_to_timespec ns)).
Proof. unfold in_i64, ns_to_timespec. cbn. intros H. split; Z.to_euclidean_division_equations; lia. Qed.

Lemma perm_range mode : in_width 9 (Z.land mode perm_mask).
Proof.
  change perm_mask with (Z.ones 9). rewrite Z.land_ones by lia. apply (wrap_range 9). lia.
Qed.

Lemma perm_u32 mode : u32 (Z.land mode perm_mask).
Proof. pose proof (perm_range mode) as H. unfold in_width in *. lia. Qed.

(** Bounds on [|], from the width of both sides. *)
Lemma lor_width w a b : 0 <= w -> in_width w a -> in_width w b -> in_width w (Z.lor a b).
Proof.
  unfold in_width. intros Hw Ha Hb. split; [apply Z.lor_nonneg; lia|].
  destruct (decide (Z.lor a b = 0)) as [->|Hne]; [by apply Z.pow_pos_nonneg; lia|].
  apply Z.log2_lt_pow2; [pose proof (proj2 (Z.lor_nonneg a b)); lia|]. rewrite Z.log2_lor by lia.
  apply Z.max_lub_lt; (destruct (decide (0 < w)) as [Hp|]; [|replace w with 0 in * by lia; exfalso; 
    assert (a = 0 /\ b = 0) as [-> ->] by lia; done]).
  - destruct (decide (a = 0)) as [->|]; [done|]. apply Z.log2_lt_pow2; lia.
  - destruct (decide (b = 0)) as [->|]; [done|]. apply Z.log2_lt_pow2; lia.
Qed.

Lemma open_oflags_range flags : in_width 31 (open_oflags flags).
Proof.
  unfold open_oflags. destruct (has_bits flags 0x400); [apply lor_width; [lia| |done]|];
    by destruct (Z.land flags 3) as [|[|[]|]|].
Qed.

Lemma create_oflags_range flags : in_width 31 (create_oflags flags).
Proof. unfold create_oflags. by destruct (has_bits flags 0x80), (has_bits flags 0x200), (has_bits flags 0x400). Qed.

Lemma stripe_range key : 0 <= stripe_for key < STRIPES.
Proof. apply Z.mod_pos_bound. done. Qed.

Create HintDb typing.
#[export] Hint Resolve as_i64_range time_ns_range metadata_to_stat_typed stat_ok_typed statfs_of_typed
  status_u8_range perm_range perm_u32 open_oflags_range create_oflags_range stripe_range : typing.

(** ** Typing programs *)

Lemma wp_any {A} (m : sys A) (Q : A -> unit -> Prop) :
  fits m -> (forall x, Q x tt) -> wp typed_spec m tt Q.
Proof. intros Hm HQ. eapply wp_mono; [|exact Hm]. intros x [] _. apply HQ. Qed.

Lemma ty_call {X} (e : sysE X) (Q : X -> unit -> Prop) :
  typed_pre e -> (forall x, typed_post e x -> Q x tt) -> wp typed_spec (call e) tt Q.
Proof. intros Hp HQ. apply wp_call; [exact Hp|]. intros x []. apply HQ. Qed.

Lemma ty_send {T} `{!Wire T, !IsResponse T, !Typed T} (x : T) : typed x -> fits (send_resp x).
Proof.
  intros Hx. unfold send_resp. destruct (encode x) as [b|] eqn:E; [|done].
  wp_step. apply ty_call; [by exists T, _, _, _, x|]. intros [[]|] _; [|done].
  wp_step. apply ty_call; [done|]. by intros [[]|].
Qed.

Lemma ty_send_tx {T} `{!Wire T, !IsResponse T, !Typed T} (x : T) : typed x -> fits (send_resp_tx x).
Proof.
  intros Hx. unfold send_resp_tx. destruct (encode x) as [b|] eqn:E; [|done].
  wp_step. apply ty_call; [by exists T, _, _, _, x|]. intros [[]|] Hb; [|done].
  wp_step. apply ty_call; [done|]. intros [[]|] _; [|done].
  wp_step. apply ty_call; [simpl in *; lia|]. done.
Qed.

Lemma ty_then_tx0 m : fits m -> fits (then_tx0 m).
Proof.
  intros Hm. unfold then_tx0. wp_step. apply wp_any; [done|]. intros [[]|]; [|done].
  wp_step. apply ty_call; [split; by vm_compute|]. done.
Qed.

(** A message, field by field. *)
Ltac ty_msg :=
  cbn -[in_width in_i64 status_as_u8 opt_ok stat_ok statfs_of wrap sat_add64 Z.min Z.add readdir_loop length];
  repeat match goal with |- _ /\ _ => split end;
  try solve [done | apply status_u8_range | apply stat_ok_typed; assumption | apply wrap_range; lia | assumption].

#[export] Hint Extern 1 (in_width _ _) => done : typing.
#[export] Hint Extern 2 (in_width _ _) => unfold in_width in *; lia : typing.
#[export] Hint Extern 1 (wp _ (send_resp _) _ _) => apply ty_send; solve [ty_msg] : typing.
#[export] Hint Extern 1 (wp _ (send_resp_tx _) _ _) => apply ty_send_tx; solve [ty_msg] : typing.
#[export] Hint Resolve ty_then_tx0 : typing.

(** One call, with its arguments in range. *)
Ltac ty_arg :=
  cbn [typed_pre]; try done; repeat match goal with |- _ /\ _ => split end;
  try solve [done | auto with typing | unfold in_width in *; lia].

(** Symbolic execution: calls, callees with a lemma, and the cases of every
    match. *)
Ltac ty_go :=
  cbv beta iota zeta;
  lazymatch goal with
  | |- True => exact I
  | |- forall _, _ => intros; ty_go
  | |- wp _ (Ret _) _ _ => apply wp_ret; ty_go
  | |- wp _ (liftr _) _ _ => apply wp_ret; ty_go
  | |- wp _ (with_file _ _) _ _ => unfold with_file; ty_go
  | |- wp _ (bind _ _) _ _ => apply wp_bind; ty_go
  | |- wp _ (bindr _ _) _ _ => apply wp_bindr; ty_go
  | |- wp _ (call _) _ _ => apply ty_call; [ty_arg|ty_go]
  | |- wp _ (match ?x with _ => _ end) _ _ => destruct x eqn:?; ty_go
  | |- wp _ _ _ (fun _ _ => True) => try solve [eauto 6 with typing]
  | |- wp _ _ _ _ => apply wp_any; [solve [eauto 6 with typing]|ty_go]
  | |- match ?x with _ => _ end => destruct x eqn:?; ty_go
  | |- _ => idtac
  end.

Section Typing.
Context {C : Codec} {TC : TypedCodec C}.
Variables (session : ClientSession) (root : path).

(** *** sanitize.rs *)

Lemma ty_walk p cs : fits (walk p cs).
Proof.
  revert p. induction cs as [|c [|c' cs] IH]; intros p; [done|done|].
  change (walk p (c :: c' :: cs)) with
    (m <- sc (SymlinkMetadata (push p c)) ;;
     match m with
     | Ok m => if is_symlink m then Ret (Err PathEscapes) else walk (push p c) (c' :: cs)
     | Err _ => walk (push p c) (c' :: cs)
     end).
  ty_go.
Qed.
#[local] Hint Resolve ty_walk : typing.

Lemma ty_resolve cp : fits (resolve root cp).
Proof. unfold resolve. ty_go. Qed.

Lemma ty_open_confined p flags mode :
  in_width 31 flags -> u32 mode -> fits (open_confined root p flags mode).
Proof.
  intros Hf Hm. assert (in_width 31 (Z.lor flags O_CLOEXEC)) by (apply lor_width; [lia|done..]).
  unfold open_confined, openat2_beneath, open_plain. ty_go.
  by destruct (has_bits flags O_CREAT).
Qed.

#[local] Hint Resolve ty_resolve ty_open_confined : typing.

Lemma ty_sync_parent_dir p : fits (sync_parent_dir root p).
Proof. unfold sync_parent_dir, fsync_dir_confined. ty_go. Qed.

Lemma ty_confined_parent p : fits (confined_parent root p).
Proof. unfold confined_parent. ty_go. Qed.
#[local] Hint Resolve ty_sync_parent_dir ty_confined_parent : typing.

Lemma ty_mkdir_confined p mode : fits (mkdir_confined root p mode).
Proof. unfold mkdir_confined. ty_go. Qed.
Lemma ty_remove_confined p is_dir : fits (remove_confined root p is_dir).
Proof. unfold remove_confined. ty_go. by destruct is_dir. Qed.
Lemma ty_symlink_confined p target : fits (symlink_confined root p target).
Proof. unfold symlink_confined. ty_go. Qed.
Lemma ty_link_confined src dst : fits (link_confined root src dst).
Proof. unfold link_confined. ty_go. Qed.
Lemma ty_rename_confined old new : fits (rename_confined root old new).
Proof. unfold rename_confined. ty_go. Qed.
Lemma ty_readlink_confined p : fits (readlink_confined root p).
Proof. unfold readlink_confined. ty_go. Qed.
#[local] Hint Resolve ty_mkdir_confined ty_remove_confined ty_symlink_confined ty_link_confined
  ty_rename_confined ty_readlink_confined : typing.

(** *** meta.rs *)

Lemma ty_decoded {T} `{!Wire T, !Typed T, !TypedWire T} raw (k : T -> sys (anyhow unit)) :
  (forall req, typed req -> fits (k req)) -> fits (x <-? decoded raw ;; k x).
Proof.
  intros Hk. wp_step. unfold decoded. wp_step. destruct (decode raw) as [req|] eqn:E; [|done].
  by eapply Hk, decode_typed.
Qed.

Lemma ty_sync_if_ok s p : fits (sync_if_ok session root s p).
Proof. unfold sync_if_ok. ty_go. Qed.
#[local] Hint Resolve ty_sync_if_ok : typing.

Ltac handler := apply ty_decoded; let req := fresh "req" in intros req Hreq; cbn in Hreq; destruct_and? Hreq.

Lemma ty_getattr raw : fits (handle_getattr root raw).
Proof. handler. unfold send_stat_resp. ty_go. Qed.

Lemma ty_setattr_size req p : typed req -> fits (setattr_size root req p).
Proof. intros H. cbn in H. destruct_and? H. unfold setattr_size. ty_go. Qed.

Lemma ty_setattr_attrs req p : typed req -> fits (setattr_attrs root req p).
Proof.
  intros H. cbn in H. destruct_and? H.
  assert (forall b ns, in_i64 ns -> let t := if b : bool then ns_to_timespec ns else utime_omit in
    in_i64 (tv_sec t) /\ in_i64 (tv_nsec t)) as Ht.
  { intros [] ns Hns; [by apply ns_to_timespec_range|done]. }
  unfold setattr_attrs, setattr_mode, setattr_times. ty_go; by apply Ht.
Qed.
#[local] Hint Resolve ty_setattr_size ty_setattr_attrs : typing.

Lemma ty_setattr raw : fits (handle_setattr root raw).
Proof. apply ty_decoded. intros req Hreq. pose proof Hreq as H. cbn in H. destruct_and? H. ty_go. Qed.

Lemma ty_readdir raw : fits (handle_readdir root raw).
Proof.
  handler. apply wp_bind, wp_any; [auto with typing|]. intros [p|e]; [|auto with typing].
  apply wp_bind, ty_call; [done|]. intros d Hd. cbv zeta.
  assert (forall st es b, Forall typed es -> fits (then_tx0 (send_resp (MkReadDirResponse OP_READ_DIR (rdq_seq req)
    (status_as_u8 st) es (wrap64 (rdq_cursor req + zlen es)) b)))) as Hs.
  { intros st es b Hes. apply ty_then_tx0, ty_send. ty_msg. }
  destruct d as [items|e]; apply Hs; [by apply readdir_loop_typed|constructor].
Qed.

Lemma ty_stat_if_ok st p q :
  q = MetadataOf p \/ q = SymlinkMetadata p -> wp typed_spec (stat_if_ok st q) tt (fun o _ => typed o).
Proof.
  intros Hq. unfold stat_if_ok. destruct (bool_decide _); [|done].
  apply wp_bind, ty_call; [by destruct Hq as [-> | ->]|]. intros m Hm. apply wp_ret, stat_ok_typed.
  by destruct Hq as [-> | ->].
Qed.

Lemma ty_stat_none op seq st : u8 op -> u64 seq -> fits (send_stat_resp op seq st None).
Proof. intros. apply ty_send. ty_msg. Qed.
#[local] Hint Resolve ty_stat_none : typing.

(** The answer of the operations that make an entry. *)
Lemma ty_entry op seq st p q :
  u8 op -> u64 seq -> q = MetadataOf p \/ q = SymlinkMetadata p ->
  fits (stat <- stat_if_ok st q ;; then_tx0 (send_stat_resp op seq st stat)).
Proof.
  intros Ho Hs Hq. eapply wp_seq; [by eapply ty_stat_if_ok|]. intros o [] Ht.
  apply ty_then_tx0, ty_send. ty_msg.
Qed.

Lemma ty_mkdir raw : fits (handle_mkdir session root raw).
Proof.
  handler. apply wp_bind, wp_any; [auto with typing|].
  intros [p|e]; [|auto with typing]. apply wp_bind, wp_any; [auto with typing|]. intros rc. cbv zeta.
  apply wp_bind, wp_any; [auto with typing|]. intros _. by eapply ty_entry; [..|left].
Qed.

Lemma ty_symlink raw : fits (handle_symlink session root raw).
Proof.
  handler. destruct (_ <? _); [auto with typing|]. apply wp_bind, wp_any; [auto with typing|].
  intros [p|e]; [|auto with typing]. apply wp_bind, wp_any; [auto with typing|]. intros rc. cbv zeta.
  apply wp_bind, wp_any; [auto with typing|]. intros _. by eapply ty_entry; [..|right].
Qed.

Lemma ty_link raw : fits (handle_link session root raw).
Proof.
  handler. apply wp_bind, wp_any; [auto with typing|].
  intros [src|e]; [|auto with typing]. apply wp_bind, wp_any; [auto with typing|].
  intros [dst|e]; [|auto with typing]. apply wp_bind, wp_any; [auto with typing|]. intros rc. cbv zeta.
  apply wp_bind, wp_any; [auto with typing|]. intros _. by eapply ty_entry; [..|left].
Qed.

Lemma ty_rmdir raw : fits (handle_rmdir session root raw).
Proof. handler. unfold send_status. ty_go. Qed.
Lemma ty_unlink raw : fits (handle_unlink session root raw).
Proof. handler. unfold send_status. ty_go. Qed.
Lemma ty_rename raw : fits (handle_rename session root raw).
Proof. handler. unfold send_status. ty_go. Qed.
Lemma ty_readlink raw : fits (handle_readlink root raw).
Proof. handler. ty_go. Qed.
Lemma ty_statfs raw : fits (handle_statfs root raw).
Proof.
  handler. unfold send_statfs_resp, query_statfs. ty_go.
  apply ty_then_tx0, ty_send. ty_msg. destruct x0 as [fs|]; [by apply statfs_of_typed|done].
Qed.
Lemma ty_open raw : fits (handle_open root raw).
Proof. handler. unfold open_fail. ty_go. Qed.
Lemma ty_release raw : fits (handle_release session raw).
Proof. handler. ty_go. Qed.
Lemma ty_fsync raw : fits (handle_fsync raw).
Proof. handler. ty_go. Qed.
Lemma ty_create raw : fits (handle_create session root raw).
Proof. handler. unfold open_fail. ty_go. Qed.
Lemma ty_ping raw : fits (handle_ping raw).
Proof. handler. ty_go. Qed.

(** *** data.rs *)

Lemma ty_read_err seq offset st : u64 seq -> u64 offset -> fits (send_read_err seq offset st).
Proof. intros. apply ty_send. ty_msg. Qed.
#[local] Hint Resolve ty_read_err : typing.

Lemma ty_read_loop fuel fd seq offset remaining :
  u64 seq -> u64 offset -> fits (read_loop fuel fd seq offset remaining).
Proof.
  intros Hs. revert offset remaining. induction fuel as [|fuel IH]; intros offset remaining Ho; cbn [read_loop];
    (destruct (remaining <=? 0) eqn:E; [by ty_go|]); [done|].
  apply Z.leb_gt in E. apply wp_bind, wp_bindr, ty_call; [done|]. intros [z|e] _; [|auto with typing].
  apply ty_call; [cbn; unfold CHUNK; lia|]. intros [buf|e] _; [|auto with typing]. cbv zeta.
  destruct (encode _) as [b|] eqn:Eb; [|done].
  apply wp_bindr, ty_call; [exists ReadResponse, _, _, _; eexists; split; [exact Eb|ty_msg]|]. intros [[]|e] Hb; [|done].
  apply wp_bind, ty_call; [cbn in *; lia|]. intros _ _. destruct (zlen buf =? 0); [ty_go|].
  apply IH, wrap_range. lia.
Qed.
#[local] Hint Resolve ty_read_loop : typing.

Lemma ty_read raw : fits (handle_read raw).
Proof. handler. ty_go. Qed.

Lemma ty_write_at fd offset data total append :
  u64 offset -> u64 total -> wp typed_spec (write_at fd offset data total append) tt
    (fun r _ => match r with Ok t => u64 t | Err _ => True end).
Proof.
  intros Ho Ht. unfold write_at. destruct append; ty_go; unfold sat_add64, in_width, u64_max in *; lia.
Qed.

Lemma ty_write_resp seq st total : u64 seq -> u64 total -> fits (send_resp (MkWriteResponse OP_WRITE seq (status_as_u8 st) total)).
Proof. intros. apply ty_send. ty_msg. Qed.

Lemma ty_write_loop fuel recv fd seq total append done :
  u64 seq -> u64 total -> fits (write_loop fuel recv fd seq total append done).
Proof.
  intros Hs. revert recv total done. induction fuel as [|fuel IH]; intros recv total done Ht; cbn [write_loop];
    (destruct done; [apply ty_send_tx; ty_msg|]); [by apply wp_ret|].
  destruct (read_frame recv) as [[chunk_raw recv']|e] eqn:Er; [|by apply wp_ret].
  apply read_frame_inv in Er as [_ Hl]. apply wp_bind, ty_call; [cbn; lia|]. intros _ _.
  handler. eapply wp_seq; [by apply ty_write_at|]. intros [t|e] [] Hr; [by apply IH|by apply ty_write_resp].
Qed.

Lemma ty_write recv raw : fits (handle_write recv raw).
Proof.
  handler. cbv zeta. apply wp_bind, ty_call; [done|]. intros [[[fd flags] key]|] Hc; [|by apply ty_write_resp].
  unfold with_stripe. apply wp_bind, ty_call; [apply stripe_range|]. intros _ _. apply wp_bind.
  eapply wp_seq; [by apply ty_write_at|]. intros w [] Hw.
  apply wp_any; [|intros r; apply wp_bind, ty_call; [apply stripe_range|done]].
  destruct w as [t|e]; [by apply ty_write_loop|by apply ty_write_resp].
Qed.

(** *** ctrl.rs and dispatch.rs *)

Lemma ty_handshake cf recv peer server_id : fits (handle_handshake cf root recv peer server_id).
Proof.
  unfold handle_handshake. destruct (read_frame recv) as [[raw rest]|]; [|done].
  destruct (decode raw) as [env|]; [|done]. destruct (negb _); [done|].
  destruct (decode raw) as [req|] eqn:E; [|done]. apply decode_typed in E. cbn in E. destruct_and? E.
  assert (u32 (Z.min (hq_chunk_size req) MAX_CHUNK_SIZE)) by (unfold in_width, MAX_CHUNK_SIZE in *; lia).
  unfold send_handshake_error, handshake_error, handshake_response. ty_go.
Qed.

#[local] Hint Resolve ty_ping ty_getattr ty_setattr ty_readdir ty_mkdir ty_rmdir ty_unlink ty_rename ty_symlink
  ty_readlink ty_link ty_statfs ty_open ty_release ty_read ty_write ty_create ty_fsync : typing.

Lemma ty_dispatch recv : fits (dispatch_inner session root recv).
Proof.
  unfold dispatch_inner. destruct (read_frame recv) as [[raw recv']|] eqn:Er; [|done].
  apply read_frame_inv in Er as [_ Hl]. apply wp_bind, ty_call; [cbn; lia|]. intros _ _.
  handler. cbv zeta. repeat (destruct (_ =? _); [auto with typing|]). apply ty_send. ty_msg.
Qed.
End Typing.

(** ** A typed process *)

Definition handle_typed (id : Z) (h : OpenHandle) : Prop := u64 id /\ u32 (oh_flags h) /\ in_width 128 (oh_ino_key h).

(** The handle table: ids and the counter are [u64], keys [u128]. *)
Definition table_typed (t : HandleTable) : Prop := u64 (ht_counter t) /\ map_Forall handle_typed (ht_inner t).

Definition world_typed {K} (w : world K) : Prop := table_typed (w_table K w) /\ u64 (w_rx K w) /\ u64 (w_tx K w).

Lemma shift_lor_width hi lo : u64 hi -> u64 lo -> in_width 128 (Z.lor (Z.shiftl hi 64) lo).
Proof. unfold in_width. intros Hh Hl. rewrite lor_shiftl_add by lia. lia. Qed.

Lemma with_limit_typed uuid max : table_typed (with_limit uuid max).
Proof.
  split; [|apply map_Forall_empty]. cbn. apply lor_width; [lia|apply wrap_range; lia|done].
Qed.

Section Process.
Context {K : Type} (kern : forall X, sysE X -> K -> X * K) (path_hash : path -> Z).
Hypothesis kern_typed : forall X (e : sysE X) k, typed_pre e -> typed_post e (fst (kern X e k)).
Hypothesis hash_typed : forall p, u64 (path_hash p).

Lemma ino_key_typed m p :
  match m with Ok m => metadata_ok m | Err _ => True end -> in_width 128 (ino_key_of path_hash m p).
Proof.
  unfold ino_key_of. destruct m as [m|]; [intros (? & ? & _); by apply shift_lor_width|].
  intros _. unfold path_hash_key. change (Z.shiftl 1 127) with (Z.shiftl (2 ^ 63) 64). by apply shift_lor_width.
Qed.

Lemma try_insert_typed t p flags fd m :
  u32 flags -> match m with Ok m => metadata_ok m | Err _ => True end -> table_typed t ->
  table_typed (snd (try_insert path_hash t p flags fd m)) /\
  match fst (try_insert path_hash t p flags fd m) with Ok id => u64 id | Err _ => True end.
Proof.
  intros Hf Hm [Hc Ht]. unfold try_insert. destruct (_ <=? _); [done|]. cbn. split; [|done].
  split; [apply wrap_range; lia|]. apply map_Forall_insert_2; [|done].
  split_and!; [done..|]. by apply ino_key_typed.
Qed.

(** What has happened since the log was [log0] and the frames [sent0]. *)
Definition typed_run (log0 : list any_call) (sent0 : list bytes) (w : world K) (_ : unit) : Prop :=
  world_typed w /\
  (exists calls, w_log K w = log0 ++ calls /\ Forall (fun c => typed_pre (ac_event c)) calls) /\
  (exists fs, w_sent K w = sent0 ++ fs /\ Forall typed_reply fs).

Lemma exec_typed log0 sent0 X (e : sysE X) w g :
  typed_run log0 sent0 w g -> typed_pre e ->
  exists g', typed_post e (fst (exec K kern path_hash X e w)) /\
    typed_run log0 sent0 (snd (exec K kern path_hash X e w)) g'.
Proof.
  intros (Hw & (cs & Hl & Hcs) & fs & Hs & Hfs) Hp. exists tt.
  assert (exists cs', w_log K w ++ [AnyCall X e] = log0 ++ cs' /\ Forall (fun c => typed_pre (ac_event c)) cs') as Hlog.
  { exists (cs ++ [AnyCall X e]). rewrite Hl, app_assoc. split; [done|]. apply Forall_app. by split; [|constructor]. }
  assert (exists fs, w_sent K w = sent0 ++ fs /\ Forall typed_reply fs) as Hsent by eauto.
  pose proof (fun k => kern_typed X e k Hp) as Hk. destruct Hw as (Htab & Hrx & Htx).
  unfold typed_run, world_typed, exec. destruct e; cbn [typed_pre typed_post] in *;
    try (specialize (Hk (w_kern K w)); cbn [exec_call w_kern log_call]; destruct (kern _ _ _) as [r k]; cbn in *;
         solve [auto 8 | destruct r; cbn; auto 8]).
  all: try solve [cbn; auto 8 | cbn; auto 8 using wrap_range with lia].
  - cbn [exec_call w_kern log_call]. pose proof (kern_typed _ (FileMetadata fd) (w_kern K w) I) as Hm.
    destruct (kern _ (FileMetadata fd) _) as [m k]. cbn in Hm. unfold exec_insert. cbn [w_table set_kern log_call].
    destruct (try_insert_typed (w_table K w) p flags fd m Hp Hm Htab) as [Ht Hid].
    destruct (try_insert _ _ _ _ _ _) as [[id|e] t]; cbn in *; auto 8.
  - destruct Htab as [Hc Ht]. assert (map_Forall handle_typed (delete id (ht_inner (w_table K w)))) by (by apply map_Forall_delete).
    cbn. unfold table_typed. cbn. auto 10.
  - cbn. split; [|auto 8]. unfold get_write_ctx. destruct (ht_inner (w_table K w) !! id) as [h|] eqn:E; [|done].
    cbn. destruct Htab as [_ Ht]. apply Ht in E. apply E.
  - specialize (Hk (w_kern K w)). cbn [exec_call w_kern log_call]. destruct (kern _ _ _) as [[u|e] k]; cbn in *; [|auto 8].
    split_and!; try done. exists (fs ++ [b]). rewrite Hs, app_assoc. split; [done|]. apply Forall_app. by split; [|constructor].
Qed.
End Process.

(** ** Theorems *)

(** C34: values keep their types.  In a process whose kernel answers within the C
    types, with a codec that fills fields only with values that fit: whatever a
    client sends, a request executed by [dispatch_inner] passes every call
    arguments of the call's machine types, sends only responses all of whose fields
    fit the types of frames.rs and stat.rs, keeps the handle table's ids, flags
    and keys and the session's counters in theirs, and so leaves the process ready
    for the next request; and so does the handshake.  A table made by
    [with_limit] is a start. *)
Theorem server_well_typed {C : Codec} {TC : TypedCodec C} (K : Type) (kern : forall X, sysE X -> K -> X * K)
    path_hash cert_fingerprint session root recv peer server_id (w : world K) :
  (forall X (e : sysE X) k, typed_pre e -> typed_post e (fst (kern X e k))) ->
  (forall p, u64 (path_hash p)) ->
  world_typed w ->
  typed_run (w_log K w) (w_sent K w)
    (snd (run (exec K kern path_hash) (dispatch_inner session root recv) w)) tt /\
  typed_run (w_log K w) (w_sent K w)
    (snd (run (exec K kern path_hash) (handle_handshake cert_fingerprint root recv peer server_id) w)) tt /\
  (forall uuid max, table_typed (with_limit uuid max)).
Proof.
  intros Hk Hh Hw.
  assert (typed_run (w_log K w) (w_sent K w) w tt) as Hstart.
  { split; [done|]. split; exists []; by rewrite app_nil_r. }
  assert (forall A (m : sys A), fits m ->
    typed_run (w_log K w) (w_sent K w) (snd (run (exec K kern path_hash) m w)) tt) as Hrun.
  { intros A m Hm. by destruct (run_wp typed_spec (exec K kern path_hash) (typed_run (w_log K w) (w_sent K w))
      (fun X e s g => exec_typed kern path_hash Hk Hh _ _ X e s g) m w tt _ Hstart Hm) as ([] & _ & H). }
  split_and!; [apply Hrun, ty_dispatch|apply Hrun, ty_handshake|apply with_limit_typed].
Qed.

(** A codec that refuses what does not fit, made from any codec. *)
Definition checked_wire {T} `{!Wire T, !Typed T} : Wire T :=
  {| encode := encode; decode b := x ← decode b; if decide (typed x) then Some x else None |}.
Definition checked_codec : Codec.
Proof. pose proof example_codec. constructor; apply checked_wire. Defined.
Lemma checked_wire_typed {T} `{!Wire T, !Typed T} : @TypedWire T checked_wire _.
Proof.
  intros b x. cbn. destruct (decode b) as [y|]; [|done]. cbn. case_decide; [|done]. by intros [= <-].
Qed.
#[local] Instance checked_typed : TypedCodec checked_codec.
Proof. constructor; apply checked_wire_typed. Qed.

(** A kernel that answers within the types: [Server.demo_kern] with the frame limit and a
    fixed inode. *)
Definition sized_kern (X : Type) (e : sysE X) (k : unit) : X * unit :=
  match e in sysE X return X * unit with
  | SendFrame b => (if zlen b <=? MAX_FRAME_SIZE then Ok tt else Err (lit "frame too large"), k)
  | FileMetadata _ => (Ok (Metadata 1 5 0x81a4 1 0 0 0 (Ok 0) (Ok 0)), k)
  | e => Server.demo_kern _ e k
  end.

Lemma sized_kern_typed X (e : sysE X) k : typed_pre e -> typed_post e (fst (sized_kern X e k)).
Proof.
  destruct e; intros Hp; try done; try (repeat (split; try done)); [constructor|].
  cbn. destruct (_ <=? _) eqn:E; [apply Z.leb_le in E; exact E|done].
Qed.

(** An Open request whose flags do not fit is not decoded; one that fits is
    answered. *)
Lemma server_well_typed_witness :
  let serve recv := run (exec unit sized_kern (fun _ => 0))
    (dispatch_inner (C := checked_codec) demo_session demo_root recv) demo_world in
  let wide := framed (Wire0 := @wire_OpenRequest example_codec) (MkOpenRequest OP_OPEN 3 (lit "a/b") (2 ^ 32)) in
  typed_run [] [] (snd (serve demo_open)) tt /\ typed_run [] [] (snd (serve wide)) tt /\
  fst (serve demo_open) = Ok tt /\ length (w_sent unit (snd (serve demo_open))) = 1%nat /\
  is_ok (fst (serve wide)) = false /\ w_sent unit (snd (serve wide)) = [].
Proof.
  assert (world_typed demo_world) as Hw by (split; [apply with_limit_typed|done]).
  pose proof (fun recv => server_well_typed (C := checked_codec) unit sized_kern (fun _ => 0) (fun _ => None)
    demo_session demo_root recv None [] demo_world sized_kern_typed ltac:(done) Hw) as H.
  intros serve wide. split; [exact (proj1 (H demo_open))|]. split; [exact (proj1 (H wide))|].
  split; [vm_compute; reflexivity|]. split; [vm_compute; reflexivity|]. split; vm_compute; reflexivity.
Defined.
