(* ===== verification/System.v ===== *)
(** * End-to-end guarantees

    What an application gets from a client's RPC when the server is the one of
    this repository: the theorems of [EndToEnd] for every codec with the stated
    properties, and their evaluation with the executable codec. *)

From S2P Require Import Prelude Prog Text Status Frames FrameIo Os Sanitize WriteLock Confine Reply MetaOps DataOps CtrlOps Dispatch FileServer ClientRpc EndToEnd ExampleCodec Server.

(** C8: reading.  A client's [read] of [len] bytes at any offset of an open file,
    however the kernel splits the server's reads, returns exactly the bytes of the file
    from the offset, up to the length or the end of the file, when the length is
    between 1 and 16 MiB, the offset below 2^63 and the handle was opened for reading;
    in every other case (a zero or too long request, an offset no file has, a
    write-only handle) it fails, and the application sees EIO.  The file is unchanged;
    fuel above the length is enough for the client's loop. *)
Theorem read_end_to_end {C : Codec} {DC : DataCodec C} session root hid fd flags access key short fuel off len n :
  (forall t k, 1 <= k -> 1 <= short t k <= k) ->
  in_width 64 (n_seq n) -> in_width 64 hid -> in_width 64 off -> in_width 32 len ->
  zlen (f_data (n_srv n)) < 2 ^ 63 -> (Z.to_nat len < fuel)%nat ->
  exists r n', run (cli_exec session root hid fd flags access key short) (read fuel hid off len) n = (r, n') /\
    f_data (n_srv n') = f_data (n_srv n) /\
    if bool_decide (1 <= len <= 16 * 1024 * 1024 /\ off < 2 ^ 63 /\ (access = 0 \/ access = 2))
    then r = Ok (slice (f_data (n_srv n)) off len)
    else exists e, r = Err e /\ rpc_to_errno e = EIO.
Proof.
  intros Hshort Hs Hh Ho Hl Hd Hf.
  assert (may_read_fd access = true <-> access = 0 \/ access = 2) as Hacc.
  { unfold may_read_fd. by rewrite orb_true_iff, !Z.eqb_eq. }
  case_bool_decide as Hok.
  - destruct Hok as (Hlen & Hoff & Ha%Hacc). unfold in_width in Ho.
    destruct (read_run session root hid fd flags access key short Hshort fuel off len n) as (n' & E & Hd'); [done|done|lia|done..|].
    by exists (Ok (slice (f_data (n_srv n)) off len)), n'.
  - destruct (read_refused_run session root hid fd flags access key short fuel off len n) as (e & n' & E & Hio & Hd');
      [done..|lia| |exists (Err e), n'; eauto].
    unfold read_refused, MAX_READ_REQUEST, in_width in *. destruct (may_read_fd access); [|tauto].
    destruct (decide (len = 0)); [tauto|]. destruct (decide (16 * 1024 * 1024 < len)); [tauto|].
    right. right. left. destruct (decide (off < 2 ^ 63)); [|lia]. exfalso. apply Hok. split_and!; [lia|lia|lia|tauto].
Qed.

Definition demo_net (data : bytes) (dir : list dir_item) : net :=
  MkNet (MkFserver data 0 dir [] 0) 2 [] None.

(** A kernel that returns one byte per read. *)
Lemma read_end_to_end_witness :
  exists n', run (cli_exec (C := example_codec) demo_session demo_root 77 5 0 0 0 (fun _ _ => 1))
               (read (C := example_codec) 10 77 1 4) (demo_net [x61; x62; x63] []) =
             (Ok [x62; x63], n').
Proof.
  destruct (read_end_to_end (C := example_codec) demo_session demo_root 77 5 0 0 0 (fun _ _ => 1) 10 1 4
              (demo_net [x61; x62; x63] [])) as (r & n' & H & _ & Hr);
    [lia|unfold in_width; simpl; lia|unfold in_width; lia..|simpl; lia|lia|].
  exists n'. rewrite bool_decide_true in Hr by lia. rewrite H, Hr. reflexivity.
Defined.

(** C9: writing.  A client's [write] of non-empty data that ends below 2^63, with
    chunks of any size up to 4 MiB (a chunk size of 0 counts as 1), on a handle opened
    for writing reports every byte written, and the file afterwards holds the data at
    the offset, a gap before it filled with zeros, and is otherwise unchanged; on an
    O_APPEND handle the data is at the end of the file.  On a handle opened read-only,
    and for empty data, it fails, the application sees EIO and the file is unchanged. *)
Theorem write_end_to_end {C : Codec} {DC : DataCodec C} session root hid fd flags access key short chunk_size off data n :
  in_width 64 (n_seq n) -> in_width 64 hid -> chunk_size <= 4 * 1024 * 1024 ->
  0 <= off -> off + zlen data < 2 ^ 63 ->
  exists r n', run (cli_exec session root hid fd flags access key short) (write chunk_size hid off data) n = (r, n') /\
    if bool_decide (data <> [] /\ (access = 1 \/ access = 2))
    then r = Ok (zlen data) /\
      f_data (n_srv n') = if has_bits flags 0x400 then f_data (n_srv n) ++ data else put (f_data (n_srv n)) off data
    else (exists e, r = Err e /\ rpc_to_errno e = EIO) /\ f_data (n_srv n') = f_data (n_srv n).
Proof.
  intros Hs Hh Hc Ho Hb.
  assert (may_write_fd access = true <-> access = 1 \/ access = 2) as Hacc.
  { unfold may_write_fd. by rewrite orb_true_iff, !Z.eqb_eq. }
  case_bool_decide as Hok.
  - destruct Hok as (Hne & Ha%Hacc).
    destruct (write_run session root hid fd flags access key short chunk_size off data n) as (n' & E & Hd); [done..|].
    by exists (Ok (zlen data)), n'.
  - destruct (decide (data = [])) as [->|Hne].
    { destruct (write_nothing_run session root hid fd flags access key short chunk_size off n) as (e & n' & E & Hio & Hd).
      exists (Err e), n'. eauto. }
    assert (may_write_fd access = false) as Ha by (destruct (may_write_fd access); [tauto|done]).
    destruct (write_refused_run session root hid fd flags access key short chunk_size off data n) as (e & n' & E & Hio & Hd);
      [done..|exists (Err e), n'; eauto].
Qed.

Lemma write_end_to_end_witness :
  exists n', run (cli_exec (C := example_codec) demo_session demo_root 77 5 1 1 0 (fun _ n => n))
               (write (C := example_codec) 2 77 4 [x64; x65; x66]) (demo_net [x61; x62] []) = (Ok 3, n') /\
    f_data (n_srv n') = [x61; x62; x00; x00; x64; x65; x66].
Proof.
  destruct (write_end_to_end (C := example_codec) demo_session demo_root 77 5 1 1 0 (fun _ n => n) 2 4
              [x64; x65; x66] (demo_net [x61; x62] [])) as (r & n' & H & Hr);
    [unfold in_width; simpl; lia|unfold in_width; lia|lia|lia|simpl; lia|].
  rewrite bool_decide_true in Hr by (split; [done|lia]). destruct Hr as [Hr Hd].
  exists n'. split; [rewrite H, Hr; reflexivity|]. rewrite Hd. reflexivity.
Defined.

(** Listing.  The pages of 256 entries the server sends and the client's
    loop add up to the directory: every entry once, in the server's order, for a
    directory of any size (a full last page included). *)
Theorem readdir_end_to_end {C : Codec} {DC : DataCodec C} session root hid fd flags access key short fuel p cs n :
  normalize p = Ok cs -> pages_fit p (f_dir (n_srv n)) -> zlen (f_dir (n_srv n)) < 2 ^ 64 ->
  in_width 64 (n_seq n) -> (length (f_dir (n_srv n)) < fuel)%nat ->
  exists n', run (cli_exec session root hid fd flags access key short) (readdir fuel p) n =
               (Ok (map dir_entry (f_dir (n_srv n))), n').
Proof.
  intros Hp Hfit Hlen Hseq Hf.
  apply (readdir_from_run session root hid fd flags access key short fuel p cs 0 [] n Hp Hfit Hlen Hseq); [lia|simpl; lia|done].
Qed.

Definition demo_dir : list dir_item :=
  [DirItem (lit "a") (Ok dir_meta); DirItem (lit "b") (Err (IoError NotFound None))].

Lemma demo_fits {T} {W : Wire T} (x : T) k :
  (exists b, encode x = Some b /\ zlen b = k) -> k <= MAX_FRAME_SIZE ->
  exists b, encode x = Some b /\ zlen b <= MAX_FRAME_SIZE.
Proof. intros (b & Eb & Hb) Hk. exists b. split; [done|lia]. Qed.

Lemma readdir_end_to_end_witness :
  exists n', run (cli_exec (C := example_codec) demo_session demo_root 77 5 1 1 0 (fun _ n => n))
               (readdir (C := example_codec) 3 (lit "/x")) (demo_net [] demo_dir) =
             (Ok [MkDirEntry (lit "a") 2 0x41ed; MkDirEntry (lit "b") 0 0], n').
Proof.
  destruct (readdir_end_to_end (C := example_codec) demo_session demo_root 77 5 1 1 0 (fun _ n => n) 3
              (lit "/x") [lit "x"] (demo_net [] demo_dir)) as (n' & H);
    [vm_compute; reflexivity| |simpl; lia|unfold in_width; simpl; lia|simpl; lia|].
  - intros seq cursor Hs Hc. change (zlen (f_dir (n_srv (demo_net [] demo_dir)))) with 2 in Hc.
    assert (cursor = 0 \/ cursor = 1 \/ cursor = 2) as Hcur by lia.
    split; destruct Hcur as [->|[->| ->]].
    1-3: eapply demo_fits; [eapply (packed_fits (Packed0 := pk_ReadDirResponse));
           [reflexivity|unfold in_width; vm_compute; intuition congruence|exact Hs|vm_compute; reflexivity]
         |vm_compute; discriminate].
    1-3: eapply demo_fits; [eapply (packed_fits (Packed0 := pk_ReadDirRequest));
           [reflexivity|unfold in_width; vm_compute; intuition congruence|exact Hs|vm_compute; reflexivity]
         |vm_compute; discriminate].
  - exists n'. exact H.
Defined.
