(* ===== verification/WriteBuf.v ===== *)
(** * The client's write buffer

    [src/client/src/writebuf.rs]: deferred writes are kept per handle until the
    server acknowledges them.  Lengths and totals are [usize] values, 64 bits;
    an [Instant] is a number of milliseconds. *)

From S2P Require Import Prelude.

(** ** Data *)

Record PendingWrite := MkPendingWrite { pw_offset : Z; pw_data : bytes; pw_queued_at : Z }.

Record HandleBuf := MkHandleBuf { hb_chunks : list PendingWrite; hb_sending : bool }.

(** [HandleBuf::bytes] *)
Definition chunks_bytes (l : list PendingWrite) : Z := foldr (fun w n => zlen (pw_data w) + n) 0 l.
Definition hb_bytes (hb : HandleBuf) : Z := chunks_bytes (hb_chunks hb).

Definition HandleBuf_default : HandleBuf := MkHandleBuf [] false.

Record WriteBuffer := MkWriteBuffer {
  wb_per_handle : gmap Z HandleBuf;
  wb_total_bytes : Z;
  wb_max_per_handle_bytes : Z;
  wb_max_total_bytes : Z;
  wb_hard_total_bytes : Z;
  wb_window : Z
}.

(** [struct FlushBatch], [enum PushDecision] *)
Record FlushBatch := MkFlushBatch { fb_chunks : list (Z * bytes); fb_sent_count : Z }.

Inductive PushDecision : Type :=
| Buffered | FlushThis (h : Z) | FlushOther (h : Z) | Reject.

(** ** Operations *)

(** [WriteBuffer::new] *)
Definition wb_new (max_per_handle max_total window_ms : Z) : WriteBuffer :=
  MkWriteBuffer ∅ 0 max_per_handle max_total (sat_mul64 max_total 2) window_ms.

Definition set_handles (m : gmap Z HandleBuf) (total : Z) (wb : WriteBuffer) : WriteBuffer :=
  MkWriteBuffer m total (wb_max_per_handle_bytes wb) (wb_max_total_bytes wb)
                (wb_hard_total_bytes wb) (wb_window wb).

(** [Iterator::max_by_key]: the last of the largest elements. *)
Fixpoint max_by_bytes (l : list (Z * HandleBuf)) : option (Z * HandleBuf) :=
  match l with
  | [] => None
  | (h, hb) :: l =>
      match max_by_bytes l with
      | None => Some (h, hb)
      | Some (h', hb') => if hb_bytes hb' <? hb_bytes hb then Some (h, hb) else Some (h', hb')
      end
  end.

Section Push.
(** The iteration order of the [HashMap], which is unspecified. *)
Variable iter : gmap Z HandleBuf -> list (Z * HandleBuf).

(** [push]; [now] is [Instant::now()]. *)
Definition push (wb : WriteBuffer) (handle offset : Z) (data : bytes) (now : Z) :
    PushDecision * WriteBuffer :=
  let n := zlen data in
  if wb_hard_total_bytes wb <? wrap64 (wb_total_bytes wb + n) then (Reject, wb)
  else
    let entry := default HandleBuf_default (wb_per_handle wb !! handle) in
    let entry := MkHandleBuf (hb_chunks entry ++ [MkPendingWrite offset data now]) (hb_sending entry) in
    let wb := set_handles (<[handle := entry]> (wb_per_handle wb)) (wrap64 (wb_total_bytes wb + n)) wb in
    if wb_max_per_handle_bytes wb <=? hb_bytes entry then (FlushThis handle, wb)
    else if wb_max_total_bytes wb <=? wb_total_bytes wb then
      (FlushOther (default handle (fst <$> max_by_bytes (iter (wb_per_handle wb)))), wb)
    else (Buffered, wb).
End Push.

(** [pairs.sort_by_key(|(off, _)| *off)]: a stable sort. *)
Fixpoint insert_pair (p : Z * bytes) (l : list (Z * bytes)) : list (Z * bytes) :=
  match l with
  | [] => [p]
  | q :: l' => if fst q <? fst p then q :: insert_pair p l' else p :: l
  end.
Definition sort_pairs (l : list (Z * bytes)) : list (Z * bytes) := foldr insert_pair [] l.

(** The coalescing loop of [begin_flush]. *)
Definition merge_step (merged : list (Z * bytes)) (p : Z * bytes) : list (Z * bytes) :=
  match last merged with
  | Some (last_off, last_data) =>
      if wrap64 (last_off + zlen last_data) =? fst p
      then removelast merged ++ [(last_off, last_data ++ snd p)]
      else merged ++ [p]
  | None => merged ++ [p]
  end.
Definition coalesce (l : list (Z * bytes)) : list (Z * bytes) := foldl merge_step [] l.

Definition pair_of (w : PendingWrite) : Z * bytes := (pw_offset w, pw_data w).

(** [begin_flush] *)
Definition begin_flush (wb : WriteBuffer) (handle : Z) : option FlushBatch * WriteBuffer :=
  match wb_per_handle wb !! handle with
  | None => (None, wb)
  | Some hb =>
      if hb_sending hb || bool_decide (hb_chunks hb = []) then (None, wb)
      else
        let pairs := sort_pairs (map pair_of (hb_chunks hb)) in
        (Some (MkFlushBatch (coalesce pairs) (zlen (hb_chunks hb))),
         set_handles (<[handle := MkHandleBuf (hb_chunks hb) true]> (wb_per_handle wb))
                     (wb_total_bytes wb) wb)
  end.

(** [ack_flush] *)
Definition ack_flush (wb : WriteBuffer) (handle sent_count : Z) : WriteBuffer :=
  match wb_per_handle wb !! handle with
  | None => wb
  | Some hb =>
      let n := Z.to_nat (Z.min sent_count (zlen (hb_chunks hb))) in
      let removed := chunks_bytes (take n (hb_chunks hb)) in
      let rest := drop n (hb_chunks hb) in
      set_handles (match rest with
                   | [] => delete handle (wb_per_handle wb)
                   | _ => <[handle := MkHandleBuf rest false]> (wb_per_handle wb)
                   end)
                  (sat_sub (wb_total_bytes wb) removed) wb
  end.

(** [fail_flush] *)
Definition fail_flush (wb : WriteBuffer) (handle : Z) : WriteBuffer :=
  match wb_per_handle wb !! handle with
  | None => wb
  | Some hb => set_handles (<[handle := MkHandleBuf (hb_chunks hb) false]> (wb_per_handle wb))
                           (wb_total_bytes wb) wb
  end.

(** [drop_handle]: the bytes freed *)
Definition drop_handle (wb : WriteBuffer) (handle : Z) : Z * WriteBuffer :=
  match wb_per_handle wb !! handle with
  | None => (0, wb)
  | Some hb => (hb_bytes hb, set_handles (delete handle (wb_per_handle wb))
                               (sat_sub (wb_total_bytes wb) (hb_bytes hb)) wb)
  end.

(** [older_than] at the time [now], [expired_handles], [handles] *)
Definition is_older (deadline now : Z) (hb : HandleBuf) : bool :=
  match hb_chunks hb with
  | [] => false
  | w :: _ => deadline <=? sat_sub now (pw_queued_at w)
  end.
Definition older_than (wb : WriteBuffer) (deadline now : Z) : gset Z :=
  dom (filter (fun p : Z * HandleBuf => is_older deadline now (snd p) = true) (wb_per_handle wb)).
Definition expired_handles (wb : WriteBuffer) (now : Z) : gset Z := older_than wb (wb_window wb) now.
Definition wb_handles (wb : WriteBuffer) : gset Z := dom (wb_per_handle wb).

(** [has_buffered] *)
Definition has_buffered (wb : WriteBuffer) (handle : Z) : bool :=
  match wb_per_handle wb !! handle with
  | Some hb => negb (bool_decide (hb_chunks hb = []))
  | None => false
  end.

(** The chunks held for a handle. *)
Definition chunks_of (wb : WriteBuffer) (h : Z) : list PendingWrite :=
  match wb_per_handle wb !! h with Some hb => hb_chunks hb | None => [] end.

(** ** File images

    What a file holds at each offset; [None] is a hole.  A positioned write
    replaces the bytes of its range. *)

Definition image := Z -> option byte.

Definition write_image (f : image) (p : Z * bytes) : image := fun i =>
  if (fst p <=? i) && (i <? fst p + zlen (snd p)) then snd p !! Z.to_nat (i - fst p) else f i.

Definition apply_writes (f : image) (l : list (Z * bytes)) : image := foldl write_image f l.

Definition covers (p : Z * bytes) (i : Z) : Prop := fst p <= i < fst p + zlen (snd p).

(** No byte is written twice. *)
Fixpoint disjoint_writes (l : list (Z * bytes)) : Prop :=
  match l with
  | [] => True
  | p :: l => (forall q, q ∈ l -> forall k, covers p k -> ~ covers q k) /\ disjoint_writes l
  end.

(** The write ends within the file-offset range. *)
Definition in_range (p : Z * bytes) : Prop := 0 <= fst p /\ fst p + zlen (snd p) < 2 ^ 64.

(** ** Lemmas on images *)

Lemma write_image_cover f p i :
  covers p i -> write_image f p i = snd p !! Z.to_nat (i - fst p).
Proof. unfold write_image, covers. intros H. rewrite andb_true_intro; [done|]. lia. Qed.

Lemma write_image_miss f p i : ~ covers p i -> write_image f p i = f i.
Proof.
  unfold write_image, covers. intros H. destruct (_ && _) eqn:E; [|done].
  apply andb_prop in E. exfalso. apply H. lia.
Qed.

Lemma covers_dec p i : Decision (covers p i).
Proof. unfold covers. apply _. Defined.
#[export] Existing Instance covers_dec.

Lemma apply_writes_ext f f' l i : (forall j, f j = f' j) -> apply_writes f l i = apply_writes f' l i.
Proof.
  revert f f'. induction l as [|p l IH]; intros f f' H; simpl; [apply H|]. apply IH. intros j.
  destruct (decide (covers p j)); [by rewrite !write_image_cover|by rewrite !write_image_miss].
Qed.

Lemma apply_writes_app f l l' i : apply_writes f (l ++ l') i = apply_writes (apply_writes f l) l' i.
Proof. unfold apply_writes. by rewrite foldl_app. Qed.

(** Where a list writes, what was there before does not matter. *)
Lemma apply_writes_overwrite f f' l i :
  ((forall p, p ∈ l -> ~ covers p i) -> f i = f' i) -> apply_writes f l i = apply_writes f' l i.
Proof.
  revert f f'. induction l as [|p l IH]; intros f f' H; simpl.
  - apply H. intros p Hp. by apply not_elem_of_nil in Hp.
  - apply IH. intros Hl. destruct (decide (covers p i)) as [Hc|Hc].
    + by rewrite !write_image_cover.
    + rewrite !write_image_miss by done. apply H. intros q [->|Hq]%elem_of_cons; auto.
Qed.

Lemma disjoint_writes_perm l l' : l ≡ₚ l' -> disjoint_writes l -> disjoint_writes l'.
Proof.
  induction 1 as [|p l l' Hp IH|p q l|l l' l'' _ IH1 _ IH2]; simpl; [done| | |auto].
  - intros [H1 H2]. split; [|auto]. intros q Hq. apply H1. by rewrite Hp.
  - intros (H1 & H2 & H3). split_and!; [|set_solver|done].
    intros r [->|Hr]%elem_of_cons; [|auto]. intros k H4 H5. eapply H1; [left|done|done].
Qed.

(** Disjoint writes may be reordered. *)
Lemma apply_writes_perm l l' :
  l ≡ₚ l' -> disjoint_writes l -> forall f i, apply_writes f l i = apply_writes f l' i.
Proof.
  induction 1 as [|p l l' Hp IH|p q l|l l' l'' H1 IH1 H2 IH2]; intros Hd f i; [done| | |].
  - simpl. apply IH, Hd.
  - simpl. apply apply_writes_ext. intros j. destruct Hd as [Hd _].
    destruct (decide (covers p j)) as [Hc|Hc], (decide (covers q j)) as [Hc'|Hc'].
    + exfalso. by eapply (Hd p); [left|..].
    + by rewrite (write_image_cover _ p), (write_image_miss _ q), (write_image_cover _ p).
    + by rewrite (write_image_miss _ p), (write_image_cover _ q), (write_image_cover _ q).
    + by rewrite !write_image_miss.
  - rewrite IH1 by done. apply IH2. by eapply disjoint_writes_perm.
Qed.

(** ** Sorting and coalescing *)

Lemma insert_pair_perm p l : insert_pair p l ≡ₚ p :: l.
Proof.
  induction l as [|q l IH]; simpl; [done|]. destruct (_ <? _); [|done].
  rewrite IH. by rewrite Permutation_swap.
Qed.

Lemma sort_pairs_perm l : sort_pairs l ≡ₚ l.
Proof. induction l as [|p l IH]; simpl; [done|]. by rewrite insert_pair_perm, IH. Qed.

Lemma write_image_merge f lo ld data j :
  write_image (write_image f (lo, ld)) (lo + zlen ld, data) j = write_image f (lo, ld ++ data) j.
Proof.
  destruct (decide (covers (lo + zlen ld, data) j)) as [Hc|Hc].
  - rewrite write_image_cover by done. rewrite write_image_cover
      by (unfold covers in *; simpl in *; rewrite length_app; lia).
    unfold covers in Hc. simpl in *. rewrite lookup_app_r by lia. f_equal. lia.
  - rewrite write_image_miss by done. destruct (decide (covers (lo, ld) j)) as [Hd|Hd].
    + rewrite !write_image_cover by (unfold covers in *; simpl in *; rewrite ?length_app; lia).
      unfold covers in Hd. simpl in *. by rewrite lookup_app_l by lia.
    + rewrite !write_image_miss; [done| |done].
      unfold covers in *. simpl in *. rewrite length_app. lia.
Qed.

Lemma coalesce_apply m l f i :
  Forall in_range m -> Forall in_range l ->
  apply_writes f (foldl merge_step m l) i = apply_writes f (m ++ l) i.
Proof.
  intros Hm Hl. revert m Hm. induction Hl as [|[off data] l Hp Hl IH]; intros m Hm; simpl.
  { by rewrite app_nil_r. }
  assert (Forall in_range (m ++ [(off, data)])) as Hsnoc by (apply Forall_app; by split; [|constructor]).
  assert (apply_writes f (foldl merge_step (m ++ [(off, data)]) l) i
          = apply_writes f (m ++ (off, data) :: l) i) as Happ.
  { rewrite IH by done. by rewrite <- app_assoc. }
  unfold merge_step at 2. destruct m as [|[lo ld] m _] using rev_ind; [exact Happ|].
  rewrite last_snoc. apply Forall_app in Hm as [Hm Hlo]. inv Hlo. simpl fst.
  destruct (wrap64 _ =? off) eqn:E; [|exact Happ]. apply Z.eqb_eq in E.
  destruct H1 as [Hlo Hhi], Hp as [Hoff Hend]. simpl in *.
  rewrite wrap_small in E by (unfold in_width; lia). subst off.
  rewrite removelast_last, IH.
  - rewrite <- !app_assoc. simpl. rewrite !apply_writes_app. simpl.
    apply apply_writes_ext. intros j. by rewrite write_image_merge.
  - apply Forall_app. split; [done|]. constructor; [|done]. split; simpl; [lia|].
    rewrite length_app. lia.
Qed.

(** What one flush sends, against what was buffered. *)
Lemma begin_flush_inv wb h b wb' :
  begin_flush wb h = (Some b, wb') ->
  fb_chunks b = coalesce (sort_pairs (map pair_of (chunks_of wb h))) /\
  fb_sent_count b = zlen (chunks_of wb h) /\
  wb' = set_handles (<[h := MkHandleBuf (chunks_of wb h) true]> (wb_per_handle wb)) (wb_total_bytes wb) wb /\
  exists hb, wb_per_handle wb !! h = Some hb /\ hb_sending hb = false /\ hb_chunks hb <> [].
Proof.
  unfold begin_flush, chunks_of. destruct (wb_per_handle wb !! h) as [hb|] eqn:E; [|done].
  destruct (hb_sending hb) eqn:Es; simpl; [done|]. case_bool_decide; [done|].
  intros [= <- <-]. split_and!; [done..|]. by exists hb.
Qed.

Lemma flush_same_image wb h b wb' f i :
  begin_flush wb h = (Some b, wb') ->
  disjoint_writes (map pair_of (chunks_of wb h)) ->
  Forall in_range (map pair_of (chunks_of wb h)) ->
  apply_writes f (fb_chunks b) i = apply_writes f (map pair_of (chunks_of wb h)) i.
Proof.
  intros Hb Hd Hr. destruct (begin_flush_inv _ _ _ _ Hb) as (-> & _). unfold coalesce.
  rewrite coalesce_apply; [|constructor|by rewrite sort_pairs_perm].
  simpl. symmetry. apply apply_writes_perm; [by rewrite sort_pairs_perm|done].
Qed.

(** ** Operations as steps *)

Inductive wb_op : Type :=
| OpPush (h off : Z) (data : bytes) (now : Z)
| OpBegin (h : Z)
| OpAck (h n : Z)
| OpFail (h : Z)
| OpDrop (h : Z).

Section Steps.
Variable iter : gmap Z HandleBuf -> list (Z * HandleBuf).

Definition wb_step (wb : WriteBuffer) (op : wb_op) : WriteBuffer :=
  match op with
  | OpPush h off data now => snd (push iter wb h off data now)
  | OpBegin h => snd (begin_flush wb h)
  | OpAck h n => ack_flush wb h n
  | OpFail h => fail_flush wb h
  | OpDrop h => snd (drop_handle wb h)
  end.

Definition wb_run (wb : WriteBuffer) (ops : list wb_op) : WriteBuffer := foldl wb_step wb ops.

(** ** The accounting invariant *)

Definition total_of (m : gmap Z HandleBuf) : Z := map_fold (fun _ hb n => hb_bytes hb + n) 0 m.

Record wb_inv (wb : WriteBuffer) : Prop := {
  inv_total : wb_total_bytes wb = total_of (wb_per_handle wb);
  inv_hard : wb_total_bytes wb <= wb_hard_total_bytes wb;
  inv_chunks : forall h hb, wb_per_handle wb !! h = Some hb -> hb_chunks hb <> []
}.

Lemma chunks_bytes_app l l' : chunks_bytes (l ++ l') = chunks_bytes l + chunks_bytes l'.
Proof. induction l as [|w l IH]; simpl; [done|]. rewrite IH. lia. Qed.

Lemma chunks_bytes_nonneg l : 0 <= chunks_bytes l.
Proof. induction l as [|w l IH]; simpl; lia. Qed.

Lemma total_delete m h hb : m !! h = Some hb -> total_of m = hb_bytes hb + total_of (delete h m).
Proof. intros H. unfold total_of.
  apply (map_fold_delete_L (fun _ hb n => hb_bytes hb + n) 0 h hb m); [|done]. intros; lia. Qed.

Lemma total_insert m h hb :
  total_of (<[h := hb]> m) = hb_bytes hb + total_of (delete h m).
Proof. rewrite (total_delete _ h hb) by apply lookup_insert_eq. by rewrite delete_insert_eq. Qed.

(** The bytes of one handle, a missing handle counting none. *)
Lemma total_split m h :
  total_of m = hb_bytes (default HandleBuf_default (m !! h)) + total_of (delete h m).
Proof.
  destruct (m !! h) as [hb|] eqn:E; simpl; [by apply total_delete|].
  by rewrite delete_id.
Qed.

Lemma total_of_nonneg m : 0 <= total_of m.
Proof.
  unfold total_of. apply (map_fold_weak_ind (fun n _ => 0 <= n)); [done|].
  intros h hb m' n _ Hn. pose proof (chunks_bytes_nonneg (hb_chunks hb)). unfold hb_bytes. lia.
Qed.

Lemma wb_inv_new a b c : 0 <= b -> wb_inv (wb_new a b c).
Proof.
  intros Hb. constructor; simpl.
  - done.
  - unfold sat_mul64, u64_max. lia.
  - intros h hb H. by rewrite lookup_empty in H.
Qed.

(** Sizes that fit a 64-bit address space. *)
Definition op_fits (op : wb_op) : Prop :=
  match op with OpPush _ _ data _ => zlen data < 2 ^ 63 | _ => True end.

Lemma wb_step_hard wb op : wb_hard_total_bytes (wb_step wb op) = wb_hard_total_bytes wb.
Proof.
  destruct op as [h off data now|h|h n|h|h]; simpl.
  - unfold push. repeat (destruct (_ <? _) || destruct (_ <=? _)); done.
  - unfold begin_flush. by repeat case_match.
  - unfold ack_flush. by repeat case_match.
  - unfold fail_flush. by repeat case_match.
  - unfold drop_handle. by repeat case_match.
Qed.

(** The buffer after a [push] that is not refused. *)
Lemma push_accepted wb h off data now :
  wb_hard_total_bytes wb < 2 ^ 63 -> zlen data < 2 ^ 63 -> wb_inv wb ->
  snd (push iter wb h off data now) =
    if wb_hard_total_bytes wb <? wb_total_bytes wb + zlen data then wb
    else set_handles
           (<[h := MkHandleBuf (chunks_of wb h ++ [MkPendingWrite off data now])
                     (hb_sending (default HandleBuf_default (wb_per_handle wb !! h)))]>
              (wb_per_handle wb))
           (wb_total_bytes wb + zlen data) wb.
Proof.
  intros Hh Hd [Ht Hb _]. pose proof (total_of_nonneg (wb_per_handle wb)).
  unfold push. rewrite !wrap_small by (unfold in_width; lia).
  destruct (_ <? _); [done|].
  assert (hb_chunks (default HandleBuf_default (wb_per_handle wb !! h)) = chunks_of wb h) as ->.
  { unfold chunks_of. by destruct (wb_per_handle wb !! h). }
  by repeat destruct (_ <=? _).
Qed.

(** Replacing or removing one handle's buffer. *)
Lemma wb_inv_replace wb h hb' total :
  wb_inv wb -> hb_chunks hb' <> [] -> total <= wb_hard_total_bytes wb ->
  total = wb_total_bytes wb - chunks_bytes (chunks_of wb h) + hb_bytes hb' ->
  wb_inv (set_handles (<[h := hb']> (wb_per_handle wb)) total wb).
Proof.
  intros [Ht Hb Hc] Hne Hle ->. constructor; simpl; [|done|].
  - rewrite total_insert, Ht, (total_split (wb_per_handle wb) h). unfold hb_bytes, chunks_of.
    destruct (wb_per_handle wb !! h); simpl; lia.
  - intros h' hb [[_ <-]|[_ H]]%lookup_insert_Some; eauto.
Qed.

Lemma wb_inv_delete wb h total :
  wb_inv wb -> total = wb_total_bytes wb - chunks_bytes (chunks_of wb h) ->
  wb_inv (set_handles (delete h (wb_per_handle wb)) total wb).
Proof.
  intros [Ht Hb Hc] ->. pose proof (chunks_bytes_nonneg (chunks_of wb h)). constructor; simpl; [|lia|].
  - rewrite Ht, (total_split (wb_per_handle wb) h). unfold hb_bytes, chunks_of.
    destruct (wb_per_handle wb !! h); simpl; lia.
  - intros h' hb [_ H']%lookup_delete_Some. eauto.
Qed.

(** No handle holds more than the total. *)
Lemma chunks_le_total wb h : wb_inv wb -> chunks_bytes (chunks_of wb h) <= wb_total_bytes wb.
Proof.
  intros [Ht _ _]. rewrite Ht, (total_split (wb_per_handle wb) h).
  pose proof (total_of_nonneg (delete h (wb_per_handle wb))). unfold hb_bytes, chunks_of.
  destruct (wb_per_handle wb !! h); simpl; lia.
Qed.

Lemma ack_flush_inv wb h n : wb_inv wb -> wb_inv (ack_flush wb h n).
Proof.
  intros Hinv. pose proof (chunks_le_total wb h Hinv) as Hle. pose proof (inv_hard _ Hinv).
  unfold ack_flush. destruct (wb_per_handle wb !! h) as [hb|] eqn:Hhb; [|done].
  assert (hb_chunks hb = chunks_of wb h) as -> by (unfold chunks_of; by rewrite Hhb).
  set (k := Z.to_nat _).
  assert (chunks_bytes (chunks_of wb h) = chunks_bytes (take k (chunks_of wb h))
            + chunks_bytes (drop k (chunks_of wb h))) by (by rewrite <- chunks_bytes_app, take_drop).
  pose proof (chunks_bytes_nonneg (take k (chunks_of wb h))).
  pose proof (chunks_bytes_nonneg (drop k (chunks_of wb h))).
  unfold sat_sub. destruct (drop k (chunks_of wb h)) eqn:Ed.
  - apply wb_inv_delete; [done|]. simpl in *. lia.
  - apply wb_inv_replace; [done|done|lia|]. unfold hb_bytes. cbn [hb_chunks]. lia.
Qed.

Lemma wb_inv_step wb op :
  wb_hard_total_bytes wb < 2 ^ 63 -> op_fits op -> wb_inv wb -> wb_inv (wb_step wb op).
Proof.
  intros Hh Hf Hinv. pose proof (inv_hard _ Hinv) as Hhard.
  destruct op as [h off data now|h|h n|h|h]; cbn [wb_step].
  - rewrite push_accepted by done. destruct (_ <? _) eqn:E; [done|]. apply Z.ltb_ge in E.
    apply wb_inv_replace; [done|by destruct (chunks_of wb h)|lia|].
    unfold hb_bytes. cbn [hb_chunks]. rewrite chunks_bytes_app. simpl. lia.
  - destruct (begin_flush wb h) as [[b|] wb'] eqn:E.
    2:{ unfold begin_flush in E. repeat case_match; by simplify_eq. }
    apply begin_flush_inv in E as (_ & _ & -> & hb & Hhb & _ & Hne).
    apply wb_inv_replace; [done| |done|unfold hb_bytes; simpl; lia]. unfold chunks_of. by rewrite Hhb.
  - by apply ack_flush_inv.
  - unfold fail_flush. destruct (wb_per_handle wb !! h) as [hb|] eqn:Hhb; [|done].
    apply wb_inv_replace; [done|exact (inv_chunks _ Hinv _ _ Hhb)|done|].
    unfold hb_bytes, chunks_of. rewrite Hhb. simpl. lia.
  - unfold drop_handle. pose proof (chunks_le_total wb h Hinv) as Hle.
    destruct (wb_per_handle wb !! h) as [hb|] eqn:Hhb; [|done].
    apply wb_inv_delete; [done|]. unfold sat_sub, hb_bytes, chunks_of in *. rewrite Hhb in *. lia.
Qed.

Lemma wb_inv_run wb ops :
  wb_hard_total_bytes wb < 2 ^ 63 -> Forall op_fits ops -> wb_inv wb -> wb_inv (wb_run wb ops).
Proof.
  intros Hh HF. revert wb Hh. induction HF as [|op ops Hop _ IH]; intros wb Hh Hinv; [done|].
  simpl. apply IH; [by rewrite wb_step_hard|by apply wb_inv_step].
Qed.
End Steps.

(** ** Flushes in progress *)

Section Flush.
Variable iter : gmap Z HandleBuf -> list (Z * HandleBuf).

(** An operation that does not discard chunks of [h]. *)
Definition keeps (h : Z) (op : wb_op) : Prop :=
  match op with OpAck h' _ | OpDrop h' => h' <> h | _ => True end.

(** The chunks a sequence of operations adds to [h]: its accepted pushes. *)
Fixpoint accepted (wb : WriteBuffer) (h : Z) (ops : list wb_op) : list PendingWrite :=
  match ops with
  | [] => []
  | op :: ops =>
      (match op with
       | OpPush h' off data now =>
           if bool_decide (h' = h) && negb (wb_hard_total_bytes wb <? wrap64 (wb_total_bytes wb + zlen data))
           then [MkPendingWrite off data now] else []
       | _ => []
       end) ++ accepted (wb_step iter wb op) h ops
  end.

Lemma chunks_of_insert m t wb h h' hb :
  chunks_of (set_handles (<[h := hb]> m) t wb) h' =
  if decide (h = h') then hb_chunks hb else chunks_of (set_handles m t wb) h'.
Proof.
  unfold chunks_of. simpl. destruct (decide (h = h')) as [->|Hne].
  - by rewrite lookup_insert_eq.
  - by rewrite lookup_insert_ne.
Qed.

Lemma chunks_step wb h op :
  keeps h op -> chunks_of (wb_step iter wb op) h = chunks_of wb h ++ accepted wb h [op].
Proof.
  intros Hk. simpl. rewrite app_nil_r. destruct op as [h' off data now|h'|h' n|h'|h']; simpl in Hk |- *.
  - unfold push. destruct (_ <? _); simpl; [by rewrite andb_false_r, app_nil_r|].
    rewrite andb_true_r.
    assert (chunks_of (set_handles (<[h' := MkHandleBuf
              (hb_chunks (default HandleBuf_default (wb_per_handle wb !! h')) ++ [MkPendingWrite off data now])
              (hb_sending (default HandleBuf_default (wb_per_handle wb !! h')))]> (wb_per_handle wb))
              (wrap64 (wb_total_bytes wb + zlen data)) wb) h =
            chunks_of wb h ++ (if bool_decide (h' = h) then [MkPendingWrite off data now] else [])) as H.
    { rewrite chunks_of_insert. destruct (decide (h' = h)) as [->|Hne].
      - rewrite bool_decide_true by done. unfold chunks_of. simpl. by destruct (wb_per_handle wb !! h).
      - by rewrite bool_decide_false, app_nil_r. }
    by repeat (destruct (_ <=? _)).
  - rewrite app_nil_r. unfold begin_flush. repeat case_match; try done. simpl.
    rewrite chunks_of_insert. case_decide; [subst; simpl; unfold chunks_of; by simplify_option_eq|done].
  - rewrite app_nil_r. unfold ack_flush. destruct (wb_per_handle wb !! h'); [|done].
    case_match; [unfold chunks_of; simpl; by rewrite lookup_delete_ne|].
    rewrite chunks_of_insert. by rewrite decide_False.
  - rewrite app_nil_r. unfold fail_flush. destruct (wb_per_handle wb !! h') eqn:E; [|done].
    rewrite chunks_of_insert. case_decide; [subst; simpl; unfold chunks_of; by rewrite E|done].
  - rewrite app_nil_r. unfold drop_handle. destruct (wb_per_handle wb !! h'); [|done].
    unfold chunks_of; simpl. by rewrite lookup_delete_ne.
Qed.

Lemma chunks_run wb h ops :
  Forall (keeps h) ops -> chunks_of (wb_run iter wb ops) h = chunks_of wb h ++ accepted wb h ops.
Proof.
  intros HF. revert wb. induction HF as [|op ops Hk _ IH]; intros wb; [by rewrite app_nil_r|].
  change (wb_run iter wb (op :: ops)) with (wb_run iter (wb_step iter wb op) ops).
  rewrite IH, chunks_step by done. cbn [accepted].
  by rewrite app_nil_r, <- app_assoc.
Qed.

Lemma chunks_ack wb h n :
  chunks_of (ack_flush wb h n) h = drop (Z.to_nat (Z.min n (zlen (chunks_of wb h)))) (chunks_of wb h).
Proof.
  unfold ack_flush, chunks_of at 2 3. destruct (wb_per_handle wb !! h) as [hb|] eqn:E.
  - destruct (drop _ (hb_chunks hb)) eqn:Ed.
    + unfold chunks_of. simpl. by rewrite lookup_delete_eq.
    + rewrite chunks_of_insert. by rewrite decide_True.
  - unfold chunks_of. rewrite E. by rewrite drop_nil.
Qed.
End Flush.

(** ** The flush decision *)

Lemma max_by_bytes_spec l h hb :
  max_by_bytes l = Some (h, hb) ->
  (h, hb) ∈ l /\ forall h' hb', (h', hb') ∈ l -> hb_bytes hb' <= hb_bytes hb.
Proof.
  revert h hb. induction l as [|[k kb] l IH]; intros h hb; simpl; [done|].
  destruct (max_by_bytes l) as [[m mb]|] eqn:E.
  - destruct (IH _ _ eq_refl) as [Hin Hmax]. destruct (_ <? _) eqn:El; intros [= <- <-].
    + apply Z.ltb_lt in El. split; [left|]. intros h' hb' [[= -> ->]|Hin']%elem_of_cons; [lia|].
      etransitivity; [by eapply Hmax|lia].
    + apply Z.ltb_ge in El. split; [by right|]. intros h' hb' [[= -> ->]|Hin']%elem_of_cons; [lia|eauto].
  - intros [= <- <-]. split; [left|]. intros h' hb' [[= -> ->]|Hin']%elem_of_cons; [lia|].
    destruct l as [|[a b] l]; [by apply not_elem_of_nil in Hin'|]. simpl in E.
    destruct (max_by_bytes l) as [[? ?]|]; [by destruct (_ <? _)|done].
Qed.

Lemma max_by_bytes_total l : l <> [] -> exists h hb, max_by_bytes l = Some (h, hb).
Proof.
  destruct l as [|[h hb] l]; [done|]. intros _. simpl.
  destruct (max_by_bytes l) as [[? ?]|]; [destruct (_ <? _)|]; eauto.
Qed.

(** The handle [FlushOther] names. *)
Lemma biggest_handle iter wb h0 :
  (forall m, iter m ≡ₚ map_to_list m) ->
  (forall h hb, wb_per_handle wb !! h = Some hb -> hb_chunks hb <> []) ->
  is_Some (wb_per_handle wb !! h0) ->
  let k := default h0 (fst <$> max_by_bytes (iter (wb_per_handle wb))) in
  has_buffered wb k = true /\
  forall k', chunks_bytes (chunks_of wb k') <= chunks_bytes (chunks_of wb k).
Proof.
  intros Hiter Hne [hb0 H0]. set (l := iter (wb_per_handle wb)).
  assert (forall h hb, (h, hb) ∈ l <-> wb_per_handle wb !! h = Some hb) as Hl.
  { intros h hb. unfold l. by rewrite Hiter, elem_of_map_to_list. }
  destruct (max_by_bytes_total l) as (h & hb & E).
  { intros En. apply Hl in H0. rewrite En in H0. by apply not_elem_of_nil in H0. }
  rewrite E. simpl. destruct (max_by_bytes_spec _ _ _ E) as [Hin Hmax]. apply Hl in Hin. split.
  - unfold has_buffered. rewrite Hin. apply negb_true_iff, bool_decide_eq_false. eauto.
  - intros k'. unfold chunks_of. rewrite Hin. destruct (wb_per_handle wb !! k') as [hb'|] eqn:Ek.
    + apply (Hmax k'). by apply Hl.
    + apply chunks_bytes_nonneg.
Qed.

(** Coverage can be read off the image of an empty file. *)
Lemma covered_iff l i :
  (exists p, p ∈ l /\ covers p i) <-> is_Some (apply_writes (fun _ => None) l i).
Proof.
  enough (forall f, is_Some (apply_writes f l i) <->
            (exists p, p ∈ l /\ covers p i) \/ is_Some (f i)) as H.
  { rewrite H. split; [auto|]. intros [?|[? [=]]]. done. }
  induction l as [|p l IH]; intros f; simpl.
  - split; [auto|]. intros [(p & Hp & _)|?]; [by apply not_elem_of_nil in Hp|done].
  - rewrite IH. destruct (decide (covers p i)) as [Hc|Hc].
    + rewrite write_image_cover by done. split; [intros _|intros _; right].
      * left. exists p. split; [left|done].
      * apply lookup_lt_is_Some. unfold covers in Hc. lia.
    + rewrite write_image_miss by done. set_solver.
Qed.

(** A batch writes where its chunks do. *)
Lemma batch_covers l i :
  Forall in_range l ->
  (exists p, p ∈ coalesce (sort_pairs l) /\ covers p i) <-> (exists p, p ∈ l /\ covers p i).
Proof.
  intros Hr. rewrite covered_iff. unfold coalesce. rewrite coalesce_apply; [|constructor|by rewrite sort_pairs_perm].
  simpl. rewrite <- covered_iff. by setoid_rewrite sort_pairs_perm.
Qed.

Lemma begin_flush_ready wb h :
  (exists hb, wb_per_handle wb !! h = Some hb /\ hb_sending hb = false /\ hb_chunks hb <> []) ->
  exists b wb', begin_flush wb h = (Some b, wb').
Proof.
  intros (hb & Hhb & Hs & Hc). unfold begin_flush. rewrite Hhb, Hs. simpl.
  rewrite bool_decide_false by done. eauto.
Qed.

(** After a failure the handle can be flushed again. *)
Lemma fail_flush_ready wb h :
  chunks_of wb h <> [] -> exists b wb', begin_flush (fail_flush wb h) h = (Some b, wb').
Proof.
  intros Hc. apply begin_flush_ready. unfold fail_flush, chunks_of in *.
  destruct (wb_per_handle wb !! h) as [hb|]; [|done]. simpl.
  exists (MkHandleBuf (hb_chunks hb) false). by rewrite lookup_insert_eq.
Qed.

(** ** Theorems *)

(** C14: a flush writes what the application wrote.  When the buffered writes
    of a handle do not overlap, sending the sorted, coalesced batch leaves every
    byte of the file as sending the writes one by one in the order the
    application made them. *)
Theorem flush_preserves_writes wb h b wb' :
  begin_flush wb h = (Some b, wb') ->
  disjoint_writes (map pair_of (chunks_of wb h)) ->
  Forall in_range (map pair_of (chunks_of wb h)) ->
  forall f i, apply_writes f (fb_chunks b) i = apply_writes f (map pair_of (chunks_of wb h)) i.
Proof. intros Hb Hd Hr f i. by eapply flush_same_image. Qed.

(** Four chunks pushed to handle 1, the first three contiguous out of order. *)
Definition demo_chunks : list PendingWrite :=
  [MkPendingWrite 2 [x62; x62] 0; MkPendingWrite 0 [x61; x61] 1; MkPendingWrite 4 [x63] 2;
   MkPendingWrite 9 [x64] 3].
Definition demo_buffer : WriteBuffer :=
  MkWriteBuffer {[1 := MkHandleBuf demo_chunks false]} 6 100 1000 2000 10.

Lemma flush_preserves_writes_witness :
  exists b wb', begin_flush demo_buffer 1 = (Some b, wb') /\
    fb_chunks b = [(0, [x61; x61; x62; x62; x63]); (9, [x64])] /\
    forall f i, apply_writes f (fb_chunks b) i = apply_writes f (map pair_of demo_chunks) i.
Proof.
  eexists _, _. split; [vm_compute; reflexivity|]. split; [vm_compute; reflexivity|].
  apply (flush_preserves_writes demo_buffer 1 _ _ eq_refl).
  - change (disjoint_writes [(2, [x62; x62]); (0, [x61; x61]); (4, [x63]); (9, [x64])]).
    simpl. split_and!; [| | | |done]; intros q Hq k; unfold covers;
      repeat (apply elem_of_cons in Hq as [->|Hq]; [simpl; lia|]); by apply not_elem_of_nil in Hq.
  - change (Forall in_range [(2, [x62; x62]); (0, [x61; x61]); (4, [x63]); (9, [x64])]).
    repeat (constructor; [unfold in_range; simpl; lia|]). constructor.
Defined.

(** The buffer reorders overlapping writes.  An application that writes
    one byte at offset 1 and then two bytes at offset 0 must read the second
    write back; the batch the buffer sends writes the older byte last, so the
    file ends with it at offset 1. *)
Theorem overlapping_writes_reordered iter :
  let wb := snd (push iter (wb_new 100 1000 10) 1 1 [x01] 0) in
  let wb := snd (push iter wb 1 0 [x02; x02] 1) in
  exists b wb', begin_flush wb 1 = (Some b, wb') /\
    apply_writes (fun _ => None) (map pair_of (chunks_of wb 1)) 1 = Some x02 /\
    apply_writes (fun _ => None) (fb_chunks b) 1 = Some x01.
Proof. eexists _, _. split; [vm_compute; reflexivity|]. split; vm_compute; reflexivity. Qed.

(** C15: a failed flush is made good by the next one.  After a flush fails,
    having written any part of its batch (the file [f'] differs from [f] at most
    where the batch writes), and whatever was pushed meanwhile, the handle can be
    flushed again and the second batch leaves the file the application wrote:
    all its writes, in order, on the original file. *)
Theorem retry_after_failure iter wb h b wb1 ops f f' :
  begin_flush wb h = (Some b, wb1) -> Forall (keeps h) ops ->
  let wb2 := fail_flush (wb_run iter wb1 ops) h in
  let writes := map pair_of (chunks_of wb h ++ accepted iter wb1 h ops) in
  disjoint_writes writes -> Forall in_range writes ->
  (forall i, (forall p, p ∈ fb_chunks b -> ~ covers p i) -> f' i = f i) ->
  exists b2 wb3, begin_flush wb2 h = (Some b2, wb3) /\
    forall i, apply_writes f' (fb_chunks b2) i = apply_writes f writes i.
Proof.
  intros Hb HF wb2 writes Hd Hr Hff.
  destruct (begin_flush_inv _ _ _ _ Hb) as (Hbc & _ & Hwb1 & hb & Hhb & _ & Hne).
  assert (chunks_of wb2 h = chunks_of wb h ++ accepted iter wb1 h ops) as Hc.
  { change wb2 with (wb_step iter (wb_run iter wb1 ops) (OpFail h)).
    rewrite chunks_step, chunks_run by done. simpl. rewrite !app_nil_r. f_equal.
    rewrite Hwb1, chunks_of_insert. by rewrite decide_True. }
  destruct (fail_flush_ready (wb_run iter wb1 ops) h) as (b2 & wb3 & Hb2).
  { rewrite chunks_run, Hwb1, chunks_of_insert, decide_True by done. simpl.
    unfold chunks_of. rewrite Hhb. by destruct (hb_chunks hb). }
  exists b2, wb3. split; [done|]. intros i.
  rewrite (flush_same_image _ _ _ _ f' i Hb2) by (fold wb2; by rewrite Hc).
  fold wb2. rewrite Hc. fold writes. apply apply_writes_overwrite. intros Hn. apply Hff.
  intros p Hp Hcov. assert (Forall in_range (map pair_of (chunks_of wb h))) as Hr0.
  { unfold writes in Hr. rewrite map_app in Hr. by apply Forall_app in Hr as [? _]. }
  destruct (proj1 (batch_covers _ i Hr0)) as (q & Hq & Hqc).
  { exists p. by rewrite <- Hbc. }
  apply (Hn q); [|done]. unfold writes. rewrite map_app. apply elem_of_app. by left.
Qed.

Lemma retry_after_failure_witness :
  exists b wb1, begin_flush demo_buffer 1 = (Some b, wb1) /\
  exists b2 wb3, begin_flush (fail_flush (wb_run map_to_list wb1 [OpPush 1 5 [x65] 5]) 1) 1 = (Some b2, wb3) /\
    forall i, apply_writes (write_image (fun _ => None) (0, [x61])) (fb_chunks b2) i =
              apply_writes (fun _ => None) (map pair_of demo_chunks ++ [(5, [x65])]) i.
Proof.
  destruct (begin_flush demo_buffer 1) as [[b|] wb1] eqn:E; [|vm_compute in E; discriminate E].
  exists b, wb1. split; [reflexivity|].
  assert (accepted map_to_list wb1 1 [OpPush 1 5 [x65] 5] = [MkPendingWrite 5 [x65] 5]) as Ha.
  { apply (f_equal snd) in E. simpl in E. subst wb1. vm_compute. reflexivity. }
  assert (fb_chunks b = [(0, [x61; x61; x62; x62; x63]); (9, [x64])]) as Hb.
  { apply (f_equal fst) in E. vm_compute in E. injection E as <-. reflexivity. }
  pose proof (retry_after_failure map_to_list demo_buffer 1 b wb1 [OpPush 1 5 [x65] 5]
    (fun _ => None) (write_image (fun _ => None) (0, [x61])) E) as H.
  cbv zeta in H. rewrite Ha in H. apply H; clear H.
  - by repeat constructor.
  - change (disjoint_writes [(2, [x62; x62]); (0, [x61; x61]); (4, [x63]); (9, [x64]); (5, [x65])]).
    simpl. split_and!; [| | | | |done]; intros q Hq k; unfold covers;
      repeat (apply elem_of_cons in Hq as [->|Hq]; [simpl; lia|]); by apply not_elem_of_nil in Hq.
  - change (Forall in_range [(2, [x62; x62]); (0, [x61; x61]); (4, [x63]); (9, [x64]); (5, [x65])]).
    repeat (constructor; [unfold in_range; simpl; lia|]). constructor.
  - intros i Hi. apply write_image_miss. intros Hc. rewrite Hb in Hi.
    apply (Hi (0, [x61; x61; x62; x62; x63])); [left|]. unfold covers in *. simpl in *. lia.
Defined.

(** C23: memory is bounded and accounted for.  From an empty buffer, through
    any sequence of pushes, flushes, acknowledgements (of any count), failures
    and drops, [total_bytes] is the sum of the buffered bytes and never exceeds
    the hard limit, twice the soft one. *)
Theorem buffer_bounded iter per_handle total window ops :
  0 <= total < 2 ^ 62 -> Forall op_fits ops ->
  let wb := wb_run iter (wb_new per_handle total window) ops in
  wb_total_bytes wb = total_of (wb_per_handle wb) /\ wb_total_bytes wb <= 2 * total.
Proof.
  intros Ht HF wb. assert (wb_hard_total_bytes (wb_new per_handle total window) = 2 * total) as Hh.
  { simpl. unfold sat_mul64, u64_max. lia. }
  assert (wb_inv wb) as [H1 H2 _].
  { apply wb_inv_run; [rewrite Hh; lia|done|apply wb_inv_new; lia]. }
  split; [done|]. etransitivity; [exact H2|]. rewrite <- Hh. unfold wb.
  clear. generalize (wb_new per_handle total window). induction ops as [|op ops IH]; intros wb; [done|].
  simpl. etransitivity; [apply IH|]. by rewrite wb_step_hard.
Qed.

Lemma buffer_bounded_witness :
  let ops := [OpPush 1 0 [x61; x62] 0; OpPush 2 5 [x63] 1; OpBegin 1; OpAck 1 9; OpDrop 3] in
  let wb := wb_run map_to_list (wb_new 100 1000 10) ops in
  wb_total_bytes wb = 1 /\ wb_total_bytes wb <= 2 * 1000.
Proof.
  intros ops wb. split; [vm_compute; reflexivity|].
  apply (buffer_bounded map_to_list 100 1000 10 ops); [lia|].
  repeat (constructor; [simpl; lia || exact I|]). constructor.
Defined.

(** C24: chunks stay until they are acknowledged.  While a flush of a handle is
    in flight other operations may run (pushes to the same handle included, as
    long as the handle is not dropped); its acknowledgement removes exactly the
    chunks the batch covered and keeps what was pushed since, its failure keeps
    everything. *)
Theorem ack_removes_exactly_sent iter wb h b wb1 ops :
  begin_flush wb h = (Some b, wb1) ->
  Forall (keeps h) ops ->
  let wb2 := wb_run iter wb1 ops in
  chunks_of (ack_flush wb2 h (fb_sent_count b)) h = accepted iter wb1 h ops /\
  chunks_of (fail_flush wb2 h) h = chunks_of wb h ++ accepted iter wb1 h ops.
Proof.
  intros Hb HF wb2. destruct (begin_flush_inv _ _ _ _ Hb) as (_ & Hn & Hwb1 & _).
  assert (chunks_of wb2 h = chunks_of wb h ++ accepted iter wb1 h ops) as Hc.
  { unfold wb2. rewrite chunks_run by done. f_equal. rewrite Hwb1, chunks_of_insert.
    by rewrite decide_True. }
  split.
  - rewrite chunks_ack, Hn, Hc, length_app.
    rewrite Z.min_l by lia. by rewrite Nat2Z.id, drop_app_length.
  - change (fail_flush wb2 h) with (wb_step iter wb2 (OpFail h)). rewrite chunks_step by done. simpl. by rewrite app_nil_r.
Qed.

Lemma ack_removes_exactly_sent_witness :
  exists b wb1, begin_flush demo_buffer 1 = (Some b, wb1) /\
    chunks_of (ack_flush (wb_run map_to_list wb1 [OpPush 1 20 [x65] 5; OpFail 1]) 1 (fb_sent_count b)) 1
    = [MkPendingWrite 20 [x65] 5].
Proof.
  destruct (begin_flush demo_buffer 1) as [[b|] wb1] eqn:E; [|vm_compute in E; discriminate E].
  exists b, wb1. split; [reflexivity|].
  destruct (ack_removes_exactly_sent map_to_list demo_buffer 1 b wb1 [OpPush 1 20 [x65] 5; OpFail 1] E)
    as [H _]; [by repeat constructor|].
  etransitivity; [exact H|]. apply (f_equal snd) in E. simpl in E. subst wb1. vm_compute. reflexivity.
Defined.

(** A drop during a flush lets the acknowledgement discard unsent data.
    If the handle is dropped while its flush is in flight and a new write is
    buffered before the acknowledgement arrives, [ack_flush] removes the new
    write although it was never sent. *)
Theorem ack_after_drop_discards_unsent iter :
  let wb := snd (push iter (wb_new 100 1000 10) 1 0 [x61] 0) in
  exists b wb1, begin_flush wb 1 = (Some b, wb1) /\
    let wb2 := snd (push iter (snd (drop_handle wb1 1)) 1 7 [x62] 1) in
    chunks_of wb2 1 = [MkPendingWrite 7 [x62] 1] /\
    chunks_of (ack_flush wb2 1 (fb_sent_count b)) 1 = [].
Proof. eexists _, _. split; [vm_compute; reflexivity|]. split; vm_compute; reflexivity. Qed.

(** What [push] does and what it asks for, for every iteration order of
    the map.  A refused write changes nothing and is refused only when it would
    exceed the hard limit; an accepted one is appended to its handle; the
    caller is asked to flush this handle at the per-handle limit, otherwise a
    handle with the most buffered bytes at the global limit, otherwise
    nothing. *)
Theorem push_decision iter wb h off data now :
  (forall m, iter m ≡ₚ map_to_list m) ->
  wb_inv wb -> wb_hard_total_bytes wb < 2 ^ 63 -> zlen data < 2 ^ 63 ->
  let '(d, wb') := push iter wb h off data now in
  match d with
  | Reject => wb' = wb /\ wb_hard_total_bytes wb < wb_total_bytes wb + zlen data
  | _ =>
      chunks_of wb' h = chunks_of wb h ++ [MkPendingWrite off data now] /\
      (forall h', h' <> h -> chunks_of wb' h' = chunks_of wb h') /\
      wb_total_bytes wb' = wb_total_bytes wb + zlen data /\ wb_total_bytes wb' <= wb_hard_total_bytes wb /\
      let here := chunks_bytes (chunks_of wb' h) in
      match d with
      | FlushThis k => k = h /\ wb_max_per_handle_bytes wb <= here
      | FlushOther k => here < wb_max_per_handle_bytes wb /\ wb_max_total_bytes wb <= wb_total_bytes wb' /\
          has_buffered wb' k = true /\
          forall k', chunks_bytes (chunks_of wb' k') <= chunks_bytes (chunks_of wb' k)
      | _ => here < wb_max_per_handle_bytes wb /\ wb_total_bytes wb' < wb_max_total_bytes wb
      end
  end.
Proof.
  intros Hiter Hinv Hh Hd. pose proof (push_accepted iter wb h off data now Hh Hd Hinv) as Hacc.
  pose proof (wb_inv_step iter wb (OpPush h off data now) Hh Hd Hinv) as Hinv'. cbn [wb_step] in Hinv'.
  destruct Hinv as [Ht Hb _]. pose proof (total_of_nonneg (wb_per_handle wb)) as Hnn.
  unfold push in *. rewrite !wrap_small in * by (unfold in_width; lia).
  destruct (_ <? _) eqn:El; [by apply Z.ltb_lt in El|]. apply Z.ltb_ge in El.
  set (wb' := set_handles _ _ wb) in *.
  assert (wb' = set_handles _ _ wb) as Hwb' by (etransitivity; [|exact Hacc]; by repeat destruct (_ <=? _)).
  assert (chunks_of wb' h = chunks_of wb h ++ [MkPendingWrite off data now]) as Hch.
  { rewrite Hwb', chunks_of_insert. by rewrite decide_True. }
  assert (forall h', h' <> h -> chunks_of wb' h' = chunks_of wb h') as Hoth.
  { intros h' Hne. rewrite Hwb', chunks_of_insert. by rewrite decide_False. }
  assert (hb_bytes (MkHandleBuf (hb_chunks (default HandleBuf_default (wb_per_handle wb !! h)) ++
            [MkPendingWrite off data now]) (hb_sending (default HandleBuf_default (wb_per_handle wb !! h))))
          = chunks_bytes (chunks_of wb' h)) as Hbytes.
  { rewrite Hch. unfold hb_bytes, chunks_of. simpl. by destruct (wb_per_handle wb !! h). }
  rewrite Hbytes in *. destruct (_ <=? chunks_bytes _) eqn:E1.
  { apply Z.leb_le in E1. by split_and!. }
  apply Z.leb_gt in E1. destruct (wb_max_total_bytes wb' <=? _) eqn:E2.
  - apply Z.leb_le in E2. destruct (biggest_handle iter wb' h Hiter) as [Hk Hmax].
    + apply Hinv'.
    + simpl. rewrite lookup_insert_eq. eauto.
    + by split_and!.
  - apply Z.leb_gt in E2. by split_and!.
Qed.

Lemma push_decision_witness :
  let '(d, wb') := push map_to_list demo_buffer 1 30 [x65; x66] 9 in
  d = Buffered /\ chunks_of wb' 1 = demo_chunks ++ [MkPendingWrite 30 [x65; x66] 9].
Proof.
  pose proof (push_decision map_to_list demo_buffer 1 30 [x65; x66] 9) as H.
  assert (fst (push map_to_list demo_buffer 1 30 [x65; x66] 9) = Buffered) as E by (vm_compute; reflexivity).
  destruct (push _ _ _ _ _ _) as [d wb']. simpl in E. subst d. split; [done|].
  apply H; [done| |simpl; lia|simpl; lia].
  constructor; [vm_compute; reflexivity|vm_compute; discriminate|].
  intros h hb Hhb. unfold demo_buffer in Hhb. simpl in Hhb.
  apply lookup_singleton_Some in Hhb as [<- <-]. done.
Defined.
