(* ===== verification/Tofu.v ===== *)
(** * Mutual authentication

    Trust on first use, from both ends: the client's pinning of server keys
    ([src/client/src/verify.rs], [ConnManager::connect], [decide_first_contact],
    [prompt_yes_no], [reconnect] of [src/client/src/conn.rs]) and the server's
    [authorized_keys] policy ([src/server/src/verify.rs]).

    rustls asks the verifier about the certificate and then checks that the peer
    holds its private key ([Machine.tls_outcome] has both), so here a peer is the
    certificate it presents; fingerprinting it is a parameter. *)

From S2P Require Import Prelude Text Status BTree Trust.

(** ** Server: which client keys are accepted *)

Record AuthorizedKeysVerifier := MkVerifier { akv_authorized : AuthorizedKeys; akv_allow_any : bool }.

(** [AuthorizedKeysVerifier::client_auth_mandatory] *)
Definition client_auth_mandatory : bool := true.

(** [enum PinMode]; the sink of [Capture] is state of the connection manager. *)
Inductive PinMode : Type := Capture | Enforce (expected : str).

(** [enum TofuPolicy] *)
Inductive TofuPolicy : Type := PolPrompt | PolAcceptNew | PolStrict.

(** [prompt_yes_no]: the answers of successive [read_line] calls; no more lines
    is end of file. *)
Fixpoint prompt_yes_no (input : list (anyhow str)) : anyhow bool :=
  match input with
  | [] => Ok false
  | Err e :: _ => Err e
  | Ok line :: rest =>
      if str_eqb (trim line) (lit "yes") then Ok true
      else if str_eqb (trim line) (lit "no") then Ok false
      else prompt_yes_no rest
  end.

(** [decide_first_contact]; [tty] is [stdin().is_terminal()]. *)
Definition decide_first_contact (policy : TofuPolicy) (tty : bool) (input : list (anyhow str)) : anyhow bool :=
  match policy with
  | PolStrict => Ok false
  | PolAcceptNew => Ok true
  | PolPrompt => if tty then prompt_yes_no input else Ok false
  end.

Section Certs.
Variable cert_fingerprint : bytes -> option str.

(** [AuthorizedKeysVerifier::verify_client_cert] *)
Definition verify_client_cert (v : AuthorizedKeysVerifier) (end_entity : bytes) : anyhow unit :=
  match cert_fingerprint end_entity with
  | None => Err (lit "fingerprint client cert")
  | Some fp =>
      if ak_contains (akv_authorized v) fp then Ok tt
      else if ak_is_empty (akv_authorized v) && akv_allow_any v then Ok tt
      else Err (lit "client key not authorized")
  end.

(** [PinningServerVerifier::verify_server_cert]: the verdict and the sink. *)
Definition verify_server_cert (mode : PinMode) (sink : option str) (end_entity : bytes) :
    anyhow unit * option str :=
  match cert_fingerprint end_entity with
  | None => (Err (lit "fingerprint server cert"), sink)
  | Some fp =>
      match mode with
      | Capture => (Ok tt, Some fp)
      | Enforce expected =>
          if str_eqb fp expected then (Ok tt, sink)
          else (Err (lit "server key fingerprint mismatch"), sink)
      end
  end.

(** [establish]: [peer] is the certificate of the server reached, if any. *)
Definition establish (expected_fp : option str) (sink : option str) (peer : option bytes) :
    anyhow unit * option str :=
  let mode := match expected_fp with Some fp => Enforce fp | None => Capture end in
  match peer with
  | None => (Err (lit "QUIC handshake"), sink)
  | Some cert => verify_server_cert mode sink cert
  end.

(** [do_connect] with a handshake that answers [hs]. *)
Definition do_connect (expected_fp sink : option str) (peer : option bytes) (hs : anyhow unit) :
    anyhow unit * option str :=
  let '(r, sink) := establish expected_fp sink peer in
  match r with
  | Err e => (Err e, sink)
  | Ok _ => (hs, sink)
  end.

Section Connect.
Variables (env : disk_env) (has_parent : bool) (known_hosts_path host_key : str).

(** [ConnManager::connect]: the fingerprint it enforces from then on, and the disk,
    also when it fails: [known_hosts] is saved before the application handshake. *)
Definition connect (d : disk) (policy : TofuPolicy) (tty : bool) (input : list (anyhow str))
    (peer : option bytes) (hs : anyhow unit) : anyhow (option str) * disk :=
  match kh_load env d known_hosts_path with
  | Err e => (Err e, d)
  | Ok known =>
      let pinned := kh_get known host_key in
      let '(r, sink) := establish pinned None peer in
      match r, pinned with
      | Err e, _ => (Err e, d)
      | Ok _, Some fp => (let? _ := hs in Ok (Some fp), d)
      | Ok _, None =>
          let trusted :=
            let? captured := ok_or (lit "server presented no certificate") sink in
            let? accepted := decide_first_contact policy tty input in
            if negb accepted then Err (lit "host key was not accepted") else Ok captured in
          match trusted with
          | Err e => (Err e, d)
          | Ok captured =>
              let known := kh_insert known host_key captured in
              match kh_save env has_parent d known with
              | Err e => (Err e, kh_save_failed env has_parent d known)
              | Ok d => (let? _ := hs in Ok (Some captured), d)
              end
          end
      end
  end.
End Connect.

(** Mounts one after the other, by one user: each reads and writes the same
    [known_hosts], under conditions of its own. *)
Record attempt := MkAttempt {
  at_env : disk_env; at_has_parent : bool; at_host : str; at_policy : TofuPolicy; at_tty : bool;
  at_input : list (anyhow str); at_peer : option bytes; at_hs : anyhow unit
}.

Definition attempt_on (path : str) (d : disk) (a : attempt) : anyhow (option str) * disk :=
  connect (at_env a) (at_has_parent a) path (at_host a) d (at_policy a) (at_tty a) (at_input a) (at_peer a) (at_hs a).

Fixpoint attempts (path : str) (d : disk) (l : list attempt) : list (anyhow (option str)) * disk :=
  match l with
  | [] => ([], d)
  | a :: l =>
      let '(r, d) := attempt_on path d a in
      let '(rs, d) := attempts path d l in
      (r :: rs, d)
  end.
End Certs.

(** ** Reconnecting *)

(** The sleep after failed attempt number [attempt] (from 1), in milliseconds:
    the delay and its jitter. *)
Definition sleep_ms (delay attempt : Z) : Z := delay + sat_mul64 (delay / 4) (attempt mod 3).
Definition next_delay (delay : Z) : Z := Z.min (delay * 2) 30000.

(** [reconnect] against the outcomes of successive [do_connect] calls: the
    number of attempts and the sleeps made, or [None] while it is still trying.
    [attempt += 1] is 32-bit. *)
Fixpoint reconnect_from (delay attempt : Z) (outcomes : list (anyhow unit)) : option Z * list Z :=
  match outcomes with
  | [] => (None, [])
  | Ok _ :: _ => (Some (wrap32 (attempt + 1)), [])
  | Err _ :: rest =>
      let attempt := wrap32 (attempt + 1) in
      let '(r, sleeps) := reconnect_from (next_delay delay) attempt rest in
      (r, sleep_ms delay attempt :: sleeps)
  end.
Definition reconnect (outcomes : list (anyhow unit)) : option Z * list Z := reconnect_from 100 0 outcomes.

(** ** Lemmas *)

Lemma prompt_yes_no_true input :
  prompt_yes_no input = Ok true -> exists line, Ok line ∈ input /\ trim line = lit "yes".
Proof.
  induction input as [|[line|e] input IH]; simpl; [done| |done].
  destruct (str_eqb (trim line) (lit "yes")) eqn:E.
  - intros _. exists line. apply str_eqb_eq in E. split; [left|done].
  - destruct (str_eqb (trim line) (lit "no")); [done|]. intros H. destruct (IH H) as (l & Hl & Ht). exists l.
    split; [by right|done].
Qed.

Lemma establish_enforced cf fp sink peer s' :
  establish cf (Some fp) sink peer = (Ok tt, s') ->
  exists cert, peer = Some cert /\ cf cert = Some fp.
Proof.
  unfold establish, verify_server_cert. destruct peer as [cert|]; [|done].
  destruct (cf cert) as [fp'|] eqn:Ef; [|done]. destruct (str_eqb fp' fp) eqn:E; [|done].
  apply str_eqb_eq in E. subst. eauto.
Qed.

Lemma establish_captured cf peer sink s' :
  establish cf None sink peer = (Ok tt, s') ->
  exists cert fp, peer = Some cert /\ cf cert = Some fp /\ s' = Some fp.
Proof.
  unfold establish, verify_server_cert. destruct peer as [cert|]; [|done].
  destruct (cf cert) as [fp|] eqn:Ef; [|done]. intros [= <-]. eauto.
Qed.

(** When the user, or the policy, agreed to a new key. *)
Definition consented (policy : TofuPolicy) (tty : bool) (input : list (anyhow str)) : Prop :=
  match policy with
  | PolStrict => False
  | PolAcceptNew => True
  | PolPrompt => tty = true /\ exists line, Ok line ∈ input /\ trim line = lit "yes"
  end.

Lemma decide_consented policy tty input :
  decide_first_contact policy tty input = Ok true -> consented policy tty input.
Proof.
  destruct policy; simpl; [|done|done]. destruct tty; [|done]. intros H.
  split; [done|by apply prompt_yes_no_true].
Qed.

(** A key that was pinned is what the next load finds. *)
Lemma pin_kept env hp d d' path host kh fp :
  kh_load env d path = Ok kh -> token fp -> key_token host -> env_read env = Ok tt ->
  kh_save env hp d (kh_insert kh host fp) = Ok d' ->
  kh_load env d' path = Ok (kh_insert kh host fp) /\ kh_get (kh_insert kh host fp) host = Some fp.
Proof.
  intros Hl Hfp Hhost Hr Hs. destruct (kh_load_wf _ _ _ _ Hl) as [[Hsort HF] Hpath].
  destruct (kh_save_load env hp d d' (kh_insert kh host fp)) as [Hl' _]; [|done|done|].
  { by apply (bt_insert_wf (fun e => key_token e.1 /\ token e.2)). }
  simpl in Hl'. rewrite Hpath in Hl'. split; [done|].
  unfold kh_get. simpl. by rewrite bt_get_insert, (proj2 (str_eqb_eq _ _) eq_refl).
Qed.

(** Pinning a host's key leaves the other hosts' pins. *)
Lemma pin_saved env hp d d' path host fp :
  kh_load env d path = Ok (MkKnownHosts path (kh_table d path)) -> token fp -> key_token host ->
  kh_save env hp d (kh_insert (MkKnownHosts path (kh_table d path)) host fp) = Ok d' ->
  forall h, pinned_on d' path h = if str_eqb h host then Some fp else pinned_on d path h.
Proof.
  intros Hl Hfp Hhost Hs h. destruct (kh_load_wf _ _ _ _ Hl) as [[Hsort HF] _].
  assert (kh_table d' path = bt_insert host fp (kh_table d path)) as E.
  { apply (kh_saved env hp d d' (kh_insert (MkKnownHosts path (kh_table d path)) host fp)); [|done].
    by apply (bt_insert_wf (fun e => key_token e.1 /\ token e.2)). }
  unfold pinned_on. by rewrite E, bt_get_insert.
Qed.

(** [connect], whatever its outcome: the pins that were there stay; a new one is the
    key of the server reached, consented to; success means that key is pinned. *)
Definition connected (cf : bytes -> option str) (path : str) (d : disk) (a : attempt) (r : anyhow (option str)) (d' : disk) : Prop :=
  (forall h fp, pinned_on d path h = Some fp -> pinned_on d' path h = Some fp) /\
  (forall h fp, pinned_on d' path h = Some fp -> pinned_on d path h = Some fp \/
     h = at_host a /\ consented (at_policy a) (at_tty a) (at_input a) /\ exists cert, at_peer a = Some cert /\ cf cert = Some fp) /\
  (forall e, r = Ok e -> exists cert fp, at_peer a = Some cert /\ cf cert = Some fp /\ e = Some fp /\
     pinned_on d' path (at_host a) = Some fp).

Lemma connected_err cf path d a e : connected cf path d a (Err e) d.
Proof. split_and!; [done|by left|done]. Qed.

Lemma connect_ok cf path d a r d' :
  (forall c fp, cf c = Some fp -> token fp) -> key_token (at_host a) -> env_torn (at_env a) = None ->
  attempt_on cf path d a = (r, d') -> connected cf path d a r d'.
Proof.
  intros Htok Hhost Htorn H. unfold attempt_on, connect in H.
  destruct (kh_load _ d path) as [known|e] eqn:Hl; [|injection H as <- <-; apply connected_err].
  pose proof (kh_load_table _ _ _ _ Hl) as ->. change (kh_get _ _) with (pinned_on d path (at_host a)) in H.
  destruct (establish _ _ _ _) as [[[]|e] sink] eqn:Ee; [|injection H as <- <-; apply connected_err].
  destruct (pinned_on d path (at_host a)) as [fp|] eqn:Hp.
  - apply establish_enforced in Ee as (cert & Hpeer & Hc). injection H as <- <-.
    split_and!; [done|by left|]. intros e (? & _ & [= <-])%res_bind_Ok_inv. eauto 10.
  - apply establish_captured in Ee as (cert & fp & Hpeer & Hc & ->). cbn [ok_or res_bind] in H.
    destruct (decide_first_contact _ _ _) as [[]|e] eqn:Hd; cbn [res_bind negb] in H;
      [|injection H as <- <-; apply connected_err..]. apply decide_consented in Hd.
    destruct (kh_save _ _ _ _) as [d1|e] eqn:Hs; injection H as <- <-.
    + pose proof (pin_saved _ _ _ _ _ _ _ Hl (Htok _ _ Hc) Hhost Hs) as Hpin. split_and!.
      * intros h fp' Hh. rewrite Hpin. destruct (str_eqb h (at_host a)) eqn:E; [|done]. apply str_eqb_eq in E. congruence.
      * intros h fp'. rewrite Hpin. destruct (str_eqb h (at_host a)) eqn:E; [|by left]. apply str_eqb_eq in E.
        intros [= <-]. right. eauto.
      * intros e (? & _ & [= <-])%res_bind_Ok_inv. exists cert, fp. split_and!; [done..|]. rewrite Hpin.
        by rewrite (proj2 (str_eqb_eq _ _) eq_refl).
    + unfold kh_save_failed, fs_write_failed. rewrite Htorn. destruct (if at_has_parent a then _ else _); apply connected_err.
Qed.

(** A certificate that is let through: its key is listed, or any is allowed. *)
Lemma verify_client_listed cf v cert :
  verify_client_cert cf v cert = Ok tt ->
  exists fp, cf cert = Some fp /\
    (fp ∈ (ak_fingerprints (akv_authorized v)).*1 \/ ak_fingerprints (akv_authorized v) = [] /\ akv_allow_any v = true).
Proof.
  unfold verify_client_cert. destruct (cf cert) as [fp|]; [|done]. intros H. exists fp. split; [done|].
  destruct (ak_contains _ fp) eqn:E; [left; by apply bt_contains_keys|right].
  unfold ak_is_empty, bt_is_empty in H. by destruct (ak_fingerprints _), (akv_allow_any v).
Qed.

(** The text of the [authorized_keys] at [path]; a file that is not there is empty. *)
Definition keys_text (d : disk) (path : str) : str := match d !! path with Some f => df_text f | None => [] end.

(** The server admits the keys the text lists. *)
Lemma accepted_listed cf env d path ak allow_any cert :
  ak_load env d path = Ok ak ->
  verify_client_cert cf (MkVerifier ak allow_any) cert = Ok tt <->
  exists fp, cf cert = Some fp /\
    (text_lists (keys_text d path) fp \/
     allow_any = true /\ forall k, ~ text_lists (keys_text d path) k).
Proof.
  intros Hl. assert (ak_fingerprints ak = fold_left ak_load_line (lines (keys_text d path)) []) as Hak.
  { unfold ak_load, keys_text in *. destruct (d !! path); [|by injection Hl as <-].
    by apply res_bind_Ok_inv in Hl as (? & _ & [= <-]). }
  assert (forall fp, ak_contains ak fp = true <-> text_lists (keys_text d path) fp) as Hin.
  { intros fp. unfold ak_contains. rewrite Hak. apply ak_loaded_contains. }
  assert (ak_is_empty ak = true <-> forall k, ~ text_lists (keys_text d path) k) as Hempty.
  { unfold ak_is_empty. transitivity (ak_fingerprints ak = []); [by destruct (ak_fingerprints ak)|].
    rewrite bt_empty_keys. split; intros H k; specialize (H k); [rewrite <- Hin; unfold ak_contains; congruence|].
    apply not_true_iff_false. by rewrite <- Hin in H. }
  unfold verify_client_cert. cbn [akv_authorized akv_allow_any].
  destruct (cf cert) as [fp|]; [|split; [done|by intros (? & ? & _)]].
  transitivity (ak_contains ak fp = true \/ allow_any = true /\ ak_is_empty ak = true).
  - destruct (ak_contains ak fp), (ak_is_empty ak), allow_any; simpl; intuition congruence.
  - rewrite Hin, Hempty. split; [by exists fp|]. by intros (? & [= <-] & H).
Qed.

Lemma sleep_ms_bounds delay attempt :
  0 <= delay <= 30000 -> delay <= sleep_ms delay attempt <= delay + delay / 2.
Proof.
  intros Hd. unfold sleep_ms, sat_mul64, u64_max.
  pose proof (Z.mod_pos_bound attempt 3 ltac:(lia)). pose proof (Z.div_pos delay 4 ltac:(lia) ltac:(lia)).
  assert (delay / 4 * (attempt mod 3) <= delay / 4 * 2) by nia.
  assert (delay / 4 * 2 <= delay / 2) by (Z.div_mod_to_equations; lia).
  assert (0 <= delay / 4 * (attempt mod 3)) by nia.
  assert (delay / 4 <= 30000) by (apply Z.div_le_upper_bound; lia). lia.
Qed.

Lemma next_delay_pow delay i :
  0 <= delay -> 0 <= i ->
  Z.min (next_delay delay * 2 ^ i) 30000 = Z.min (delay * 2 ^ (i + 1)) 30000.
Proof.
  intros Hd Hi. unfold next_delay. rewrite Z.pow_add_r by lia. change (2 ^ 1) with 2.
  assert (1 <= 2 ^ i) by (apply (Z.pow_le_mono_r 2 0 i); lia).
  destruct (Z.min_spec (delay * 2) 30000) as [[? ->]|[? ->]]; nia.
Qed.

Lemma reconnect_sleeps delay attempt outcomes r sleeps i s :
  0 <= delay <= 30000 -> reconnect_from delay attempt outcomes = (r, sleeps) -> sleeps !! i = Some s ->
  let d := Z.min (delay * 2 ^ Z.of_nat i) 30000 in d <= s <= d + d / 2.
Proof.
  revert delay attempt r sleeps i. induction outcomes as [|[[]|e] rest IH];
    intros delay attempt r sleeps i Hd; simpl; [by intros [= <- <-]|by intros [= <- <-]|].
  destruct (reconnect_from _ _ rest) as [r' sl] eqn:E. intros [= <- <-]. destruct i as [|i].
  - intros [= <-]. rewrite Z.mul_1_r, Z.min_l by lia. by apply sleep_ms_bounds.
  - intros Hi. rewrite Nat2Z.inj_succ, <- Z.add_1_r, <- next_delay_pow by lia.
    eapply IH; [|exact E|exact Hi]. unfold next_delay. lia.
Qed.

Lemma reconnect_attempts delay attempt outcomes k sleeps :
  0 <= attempt -> attempt + zlen sleeps + 1 < 2 ^ 32 ->
  reconnect_from delay attempt outcomes = (Some k, sleeps) ->
  k = attempt + zlen sleeps + 1 /\ outcomes !! length sleeps = Some (Ok tt).
Proof.
  revert delay attempt sleeps. induction outcomes as [|[[]|e] rest IH];
    intros delay attempt sleeps Ha Hb; simpl; [done| |].
  - intros [= <- <-]. simpl in *. rewrite wrap_small by (unfold in_width; lia). split; [lia|done].
  - destruct (reconnect_from _ _ rest) as [r' sl] eqn:E. intros [= -> <-]. simpl in Hb.
    rewrite wrap_small in E by (unfold in_width; lia).
    destruct (IH (next_delay delay) (attempt + 1) sl) as [-> Ho]; [lia|lia|exact E|]. split; [simpl; lia|done].
Qed.

(** ** Theorems *)

(** C19: which clients may connect.  A server that loaded [authorized_keys] accepts a
    client's certificate exactly when its key's fingerprint can be computed and is
    the first word of a line of that file that is no comment, or [allow_any_client]
    is set and no line of the file lists a key.  A file that lists nothing, or is not
    there, rejects everyone unless [allow_any_client] is set; with any key listed
    [allow_any_client] admits nobody else. *)
Theorem client_accepted_iff cf env d path ak allow_any cert :
  ak_load env d path = Ok ak ->
  verify_client_cert cf (MkVerifier ak allow_any) cert = Ok tt <->
  exists fp, cf cert = Some fp /\
    (text_lists (keys_text d path) fp \/
     allow_any = true /\ forall k, ~ text_lists (keys_text d path) k).
Proof.
  intros Hl. by eapply accepted_listed.
Qed.

Lemma client_accepted_iff_witness :
  let text := lit "# keys" ++ [NL] ++ lit "  SHA256:B alice@laptop" ++ [NL] in
  exists ak, ak_load good_env {[lit "ak" := DiskFile text 0x1a4]} (lit "ak") = Ok ak /\
    text_lists text (lit "SHA256:B") /\
    verify_client_cert (fun _ => Some (lit "SHA256:B")) (MkVerifier ak false) [] = Ok tt.
Proof.
  intros text. eexists. split; [reflexivity|].
  assert (text_lists text (lit "SHA256:B")) as Ht.
  { exists (lit "# keys" ++ [NL]), [SP; SP], (SP :: lit "alice@laptop" ++ [NL]). split_and!; [reflexivity| |by repeat constructor| |done].
    - right. by exists (lit "# keys").
    - split; [split; [done|by repeat constructor]|done]. }
  split; [exact Ht|].
  apply (client_accepted_iff _ good_env {[lit "ak" := DiskFile text 0x1a4]} (lit "ak") _ false []); [reflexivity|].
  exists (lit "SHA256:B"). split; [reflexivity|]. left. exact Ht.
Defined.

(** Where a key a mount was made with comes from: it was pinned at the start, or the
    host had no pin and one of the mounts so far consented to it. *)
Definition trusted_since (cf : bytes -> option str) (path : str) (d : disk) (hist : list attempt) (i : nat) (host fp : str) : Prop :=
  pinned_on d path host = Some fp \/
  pinned_on d path host = None /\ exists j b cert, (j <= i)%nat /\ hist !! j = Some b /\ at_host b = host /\
    consented (at_policy b) (at_tty b) (at_input b) /\ at_peer b = Some cert /\ cf cert = Some fp.

Lemma trusted_first cf path d a r d1 hist i host fp :
  connected cf path d a r d1 -> pinned_on d1 path host = Some fp -> trusted_since cf path d (a :: hist) i host fp.
Proof.
  intros (Hkeep & Hnew & _) Hp. destruct (pinned_on d path host) as [fp'|] eqn:E.
  - left. apply Hkeep in E as E'. congruence.
  - right. split; [done|]. destruct (Hnew host fp Hp) as [?|(-> & Hc & cert & Hpeer & Hfp)]; [congruence|].
    exists 0%nat, a, cert. split_and!; [lia|done..].
Qed.

Lemma trusted_later cf path d a r d1 hist i host fp :
  connected cf path d a r d1 -> trusted_since cf path d1 hist i host fp -> trusted_since cf path d (a :: hist) (S i) host fp.
Proof.
  intros Hc [Hp|(Hn & j & b & cert & Hj & Hb & H)]; [by eapply trusted_first|].
  destruct (pinned_on d path host) as [fp'|] eqn:E; [apply Hc in E; congruence|].
  right. split; [done|]. exists (S j), b, cert. split; [lia|by split].
Qed.

(** C18: trust on first use, over any history of mounts of any hosts, successful or
    not, made one after the other by one user, none of whose writes of [known_hosts]
    is torn.  A mount that succeeds reached a server with a key that was pinned for
    the host at the start, or, if none was, that the user or the policy consented to
    in this or an earlier mount of that host; all the mounts of a host that succeed
    reach the same key, under whatever policy and input; and a key that was pinned
    for any host stays pinned for it. *)
Theorem tofu_pins_host cf path d hist results d' :
  (forall c fp, cf c = Some fp -> token fp) ->
  Forall (fun a => key_token (at_host a) /\ env_torn (at_env a) = None) hist ->
  attempts cf path d hist = (results, d') ->
  (forall i a e, hist !! i = Some a -> results !! i = Some (Ok e) ->
     exists cert fp, at_peer a = Some cert /\ cf cert = Some fp /\ e = Some fp /\
       trusted_since cf path d hist i (at_host a) fp) /\
  (forall i j a b e e', hist !! i = Some a -> hist !! j = Some b -> at_host a = at_host b ->
     results !! i = Some (Ok e) -> results !! j = Some (Ok e') -> e = e') /\
  (forall h fp, pinned_on d path h = Some fp -> pinned_on d' path h = Some fp).
Proof.
  intros Htok. revert d results. induction hist as [|a hist IH]; intros d results Hall H.
  { injection H as <- <-. split_and!; [by intros i a e|by intros i j a b e e'|done]. }
  apply Forall_cons in Hall as [[Hhost Htorn] Hall]. simpl in H. destruct (attempt_on cf path d a) as [r d1] eqn:Ea.
  destruct (attempts cf path d1 hist) as [rs d2] eqn:Eh. injection H as <- <-.
  pose proof (connect_ok _ _ _ _ _ _ Htok Hhost Htorn Ea) as Hc. pose proof Hc as (Hkeep & _ & Hok).
  destruct (IH d1 rs Hall Eh) as (I1 & I2 & I3).
  assert (forall j b e e', hist !! j = Some b -> at_host a = at_host b -> r = Ok e -> rs !! j = Some (Ok e') -> e = e') as Hfirst.
  { intros j b e e' Hb Hab He Hj. destruct (Hok e He) as (cert & fp & _ & _ & -> & Hp).
    destruct (I1 j b e' Hb Hj) as (cert' & fp' & _ & _ & -> & [Hp'|[Hp' _]]); congruence. }
  split_and!; [| |by intros h fp Hp%Hkeep%I3].
  - intros [|i] b e Hb Hi.
    + injection Hb as <-. injection Hi as ->. destruct (Hok e eq_refl) as (cert & fp & Hpeer & Hfp & -> & Hp).
      exists cert, fp. split_and!; [done..|]. by eapply trusted_first.
    + destruct (I1 i b e Hb Hi) as (cert & fp & Hpeer & Hfp & -> & Ht). exists cert, fp. split_and!; [done..|].
      by eapply trusted_later.
  - intros [|i] [|j] b c e e' Hb Hc' Hbc Hi Hj; simpl in *.
    + congruence.
    + injection Hb as <-. injection Hi as ->. by apply (Hfirst j c).
    + injection Hc' as <-. injection Hj as ->. symmetry. by apply (Hfirst i b).
    + by apply (I2 i j b c).
Qed.

(** Certificates are their own fingerprint's text; the first contact prompts. *)
Definition demo_fp (cert : bytes) : option str :=
  match cert with [] => None | b :: _ => Some (lit "SHA256:" ++ [65 + byte_to_Z b mod 16]) end.

Lemma demo_fp_token cert fp : demo_fp cert = Some fp -> token fp.
Proof.
  destruct cert as [|b c]; [done|]. intros [= <-]. split; [done|]. repeat (constructor; [reflexivity|]).
  constructor; [|constructor]. destruct b; reflexivity.
Qed.

Lemma demo_host_token : key_token (lit "h:9001").
Proof. split; [split; [done|]|done]. repeat (constructor; [reflexivity|]). constructor. Qed.

(** First contact with a host whose handshake then fails, another host, the first
    again without a prompt, and an impostor. *)
Definition demo_mount (host : str) (policy : TofuPolicy) (input : list (anyhow str)) (cert : bytes) (hs : anyhow unit) : attempt :=
  MkAttempt good_env true host policy true input (Some cert) hs.
Definition demo_mounts : list attempt :=
  [demo_mount (lit "h:9001") PolPrompt [Ok (lit "what"); Ok (lit " yes")] [x01] (Err (lit "handshake"));
   demo_mount (lit "g:9001") PolAcceptNew [] [x02] (Ok tt);
   demo_mount (lit "h:9001") PolStrict [] [x01; x07] (Ok tt);
   demo_mount (lit "h:9001") PolAcceptNew [] [x03] (Ok tt);
   demo_mount (lit "h:9001") PolStrict [] [x01] (Ok tt)].

Example demo_mounts_run :
  map (fun r => match r with Ok e => e | Err _ => None end) (fst (attempts demo_fp (lit "kh") ∅ demo_mounts)) =
  [None; Some (lit "SHA256:C"); Some (lit "SHA256:B"); None; Some (lit "SHA256:B")].
Proof. reflexivity. Qed.

(** A [known_hosts] whose write is torn forgets its pins. *)
Example torn_write_forgets :
  let torn := DiskEnv (Ok tt) (Ok tt) (Err (lit "no space")) (Some []) true 0x1a4 in
  let d := {[lit "kh" := DiskFile (lit "h:9001 SHA256:B" ++ [NL]) 0x180]} in
  pinned_on d (lit "kh") (lit "h:9001") = Some (lit "SHA256:B") /\
  pinned_on (snd (attempts demo_fp (lit "kh") d
    [MkAttempt torn true (lit "g:9001") PolAcceptNew true [] (Some [x02]) (Ok tt)])) (lit "kh") (lit "h:9001") = None.
Proof. split; reflexivity. Qed.

Lemma tofu_pins_host_witness :
  exists results d', attempts demo_fp (lit "kh") ∅ demo_mounts = (results, d') /\
    results !! 2%nat = Some (Ok (Some (lit "SHA256:B"))) /\ results !! 4%nat = Some (Ok (Some (lit "SHA256:B"))) /\
    Some (lit "SHA256:B") = Some (lit "SHA256:B").
Proof.
  destruct (attempts demo_fp (lit "kh") ∅ demo_mounts) as [results d'] eqn:H. exists results, d'.
  assert (results !! 2%nat = Some (Ok (Some (lit "SHA256:B"))) /\ results !! 4%nat = Some (Ok (Some (lit "SHA256:B")))) as [H2 H4].
  { apply (f_equal fst) in H. vm_compute in H. rewrite <- H. split; reflexivity. }
  destruct (tofu_pins_host demo_fp (lit "kh") ∅ demo_mounts results d' demo_fp_token) as (_ & Hsame & _); [|exact H|].
  { repeat constructor; try exact demo_host_token; try reflexivity; try discriminate. }
  split; [reflexivity|]. split; [exact H2|]. split; [exact H4|].
  eapply (Hsame 2%nat 4%nat); [reflexivity|reflexivity|reflexivity|exact H2|exact H4].
Defined.

(** Reconnecting never hammers the server and never trusts another key.
    [reconnect] succeeds on the first attempt whose connection and handshake
    succeed; before it, the sleeps are at least the delay that starts at 100 ms
    and doubles up to 30 s, and at most one and a half times that; and an
    attempt in enforce mode succeeds only against the pinned key. *)
Theorem reconnect_backoff cf outcomes attempts sleeps :
  reconnect outcomes = (attempts, sleeps) ->
  (forall i s, sleeps !! i = Some s ->
     let delay := Z.min (100 * 2 ^ Z.of_nat i) 30000 in delay <= s <= delay + delay / 2) /\
  (forall k, attempts = Some k -> Z.of_nat (length sleeps) < 2 ^ 32 - 1 ->
     k = Z.of_nat (length sleeps) + 1 /\ outcomes !! length sleeps = Some (Ok tt)) /\
  (forall fp sink peer hs s', do_connect cf (Some fp) sink peer hs = (Ok tt, s') ->
     exists cert, peer = Some cert /\ cf cert = Some fp).
Proof.
  intros H. split_and!.
  - intros i s Hi. eapply (reconnect_sleeps 100 0 outcomes); [lia|exact H|exact Hi].
  - intros k -> Hl. destruct (reconnect_attempts 100 0 outcomes k sleeps) as [-> Ho]; [lia|lia|exact H|].
    split; [lia|done].
  - intros fp sink peer hs s'. unfold do_connect.
    destruct (establish cf (Some fp) sink peer) as [[[]|e] s1] eqn:E; [|done].
    intros _. by eapply establish_enforced.
Qed.

Lemma reconnect_backoff_witness :
  reconnect [Err []; Err []; Err []; Ok tt] = (Some 4, [125; 300; 400]) /\
  (forall i s, [125; 300; 400] !! i = Some s ->
     Z.min (100 * 2 ^ Z.of_nat i) 30000 <= s).
Proof.
  assert (reconnect [Err []; Err []; Err []; Ok tt] = (Some 4, [125; 300; 400])) as H by reflexivity.
  split; [exact H|]. intros i s Hi.
  apply (proj1 (reconnect_backoff demo_fp _ _ _ H) i s Hi).
Defined.
