(* ===== verification/Accept.v ===== *)
(** * Configuration and the accept loop

    [src/server/src/config.rs] (the sections and [validate]; TOML parsing is the
    toml crate's), [ConnLimits] of [src/server/src/lib.rs], and the connection
    admission of [src/server/src/main.rs]: the global semaphore and the per-IP
    slots.  Connections come and go in any order; every decision of the loop and
    every end of a connection is one step. *)

From S2P Require Import Prelude Text Status.

(** ** config.rs *)

Record DurabilitySection := MkDurability { dur_sync_on_close : bool; dur_sync_metadata : bool }.
Record ServerSection := MkServerSection {
  ss_listen : str; ss_export_root : str; ss_max_clients : Z; ss_max_conns_per_ip : Z; ss_log_level : str
}.
Record TlsSection := MkTls { tls_cert : option str; tls_key : option str }.
Record AuthSection := MkAuth { auth_authorized_keys : option str; auth_allow_any_client : bool }.
Record QuicSection := MkQuic {
  q_connection_receive_window : Z; q_stream_receive_window : Z; q_max_concurrent_bidi_streams : Z;
  q_keep_alive_interval_ms : Z; q_idle_timeout_ms : Z; q_migration : bool; q_zero_rtt : bool
}.
Record LimitsSection := MkLimits { lim_max_open_handles : Z; lim_rpc_timeout_ms : Z }.

Record Config := MkConfig {
  c_server : ServerSection; c_tls : TlsSection; c_quic : QuicSection; c_limits : LimitsSection;
  c_auth : AuthSection; c_durability : DurabilitySection
}.

Definition DurabilitySection_default : DurabilitySection := MkDurability false false.
Definition TlsSection_default : TlsSection := MkTls None None.
Definition AuthSection_default : AuthSection := MkAuth None false.
Definition QuicSection_default : QuicSection := MkQuic 67108864 16777216 256 15000 300000 true false.
Definition LimitsSection_default : LimitsSection := MkLimits 8192 30000.
Definition default_max_clients : Z := 128.
Definition default_log_level : str := lit "info".

(** A file with only the two mandatory keys. *)
Definition config_of (listen export_root : str) : Config :=
  MkConfig (MkServerSection listen export_root default_max_clients 0 default_log_level)
    TlsSection_default QuicSection_default LimitsSection_default AuthSection_default
    DurabilitySection_default.

(** [Config::validate] *)
Definition validate (c : Config) : anyhow unit :=
  let s := c_server c in
  if ss_max_clients s =? 0 then Err (lit "server.max_clients must be > 0")
  else if ss_max_clients s <? ss_max_conns_per_ip s then Err (lit "server.max_conns_per_ip cannot exceed")
  else if lim_max_open_handles (c_limits c) =? 0 then Err (lit "limits.max_open_handles must be > 0")
  else if 1000000 <? lim_max_open_handles (c_limits c) then Err (lit "limits.max_open_handles is unreasonably large")
  else if lim_rpc_timeout_ms (c_limits c) =? 0 then Err (lit "limits.rpc_timeout_ms must be > 0")
  else if q_idle_timeout_ms (c_quic c) <? q_keep_alive_interval_ms (c_quic c) then
    Err (lit "quic.idle_timeout_ms must be >= keep_alive_interval_ms")
  else if str_eqb (ss_export_root s) [] then Err (lit "server.export_root must not be empty")
  else if str_eqb (ss_listen s) [] then Err (lit "server.listen must not be empty")
  else if existsb (str_eqb (ss_log_level s)) [lit "error"; lit "warn"; lit "info"; lit "debug"; lit "trace"]
  then Ok tt
  else Err (lit "server.log_level is not one of: error warn info debug trace").

(** ** lib.rs: [ConnLimits] *)

Record ConnLimits := MkConnLimits {
  cl_max_open_handles : Z; cl_rpc_timeout_ms : Z; cl_sync_on_close : bool; cl_sync_metadata : bool
}.
Definition ConnLimits_default : ConnLimits := MkConnLimits 8192 30000 false false.
Definition from_config (c : Config) : ConnLimits :=
  MkConnLimits (lim_max_open_handles (c_limits c)) (lim_rpc_timeout_ms (c_limits c))
    (dur_sync_on_close (c_durability c)) (dur_sync_metadata (c_durability c)).

(** ** main.rs: admission *)

(** [HashMap<IpAddr, u32>]; an address is a number. *)
Abbreviation ip_counts := (gmap Z Z).

(** [IpSlot::try_acquire]: [Some] map when a slot was reserved. *)
Definition ip_try_acquire (m : ip_counts) (ip max : Z) : bool * ip_counts :=
  let count := default 0 (m !! ip) in
  let m := <[ip := count]> m in
  if negb (max =? 0) && (max <=? count) then
    (false, if count =? 0 then delete ip m else m)
  else (true, <[ip := wrap32 (count + 1)]> m).

(** [Drop for IpSlot] *)
Definition ip_drop (m : ip_counts) (ip : Z) : ip_counts :=
  match m !! ip with
  | None => m
  | Some c => let c := sat_sub c 1 in if c =? 0 then delete ip m else <[ip := c]> m
  end.

(** The loop's state: free permits, the counts, and the addresses of the
    connections being served, whose tasks hold the guards. *)
Record acceptor := MkAcceptor { a_permits : Z; a_counts : ip_counts; a_live : list Z }.

(** [max_clients.max(1)] permits. *)
Definition acceptor_new (c : Config) : acceptor :=
  MkAcceptor (Z.max (ss_max_clients (c_server c)) 1) ∅ [].

(** One iteration of the accept loop for a connection from [ip]: whether it is
    served, and the new state. *)
Definition accept_conn (max_per_ip : Z) (a : acceptor) (ip : Z) : bool * acceptor :=
  if a_permits a =? 0 then (false, a)
  else
    match ip_try_acquire (a_counts a) ip max_per_ip with
    | (false, m) => (false, MkAcceptor (a_permits a) m (a_live a))
    | (true, m) => (true, MkAcceptor (a_permits a - 1) m (ip :: a_live a))
    end.

(** The connection at position [i] ends: its guards drop, the slot first. *)
Definition end_conn (a : acceptor) (i : nat) : acceptor :=
  match a_live a !! i with
  | None => a
  | Some ip => MkAcceptor (a_permits a + 1) (ip_drop (a_counts a) ip) (delete i (a_live a))
  end.

(** What can happen, in any order. *)
Inductive accept_step (max_per_ip : Z) : acceptor -> acceptor -> Prop :=
| step_accept a ip : accept_step max_per_ip a (snd (accept_conn max_per_ip a ip))
| step_end a i : (i < length (a_live a))%nat -> accept_step max_per_ip a (end_conn a i).

(** ** The invariant *)

Definition count_ip (ip : Z) (l : list Z) : Z := zlen (filter (.= ip) l).

Record accept_inv (max_clients max_per_ip : Z) (a : acceptor) : Prop := {
  ai_permits : a_permits a + zlen (a_live a) = max_clients;
  ai_nonneg : 0 <= a_permits a;
  ai_counts : forall ip, default 0 (a_counts a !! ip) = count_ip ip (a_live a);
  ai_no_zero : forall ip, a_counts a !! ip <> Some 0;
  ai_limit : max_per_ip <> 0 -> forall ip, count_ip ip (a_live a) <= max_per_ip
}.

Lemma count_ip_cons ip ip' l : count_ip ip (ip' :: l) = count_ip ip l + (if decide (ip' = ip) then 1 else 0).
Proof.
  unfold count_ip. rewrite filter_cons. destruct (decide (ip' = ip)); simpl; lia.
Qed.

Lemma count_ip_le ip l : 0 <= count_ip ip l <= zlen l.
Proof. unfold count_ip. pose proof (length_filter (.= ip) l). lia. Qed.

Lemma count_ip_delete ip ip' i l :
  l !! i = Some ip' -> count_ip ip l = count_ip ip (delete i l) + (if decide (ip' = ip) then 1 else 0).
Proof.
  intros H. rewrite <- (take_drop_middle l i ip' H) at 1. rewrite delete_take_drop.
  unfold count_ip. rewrite !filter_app, !length_app, filter_cons.
  destruct (decide (ip' = ip)); simpl; lia.
Qed.

(** A refusal leaves the counts as they were. *)
Lemma ip_try_acquire_spec m ip max :
  m !! ip <> Some 0 ->
  ip_try_acquire m ip max =
    if negb (max =? 0) && (max <=? default 0 (m !! ip)) then (false, m)
    else (true, <[ip := wrap32 (default 0 (m !! ip) + 1)]> m).
Proof.
  intros Hz. unfold ip_try_acquire. rewrite insert_insert_eq. destruct (_ && _); [|done]. f_equal.
  destruct (m !! ip) as [c|] eqn:E; simpl.
  - destruct (c =? 0) eqn:Ec; [apply Z.eqb_eq in Ec; congruence|]. by apply insert_id.
  - by apply delete_insert_id.
Qed.

Lemma accept_inv_new c :
  0 <= ss_max_conns_per_ip (c_server c) ->
  accept_inv (Z.max (ss_max_clients (c_server c)) 1) (ss_max_conns_per_ip (c_server c)) (acceptor_new c).
Proof. intros H. constructor; simpl; [lia|lia|done|done|]. intros _ ip. done. Qed.

Lemma accept_conn_inv mc mip a ip :
  mc < 2 ^ 32 -> accept_inv mc mip a -> accept_inv mc mip (snd (accept_conn mip a ip)).
Proof.
  intros Hmc [H1 H2 H3 H4 H5]. unfold accept_conn. destruct (a_permits a =? 0) eqn:E; [by constructor|].
  apply Z.eqb_neq in E. pose proof (count_ip_le ip (a_live a)) as Hle.
  rewrite ip_try_acquire_spec by done. rewrite H3. destruct (_ && _) eqn:El; [by constructor|].
  rewrite wrap_small by (unfold in_width; lia). constructor; cbn [snd a_permits a_live a_counts].
  - cbn [length]. lia.
  - lia.
  - intros ip'. rewrite count_ip_cons. specialize (H3 ip'). destruct (decide (ip = ip')) as [<-|Hne].
    + rewrite lookup_insert_eq. simpl. lia.
    + rewrite lookup_insert_ne by done. lia.
  - intros ip'. destruct (decide (ip = ip')) as [<-|Hne].
    + rewrite lookup_insert_eq. injection 1. lia.
    + by rewrite lookup_insert_ne.
  - intros Hm ip'. rewrite count_ip_cons. specialize (H5 Hm ip').
    apply andb_false_iff in El as [El|El]; [by apply negb_false_iff, Z.eqb_eq in El|].
    apply Z.leb_gt in El. destruct (decide (ip = ip')) as [<-|]; lia.
Qed.

Lemma end_conn_inv mc mip a i : accept_inv mc mip a -> accept_inv mc mip (end_conn a i).
Proof.
  intros [H1 H2 H3 H4 H5]. unfold end_conn. destruct (a_live a !! i) as [ip|] eqn:E; [|by constructor].
  pose proof (count_ip_delete ip ip i (a_live a) E) as Hc. rewrite decide_True in Hc by done.
  pose proof (count_ip_le ip (delete i (a_live a))).
  assert (a_counts a !! ip = Some (count_ip ip (a_live a))) as Hl.
  { specialize (H3 ip). destruct (a_counts a !! ip); simpl in H3; [by f_equal|lia]. }
  unfold ip_drop. rewrite Hl. unfold sat_sub. rewrite Z.max_l by lia.
  replace (count_ip ip (a_live a) - 1) with (count_ip ip (delete i (a_live a))) by lia.
  constructor; cbn [a_permits a_live a_counts].
  - rewrite length_delete by eauto. apply lookup_lt_Some in E. lia.
  - lia.
  - intros ip'. pose proof (count_ip_delete ip' ip i (a_live a) E) as Hc'. specialize (H3 ip').
    destruct (_ =? 0) eqn:Ez; destruct (decide (ip = ip')) as [<-|Hne].
    + apply Z.eqb_eq in Ez. rewrite lookup_delete_eq. simpl. lia.
    + rewrite lookup_delete_ne by done. lia.
    + rewrite lookup_insert_eq. simpl. lia.
    + rewrite lookup_insert_ne by done. lia.
  - intros ip'. destruct (_ =? 0) eqn:Ez; destruct (decide (ip = ip')) as [<-|Hne].
    + by rewrite lookup_delete_eq.
    + by rewrite lookup_delete_ne.
    + apply Z.eqb_neq in Ez. rewrite lookup_insert_eq. congruence.
    + by rewrite lookup_insert_ne.
  - intros Hm ip'. pose proof (count_ip_delete ip' ip i (a_live a) E) as Hc'. specialize (H5 Hm ip').
    destruct (decide (ip = ip')); lia.
Qed.

Lemma accept_reachable_inv mc mip a a' :
  mc < 2 ^ 32 -> accept_inv mc mip a -> rtc (accept_step mip) a a' -> accept_inv mc mip a'.
Proof.
  intros Hmc Hinv. induction 1 as [a|a a1 a2 Hstep _ IH]; [done|]. apply IH.
  destruct Hstep; [by apply accept_conn_inv|by apply end_conn_inv].
Qed.

(** ** Theorems *)

(** C20: admission control.  From a validated configuration, whatever
    connections arrive and end in whatever order, the server never serves more
    than [max_clients] connections, nor (when the limit is on) more than
    [max_conns_per_ip] from one address; permits and per-address counts are
    exactly those of the connections alive, so nothing leaks, and a newcomer is
    refused only when one of the two limits is reached. *)
Theorem admission_control c a :
  validate c = Ok tt -> 0 <= ss_max_conns_per_ip (c_server c) -> 0 <= ss_max_clients (c_server c) < 2 ^ 32 ->
  let mip := ss_max_conns_per_ip (c_server c) in
  rtc (accept_step mip) (acceptor_new c) a ->
  zlen (a_live a) <= ss_max_clients (c_server c) /\
  a_permits a = ss_max_clients (c_server c) - zlen (a_live a) /\
  (forall ip, default 0 (a_counts a !! ip) = count_ip ip (a_live a)) /\
  (mip <> 0 -> forall ip, count_ip ip (a_live a) <= mip) /\
  (forall ip, fst (accept_conn mip a ip) = false <->
     zlen (a_live a) = ss_max_clients (c_server c) \/ (mip <> 0 /\ count_ip ip (a_live a) = mip)).
Proof.
  intros Hv Hip Hmc mip Hreach. assert (ss_max_clients (c_server c) <> 0) as Hnz.
  { unfold validate in Hv. destruct (_ =? 0) eqn:E; [done|]. by apply Z.eqb_neq in E. }
  pose proof (accept_inv_new c Hip) as Hinv. rewrite Z.max_l in Hinv by lia.
  apply accept_reachable_inv with (a' := a) in Hinv as [H1 H2 H3 H4 H5]; [|lia|done].
  split_and!; [lia|lia|done|done|]. intros ip. unfold accept_conn.
  destruct (a_permits a =? 0) eqn:E; [apply Z.eqb_eq in E|apply Z.eqb_neq in E].
  { simpl. split; [intros _; left; lia|done]. }
  rewrite ip_try_acquire_spec by done. rewrite H3. fold mip. pose proof (fun H => H5 H ip) as Hl.
  destruct (mip =? 0) eqn:Em; [apply Z.eqb_eq in Em|apply Z.eqb_neq in Em]; simpl.
  - split; [done|]. intros [?|[? _]]; [lia|done].
  - specialize (Hl Em). fold mip in Hl. destruct (mip <=? _) eqn:Ec; simpl.
    + apply Z.leb_le in Ec. split; [intros _; right; split; [done|lia]|done].
    + apply Z.leb_gt in Ec. split; [done|]. intros [?|[_ ?]]; lia.
Qed.

Lemma admission_control_witness :
  let c := config_of (lit "0.0.0.0:9001") (lit "/srv") in
  let c := MkConfig (MkServerSection (lit "l") (lit "/srv") 3 2 (lit "info")) (c_tls c) (c_quic c)
             (c_limits c) (c_auth c) (c_durability c) in
  exists a, rtc (accept_step 2) (acceptor_new c) a /\ a_live a = [7; 7] /\
    fst (accept_conn 2 a 7) = false /\ fst (accept_conn 2 a 8) = true.
Proof.
  intros c0 c.
  set (a1 := snd (accept_conn 2 (acceptor_new c) 7)). set (a2 := snd (accept_conn 2 a1 7)).
  assert (rtc (accept_step 2) (acceptor_new c) a2) as Hr.
  { eapply rtc_l; [apply (step_accept 2 _ 7)|]. eapply rtc_l; [apply (step_accept 2 _ 7)|]. apply rtc_refl. }
  exists a2. split; [exact Hr|]. split; [reflexivity|].
  destruct (admission_control c a2) as (_ & _ & _ & _ & H);
    [vm_compute; reflexivity|simpl; lia|simpl; lia|exact Hr|].
  split; [|vm_compute; reflexivity]. apply H. right. split; [done|]. vm_compute. reflexivity.
Defined.
