(* ===== verification/PathStr.v ===== *)
(** * Client paths

    The client keeps paths as [String]s and [PathBuf]s.  A path is its string;
    two [PathBuf]s are equal, as keys of a map too, when their [components] are.
    Names come from the kernel as byte strings; the model has those that are
    valid UTF-8, on which [to_string_lossy] is the identity. *)

From S2P Require Import Prelude Text Os.

#[export] Instance comp_eq_dec : EqDecision comp.
Proof. solve_decision. Defined.

#[export] Instance comp_countable : Countable comp.
Proof.
  refine (inj_countable'
    (fun c => match c with
              | RootDir => inl (inl ()) | CurDir => inl (inr ())
              | ParentDir => inr (inl ()) | Normal s => inr (inr s)
              end)
    (fun x => match x with
              | inl (inl _) => RootDir | inl (inr _) => CurDir
              | inr (inl _) => ParentDir | inr (inr s) => Normal s
              end) _).
  by intros [].
Defined.

(** A piece between slashes; [first] says that the path starts with it. *)
Definition piece_comp (first : bool) (p : str) : option comp :=
  if str_eqb p [] then None
  else if str_eqb p (lit ".") then if first then Some CurDir else None
  else if str_eqb p (lit "..") then Some ParentDir
  else Some (Normal p).

Definition is_absolute (s : str) : bool := starts_with (lit "/") s.

(** [Path::components] *)
Definition components (s : str) : list comp :=
  let rest := omap (piece_comp false) in
  if is_absolute s then RootDir :: rest (split is_slash s)
  else match split is_slash s with
       | [] => []
       | p :: ps => omap (piece_comp true) [p] ++ rest ps
       end.

(** Pieces joined by slashes: the inverse of [split is_slash]. *)
Fixpoint join_pieces (ps : list str) : str :=
  match ps with
  | [] => []
  | [p] => p
  | p :: ps => p ++ SLASH :: join_pieces ps
  end.

(** Trailing pieces that are no components, of the reversed list of pieces. *)
Fixpoint drop_blank (rev_ps : list str) : list str :=
  match rev_ps with
  | [] => []
  | p :: ps =>
      if str_eqb p [] || (str_eqb p (lit ".") && negb (bool_decide (ps = []))) then drop_blank ps
      else rev_ps
  end.

(** [Path::parent]: the string before the last component, without trailing
    separators, the root itself excepted. *)
Definition path_parent (s : str) : option str :=
  match drop_blank (reverse (split is_slash s)) with
  | [] => None
  | _ :: ps =>
      match drop_blank ps with
      | [] => Some (if is_absolute s then lit "/" else [])
      | ps => Some (join_pieces (reverse ps))
      end
  end.

(** [Path::join] *)
Definition path_join (p name : str) : str :=
  if is_absolute name then name
  else match last p with
       | Some c => if c =? SLASH then p ++ name else p ++ SLASH :: name
       | None => name
       end.

(** A name the kernel can ask for: one component. *)
Definition is_name (n : str) : Prop := components n = [Normal n].

Lemma split_no_slash n : Forall (fun c => is_slash c = false) n -> split is_slash n = [n].
Proof.
  induction n as [|c n IH]; [done|]. intros [Hc Hn]%Forall_cons. simpl. rewrite Hc, IH by done. done.
Qed.

Example parent_examples :
  path_parent (lit "/a/b") = Some (lit "/a") /\ path_parent (lit "/a") = Some (lit "/") /\
  path_parent (lit "/") = None /\ path_parent (lit "a") = Some [] /\ path_parent [] = None /\
  path_parent (lit "/a//b/.") = Some (lit "/a") /\ path_parent (lit "./a") = Some (lit ".") /\
  components (lit "/a/./b//") = [RootDir; Normal (lit "a"); Normal (lit "b")].
Proof. by vm_compute. Qed.
