(* ===== verification/Cache.v ===== *)
(** * The client's metadata cache

    [src/client/src/cache.rs].  The map itself is the [lru] crate's [LruCache],
    a parameter: [LruOps] is the part of its interface the cache uses, [LruLaws]
    its documented behaviour ([put] may evict other keys, nothing else changes a
    binding).  An [Instant] is a number of milliseconds; an operation that reads
    the clock takes the time it reads. *)

From S2P Require Import Prelude Text Frames Os PathStr.

Class LruOps (L V : Type) := {
  lru_new : Z -> L;
  lru_peek : L -> str -> option V;
  lru_get : L -> str -> option V * L;
  lru_pop : L -> str -> L;
  lru_put : L -> str -> V -> L;
  lru_clear : L -> L
}.

Class LruLaws (L V : Type) `{!LruOps L V} := {
  peek_new cap k : lru_peek (lru_new cap) k = None;
  get_peek l k : fst (lru_get l k) = lru_peek l k;
  peek_get l k k' : lru_peek (snd (lru_get l k)) k' = lru_peek l k';
  peek_pop_eq l k : lru_peek (lru_pop l k) k = None;
  peek_pop_ne l k k' : k <> k' -> lru_peek (lru_pop l k) k' = lru_peek l k';
  peek_put_eq l k v : lru_peek (lru_put l k v) k = Some v;
  peek_put_ne l k v k' :
    k <> k' -> lru_peek (lru_put l k v) k' = lru_peek l k' \/ lru_peek (lru_put l k v) k' = None;
  peek_clear l k : lru_peek (lru_clear l) k = None
}.

(** ** Data *)

Record CacheConfig := MkCacheConfig {
  max_entries : Z;
  pos_ttl : Z;
  neg_ttl : Z;
  dir_ttl : Z
}.

Definition CacheConfig_default : CacheConfig := MkCacheConfig 8192 2000 500 1000.

Inductive Entry : Type :=
| Found (stat : Stat) (expires : Z)
| NotFoundEntry (expires : Z).

Definition entry_expires (e : Entry) : Z :=
  match e with Found _ t => t | NotFoundEntry t => t end.

(** What a hit is answered with: [Ok(stat)] or [Err(())]. *)
Definition entry_answer (e : Entry) : result unit Stat :=
  match e with Found s _ => Ok s | NotFoundEntry _ => Err tt end.

(** ** Operations *)

Section Cache.
Context {L : Type} `{!LruOps L Entry}.

Record MetaCache := MkMetaCache { mc_lru : L; mc_cfg : CacheConfig }.

Definition with_lru (c : MetaCache) (l : L) : MetaCache := MkMetaCache l (mc_cfg c).

(** [MetaCache::new]: a capacity of 0 is replaced. *)
Definition cache_new (cfg : CacheConfig) : MetaCache :=
  MkMetaCache (lru_new (if max_entries cfg =? 0 then 8192 else max_entries cfg)) cfg.

(** [MetaCache::get] *)
Definition cache_get (c : MetaCache) (now : Z) (p : str) : option (result unit Stat) * MetaCache :=
  match lru_peek (mc_lru c) p with
  | None => (None, c)
  | Some e =>
      if entry_expires e <=? now then (None, with_lru c (lru_pop (mc_lru c) p))
      else let '(r, l) := lru_get (mc_lru c) p in (entry_answer <$> r, with_lru c l)
  end.

(** [MetaCache::insert] *)
Definition cache_insert (c : MetaCache) (now : Z) (p : str) (stat : Stat) (is_dir : bool) : MetaCache :=
  let ttl := if is_dir then dir_ttl (mc_cfg c) else pos_ttl (mc_cfg c) in
  with_lru c (lru_put (mc_lru c) p (Found stat (now + ttl))).

(** [MetaCache::insert_negative] *)
Definition cache_insert_negative (c : MetaCache) (now : Z) (p : str) : MetaCache :=
  with_lru c (lru_put (mc_lru c) p (NotFoundEntry (now + neg_ttl (mc_cfg c)))).

(** [MetaCache::invalidate] *)
Definition cache_invalidate (c : MetaCache) (p : str) : MetaCache :=
  let l := lru_pop (mc_lru c) p in
  with_lru c (match path_parent p with Some q => lru_pop l q | None => l end).

(** [MetaCache::clear] *)
Definition cache_clear (c : MetaCache) : MetaCache := with_lru c (lru_clear (mc_lru c)).

(** A use of the cache at a time. *)
Inductive cache_op : Type :=
| CGet (p : str)
| CInsert (p : str) (stat : Stat) (is_dir : bool)
| CNegative (p : str)
| CInvalidate (p : str)
| CClear.

Definition cache_step (c : MetaCache) (at_op : Z * cache_op) : MetaCache :=
  let '(now, op) := at_op in
  match op with
  | CGet p => snd (cache_get c now p)
  | CInsert p s d => cache_insert c now p s d
  | CNegative p => cache_insert_negative c now p
  | CInvalidate p => cache_invalidate c p
  | CClear => cache_clear c
  end.

Definition cache_run : MetaCache -> list (Z * cache_op) -> MetaCache := foldl cache_step.
End Cache.
Arguments MetaCache : clear implicits.

(** ** What the cache promises

    The last thing said about a path: [Some (Some e)] if it was cached as [e],
    [Some None] if it was invalidated. *)

Definition says (cfg : CacheConfig) (at_op : Z * cache_op) (p : str) : option (option Entry) :=
  let '(now, op) := at_op in
  match op with
  | CGet _ => None
  | CInsert q s d =>
      if str_eqb q p then Some (Some (Found s (now + if d then dir_ttl cfg else pos_ttl cfg))) else None
  | CNegative q => if str_eqb q p then Some (Some (NotFoundEntry (now + neg_ttl cfg))) else None
  | CInvalidate q =>
      if str_eqb q p || bool_decide (path_parent q = Some p) then Some None else None
  | CClear => Some None
  end.

Fixpoint last_word (cfg : CacheConfig) (newest_first : list (Z * cache_op)) (p : str) : option Entry :=
  match newest_first with
  | [] => None
  | op :: older => match says cfg op p with Some w => w | None => last_word cfg older p end
  end.

Section Laws.
Context {L : Type} `{!LruOps L Entry, !LruLaws L Entry}.

(** The cache knows no more than the last word on each path. *)
Definition truthful (cfg : CacheConfig) (c : MetaCache L) (newest_first : list (Z * cache_op)) : Prop :=
  mc_cfg c = cfg /\
  forall p e, lru_peek (mc_lru c) p = Some e -> last_word cfg newest_first p = Some e.

Lemma peek_pop_inv (l : L) k p (e : Entry) :
  lru_peek (lru_pop l k) p = Some e -> k <> p /\ lru_peek l p = Some e.
Proof.
  intros H. destruct (decide (k = p)) as [->|Hne]; [by rewrite peek_pop_eq in H|].
  by rewrite peek_pop_ne in H.
Qed.

Lemma peek_put_inv (l : L) k v p (e : Entry) :
  lru_peek (lru_put l k v) p = Some e -> (k = p /\ v = e) \/ (k <> p /\ lru_peek l p = Some e).
Proof.
  intros H. destruct (decide (k = p)) as [->|Hne].
  - rewrite peek_put_eq in H. naive_solver.
  - right. split; [done|]. destruct (peek_put_ne l k v p Hne) as [E|E]; congruence.
Qed.

Lemma str_eqb_refl p : str_eqb p p = true.
Proof. by apply str_eqb_eq. Qed.

Lemma str_eqb_ne p q : p <> q -> str_eqb p q = false.
Proof. intros H. apply not_true_is_false. by rewrite str_eqb_eq. Qed.

Lemma truthful_step cfg c hist now op :
  truthful cfg c hist -> truthful cfg (cache_step c (now, op)) ((now, op) :: hist).
Proof.
  intros [Hc H]. destruct op as [p|p s d|p|p|]; cbn [cache_step].
  - unfold cache_get. destruct (lru_peek (mc_lru c) p) as [e|] eqn:Ep; [|by split].
    destruct (_ <=? now); simpl.
    + split; [done|]. simpl. intros q e' [_ Hq]%peek_pop_inv. auto.
    + pose proof (peek_get (mc_lru c) p) as Hg. destruct (lru_get _ p) as [r l]. simpl in *.
      split; [done|]. simpl. intros q e'. rewrite Hg. auto.
  - split; [done|]. simpl. rewrite Hc. intros q e [[-> <-]|[Hne Hq]]%peek_put_inv.
    + by rewrite str_eqb_refl.
    + rewrite str_eqb_ne by done. auto.
  - split; [done|]. simpl. rewrite Hc. intros q e [[-> <-]|[Hne Hq]]%peek_put_inv.
    + by rewrite str_eqb_refl.
    + rewrite str_eqb_ne by done. auto.
  - split; [done|]. simpl. intros q e Hq.
    destruct (path_parent p) as [r|] eqn:Er.
    + apply peek_pop_inv in Hq as [Hrq Hq]. apply peek_pop_inv in Hq as [Hpq Hq].
      rewrite str_eqb_ne, bool_decide_false by (done || congruence). simpl. auto.
    + apply peek_pop_inv in Hq as [Hpq Hq].
      rewrite str_eqb_ne, bool_decide_false by done. simpl. auto.
  - split; [done|]. simpl. intros q e. by rewrite peek_clear.
Qed.

Lemma truthful_run cfg c hist ops :
  truthful cfg c hist -> truthful cfg (cache_run c ops) (reverse ops ++ hist).
Proof.
  revert c hist. induction ops as [|[now op] ops IH]; intros c hist H; [done|].
  rewrite reverse_cons, <- app_assoc. by apply IH, truthful_step.
Qed.

Lemma truthful_new cfg : truthful cfg (cache_new cfg) [].
Proof. split; [done|]. intros p e. simpl. by rewrite peek_new. Qed.

Lemma get_after_put (c : MetaCache L) now p e :
  now < entry_expires e ->
  fst (cache_get (with_lru c (lru_put (mc_lru c) p e)) now p) = Some (entry_answer e).
Proof.
  intros He. unfold cache_get. simpl. rewrite peek_put_eq.
  destruct (Z.leb_spec (entry_expires e) now); [lia|].
  pose proof (get_peek (lru_put (mc_lru c) p e) p) as Hg. rewrite peek_put_eq in Hg.
  destruct (lru_get _ p) as [o l]. simpl in *. by rewrite Hg.
Qed.
End Laws.

(** ** An executable LRU map: the bindings, most recently used first. *)

Record alru (V : Type) := ALru { al_cap : Z; al_items : list (str * V) }.
Arguments ALru {V}.
Arguments al_cap {V}.
Arguments al_items {V}.

Fixpoint al_find {V} (k : str) (l : list (str * V)) : option V :=
  match l with
  | [] => None
  | (k', v) :: l => if str_eqb k' k then Some v else al_find k l
  end.

Definition al_remove {V} (k : str) (l : list (str * V)) : list (str * V) :=
  List.filter (fun kv => negb (str_eqb (fst kv) k)) l.

#[export] Instance alru_ops V : LruOps (alru V) V := {|
  lru_new cap := ALru cap [];
  lru_peek l k := al_find k (al_items l);
  lru_get l k :=
    match al_find k (al_items l) with
    | Some v => (Some v, ALru (al_cap l) ((k, v) :: al_remove k (al_items l)))
    | None => (None, l)
    end;
  lru_pop l k := ALru (al_cap l) (al_remove k (al_items l));
  lru_put l k v := ALru (al_cap l) ((k, v) :: take (Z.to_nat (al_cap l) - 1) (al_remove k (al_items l)));
  lru_clear l := ALru (al_cap l) []
|}.

Lemma al_find_remove_eq {V} k (l : list (str * V)) : al_find k (al_remove k l) = None.
Proof.
  induction l as [|[k' v] l IH]; simpl; [done|].
  destruct (str_eqb k' k) eqn:E; simpl; [done|]. by rewrite E.
Qed.

Lemma al_find_remove_ne {V} k k' (l : list (str * V)) : k <> k' -> al_find k' (al_remove k l) = al_find k' l.
Proof.
  intros Hne. induction l as [|[q v] l IH]; simpl; [done|].
  destruct (str_eqb q k) eqn:E; simpl; [|by rewrite IH].
  apply str_eqb_eq in E as ->. by rewrite IH, str_eqb_ne.
Qed.

Lemma al_find_take {V} k n (l : list (str * V)) :
  al_find k (take n l) = al_find k l \/ al_find k (take n l) = None.
Proof.
  revert n. induction l as [|[q v] l IH]; intros [|n]; simpl; [by left|by left|by right|].
  destruct (str_eqb q k); [by left|apply IH].
Qed.

#[export] Instance alru_laws V : LruLaws (alru V) V.
Proof.
  split; simpl; try done.
  - intros l k. by destruct (al_find k (al_items l)).
  - intros l k k'. destruct (al_find k (al_items l)) as [v|] eqn:E; simpl; [|done].
    destruct (str_eqb k k') eqn:Ek; [apply str_eqb_eq in Ek as ->; congruence|].
    apply al_find_remove_ne. intros ->. by rewrite str_eqb_refl in Ek.
  - intros l k. apply al_find_remove_eq.
  - intros l k k'. apply al_find_remove_ne.
  - intros l k v. by rewrite str_eqb_refl.
  - intros l k v k' Hne. rewrite str_eqb_ne by done.
    destruct (al_find_take k' (Z.to_nat (al_cap l) - 1) (al_remove k (al_items l))) as [->| ->]; [|by right].
    left. by apply al_find_remove_ne.
Qed.

(** C32: the cache never serves stale metadata.  After any history, a hit answers
    with the last thing cached for the path, with no invalidation of the path or
    of a child of it and no [clear] since, and before its time to live is over;
    and a path just cached is a hit until then. *)
Theorem cache_hits_are_fresh {L : Type} `{!LruOps L Entry, !LruLaws L Entry} cfg ops now p :
  let c := cache_run (L := L) (cache_new cfg) ops in
  (forall r, fst (cache_get c now p) = Some r ->
     exists e, last_word cfg (reverse ops) p = Some e /\ now < entry_expires e /\ r = entry_answer e) /\
  (forall (t : Z) s (d : bool), now < t + (if d then dir_ttl cfg else pos_ttl cfg) ->
     fst (cache_get (cache_step c (t, CInsert p s d)) now p) = Some (Ok s)) /\
  (forall t, now < t + neg_ttl cfg ->
     fst (cache_get (cache_step c (t, CNegative p)) now p) = Some (Err tt)).
Proof.
  intros c. destruct (truthful_run cfg (cache_new cfg) [] ops (truthful_new cfg)) as [Hc H].
  fold c in Hc, H. rewrite app_nil_r in H. split_and!.
  - intros r. unfold cache_get. destruct (lru_peek (mc_lru c) p) as [e|] eqn:Ep; [|done].
    destruct (Z.leb_spec (entry_expires e) now); [done|].
    pose proof (get_peek (mc_lru c) p) as Hg. destruct (lru_get _ p) as [o l]. simpl in *.
    rewrite Hg, Ep. intros [= <-]. exists e. auto.
  - intros t s d Ht. cbn [cache_step]. unfold cache_insert. rewrite get_after_put; [done|]. by rewrite Hc.
  - intros t Ht. cbn [cache_step]. unfold cache_insert_negative. rewrite get_after_put; [done|]. by rewrite Hc.
Qed.

Definition demo_stat : Stat := MkStat 7 0x81a4 1 0 0 3 0 0 0 4096 1.

Lemma cache_hits_are_fresh_witness :
  let ops := [(0, CInsert (lit "/d/f") demo_stat false); (1, CInvalidate (lit "/d"));
              (2, CNegative (lit "/g"))] in
  let c := cache_run (L := alru Entry) (cache_new CacheConfig_default) ops in
  fst (cache_get c 5 (lit "/d/f")) = Some (Ok demo_stat) /\
  exists e, last_word CacheConfig_default (reverse ops) (lit "/d/f") = Some e /\ 5 < entry_expires e /\
    Ok demo_stat = entry_answer e.
Proof.
  intros ops c. split; [by vm_compute|].
  apply (cache_hits_are_fresh (L := alru Entry) CacheConfig_default ops 5 (lit "/d/f")). by vm_compute.
Defined.
