(* ===== verification/Inodes.v ===== *)
(** * The client's inode table

    [InodeTable] and [normalize_root] of [src/client/src/fuse_ops.rs]: the
    numbers under which the kernel knows remote paths.  The maps' keys are
    [PathBuf]s, equal when their components are. *)

From S2P Require Import Prelude Text Os PathStr.

Definition ROOT_INO : Z := 1.

Record InodeTable := MkInodeTable {
  it_ino_to_path : gmap Z str;
  it_path_to_ino : gmap (list comp) Z;
  it_next : Z
}.

(** [fn normalize_root] *)
Definition normalize_root (root : str) : str :=
  let r := trim root in
  let r := if bool_decide (r = []) then lit "/" else r in
  let with_lead := if starts_with (lit "/") r then r else lit "/" ++ r in
  let trimmed := trim_end_matches is_slash with_lead in
  if bool_decide (trimmed = []) then lit "/" else trimmed.

(** [InodeTable::new] *)
Definition inodes_new (root : str) : InodeTable :=
  let root := normalize_root root in
  MkInodeTable {[ROOT_INO := root]} {[components root := ROOT_INO]} (ROOT_INO + 1).

(** [InodeTable::get_or_alloc] *)
Definition get_or_alloc (t : InodeTable) (p : str) : Z * InodeTable :=
  match it_path_to_ino t !! components p with
  | Some ino => (ino, t)
  | None =>
      let ino := it_next t in
      (ino, MkInodeTable (<[ino := p]> (it_ino_to_path t)) (<[components p := ino]> (it_path_to_ino t))
                         (wrap64 (ino + 1)))
  end.

(** [InodeTable::path_of] *)
Definition path_of (t : InodeTable) (ino : Z) : option str := it_ino_to_path t !! ino.

(** [InodeTable::remove_path] *)
Definition remove_path (t : InodeTable) (p : str) : InodeTable :=
  match it_path_to_ino t !! components p with
  | Some ino => MkInodeTable (delete ino (it_ino_to_path t)) (delete (components p) (it_path_to_ino t)) (it_next t)
  | None => t
  end.

(** [InodeTable::rename_ino] *)
Definition rename_ino (t : InodeTable) (old new : str) : InodeTable :=
  match it_path_to_ino t !! components old with
  | Some ino =>
      MkInodeTable (<[ino := new]> (it_ino_to_path t))
                   (<[components new := ino]> (delete (components old) (it_path_to_ino t))) (it_next t)
  | None => t
  end.

(** A use of the table. *)
Inductive inode_op : Type :=
| IAlloc (p : str)
| IRemove (p : str)
| IRename (old new : str).

Definition inode_step (t : InodeTable) (op : inode_op) : InodeTable :=
  match op with
  | IAlloc p => snd (get_or_alloc t p)
  | IRemove p => remove_path t p
  | IRename p q => rename_ino t p q
  end.

Definition inode_run : InodeTable -> list inode_op -> InodeTable := foldl inode_step.

(** ** The invariant *)

Record inode_inv (t : InodeTable) : Prop := {
  inv_known k i : it_path_to_ino t !! k = Some i ->
    exists p, it_ino_to_path t !! i = Some p /\ components p = k;
  inv_below i p : it_ino_to_path t !! i = Some p -> i < it_next t;
  inv_next : ROOT_INO < it_next t
}.

Lemma inode_inv_new root : inode_inv (inodes_new root).
Proof.
  split; simpl.
  - intros k i [<- <-]%lookup_singleton_Some. eexists. by rewrite lookup_singleton_eq.
  - intros i p [<- _]%lookup_singleton_Some. unfold ROOT_INO. lia.
  - unfold ROOT_INO. lia.
Qed.

(** Different paths have different numbers. *)
Lemma inode_inj t k k' i :
  inode_inv t -> it_path_to_ino t !! k = Some i -> it_path_to_ino t !! k' = Some i -> k = k'.
Proof.
  intros H Hk Hk'. destruct (inv_known _ H _ _ Hk) as (p & Hp & <-).
  destruct (inv_known _ H _ _ Hk') as (p' & Hp' & <-). congruence.
Qed.

Lemma inode_inv_alloc t p :
  inode_inv t -> it_next t < 2 ^ 64 - 1 -> inode_inv (snd (get_or_alloc t p)).
Proof.
  intros H Hn. unfold get_or_alloc. destruct (it_path_to_ino t !! components p) eqn:E; [done|].
  pose proof (inv_next _ H) as H0. unfold ROOT_INO in H0.
  assert (wrap64 (it_next t + 1) = it_next t + 1) as Hw by (apply wrap_small; split; lia).
  split; simpl; rewrite ?Hw.
  - intros k i [[<- <-]|[Hne Hk]]%lookup_insert_Some; [exists p; by rewrite lookup_insert_eq|].
    destruct (inv_known _ H _ _ Hk) as (q & Hq & <-). exists q. split; [|done].
    rewrite lookup_insert_ne; [done|]. apply (inv_below _ H) in Hq. lia.
  - intros i q [[<- <-]|[Hne Hq]]%lookup_insert_Some; [lia|]. apply (inv_below _ H) in Hq. lia.
  - unfold ROOT_INO. lia.
Qed.

Lemma inode_inv_remove t p : inode_inv t -> inode_inv (remove_path t p).
Proof.
  intros H. unfold remove_path. destruct (it_path_to_ino t !! components p) as [ino|] eqn:E; [|done].
  split; simpl.
  - intros k i [Hne Hk]%lookup_delete_Some. destruct (inv_known _ H _ _ Hk) as (q & Hq & <-).
    exists q. split; [|done]. rewrite lookup_delete_ne; [done|].
    intros ->. apply Hne. by apply (inode_inj t _ _ i).
  - intros i q [Hne Hq]%lookup_delete_Some. by apply (inv_below _ H) in Hq.
  - apply (inv_next _ H).
Qed.

Lemma inode_inv_rename t p q : inode_inv t -> inode_inv (rename_ino t p q).
Proof.
  intros H. unfold rename_ino. destruct (it_path_to_ino t !! components p) as [ino|] eqn:E; [|done].
  split; simpl.
  - intros k i [[<- <-]|[Hne [Hold Hk]%lookup_delete_Some]]%lookup_insert_Some.
    + exists q. by rewrite lookup_insert_eq.
    + destruct (inv_known _ H _ _ Hk) as (r & Hr & <-). exists r. split; [|done].
      rewrite lookup_insert_ne; [done|]. intros ->. apply Hold. by apply (inode_inj t _ _ i).
  - destruct (inv_known _ H _ _ E) as (r & Hr & _).
    intros i s [[<- <-]|[Hne Hs]]%lookup_insert_Some; by eapply inv_below.
  - apply (inv_next _ H).
Qed.

Lemma inode_step_next t op :
  inode_inv t -> it_next t < 2 ^ 64 - 1 -> it_next (inode_step t op) <= it_next t + 1.
Proof.
  intros H Hn. pose proof (inv_next _ H) as H0. unfold ROOT_INO in H0.
  destruct op as [p|p|p q]; simpl; unfold get_or_alloc, remove_path, rename_ino;
    destruct (_ !! _); simpl; try lia.
  rewrite wrap_small; [lia|]. split; lia.
Qed.

Lemma inode_inv_run t ops :
  inode_inv t -> it_next t + zlen ops < 2 ^ 64 -> inode_inv (inode_run t ops) /\
  it_next (inode_run t ops) <= it_next t + zlen ops.
Proof.
  revert t. induction ops as [|op ops IH]; intros t H Hn; simpl; [split; [done|lia]|].
  simpl in Hn. pose proof (inode_step_next t op H ltac:(lia)).
  assert (inode_inv (inode_step t op)) as H'.
  { destruct op; [apply inode_inv_alloc; [done|lia]|by apply inode_inv_remove|by apply inode_inv_rename]. }
  destruct (IH _ H' ltac:(lia)) as [??]. split; [done|lia].
Qed.

(** The root keeps its number while no operation names it. *)
Definition spares_root (root : str) (op : inode_op) : Prop :=
  match op with
  | IAlloc _ => True
  | IRemove p => components p <> components (normalize_root root)
  | IRename p q => components p <> components (normalize_root root)
  end.

Lemma root_kept root t op :
  inode_inv t -> spares_root root op ->
  path_of t ROOT_INO = Some (normalize_root root) -> path_of (inode_step t op) ROOT_INO = Some (normalize_root root).
Proof.
  intros H Hs Hr. unfold path_of in *. pose proof (inv_next _ H).
  assert (forall p, components p <> components (normalize_root root) ->
          it_path_to_ino t !! components p <> Some ROOT_INO) as Hne.
  { intros p Hp E. destruct (inv_known _ H _ _ E) as (q & Hq & Eq). congruence. }
  destruct op as [p|p|p q]; simpl in *; unfold get_or_alloc, remove_path, rename_ino;
    destruct (_ !! components p) as [i|] eqn:E; simpl; try done.
  - rewrite lookup_insert_ne; [done|lia].
  - rewrite lookup_delete_ne; [done|]. intros ->. by eapply Hne.
  - rewrite lookup_insert_ne; [done|]. intros ->. by eapply Hne.
Qed.

Lemma root_kept_run root t ops :
  inode_inv t -> it_next t + zlen ops < 2 ^ 64 -> Forall (spares_root root) ops ->
  path_of t ROOT_INO = Some (normalize_root root) -> path_of (inode_run t ops) ROOT_INO = Some (normalize_root root).
Proof.
  revert t. induction ops as [|op ops IH]; intros t H Hn HF Hr; [done|].
  apply Forall_cons in HF as [Hop HF]. simpl in Hn.
  destruct (inode_inv_run t [op] H ltac:(simpl; lia)) as [H' Hn']. simpl in Hn'.
  apply IH; [done|lia|done|by apply root_kept].
Qed.

Lemma new_unused t p :
  inode_inv t -> it_path_to_ino t !! components p = None -> path_of t (fst (get_or_alloc t p)) = None.
Proof.
  intros H Ep. unfold get_or_alloc. rewrite Ep. simpl.
  destruct (path_of t (it_next t)) eqn:Eq; [|done]. apply (inv_below _ H) in Eq. lia.
Qed.

(** An operation that neither removes nor renames the path, nor renames another over it. *)
Definition leaves (p : str) (op : inode_op) : Prop :=
  match op with
  | IAlloc _ => True
  | IRemove q => components q <> components p
  | IRename q r => components q <> components p /\ components r <> components p
  end.

Lemma known_alloc t p i : it_path_to_ino t !! components p = Some i -> get_or_alloc t p = (i, t).
Proof. intros H. unfold get_or_alloc. by rewrite H. Qed.

Lemma alloc_known t p : it_path_to_ino (snd (get_or_alloc t p)) !! components p = Some (fst (get_or_alloc t p)).
Proof. unfold get_or_alloc. destruct (it_path_to_ino t !! components p) eqn:E; simpl; [done|by rewrite lookup_insert_eq]. Qed.

Lemma leaves_known p op t i :
  leaves p op -> it_path_to_ino t !! components p = Some i -> it_path_to_ino (inode_step t op) !! components p = Some i.
Proof.
  intros Hl Hp. destruct op as [q|q|q r]; simpl in *; unfold get_or_alloc, remove_path, rename_ino;
    destruct (_ !! components q) as [j|] eqn:E; simpl; try done.
  - rewrite lookup_insert_ne; [done|congruence].
  - by rewrite lookup_delete_ne.
  - destruct Hl. by rewrite lookup_insert_ne, lookup_delete_ne.
Qed.

Lemma leaves_known_run p ops t i :
  Forall (leaves p) ops -> it_path_to_ino t !! components p = Some i ->
  it_path_to_ino (inode_run t ops) !! components p = Some i.
Proof.
  revert t. induction ops as [|op ops IH]; intros t HF Hp; [done|]. apply Forall_cons in HF as [Hop HF].
  simpl. by apply IH, leaves_known.
Qed.

(** Numbers are handed out upwards. *)
Lemma inode_next_run t ops :
  inode_inv t -> it_next t + zlen ops < 2 ^ 64 -> it_next t <= it_next (inode_run t ops).
Proof.
  revert t. induction ops as [|op ops IH]; intros t H Hn; [simpl; lia|]. simpl in Hn |- *.
  destruct (inode_inv_run t [op] H ltac:(simpl; lia)) as [H' Hn']. simpl in H', Hn'.
  etrans; [|apply IH; [done|lia]]. pose proof (inv_next _ H) as H0. unfold ROOT_INO in H0.
  destruct op as [p|p|p q]; simpl; unfold get_or_alloc, remove_path, rename_ino; destruct (_ !! _); simpl; try lia.
  rewrite wrap_small; [lia|split; lia].
Qed.

(** C33: inode numbers mean what they meant.  After any uses [ops] of the table, asking
    for a path's number answers one that resolves to that path; it was in use for
    nothing if the path was not known; and two paths have the same number only when
    they are the same path.  After any further uses [more], fewer than 2^63 in all: the
    path still has that number, and the number resolves to it, unless one of them
    removed or renamed the path or renamed another over it; the number is never handed
    out anew to another path; when the path is renamed its new name has the number it
    had.  The root's number resolves to the mount's root as long as no use removes or
    renames the root itself. *)
Theorem inode_table_consistent root ops p more :
  zlen ops + zlen more + 1 < 2 ^ 63 ->
  let t := inode_run (inodes_new root) ops in
  let '(i, t') := get_or_alloc t p in
  let t2 := inode_run t' more in
  (exists q, path_of t' i = Some q /\ components q = components p) /\
  (it_path_to_ino t !! components p = None -> path_of t i = None) /\
  (forall q, fst (get_or_alloc t' q) = i <-> components q = components p) /\
  (Forall (leaves p) more -> fst (get_or_alloc t2 p) = i /\ exists q, path_of t2 i = Some q /\ components q = components p) /\
  (forall q, it_path_to_ino t2 !! components q = None -> fst (get_or_alloc t2 q) <> i) /\
  (forall q, Forall (leaves p) more -> fst (get_or_alloc (rename_ino t2 p q) q) = i) /\
  (Forall (spares_root root) (ops ++ IAlloc p :: more) -> path_of t2 ROOT_INO = Some (normalize_root root)).
Proof.
  intros Hn t.
  destruct (inode_inv_run (inodes_new root) ops (inode_inv_new root)) as [H Hb]; [simpl; unfold ROOT_INO; lia|].
  fold t in H, Hb. simpl in Hb. unfold ROOT_INO in Hb.
  pose proof (inode_inv_alloc t p H ltac:(lia)) as H'. pose proof (inode_step_next t (IAlloc p) H ltac:(lia)) as Hs. simpl in Hs.
  pose proof (alloc_known t p) as Hp. pose proof (new_unused t p H) as Hnew.
  assert (snd (get_or_alloc t p) = inode_run (inodes_new root) (ops ++ [IAlloc p])) as Ht'.
  { unfold inode_run. by rewrite foldl_app. }
  destruct (get_or_alloc t p) as [i t'] eqn:E. simpl in *.
  destruct (inode_inv_run t' more H' ltac:(lia)) as [H2 _].
  pose proof (inode_next_run t' more H' ltac:(lia)) as Hup.
  destruct (inv_known _ H' _ _ Hp) as (r & Hr & Hrp). pose proof (inv_below _ H' _ _ Hr) as Hi. split_and!.
  - eauto.
  - done.
  - intros q. unfold get_or_alloc. split; [|by intros ->; rewrite Hp].
    destruct (it_path_to_ino t' !! components q) as [j|] eqn:Eq; simpl; [|lia].
    intros ->. by apply (inode_inj t' _ _ i).
  - intros HF. pose proof (leaves_known_run p more t' i HF Hp) as Hk. rewrite (known_alloc _ _ _ Hk). split; [done|].
    by apply (inv_known _ H2).
  - intros q Hq. unfold get_or_alloc. rewrite Hq. simpl. lia.
  - intros q HF. pose proof (leaves_known_run p more t' i HF Hp) as Hk. unfold rename_ino. rewrite Hk.
    rewrite (known_alloc _ q i); [done|]. simpl. by rewrite lookup_insert_eq.
  - intros HF. rewrite Ht'. unfold inode_run. rewrite <- foldl_app, <- app_assoc.
    apply root_kept_run; [apply inode_inv_new| |done|by unfold path_of; simpl; rewrite lookup_singleton_eq].
    simpl. rewrite length_app. simpl. unfold ROOT_INO. lia.
Qed.

Lemma inode_table_consistent_witness :
  let ops := [IAlloc (lit "/srv/a"); IRename (lit "/srv/a") (lit "/srv/b")] in
  let more := [IRemove (lit "/srv/c")] in
  let t := snd (get_or_alloc (inode_run (inodes_new (lit " srv/ ")) ops) (lit "/srv/b")) in
  fst (get_or_alloc (inode_run t more) (lit "/srv/b")) = 2 /\
  path_of (inode_run t more) ROOT_INO = Some (lit "/srv").
Proof.
  intros ops more t. assert (zlen ops + zlen more + 1 < 2 ^ 63) as Hlt by reflexivity.
  destruct (inode_table_consistent (lit " srv/ ") ops (lit "/srv/b") more Hlt) as (_ & _ & _ & H1 & _ & _ & H2). split.
  - apply H1. constructor; [by vm_compute|constructor].
  - apply H2. repeat constructor; by vm_compute.
Defined.

(** What a rename does not update.  After a directory is renamed, the number
    of a file in it still resolves to the path under the old name; and after a
    file is renamed over another, the number of the file that is gone resolves
    to the file that replaced it. *)
Theorem rename_leaves_stale_inodes :
  (let t := inode_run (inodes_new (lit "/")) [IAlloc (lit "/d"); IAlloc (lit "/d/f")] in
   path_of (rename_ino t (lit "/d") (lit "/e")) (fst (get_or_alloc t (lit "/d/f"))) = Some (lit "/d/f")) /\
  (let t := inode_run (inodes_new (lit "/")) [IAlloc (lit "/a"); IAlloc (lit "/b")] in
   let t' := rename_ino t (lit "/a") (lit "/b") in
   path_of t' (fst (get_or_alloc t (lit "/a"))) = Some (lit "/b") /\
   path_of t' (fst (get_or_alloc t (lit "/b"))) = Some (lit "/b") /\
   fst (get_or_alloc t (lit "/a")) <> fst (get_or_alloc t (lit "/b"))).
Proof. by vm_compute. Qed.
