(* ===== verification/FuseOps.v ===== *)
(** * The FUSE callbacks

    [src/client/src/fuse_ops.rs]: the kernel's requests, answered from the
    metadata cache, the write buffer and the server.  A callback is a program
    over the things it shares with the background flush task ([src/client/src/
    mount.rs]): each event is one critical section on a mutex, one atomic access
    or one RPC, so another task may run between any two of them.  Arguments a
    callback ignores are left out; log messages too, and the handle numbers in
    error texts (an errno is recovered from other words of the text). *)

From S2P Require Import Prelude Prog Text Status Frames Os PathStr Cache Inodes WriteBuf.

(** [struct OpenFile] *)
Record OpenFile := MkOpenFile {
  of_path : str;
  of_flags : Z;
  of_server_handle : Z;
  of_opened_gen : Z;
  of_is_append : bool
}.

(** The RPCs of [ConnManager], with what they return on success. *)
Inductive rpcE : Type -> Type :=
| RGetattr (p : str) : rpcE Stat
| RSetattr (p : str) (valid mode uid gid size atime mtime : Z) : rpcE Stat
| RReaddir (p : str) : rpcE (list DirEntry)
| RMkdir (p : str) (mode : Z) : rpcE Stat
| RRmdir (p : str) : rpcE unit
| RUnlink (p : str) : rpcE unit
| RRename (old new : str) (flags : Z) : rpcE unit
| RSymlink (target link : str) : rpcE Stat
| RReadlink (p : str) : rpcE str
| RLink (p link : str) : rpcE Stat
| RStatfs (p : str) : rpcE StatFs
| ROpen (p : str) (flags : Z) : rpcE (Z * Stat)
| RCreate (p : str) (flags mode : Z) : rpcE (Z * Stat)
| RRelease (handle : Z) : rpcE unit
| RRead (handle offset size : Z) : rpcE bytes
| RWrite (handle offset : Z) (data : bytes) : rpcE Z
| RFsync (handle : Z) (datasync : bool) : rpcE unit.

(** [fuser::FileType] and [FileAttr]; a [SystemTime] is its distance to the
    epoch in nanoseconds. *)
Inductive FileType : Type :=
| NamedPipe | CharDevice | BlockDevice | Directory | RegularFile | Symlink | Socket.

Record FileAttr := MkFileAttr {
  fa_ino : Z; fa_size : Z; fa_blocks : Z; fa_atime : Z; fa_mtime : Z; fa_ctime : Z; fa_crtime : Z;
  fa_kind : FileType; fa_perm : Z; fa_nlink : Z; fa_uid : Z; fa_gid : Z; fa_rdev : Z;
  fa_blksize : Z; fa_flags : Z
}.

Inductive fsE : Type -> Type :=
(** [write_buf.lock()] *)
| WbBegin (fh : Z) : fsE (option FlushBatch)
| WbAck (fh sent_count : Z) : fsE unit
| WbFail (fh : Z) : fsE unit
| WbDrop (fh : Z) : fsE Z
| WbPush (fh offset : Z) (data : bytes) : fsE PushDecision
| WbHasBuffered (fh : Z) : fsE bool
| WbTotalBytes : fsE Z
| WbHandles : fsE (list Z)
| WbOlderThan (deadline : Z) : fsE (list Z)
| WbExpired : fsE (list Z)
(** [write_errors.lock()] *)
| ErrInsert (fh : Z) : fsE unit
| ErrRemove (fh : Z) : fsE bool
(** [open_files.lock()]; [FilesReopened] is the update through [get_mut] *)
| FilesGet (fh : Z) : fsE (option OpenFile)
| FilesReopened (fh server_handle gen : Z) : fsE unit
| FilesInsert (fh : Z) (f : OpenFile) : fsE unit
| FilesRemove (fh : Z) : fsE (option OpenFile)
(** atomics *)
| NextClientFh : fsE Z
| ReconnectGen : fsE Z
| LastGenLoad : fsE Z
| LastGenStore (gen : Z) : fsE unit
(** [cache.lock()] *)
| CacheGet (p : str) : fsE (option (result unit Stat))
| CacheInsert (p : str) (stat : Stat) (is_dir : bool) : fsE unit
| CacheNegative (p : str) : fsE unit
| CacheInvalidate (p : str) : fsE unit
| CacheClear : fsE unit
(** [inodes.lock()] *)
| InodePathOf (ino : Z) : fsE (option str)
| InodeAlloc (p : str) : fsE Z
| InodeRemove (p : str) : fsE unit
| InodeRename (old new : str) : fsE unit
(** the connection, clocks, and the kernel's directory buffer (true: full) *)
| Rpc {A : Type} (r : rpcE A) : fsE (anyhow A)
| SleepMs (ms : Z) : fsE unit
| SystemNow : fsE Z
| ReplyAdd (ino offset : Z) (kind : FileType) (name : str) : fsE bool.

Abbreviation fs A := (prog fsE A).
Abbreviation fc e := (@call fsE _ e) (only parsing).

(** What the kernel is answered. *)
Inductive reply : Type :=
| ReplyError (errno : Z)
| ReplyOk
| ReplyEntry (ttl_ms : Z) (attr : FileAttr)
| ReplyAttr (ttl_ms : Z) (attr : FileAttr)
| ReplyData (data : bytes)
| ReplyTarget (target : str)
| ReplyOpened (fh : Z)
| ReplyWritten (n : Z)
| ReplyCreated (ttl_ms : Z) (attr : FileAttr) (fh : Z)
| ReplyStatfs (s : StatFs).

(** ** Conversions *)

Definition mode_to_file_type (mode : Z) : FileType :=
  let t := Z.land (Z.shiftr mode 12) 0xF in
  if t =? 0x4 then Directory else if t =? 0x8 then RegularFile else if t =? 0xA then Symlink
  else if t =? 0x1 then NamedPipe else if t =? 0x2 then CharDevice else if t =? 0x6 then BlockDevice
  else if t =? 0xC then Socket else RegularFile.

(** The closure [ns_to_st]. *)
Definition ns_to_st (ns : Z) : Z := if 0 <=? ns then ns else - wrap64 (- ns).

Definition stat_to_file_attr (stat : Stat) (ino : Z) : FileAttr :=
  MkFileAttr ino (st_size stat) (st_blocks stat) (ns_to_st (st_atime stat)) (ns_to_st (st_mtime stat))
    (ns_to_st (st_ctime stat)) (ns_to_st (st_ctime stat)) (mode_to_file_type (st_mode stat))
    (Z.land (st_mode stat) 0xFFF) (st_nlink stat) (st_uid stat) (st_gid stat) 0 (st_blksz stat) 0.

(** [fn fuse_ttl_from_cache_ms] *)
Definition fuse_ttl_from_cache_ms (ms : Z) : Z := 1.

(** [fn flush_reply] *)
Definition flush_reply (flush_err : option Z) (had_sticky : bool) : result Z unit :=
  match flush_err with
  | Some errno => Err errno
  | None => if had_sticky then Err EIO else Ok tt
  end.

(** [QuicFs::child_path] *)
Definition child_path (parent name : str) : str :=
  if bool_decide (components parent = components (lit "/")) then lit "/" ++ name else path_join parent name.

(** ** Handles across reconnects, and flushing *)

(** [async fn ensure_live] *)
Definition ensure_live (client_fh : Z) (allow_reopen : bool) : fs (option Z) :=
  cur <- fc ReconnectGen ;;
  o <- fc (FilesGet client_fh) ;;
  match o with
  | None => Ret None
  | Some f =>
      if of_opened_gen f =? cur then Ret (Some (of_server_handle f))
      else if negb allow_reopen then Ret None
      else
        let reopen_flags := Z.lor (Z.land (of_flags f) 0x3) (Z.land (of_flags f) O_APPEND) in
        r <- fc (Rpc (ROpen (of_path f) reopen_flags)) ;;
        match r with
        | Err _ => Ret None
        | Ok (new_handle, _) =>
            fc (FilesReopened client_fh new_handle cur) ;;;
            (if of_is_append f then
               b <- fc (WbHasBuffered client_fh) ;;
               if b then
                 dropped <- fc (WbDrop client_fh) ;;
                 if 0 <? dropped then fc (ErrInsert client_fh) else Ret tt
               else Ret tt
             else Ret tt) ;;;
            Ret (Some new_handle)
        end
  end.

(** The [for] loop over a batch in [flush_one]: the first error. *)
Fixpoint send_batch (server_handle : Z) (chunks : list (Z * bytes)) : fs (option str) :=
  match chunks with
  | [] => Ret None
  | (offset, data) :: chunks =>
      r <- fc (Rpc (RWrite server_handle offset data)) ;;
      match r with Ok _ => send_batch server_handle chunks | Err e => Ret (Some e) end
  end.

(** The [for _attempt in 0..2] loop of [flush_one]. *)
Fixpoint flush_attempts (attempts : nat) (last_err : option str) (client_fh : Z) (allow_reopen : bool) :
    fs (anyhow unit) :=
  match attempts with
  | O => Ret (Err (default (lit "flush failed") last_err))
  | S attempts =>
      h <- ensure_live client_fh allow_reopen ;;
      match h with
      | None =>
          b <- fc (WbHasBuffered client_fh) ;;
          Ret (if b : bool then Err (lit "handle not live for flush") else Ok tt)
      | Some server_handle =>
          o <- fc (WbBegin client_fh) ;;
          match o with
          | None => Ret (Ok tt)
          | Some batch =>
              gen_before <- fc ReconnectGen ;;
              send_err <- send_batch server_handle (fb_chunks batch) ;;
              match send_err with
              | None => fc (WbAck client_fh (fb_sent_count batch)) ;;; Ret (Ok tt)
              | Some e =>
                  entry <- fc (FilesGet client_fh) ;;
                  if match entry with Some f => of_is_append f | None => false end then
                    fc (WbDrop client_fh) ;;; fc (ErrInsert client_fh) ;;; Ret (Err e)
                  else
                    fc (WbFail client_fh) ;;;
                    if allow_reopen : bool then
                      gen <- fc ReconnectGen ;;
                      if negb (gen =? gen_before)
                      then flush_attempts attempts (Some e) client_fh allow_reopen
                      else Ret (Err e)
                    else Ret (Err e)
              end
          end
      end
  end.

(** [async fn flush_one] *)
Definition flush_one (client_fh : Z) (allow_reopen : bool) : fs (anyhow unit) :=
  flush_attempts 2 None client_fh allow_reopen.

Definition flush_handle (client_fh : Z) : fs (anyhow unit) := flush_one client_fh true.
Definition live_handle (client_fh : Z) : fs (option Z) := ensure_live client_fh true.

(** [flush_handle_drain]: the [for _ in 0..500] loop. *)
Fixpoint drain (rounds : nat) (client_fh : Z) : fs (anyhow unit) :=
  match rounds with
  | O => Ret (Err (lit "flush did not drain"))
  | S rounds =>
      _ <-? flush_handle client_fh ;;
      b <- fc (WbHasBuffered client_fh) ;;
      if negb b then Ret (Ok tt) else fc (SleepMs 5) ;;; drain rounds client_fh
  end.
Definition flush_handle_drain (client_fh : Z) : fs (anyhow unit) := drain 500 client_fh.

(** [flush_all_handles]: goes on after a failure, returns the first. *)
Fixpoint flush_each (first_err : option str) (handles : list Z) : fs (anyhow unit) :=
  match handles with
  | [] => Ret (match first_err with Some e => Err e | None => Ok tt end)
  | fh :: handles =>
      r <- flush_handle fh ;;
      flush_each (match r, first_err with Err e, None => Some e | _, _ => first_err end) handles
  end.
Definition flush_all_handles : fs (anyhow unit) :=
  handles <- fc WbHandles ;; flush_each None handles.

(** [fence_truncating_open] *)
Definition fence_truncating_open (flags : Z) : fs (anyhow unit) :=
  if Z.land flags O_TRUNC =? 0 then Ret (Ok tt)
  else
    total <- fc WbTotalBytes ;;
    if total =? 0 then Ret (Ok tt) else flush_all_handles.

(** ** Helpers of the callbacks *)

(** [register_open] *)
Definition register_open (p : str) (flags server_handle : Z) : fs Z :=
  client_fh <- fc NextClientFh ;;
  opened_gen <- fc ReconnectGen ;;
  fc (FilesInsert client_fh
        (MkOpenFile p flags server_handle opened_gen (negb (Z.land flags O_APPEND =? 0)))) ;;;
  Ret client_fh.

(** [check_reconnect] *)
Definition check_reconnect : fs unit :=
  current <- fc ReconnectGen ;;
  last <- fc LastGenLoad ;;
  if negb (current =? last) then fc CacheClear ;;; fc (LastGenStore current) else Ret tt.

(** [cache_stat] *)
Definition cache_stat (p : str) (stat : Stat) : fs unit :=
  fc (CacheInsert p stat (Z.land (Z.shiftr (st_mode stat) 12) 0xF =? 0x4)).

(** [get_stat]: an [io::Error] is its kind. *)
Definition get_stat (p : str) : fs (result ErrorKind Stat) :=
  check_reconnect ;;;
  total <- fc WbTotalBytes ;;
  flush_ok <- (if 0 <? total then r <- flush_all_handles ;; Ret (is_ok r) else Ret true) ;;
  c <- fc (CacheGet p) ;;
  match c with
  | Some (Ok s) => Ret (Ok s)
  | Some (Err _) => Ret (Err NotFound)
  | None =>
      r <- fc (Rpc (RGetattr p)) ;;
      match r with
      | Ok s => (if flush_ok : bool then cache_stat p s else Ret tt) ;;; Ret (Ok s)
      | Err msg =>
          if contains_str (lit "NotFound") msg
          then fc (CacheNegative p) ;;; Ret (Err NotFound)
          else Ret (Err Other)
      end
  end.

(** ** The callbacks of [impl Filesystem for QuicFs] *)

Section Callbacks.
Variables (uid_override gid_override : option Z) (fuse_ttl : Z).

(** [make_file_attr] *)
Definition make_file_attr (p : str) (stat : Stat) : fs FileAttr :=
  ino <- fc (InodeAlloc p) ;;
  let a := stat_to_file_attr stat ino in
  Ret (MkFileAttr (fa_ino a) (fa_size a) (fa_blocks a) (fa_atime a) (fa_mtime a) (fa_ctime a) (fa_crtime a)
         (fa_kind a) (fa_perm a) (fa_nlink a) (default (fa_uid a) uid_override)
         (default (fa_gid a) gid_override) (fa_rdev a) (fa_blksize a) (fa_flags a)).

(** [match self.path_for(ino) { Some(p) => p, None => { reply.error(ENOENT); return } }] *)
Definition with_path (ino : Z) (k : str -> fs reply) : fs reply :=
  o <- fc (InodePathOf ino) ;;
  match o with Some p => k p | None => Ret (ReplyError ENOENT) end.

(** [match rpc { Ok(x) => .., Err(e) => reply.error(rpc_to_errno(&e)) }] *)
Definition on_rpc {A} (r : rpcE A) (k : A -> fs reply) : fs reply :=
  x <- fc (Rpc r) ;;
  match x with Ok a => k a | Err e => Ret (ReplyError (rpc_to_errno e)) end.

Definition reply_entry (p : str) (stat : Stat) : fs reply :=
  a <- make_file_attr p stat ;; Ret (ReplyEntry fuse_ttl a).
Definition reply_attr (p : str) (stat : Stat) : fs reply :=
  a <- make_file_attr p stat ;; Ret (ReplyAttr fuse_ttl a).

Definition fuse_lookup (parent : Z) (name : str) : fs reply :=
  with_path parent (fun parent_path =>
    let child := child_path parent_path name in
    r <- get_stat child ;;
    match r with
    | Ok stat => reply_entry child stat
    | Err e => Ret (ReplyError (io_to_errno e))
    end).

Definition fuse_forget (ino nlookup : Z) : fs unit := Ret tt.

Definition fuse_getattr (ino : Z) : fs reply :=
  with_path ino (fun p =>
    r <- get_stat p ;;
    match r with
    | Ok stat => reply_attr p stat
    | Err e => Ret (ReplyError (io_to_errno e))
    end).

(** [TimeOrNow]; the closure [ns_of]: [as i64] of the nanoseconds, 0 before the
    epoch. *)
Inductive TimeOrNow : Type := SpecificTime (t : Z) | Now.

Definition ns_of (t : TimeOrNow) : fs Z :=
  st <- (match t with SpecificTime s => Ret s | Now => fc SystemNow end) ;;
  Ret (if 0 <=? st then as_i64 st else 0).

Definition bit_if {A} (o : option A) (bit : Z) : Z := match o with Some _ => bit | None => 0 end.

Definition opt_ns (t : option TimeOrNow) : fs Z :=
  match t with Some t => ns_of t | None => Ret 0 end.

Definition fuse_setattr (ino : Z) (mode uid gid size : option Z) (atime mtime : option TimeOrNow)
    (fh : option Z) : fs reply :=
  with_path ino (fun p =>
    flushed <- (match size with
                | Some _ => match fh with Some fh => flush_handle fh | None => flush_all_handles end
                | None => Ret (Ok tt)
                end) ;;
    match flushed with
    | Err e => Ret (ReplyError (rpc_to_errno e))
    | Ok _ =>
        let valid := Z.lor (bit_if mode 0x1) (Z.lor (bit_if uid 0x2) (Z.lor (bit_if gid 0x4)
                       (Z.lor (bit_if size 0x8) (Z.lor (bit_if atime 0x10) (bit_if mtime 0x20))))) in
        at_ns <- opt_ns atime ;;
        mt_ns <- opt_ns mtime ;;
        on_rpc (RSetattr p valid (default 0 mode) (default 0 uid) (default 0 gid) (default 0 size) at_ns mt_ns)
          (fun stat => fc (CacheInvalidate p) ;;; reply_attr p stat)
    end).

Definition fuse_readlink (ino : Z) : fs reply :=
  with_path ino (fun p => on_rpc (RReadlink p) (fun target => Ret (ReplyTarget target))).

Definition fuse_mkdir (parent : Z) (name : str) (mode : Z) : fs reply :=
  with_path parent (fun parent_path =>
    let child := child_path parent_path name in
    fc (CacheInvalidate parent_path) ;;;
    on_rpc (RMkdir child mode) (fun stat => cache_stat child stat ;;; reply_entry child stat)).

Definition fuse_unlink (parent : Z) (name : str) : fs reply :=
  with_path parent (fun parent_path =>
    let child := child_path parent_path name in
    fc (CacheInvalidate child) ;;;
    on_rpc (RUnlink child) (fun _ => fc (InodeRemove child) ;;; Ret ReplyOk)).

Definition fuse_rmdir (parent : Z) (name : str) : fs reply :=
  with_path parent (fun parent_path =>
    let child := child_path parent_path name in
    fc (CacheInvalidate child) ;;;
    on_rpc (RRmdir child) (fun _ => fc (InodeRemove child) ;;; Ret ReplyOk)).

Definition fuse_symlink (parent : Z) (link_name target : str) : fs reply :=
  with_path parent (fun parent_path =>
    let link_path := child_path parent_path link_name in
    on_rpc (RSymlink target link_path)
      (fun stat => cache_stat link_path stat ;;; reply_entry link_path stat)).

Definition fuse_rename (parent : Z) (name : str) (new_parent : Z) (new_name : str) (flags : Z) : fs reply :=
  with_path parent (fun old_parent =>
    with_path new_parent (fun new_par =>
      let old_path := child_path old_parent name in
      let new_path := child_path new_par new_name in
      on_rpc (RRename old_path new_path flags) (fun _ =>
        fc (CacheInvalidate old_path) ;;;
        fc (CacheInvalidate new_path) ;;;
        (match path_parent new_path with Some p => fc (CacheInvalidate p) | None => Ret tt end) ;;;
        fc (InodeRename old_path new_path) ;;;
        Ret ReplyOk))).

Definition fuse_link (ino new_parent : Z) (new_name : str) : fs reply :=
  with_path ino (fun src_path =>
    with_path new_parent (fun new_par =>
      let new_path := child_path new_par new_name in
      on_rpc (RLink src_path new_path) (fun stat =>
        fc (CacheInvalidate src_path) ;;;
        cache_stat src_path stat ;;;
        fc (CacheInvalidate new_path) ;;;
        cache_stat new_path stat ;;;
        a <- make_file_attr new_path stat ;;
        Ret (ReplyEntry 1 a)))).

Definition fuse_open (ino flags : Z) : fs reply :=
  with_path ino (fun p =>
    r <- fence_truncating_open flags ;;
    match r with
    | Err e => Ret (ReplyError (rpc_to_errno e))
    | Ok _ =>
        on_rpc (ROpen p (wrap32 flags)) (fun '(server_handle, _) =>
          client_fh <- register_open p (wrap32 flags) server_handle ;;
          Ret (ReplyOpened client_fh))
    end).

Definition fuse_read (fh offset size : Z) : fs reply :=
  r <- flush_handle fh ;;
  match r with
  | Err e => Ret (ReplyError (rpc_to_errno e))
  | Ok _ =>
      h <- live_handle fh ;;
      match h with
      | None => Ret (ReplyError ESTALE)
      | Some server_handle =>
          on_rpc (RRead server_handle (wrap64 offset) size) (fun data => Ret (ReplyData data))
      end
  end.

Definition fuse_write (ino fh offset : Z) (data : bytes) : fs reply :=
  o <- fc (InodePathOf ino) ;;
  (match o with Some p => fc (CacheInvalidate p) | None => Ret tt end) ;;;
  live_handle fh ;;;
  let n := wrap32 (zlen data) in
  decision <- fc (WbPush fh (wrap64 offset) data) ;;
  match decision with
  | Buffered => Ret (ReplyWritten n)
  | FlushThis h | FlushOther h => flush_handle h ;;; Ret (ReplyWritten n)
  | Reject => fc (ErrInsert fh) ;;; Ret (ReplyError EIO)
  end.

(** The drain and the sticky error, as [flush] and [fsync] combine them. *)
Definition flush_outcome (fh : Z) : fs (result Z unit) :=
  r <- flush_handle_drain fh ;;
  let flush_err := match r with Ok _ => None | Err e => Some (rpc_to_errno e) end in
  had_sticky <- fc (ErrRemove fh) ;;
  Ret (flush_reply flush_err had_sticky).

Definition fuse_flush (fh : Z) : fs reply :=
  r <- flush_outcome fh ;;
  Ret (match r with Ok _ => ReplyOk | Err errno => ReplyError errno end).

Definition fuse_release (fh : Z) : fs reply :=
  flush_handle_drain fh ;;;
  fc (ErrRemove fh) ;;;
  o <- fc (FilesRemove fh) ;;
  fc (WbDrop fh) ;;;
  match o with
  | Some f => fc (Rpc (RRelease (of_server_handle f))) ;;; Ret ReplyOk
  | None => Ret ReplyOk
  end.

Definition fuse_fsync (fh : Z) (datasync : bool) : fs reply :=
  r <- flush_outcome fh ;;
  match r with
  | Err errno => Ret (ReplyError errno)
  | Ok _ =>
      h <- live_handle fh ;;
      match h with
      | None => Ret (ReplyError ESTALE)
      | Some server_handle => on_rpc (RFsync server_handle datasync) (fun _ => Ret ReplyOk)
      end
  end.

Definition fuse_opendir : fs reply := Ret (ReplyOpened 0).

(** The [for] loop of [readdir]: [i] is the index of the next entry. *)
Fixpoint readdir_add (p : str) (i : Z) (entries : list DirEntry) : fs reply :=
  match entries with
  | [] => Ret ReplyOk
  | e :: entries =>
      let child := trim_end_matches is_slash p ++ SLASH :: de_name e in
      child_ino <- fc (InodeAlloc child) ;;
      full <- fc (ReplyAdd child_ino (i + 1) (mode_to_file_type (de_mode e)) (de_name e)) ;;
      if full : bool then Ret ReplyOk else readdir_add p (i + 1) entries
  end.

Definition fuse_readdir (ino offset : Z) : fs reply :=
  with_path ino (fun p =>
    on_rpc (RReaddir p) (fun entries =>
      readdir_add p (wrap64 offset) (drop (Z.to_nat (wrap64 offset)) entries))).

Definition fuse_releasedir : fs reply := Ret ReplyOk.

Definition fuse_statfs (ino : Z) : fs reply :=
  o <- fc (InodePathOf ino) ;;
  on_rpc (RStatfs (default (lit "/") o)) (fun s => Ret (ReplyStatfs s)).

Definition fuse_create (parent : Z) (name : str) (mode flags : Z) : fs reply :=
  with_path parent (fun parent_path =>
    let child := child_path parent_path name in
    r <- fence_truncating_open flags ;;
    match r with
    | Err e => Ret (ReplyError (rpc_to_errno e))
    | Ok _ =>
        fc (CacheInvalidate parent_path) ;;;
        fc (CacheInvalidate child) ;;;
        on_rpc (RCreate child (wrap32 flags) mode) (fun '(server_handle, stat) =>
          cache_stat child stat ;;;
          client_fh <- register_open child (wrap32 flags) server_handle ;;
          a <- make_file_attr child stat ;;
          Ret (ReplyCreated fuse_ttl a client_fh))
    end).

(** The callbacks the kernel makes, with the arguments that are used. *)
Inductive callback : Type :=
| CbLookup (parent : Z) (name : str)
| CbGetattr (ino : Z)
| CbSetattr (ino : Z) (mode uid gid size : option Z) (atime mtime : option TimeOrNow) (fh : option Z)
| CbReadlink (ino : Z)
| CbMkdir (parent : Z) (name : str) (mode : Z)
| CbUnlink (parent : Z) (name : str)
| CbRmdir (parent : Z) (name : str)
| CbSymlink (parent : Z) (link_name target : str)
| CbRename (parent : Z) (name : str) (new_parent : Z) (new_name : str) (flags : Z)
| CbLink (ino new_parent : Z) (new_name : str)
| CbOpen (ino flags : Z)
| CbRead (fh offset size : Z)
| CbWrite (ino fh offset : Z) (data : bytes)
| CbFlush (fh : Z)
| CbRelease (fh : Z)
| CbFsync (fh : Z) (datasync : bool)
| CbOpendir
| CbReaddir (ino offset : Z)
| CbReleasedir
| CbStatfs (ino : Z)
| CbCreate (parent : Z) (name : str) (mode flags : Z).

Definition run_callback (c : callback) : fs reply :=
  match c with
  | CbLookup parent name => fuse_lookup parent name
  | CbGetattr ino => fuse_getattr ino
  | CbSetattr ino mode uid gid size atime mtime fh => fuse_setattr ino mode uid gid size atime mtime fh
  | CbReadlink ino => fuse_readlink ino
  | CbMkdir parent name mode => fuse_mkdir parent name mode
  | CbUnlink parent name => fuse_unlink parent name
  | CbRmdir parent name => fuse_rmdir parent name
  | CbSymlink parent link_name target => fuse_symlink parent link_name target
  | CbRename parent name new_parent new_name flags => fuse_rename parent name new_parent new_name flags
  | CbLink ino new_parent new_name => fuse_link ino new_parent new_name
  | CbOpen ino flags => fuse_open ino flags
  | CbRead fh offset size => fuse_read fh offset size
  | CbWrite ino fh offset data => fuse_write ino fh offset data
  | CbFlush fh => fuse_flush fh
  | CbRelease fh => fuse_release fh
  | CbFsync fh datasync => fuse_fsync fh datasync
  | CbOpendir => fuse_opendir
  | CbReaddir ino offset => fuse_readdir ino offset
  | CbReleasedir => fuse_releasedir
  | CbStatfs ino => fuse_statfs ino
  | CbCreate parent name mode flags => fuse_create parent name mode flags
  end.
End Callbacks.

(** ** The background task ([src/client/src/mount.rs]) *)

Definition MAX_UNACKED_AGE : Z := 120 * 1000.

(** One handle of the age-drop loop. *)
Definition age_drop (fh : Z) : fs unit :=
  dropped <- fc (WbDrop fh) ;;
  if 0 <? dropped then fc (ErrInsert fh) else Ret tt.

Fixpoint for_each (body : Z -> fs unit) (handles : list Z) : fs unit :=
  match handles with [] => Ret tt | fh :: handles => body fh ;;; for_each body handles end.

(** One round of the task's [loop], after its tick. *)
Definition background_tick : fs unit :=
  too_old <- fc (WbOlderThan MAX_UNACKED_AGE) ;;
  for_each age_drop too_old ;;;
  expired <- fc WbExpired ;;
  for_each (fun fh => flush_one fh false ;;; Ret tt) expired.

(** The flush of a clean unmount ([Shutdown::Signal]). *)
Definition unmount_flush : fs unit :=
  handles <- fc WbHandles ;;
  for_each (fun fh => flush_one fh true ;;; Ret tt) handles.
