(* ===== verification/Durable.v ===== *)
(** * No write is lost silently

    The promise of [src/client/src/fuse_ops.rs]: when [close] or [fsync] reports
    success on a handle, every byte the application wrote through it has been
    acknowledged by the server.  The FUSE thread runs its callbacks while the
    background task of [src/client/src/mount.rs] flushes the same buffer; the
    promise is proved with the background's flushes interleaved between any two
    events of a callback, for a handle opened for positioned writes.  The ledger
    holds the shared state exactly and remembers what the callbacks do not: the
    writes accepted and not yet accounted for, the writes the server acknowledged,
    the handles it issued, and the chunks of a background flush in flight. *)

From S2P Require Import Prelude Prog Text Status Frames Os PathStr WriteBuf FuseOps.

(** ** Bytes of writes *)

Definition has_byte (p : Z * bytes) (i : Z) (b : byte) : Prop :=
  covers p i /\ snd p !! Z.to_nat (i - fst p) = Some b.

Lemma has_byte_merge lo ld data i b :
  has_byte (lo, ld) i b \/ has_byte (lo + zlen ld, data) i b -> has_byte (lo, ld ++ data) i b.
Proof.
  unfold has_byte, covers. simpl. rewrite length_app. intros [[Hc Hb]|[Hc Hb]]; (split; [lia|]).
  - by rewrite lookup_app_l by lia.
  - rewrite lookup_app_r by lia. rewrite <- Hb. f_equal. lia.
Qed.

Lemma merge_bytes m l i b :
  Forall in_range m -> Forall in_range l ->
  (exists p, p ∈ m ++ l /\ has_byte p i b) -> exists q, q ∈ foldl merge_step m l /\ has_byte q i b.
Proof.
  intros Hm Hl. revert m Hm. induction Hl as [|[off data] l Hp Hl IH]; intros m Hm; simpl.
  { by rewrite app_nil_r. }
  intros (p & Hin & Hb).
  assert (Forall in_range (m ++ [(off, data)])) as Hsnoc by (apply Forall_app; by split; [|constructor]).
  assert (exists q, q ∈ foldl merge_step (m ++ [(off, data)]) l /\ has_byte q i b) as Happ.
  { apply IH; [done|]. exists p. by rewrite <- app_assoc. }
  unfold merge_step at 2. destruct m as [|[lo ld] m _] using rev_ind; [exact Happ|].
  rewrite last_snoc. apply Forall_app in Hm as [Hm Hlo]. inv Hlo. simpl fst.
  destruct (wrap64 _ =? off) eqn:E; [|exact Happ]. apply Z.eqb_eq in E.
  destruct H1 as [Hlo Hhi], Hp as [Hoff Hend]. simpl in *.
  rewrite wrap_small in E by (unfold in_width; lia). subst off.
  rewrite removelast_last. apply IH.
  - apply Forall_app. split; [done|]. constructor; [|done]. split; simpl; [lia|]. rewrite length_app. lia.
  - assert ((lo, ld ++ data) ∈ (m ++ [(lo, ld ++ data)]) ++ l) as Hnew by set_solver.
    apply elem_of_app in Hin as [[Hin|Hin%list_elem_of_singleton]%elem_of_app|[Hin|Hin]%elem_of_cons].
    + exists p. split; [set_solver|done].
    + subst p. eexists. split; [exact Hnew|]. apply has_byte_merge. auto.
    + subst p. eexists. split; [exact Hnew|]. apply has_byte_merge. auto.
    + exists p. split; [set_solver|done].
Qed.

(** A batch carries every byte of its chunks. *)
Lemma batch_bytes l p i b :
  Forall in_range l -> p ∈ l -> has_byte p i b ->
  exists q, q ∈ coalesce (sort_pairs l) /\ has_byte q i b.
Proof.
  intros Hr Hp Hb. apply merge_bytes; [constructor|by rewrite sort_pairs_perm|].
  exists p. simpl. by rewrite sort_pairs_perm.
Qed.

(** ** The ledger *)

Record ledger := MkLedger {
  l_wb : WriteBuffer;
  l_err : gset Z;                  (** [write_errors] *)
  l_files : gmap Z OpenFile;       (** [open_files] *)
  l_next : Z;                      (** [next_client_fh], an [AtomicU64] *)
  l_acc : list (Z * bytes);        (** accepted on the handle, no loss reported since *)
  l_log : list (Z * (Z * bytes));  (** writes acknowledged: server handle, offset, data *)
  l_handles : list (Z * str);      (** server handles issued, with the path opened *)
  l_bg : option (list PendingWrite)  (** chunks of the background's flush in flight *)
}.

Definition set_wb (wb : WriteBuffer) (g : ledger) : ledger :=
  MkLedger wb (l_err g) (l_files g) (l_next g) (l_acc g) (l_log g) (l_handles g) (l_bg g).
Definition set_err (s : gset Z) (g : ledger) : ledger :=
  MkLedger (l_wb g) s (l_files g) (l_next g) (l_acc g) (l_log g) (l_handles g) (l_bg g).
Definition set_files (m : gmap Z OpenFile) (g : ledger) : ledger :=
  MkLedger (l_wb g) (l_err g) m (l_next g) (l_acc g) (l_log g) (l_handles g) (l_bg g).
Definition set_next (n : Z) (g : ledger) : ledger :=
  MkLedger (l_wb g) (l_err g) (l_files g) n (l_acc g) (l_log g) (l_handles g) (l_bg g).
Definition set_acc (l : list (Z * bytes)) (g : ledger) : ledger :=
  MkLedger (l_wb g) (l_err g) (l_files g) (l_next g) l (l_log g) (l_handles g) (l_bg g).
Definition add_log (l : list (Z * (Z * bytes))) (g : ledger) : ledger :=
  MkLedger (l_wb g) (l_err g) (l_files g) (l_next g) (l_acc g) (l_log g ++ l) (l_handles g) (l_bg g).
Definition add_handle (sh : Z) (p : str) (g : ledger) : ledger :=
  MkLedger (l_wb g) (l_err g) (l_files g) (l_next g) (l_acc g) (l_log g) (l_handles g ++ [(sh, p)]) (l_bg g).
Definition set_bg (b : option (list PendingWrite)) (g : ledger) : ledger :=
  MkLedger (l_wb g) (l_err g) (l_files g) (l_next g) (l_acc g) (l_log g) (l_handles g) b.

Section Ledger.
(** The handle the promise is about, and the path it was opened with. *)
Variables (h0 : Z) (P0 : str).

(** Every byte of the write was acknowledged, on a server handle of the path. *)
Definition delivered (g : ledger) (p : Z * bytes) : Prop :=
  forall i b, has_byte p i b ->
  exists sh q, (sh, q) ∈ l_log g /\ (sh, P0) ∈ l_handles g /\ has_byte q i b.

Definition buffered (g : ledger) : list (Z * bytes) := map pair_of (chunks_of (l_wb g) h0).

(** ** What each event does *)

Definition rpc_step {A} (r : rpcE A) : ledger -> anyhow A -> ledger -> Prop :=
  match r in rpcE A return ledger -> anyhow A -> ledger -> Prop with
  | ROpen p _ => fun g x g' => g' = match x with Ok (sh, _) => add_handle sh p g | Err _ => g end
  | RCreate p _ _ => fun g x g' => g' = match x with Ok (sh, _) => add_handle sh p g | Err _ => g end
  | RWrite sh off data => fun g x g' => g' = match x with Ok _ => add_log [(sh, (off, data))] g | Err _ => g end
  | _ => fun g _ g' => g' = g
  end.

Definition fs_step {X} (e : fsE X) : ledger -> X -> ledger -> Prop :=
  match e in fsE X return ledger -> X -> ledger -> Prop with
  | WbBegin fh => fun g x g' => (x, l_wb g') = begin_flush (l_wb g) fh /\ g' = set_wb (l_wb g') g
  | WbAck fh n => fun g _ g' => g' = set_wb (ack_flush (l_wb g) fh n) g
  | WbFail fh => fun g _ g' => g' = set_wb (fail_flush (l_wb g) fh) g
  | WbDrop fh => fun g x g' => (x, l_wb g') = drop_handle (l_wb g) fh /\ g' = set_wb (l_wb g') g
  | WbPush fh off data => fun g x g' =>
      exists iter now, (x, l_wb g') = push iter (l_wb g) fh off data now /\
      g' = set_acc (if bool_decide (fh = h0) && match x with Reject => false | _ => true end
                    then l_acc g ++ [(off, data)] else l_acc g) (set_wb (l_wb g') g)
  | WbHasBuffered fh => fun g x g' => x = has_buffered (l_wb g) fh /\ g' = g
  | WbTotalBytes => fun g x g' => x = wb_total_bytes (l_wb g) /\ g' = g
  | ErrInsert fh => fun g _ g' => g' = set_err ({[fh]} ∪ l_err g) g
  | ErrRemove fh => fun g x g' => x = bool_decide (fh ∈ l_err g) /\
      g' = set_acc (if bool_decide (fh = h0) && x then buffered g else l_acc g)
                   (set_err (l_err g ∖ {[fh]}) g)
  | FilesGet fh => fun g x g' => x = l_files g !! fh /\ g' = g
  | FilesReopened fh sh gen => fun g _ g' => g' = set_files
      (alter (fun f => MkOpenFile (of_path f) (of_flags f) sh gen (of_is_append f)) fh (l_files g)) g
  | FilesInsert fh f => fun g _ g' => g' = set_files (<[fh := f]> (l_files g)) g
  | FilesRemove fh => fun g x g' => x = l_files g !! fh /\ g' = set_files (delete fh (l_files g)) g
  | NextClientFh => fun g x g' => x = l_next g /\ g' = set_next (wrap64 (l_next g + 1)) g
  | Rpc r => rpc_step r
  | _ => fun g _ g' => g' = g
  end.

(** ** What the background's flushes do *)

Inductive bg : ledger -> ledger -> Prop :=
| bg_log g l : bg g (add_log l g)
| bg_other g wb : wb_per_handle wb !! h0 = wb_per_handle (l_wb g) !! h0 -> bg g (set_wb wb g)
| bg_sticky g fh : fh <> h0 -> bg g (set_err ({[fh]} ∪ l_err g) g)
| bg_begin g b wb : begin_flush (l_wb g) h0 = (Some b, wb) -> l_bg g = None ->
    bg g (set_bg (Some (chunks_of (l_wb g) h0)) (set_wb wb g))
| bg_ack g cs : l_bg g = Some cs -> Forall (fun c => delivered g (pair_of c)) cs ->
    bg g (set_bg None (set_wb (ack_flush (l_wb g) h0 (zlen cs)) g))
| bg_fail g cs : l_bg g = Some cs -> bg g (set_bg None (set_wb (fail_flush (l_wb g) h0) g)).

(** A callback runs with the background's steps before each of its events. *)
Definition fuse_spec : spec fsE ledger :=
  Spec _ _ (fun _ _ _ => True) (fun X e g x g' => exists g1, rtc bg g g1 /\ fs_step e g1 x g').

(** ** The invariant *)

Definition hb0 (g : ledger) : option HandleBuf := wb_per_handle (l_wb g) !! h0.

Definition file_ok (g : ledger) : Prop :=
  forall f, l_files g !! h0 = Some f ->
  of_path f = P0 /\ of_is_append f = false /\ (of_server_handle f, P0) ∈ l_handles g.

Record ledger_inv (g : ledger) : Prop := {
  li_file : file_ok g;
  li_next : h0 < l_next g;
  li_range : Forall in_range (buffered g);
  li_bg cs : l_bg g = Some cs ->
    exists rest, hb0 g = Some (MkHandleBuf (cs ++ rest) true);
  li_acc : h0 ∈ l_err g \/ Forall (fun p => p ∈ buffered g \/ delivered g p) (l_acc g)
}.
End Ledger.

Section Proofs.
Variables (h0 : Z) (P0 : str).
Abbreviation inv := (ledger_inv h0 P0).
Abbreviation delivered := (delivered P0).
Abbreviation buffered := (buffered h0).
Abbreviation bgs := (rtc (bg h0 P0)).
Abbreviation W := (wp (fuse_spec h0 P0)).

(** ** Monotonicity *)

Lemma sub_app_l {A} (l k : list A) : l ⊆ l ++ k.
Proof. intros x Hx. apply elem_of_app. by left. Qed.

Lemma delivered_mono g g' p :
  l_log g ⊆ l_log g' -> l_handles g ⊆ l_handles g' -> delivered g p -> delivered g' p.
Proof.
  intros Hl Hh Hd i b Hb. destruct (Hd i b Hb) as (sh & q & H1 & H2 & H3). exists sh, q. auto.
Qed.

(** The invariant in terms of what it depends on. *)
Lemma inv_change g g' :
  inv g -> file_ok h0 P0 g' -> h0 < l_next g' ->
  (l_bg g' = l_bg g \/ l_bg g' = None) -> hb0 h0 g' = hb0 h0 g ->
  l_log g ⊆ l_log g' -> l_handles g ⊆ l_handles g' ->
  l_acc g' = l_acc g -> (h0 ∈ l_err g -> h0 ∈ l_err g') -> inv g'.
Proof.
  intros H Hf Hn Hbg Hhb Hl Hh Ha He.
  assert (buffered g' = buffered g) as Hb by (unfold Durable.buffered, chunks_of, hb0 in *; by rewrite Hhb).
  split; [done|done|rewrite Hb; apply H| |].
  - intros cs Hcs. rewrite Hhb. apply H. destruct Hbg; congruence.
  - destruct (li_acc _ _ _ H) as [HE|HE]; [auto|right]. rewrite Ha, Hb.
    eapply Forall_impl; [exact HE|]. intros p [Hp|Hp]; [auto|]. right. by eapply delivered_mono.
Qed.

(** The chunks of the handle shrink to a suffix; what left was delivered. *)
Lemma inv_shrink g wb cs rest bg' :
  inv g -> hb0 h0 g = Some (MkHandleBuf (cs ++ rest) true) ->
  Forall (fun c => delivered g (pair_of c)) cs -> chunks_of wb h0 = rest -> bg' = None ->
  inv (set_bg bg' (set_wb wb g)).
Proof.
  intros H Hhb Hcs Hrest ->.
  assert (buffered g = map pair_of cs ++ map pair_of rest) as Hb.
  { unfold Durable.buffered, chunks_of. unfold hb0 in Hhb. rewrite Hhb. simpl. apply map_app. }
  split; [apply H|apply H| |done|].
  - unfold Durable.buffered. simpl. rewrite Hrest. pose proof (li_range _ _ _ H) as Hr.
    rewrite Hb in Hr. by apply Forall_app in Hr as [_ Hr].
  - destruct (li_acc _ _ _ H) as [HE|HE]; [by left|right]. simpl.
    eapply Forall_impl; [exact HE|]. intros p [Hp|Hp]; [|right; exact Hp].
    rewrite Hb, elem_of_app in Hp. destruct Hp as [Hp|Hp].
    + right. apply list_elem_of_fmap in Hp as (c & -> & Hc). rewrite Forall_forall in Hcs. by apply Hcs.
    + left. unfold Durable.buffered. simpl. by rewrite Hrest.
Qed.

Lemma chunks_ack_prefix wb cs rest sending :
  wb_per_handle wb !! h0 = Some (MkHandleBuf (cs ++ rest) sending) ->
  chunks_of (ack_flush wb h0 (zlen cs)) h0 = rest.
Proof.
  intros Hhb. rewrite chunks_ack. unfold chunks_of. rewrite Hhb. simpl.
  rewrite length_app, Nat2Z.inj_add, Z.min_l, Nat2Z.id by lia. by rewrite drop_app_length.
Qed.

(** Replacing the handle's entry with one of the same chunks. *)
Lemma inv_flag g wb sending bg' :
  inv g -> wb_per_handle wb !! h0 = (fun hb => MkHandleBuf (hb_chunks hb) sending) <$> hb0 h0 g ->
  (forall cs, bg' = Some cs -> sending = true /\ chunks_of (l_wb g) h0 = cs /\ hb0 h0 g <> None) ->
  inv (set_bg bg' (set_wb wb g)).
Proof.
  intros H Hwb Hbg'.
  assert (chunks_of wb h0 = chunks_of (l_wb g) h0) as Hc.
  { unfold chunks_of, hb0 in *. rewrite Hwb. by destruct (wb_per_handle (l_wb g) !! h0). }
  assert (buffered (set_bg bg' (set_wb wb g)) = buffered g) as Hb by (unfold Durable.buffered; simpl; by rewrite Hc).
  split; [apply H|apply H|rewrite Hb; apply H| |rewrite Hb; apply H].
  intros cs Hcs. simpl in Hcs. destruct (Hbg' cs Hcs) as (-> & <- & Hne). exists [].
  unfold hb0 in *. simpl. rewrite Hwb, app_nil_r. unfold chunks_of.
  by destruct (wb_per_handle (l_wb g) !! h0).
Qed.

Lemma begin_flush_flag wb b wb' :
  begin_flush wb h0 = (Some b, wb') ->
  wb_per_handle wb' !! h0 = (fun hb => MkHandleBuf (hb_chunks hb) true) <$> wb_per_handle wb !! h0 /\
  exists hb, wb_per_handle wb !! h0 = Some hb /\ hb_sending hb = false.
Proof.
  intros Hb. destruct (begin_flush_inv _ _ _ _ Hb) as (_ & _ & -> & hb & Hhb & Hs & _).
  split; [|eauto]. simpl. rewrite lookup_insert_eq, Hhb. simpl. unfold chunks_of. by rewrite Hhb.
Qed.

Lemma fail_flush_flag wb :
  wb_per_handle (fail_flush wb h0) !! h0 =
  (fun hb => MkHandleBuf (hb_chunks hb) false) <$> wb_per_handle wb !! h0.
Proof.
  unfold fail_flush. destruct (wb_per_handle wb !! h0) as [hb|] eqn:E; simpl; [|by rewrite E].
  by rewrite lookup_insert_eq.
Qed.

Lemma inv_bg g g' : inv g -> bg h0 P0 g g' -> inv g'.
Proof.
  intros H Hbg. destruct Hbg as [g l|g wb Hwb|g fh Hne|g b wb Hb Hn|g cs Hcs Hd|g cs Hcs].
  - eapply inv_change; [exact H|..]; try done; try apply H; [by left|]. simpl. set_solver.
  - eapply inv_change; [exact H|..]; try done; try apply H. by left.
  - eapply inv_change; [exact H|..]; try done; try apply H; [by left|]. simpl. set_solver.
  - destruct (begin_flush_flag _ _ _ Hb) as [Hwb (hb & Hhb & _)].
    eapply inv_flag; [done|exact Hwb|]. intros cs [= <-]. split_and!; [done..|]. unfold hb0. congruence.
  - destruct (li_bg _ _ _ H cs Hcs) as [rest Hhb].
    eapply inv_shrink; [done|exact Hhb|done|by eapply chunks_ack_prefix|done].
  - eapply inv_flag; [done|apply fail_flush_flag|done].
Qed.

Lemma inv_bgs g g' : inv g -> bgs g g' -> inv g'.
Proof. intros H. induction 1; [done|]. eauto using inv_bg. Qed.

(** What the background never changes. *)
Record bg_frame (g g' : ledger) : Prop := {
  bf_acc : l_acc g' = l_acc g;
  bf_files : l_files g' = l_files g;
  bf_err : h0 ∈ l_err g' <-> h0 ∈ l_err g;
  bf_log : l_log g ⊆ l_log g';
  bf_handles : l_handles g' = l_handles g;
  bf_next : l_next g' = l_next g
}.

Lemma bgs_frame g g' : bgs g g' -> bg_frame g g'.
Proof.
  induction 1 as [g|g g1 g2 H _ [H1 H2 H3 H4 H5 H6]]; [by split|].
  assert (bg_frame g g1) as [K1 K2 K3 K4 K5 K6].
  { destruct H; split; simpl; try done; set_solver. }
  split; [congruence|congruence|by rewrite H3|set_solver|congruence|congruence].
Qed.

(** Time passes without a write on the handle being accepted. *)
Record later (g g' : ledger) : Prop := {
  lt_acc : l_acc g' = l_acc g;
  lt_log : l_log g ⊆ l_log g';
  lt_handles : l_handles g ⊆ l_handles g';
  lt_next : l_next g' = l_next g
}.

#[local] Instance later_preorder : PreOrder later.
Proof.
  split; [by intros g|]. intros g1 g2 g3 [A1 L1 H1 N1] [A2 L2 H2 N2].
  split; [congruence|by etrans|by etrans|congruence].
Qed.

Lemma bgs_later g g' : bgs g g' -> later g g'.
Proof. intros H. destruct (bgs_frame _ _ H) as [F1 _ _ F4 F5 F6]. split; [done|done|by rewrite F5|done]. Qed.

(** ** Assertions the background respects *)

(** A flush of the FUSE thread is in flight. *)
Definition flying (cs : list PendingWrite) (g : ledger) : Prop :=
  hb0 h0 g = Some (MkHandleBuf cs true) /\ l_bg g = None.

Lemma flying_bgs cs g g' : flying cs g -> bgs g g' -> flying cs g'.
Proof.
  intros Hf. induction 1 as [|g g1 g2 H _ IH]; [done|]. apply IH. destruct Hf as [Hhb Hn].
  destruct H as [g l|g wb Hwb|g fh Hne|g b wb Hb _|g cs' Hcs _|g cs' Hcs]; try (by split); try congruence.
  - split; [|done]. unfold hb0 in *. simpl. congruence.
  - exfalso. destruct (begin_flush_flag _ _ _ Hb) as [_ (hb & E & Hs)]. unfold hb0 in Hhb.
    rewrite Hhb in E. injection E as <-. done.
Qed.

Definition drained (g : ledger) : Prop := chunks_of (l_wb g) h0 = [].

Lemma drained_bgs g g' : drained g -> bgs g g' -> drained g'.
Proof.
  intros Hf. induction 1 as [|g g1 g2 H _ IH]; [done|]. apply IH. unfold drained in *.
  destruct H as [g l|g wb Hwb|g fh Hne|g b wb Hb _|g cs' Hcs _|g cs' Hcs]; simpl; try done.
  - unfold chunks_of in *. by rewrite Hwb.
  - destruct (begin_flush_inv _ _ _ _ Hb) as (_ & _ & _ & hb & E & _ & Hne).
    unfold chunks_of in Hf. by rewrite E in Hf.
  - by rewrite chunks_ack, Hf, drop_nil.
  - unfold chunks_of in *. rewrite fail_flush_flag. by destruct (wb_per_handle (l_wb g) !! h0).
Qed.

(** ** Single events *)

Lemma wp_ev {X} (e : fsE X) g Q :
  inv g ->
  (forall g1 x g', inv g1 -> bgs g g1 -> fs_step h0 e g1 x g' -> Q x g') -> W (fc e) g Q.
Proof.
  intros H HQ. apply wp_call; [done|]. intros x g' (g1 & Hb & Hs). eapply HQ; [|done|done].
  by eapply inv_bgs.
Qed.

(** Events that are not about the handle, and give out none. *)
Definition calm {X} (e : fsE X) : Prop :=
  match e with
  | WbBegin fh | WbAck fh _ | WbFail fh | WbDrop fh | WbPush fh _ _ | ErrRemove fh
  | FilesReopened fh _ _ | FilesInsert fh _ | FilesRemove fh => fh <> h0
  | NextClientFh => False
  | _ => True
  end.

Lemma begin_flush_other wb h x wb' :
  h <> h0 -> (x, wb') = begin_flush wb h -> wb_per_handle wb' !! h0 = wb_per_handle wb !! h0.
Proof.
  intros Hne. unfold begin_flush. destruct (wb_per_handle wb !! h); [|by intros [= _ ->]].
  destruct (_ || _); intros [= _ ->]; [done|]. simpl. by rewrite lookup_insert_ne.
Qed.

Lemma ack_flush_other wb h n :
  h <> h0 -> wb_per_handle (ack_flush wb h n) !! h0 = wb_per_handle wb !! h0.
Proof.
  intros Hne. unfold ack_flush. destruct (wb_per_handle wb !! h); [|done]. simpl.
  case_match; [by rewrite lookup_delete_ne|by rewrite lookup_insert_ne].
Qed.

Lemma fail_flush_other wb h :
  h <> h0 -> wb_per_handle (fail_flush wb h) !! h0 = wb_per_handle wb !! h0.
Proof.
  intros Hne. unfold fail_flush. destruct (wb_per_handle wb !! h); [|done]. simpl.
  by rewrite lookup_insert_ne.
Qed.

Lemma drop_handle_other wb h x wb' :
  h <> h0 -> (x, wb') = drop_handle wb h -> wb_per_handle wb' !! h0 = wb_per_handle wb !! h0.
Proof.
  intros Hne. unfold drop_handle. destruct (wb_per_handle wb !! h); intros [= _ ->]; [|done].
  simpl. by rewrite lookup_delete_ne.
Qed.

Lemma push_other iter wb h off data now x wb' :
  h <> h0 -> (x, wb') = push iter wb h off data now ->
  wb_per_handle wb' !! h0 = wb_per_handle wb !! h0.
Proof.
  intros Hne. unfold push. destruct (_ <? _); [by intros [= _ ->]|]. simpl.
  repeat (destruct (_ <=? _)); intros [= _ ->]; simpl; by rewrite lookup_insert_ne.
Qed.

Lemma file_ok_mono g g' :
  l_files g' = l_files g -> l_handles g ⊆ l_handles g' -> file_ok h0 P0 g -> file_ok h0 P0 g'.
Proof.
  intros Hf Hh H f. rewrite Hf. intros E. destruct (H f E) as (H1 & H2 & H3). split_and!; [done..|auto].
Qed.

Lemma file_ok_other g g' :
  l_files g' !! h0 = l_files g !! h0 -> l_handles g' = l_handles g -> file_ok h0 P0 g -> file_ok h0 P0 g'.
Proof. intros Hf Hh H f. rewrite Hf, Hh. apply H. Qed.

Lemma rpc_step_calm {A} (r : rpcE A) g x g' :
  inv g -> rpc_step r g x g' -> inv g' /\ later g g' /\ l_wb g' = l_wb g /\ l_bg g' = l_bg g.
Proof.
  intros H Hr.
  assert (forall g', inv g' -> l_acc g' = l_acc g -> l_wb g' = l_wb g -> l_bg g' = l_bg g ->
    l_log g ⊆ l_log g' -> l_handles g ⊆ l_handles g' -> l_next g' = l_next g ->
    inv g' /\ later g g' /\ l_wb g' = l_wb g /\ l_bg g' = l_bg g) as Hall by (intros; by split_and!).
  assert (forall sh p, inv (add_handle sh p g)) as Hadd.
  { intros sh p. eapply inv_change; [exact H|..]; try done; try apply H; [|by left|apply sub_app_l].
    apply (file_ok_mono g); [done|apply sub_app_l|apply H]. }
  assert (forall l, inv (add_log l g)) as Hlog.
  { intros l. eapply inv_bg; [done|]. constructor. }
  destruct r; simpl in Hr; try (subst g'; by apply Hall);
    destruct x as [x|e]; try destruct x as [sh st]; subst g'; apply Hall; simpl; done || apply sub_app_l.
Qed.

Lemma calm_step {X} (e : fsE X) g x g' :
  calm e -> inv g -> fs_step h0 e g x g' ->
  inv g' /\ later g g'.
Proof.
  intros Hc H Hs.
  assert (forall wb, wb_per_handle wb !! h0 = wb_per_handle (l_wb g) !! h0 -> inv (set_wb wb g)) as Hwb.
  { intros wb E. eapply inv_bg; [done|]. by constructor. }
  destruct e; simpl in Hc, Hs; try (subst g'; by split).
  - destruct Hs as [E ->]. split; [|done]. apply Hwb. by eapply begin_flush_other.
  - subst. split; [|done]. apply Hwb. by apply ack_flush_other.
  - subst. split; [|done]. apply Hwb. by apply fail_flush_other.
  - destruct Hs as [E ->]. split; [|done]. apply Hwb. by eapply drop_handle_other.
  - destruct Hs as (iter & now & E & ->). rewrite bool_decide_false by done. simpl.
    split; [|done]. apply (Hwb (l_wb g')). by eapply push_other.
  - by destruct Hs as [_ ->].
  - by destruct Hs as [_ ->].
  - subst. split; [|done]. eapply inv_change; [exact H|..]; try done; try apply H; [by left|]. simpl. set_solver.
  - destruct Hs as [_ ->]. rewrite bool_decide_false by done. simpl. split; [|done].
    eapply inv_change; [exact H|..]; try done; try apply H; [by left|]. simpl. set_solver.
  - by destruct Hs as [_ ->].
  - subst. split; [|done]. eapply inv_change; [exact H|..]; try done; try apply H; [|by left].
    apply (file_ok_other g); [|done|apply H]. simpl. by rewrite lookup_alter_ne.
  - subst. split; [|done]. eapply inv_change; [exact H|..]; try done; try apply H; [|by left].
    apply (file_ok_other g); [|done|apply H]. simpl. by rewrite lookup_insert_ne.
  - destruct Hs as [_ ->]. split; [|done]. eapply inv_change; [exact H|..]; try done; try apply H; [|by left].
    apply (file_ok_other g); [|done|apply H]. simpl. by rewrite lookup_delete_ne.
  - done.
  - by destruct (rpc_step_calm _ _ _ _ H Hs) as (? & ? & _).
Qed.

(** ** Programs that accept no write on the handle *)

Definition still {A} (g : ledger) : A -> ledger -> Prop := fun _ g' => inv g' /\ later g g'.
Definition quiet {A} (m : fs A) : Prop := forall g, inv g -> W m g (still g).

Lemma quiet_ret {A} (a : A) : quiet (Ret a).
Proof. by intros g H. Qed.

Lemma quiet_bind {A B} (m : fs A) (f : A -> fs B) :
  quiet m -> (forall x, quiet (f x)) -> quiet (bind m f).
Proof.
  intros Hm Hf g H. eapply wp_seq; [by apply Hm|]. intros a g1 [H1 Ha].
  eapply wp_mono; [|by apply Hf]. intros b g2 [H2 Hb]. split; [done|by etrans].
Qed.

Lemma quiet_bindr {R A B} (m : fs (result R A)) (f : A -> fs (result R B)) :
  quiet m -> (forall x, quiet (f x)) -> quiet (bindr m f).
Proof.
  intros Hm Hf. apply quiet_bind; [done|]. intros [a|e]; [apply Hf|apply quiet_ret].
Qed.

Lemma quiet_ev {X} (e : fsE X) : calm e -> quiet (fc e).
Proof.
  intros Hc g H. apply wp_ev; [done|]. intros g1 x g' H1 Hb Hs.
  destruct (calm_step e g1 x g' Hc H1 Hs) as [H2 Ha]. split; [done|].
  etrans; [by apply bgs_later|done].
Qed.

(** ** Flushing the handle *)

(** A server handle that [ensure_live] returns was issued for the path. *)
Lemma wp_ensure_live allow g :
  inv g -> W (ensure_live h0 allow) g (fun r g' =>
    still g r g' /\ forall sh, r = Some sh -> (sh, P0) ∈ l_handles g').
Proof.
  intros H. unfold ensure_live. eapply wp_seq; [by apply (quiet_ev ReconnectGen)|].
  intros cur g1 [H1 A1]. apply wp_bind, wp_ev; [done|]. intros g2 o g3 H2 B2 [-> ->].
  assert (later g g2) as A2 by (etrans; [exact A1|by apply bgs_later]).
  destruct (l_files g2 !! h0) as [f|] eqn:Ef; [|by split].
  destruct (li_file _ _ _ H2 f Ef) as (Hp & Happ & Hsh). rewrite Hp, Happ. clear H H1 A1 B2 g1.
  destruct (_ =? cur). { split; [done|]. by intros sh [= <-]. }
  destruct allow; simpl; [|by split].
  apply wp_bind, wp_ev; [done|]. intros g3 [[sh st]|e] g4 H3 B3 ->; cbn iota.
  2:{ split; [|done]. split; [done|]. etrans; [exact A2|by apply bgs_later]. }
  assert (later g g3) as A3 by (etrans; [exact A2|by apply bgs_later]).
  assert (inv (add_handle sh P0 g3)) as H4.
  { apply (rpc_step_calm (ROpen P0 0) g3 (Ok (sh, st)) _ H3 eq_refl). }
  apply wp_bind, wp_ev; [done|]. intros g5 [] g6 H5 B5 ->.
  pose proof (bgs_later _ _ B5) as A5.
  assert ((sh, P0) ∈ l_handles g5) as Hin by (apply A5; simpl; set_solver).
  assert (inv (set_files (alter (fun f => MkOpenFile (of_path f) (of_flags f) sh cur (of_is_append f)) h0
                            (l_files g5)) g5)) as H6.
  { eapply inv_change; [exact H5|..]; try done; try apply H5; [|by left].
    intros f'. simpl. rewrite lookup_alter_eq. intros (f1 & Ef1 & ->)%fmap_Some_1.
    destruct (li_file _ _ _ H5 f1 Ef1) as (? & ? & _). by split_and!. }
  apply wp_bind, wp_ret, wp_ret. split; [|by intros sh' [= <-]].
  split; [exact H6|]. etrans; [exact A3|].
  transitivity (add_handle sh P0 g3); [split; simpl; [done|done|apply sub_app_l|done]|]. by destruct A5.
Qed.

(** Sending a batch while it is in flight. *)
Lemma wp_send_batch cs sh batch g :
  inv g -> flying cs g -> (sh, P0) ∈ l_handles g ->
  W (send_batch sh batch) g (fun e g' =>
    still g e g' /\ flying cs g' /\ (e = None -> forall q, q ∈ batch -> (sh, q) ∈ l_log g')).
Proof.
  revert g. induction batch as [|[off data] batch IH]; intros g H Hf Hsh; cbn [send_batch].
  { apply wp_ret. split_and!; [done..|]. intros _ q Hq. by apply not_elem_of_nil in Hq. }
  apply wp_bind, wp_ev; [done|]. intros g1 x g2 H1 B1 Hs.
  pose proof (flying_bgs _ _ _ Hf B1) as Hf1.
  destruct (rpc_step_calm _ _ _ _ H1 Hs) as (H2 & A2 & W2 & BG2).
  assert (later g g2) as A by (etrans; [by apply bgs_later|done]).
  assert (flying cs g2) as Hf2 by (unfold flying, hb0 in *; by rewrite W2, BG2).
  destruct x as [n|e].
  - eapply wp_mono; [|apply IH; [done..|by apply A]]. intros e g' ([H3 A3] & Hf3 & Hall).
    split_and!; [by split; [|etrans]|done|].
    intros He q [->|Hq]%elem_of_cons; [|by apply Hall]. apply A3. rewrite Hs. simpl. set_solver.
  - by apply wp_ret.
Qed.

Lemma delivered_batch cs sh g :
  Forall in_range (map pair_of cs) -> (sh, P0) ∈ l_handles g ->
  (forall q, q ∈ coalesce (sort_pairs (map pair_of cs)) -> (sh, q) ∈ l_log g) ->
  Forall (fun c => delivered g (pair_of c)) cs.
Proof.
  intros Hr Hsh Hall. apply Forall_forall. intros c Hc i b Hb.
  destruct (batch_bytes (map pair_of cs) (pair_of c) i b Hr) as (q & Hq & Hqb);
    [by apply list_elem_of_fmap_2|done|].
  exists sh, q. auto.
Qed.

(** Settling a flush in flight, by acknowledging or by failing it. *)
Lemma inv_ack cs g :
  inv g -> flying cs g -> Forall (fun c => delivered g (pair_of c)) cs ->
  inv (set_wb (ack_flush (l_wb g) h0 (zlen cs)) g).
Proof.
  intros H [Hhb Hbg] Hd.
  assert (set_wb (ack_flush (l_wb g) h0 (zlen cs)) g =
          set_bg None (set_wb (ack_flush (l_wb g) h0 (zlen cs)) g)) as -> by (destruct g; simpl in *; by subst).
  eapply (inv_shrink _ _ cs []); [done|by rewrite app_nil_r|done| |done].
  eapply chunks_ack_prefix. by rewrite app_nil_r.
Qed.

Lemma inv_fail cs g : inv g -> flying cs g -> inv (set_wb (fail_flush (l_wb g) h0) g).
Proof.
  intros H [Hhb Hbg].
  assert (set_wb (fail_flush (l_wb g) h0) g = set_bg None (set_wb (fail_flush (l_wb g) h0) g)) as ->
    by (destruct g; simpl in *; by subst).
  eapply inv_flag; [done|apply fail_flush_flag|done].
Qed.

Lemma inv_begin b wb g :
  inv g -> begin_flush (l_wb g) h0 = (Some b, wb) ->
  inv (set_wb wb g) /\ flying (chunks_of (l_wb g) h0) (set_wb wb g).
Proof.
  intros H Hb. destruct (begin_flush_flag _ _ _ Hb) as [Hwb (hb & Hhb & Hs)].
  assert (l_bg g = None) as Hn.
  { destruct (l_bg g) as [cs|] eqn:E; [|done]. destruct (li_bg _ _ _ H cs E) as [rest Hr].
    unfold hb0 in Hr. rewrite Hhb in Hr. by injection Hr as ->. }
  assert (set_wb wb g = set_bg None (set_wb wb g)) as Hset by (destruct g; simpl in *; by subst).
  split.
  - rewrite Hset. eapply inv_flag; [done|exact Hwb|done].
  - split; [|done]. unfold hb0, chunks_of. simpl. by rewrite Hwb, Hhb.
Qed.

(** After a failed send of a positioned handle: the chunks stay, and a flush may
    be tried again. *)
Lemma flush_failed n e allow gen g g6 cs :
  (forall err g, inv g -> W (flush_attempts n err h0 allow) g (still g)) ->
  inv g6 -> flying cs g6 -> later g g6 ->
  W (entry <- fc (FilesGet h0) ;;
     if match entry with Some f => of_is_append f | None => false end then
       fc (WbDrop h0) ;;; fc (ErrInsert h0) ;;; Ret (Err e)
     else
       fc (WbFail h0) ;;;
       if allow : bool then
         gen' <- fc ReconnectGen ;;
         if negb (gen' =? gen) then flush_attempts n (Some e) h0 allow else Ret (Err e)
       else Ret (Err e)) g6 (still g).
Proof.
  intros IH H6 Hf6 A. apply wp_bind, wp_ev; [done|]. intros g7 f g8 H7 B7 [-> ->].
  pose proof (flying_bgs _ _ _ Hf6 B7) as Hf7.
  assert (match l_files g7 !! h0 with Some f => of_is_append f | None => false end = false) as ->.
  { destruct (l_files g7 !! h0) as [f|] eqn:Ef; [|done]. by destruct (li_file _ _ _ H7 f Ef) as (_ & ? & _). }
  apply wp_bind, wp_ev; [done|]. intros g8 [] g9 H8 B8 ->.
  pose proof (inv_fail _ _ H8 (flying_bgs _ _ _ Hf7 B8)) as H9.
  assert (later g (set_wb (fail_flush (l_wb g8) h0) g8)) as A8.
  { etrans; [exact A|]. etrans; [by apply bgs_later|]. etrans; [by apply bgs_later|done]. }
  destruct allow; [|by apply wp_ret].
  eapply wp_seq; [by apply (quiet_ev ReconnectGen)|]. intros gen' g10 [H10 A10].
  assert (later g g10) as A10' by (by etrans).
  destruct (negb _); [|by apply wp_ret].
  eapply wp_mono; [|by apply IH]. intros r g11 [H11 A11]. split; [done|by etrans].
Qed.

Lemma flush_attempts_h0 n err allow g : inv g -> W (flush_attempts n err h0 allow) g (still g).
Proof.
  revert err g. induction n as [|n IH]; intros err g H; [by apply wp_ret|]. cbn [flush_attempts].
  eapply wp_seq; [by apply wp_ensure_live|]. intros [sh|] g1 [[H1 A1] Hsh].
  2:{ eapply wp_seq; [by apply (quiet_ev (WbHasBuffered h0))|]. intros b g2 [H2 A2].
      split; [done|by etrans]. }
  specialize (Hsh sh eq_refl). apply wp_bind, wp_ev; [done|]. intros g2 o g3 H2 B2 [Ho ->].
  assert (later g g2) as A2 by (etrans; [exact A1|by apply bgs_later]).
  apply (lt_handles _ _ (bgs_later _ _ B2)) in Hsh. remember (l_wb g3) as wb3. clear Heqwb3 g3.
  destruct o as [b|].
  2:{ assert (wb3 = l_wb g2) as -> by (revert Ho; unfold begin_flush; repeat case_match; congruence).
      by destruct g2. }
  destruct (begin_flush_inv _ _ _ _ (eq_sym Ho)) as (Hb & Hn & _).
  destruct (inv_begin _ _ _ H2 (eq_sym Ho)) as [H3 Hf3].
  pose proof (li_range _ _ _ H2) as Hr. unfold Durable.buffered in Hr.
  set (cs := chunks_of (l_wb g2) h0) in *.
  assert (later g (set_wb wb3 g2)) as A3 by (etrans; [exact A2|done]).
  apply wp_bind, wp_ev; [done|]. intros g4 gen g5 H4 B4 ->.
  pose proof (flying_bgs _ _ _ Hf3 B4) as Hf4. pose proof (bgs_later _ _ B4) as A4.
  eapply wp_seq; [apply (wp_send_batch cs); [done..|by apply A4]|].
  intros e g6 ([H6 A6] & Hf6 & Hall).
  assert (later g g6) as A by (etrans; [exact A3|by etrans]).
  assert ((sh, P0) ∈ l_handles g6) as Hsh6 by (by apply A6, A4).
  clear A1 A2 A3 A4 A6 B2 B4. destruct e as [e|].
  - by eapply flush_failed.
  - apply wp_bind, wp_ev; [done|]. intros g7 [] g8 H7 B7 ->.
    pose proof (flying_bgs _ _ _ Hf6 B7) as Hf7. pose proof (bgs_later _ _ B7) as A7.
    apply wp_ret. split; [|by etrans; [exact A|destruct A7]]. rewrite Hn. apply inv_ack; [done..|].
    eapply delivered_batch; [done|by apply A7|]. intros q Hq. apply A7, Hall; [done|]. by rewrite Hb.
Qed.

(** Structural steps of a proof that a program is quiet. *)
Ltac quiet_step :=
  first
    [ apply quiet_ret
    | apply quiet_ev; simpl; done
    | apply quiet_bind; [|intros ?]
    | apply quiet_bindr; [|intros ?]
    | case_match ].

Lemma quiet_ensure_live k allow : quiet (ensure_live k allow).
Proof.
  destruct (decide (k = h0)) as [->|Hne].
  - intros g H. eapply wp_mono; [|by apply wp_ensure_live]. by intros r g' [? _].
  - unfold ensure_live. repeat quiet_step.
Qed.

Lemma quiet_send_batch sh l : quiet (send_batch sh l).
Proof. induction l as [|[off data] l IH]; cbn [send_batch]; repeat quiet_step. exact IH. Qed.

Lemma quiet_flush_one k allow : quiet (flush_one k allow).
Proof.
  unfold flush_one. generalize (@None str) as err. generalize 2%nat as n.
  destruct (decide (k = h0)) as [->|Hne]; [intros n err g H; by apply flush_attempts_h0|].
  induction n as [|n IH]; intros err; cbn [flush_attempts]; [apply quiet_ret|].
  apply quiet_bind; [apply quiet_ensure_live|]. intros [sh|]; [|by repeat quiet_step].
  apply quiet_bind; [by apply quiet_ev|]. intros [b|]; [|apply quiet_ret].
  apply quiet_bind; [by apply quiet_ev|]. intros gen.
  apply quiet_bind; [apply quiet_send_batch|]. intros [e|]; repeat quiet_step; apply IH.
Qed.

Lemma quiet_drain n k : quiet (drain n k).
Proof.
  induction n as [|n IH]; cbn [drain]; [apply quiet_ret|].
  apply quiet_bindr; [apply quiet_flush_one|intros _]. repeat quiet_step. exact IH.
Qed.

Lemma quiet_flush_all : quiet flush_all_handles.
Proof.
  unfold flush_all_handles. apply quiet_bind; [by apply quiet_ev|]. intros hs.
  generalize (@None str) as err. induction hs as [|h hs IH]; intros err; cbn [flush_each]; [apply quiet_ret|].
  apply quiet_bind; [apply quiet_flush_one|]. intros r. apply IH.
Qed.

(** Programs that give out at most one handle, while the counter has not come full
    circle. *)
Definition allocates {A} (m : fs A) : Prop :=
  forall g, inv g -> l_next g + 1 < 2 ^ 64 -> W m g (fun _ g' => inv g' /\ l_acc g' = l_acc g).

Lemma quiet_allocates {A} (m : fs A) : quiet m -> allocates m.
Proof. intros Hm g H _. eapply wp_mono; [|by apply Hm]. intros a g' [? []]. done. Qed.

Lemma allocates_after {A B} (m : fs A) (f : A -> fs B) : quiet m -> (forall x, allocates (f x)) -> allocates (bind m f).
Proof.
  intros Hm Hf g H Hn. eapply wp_seq; [by apply Hm|]. intros a g1 [H1 [A1 _ _ N1]].
  eapply wp_mono; [|apply Hf; [done|by rewrite N1]]. intros b g2 [H2 A2]. split; [done|congruence].
Qed.

Lemma allocates_then {A B} (m : fs A) (f : A -> fs B) : allocates m -> (forall x, quiet (f x)) -> allocates (bind m f).
Proof.
  intros Hm Hf g H Hn. eapply wp_seq; [by apply Hm|]. intros a g1 [H1 A1].
  eapply wp_mono; [|by apply Hf]. intros b g2 [H2 [A2 _ _ _]]. split; [done|congruence].
Qed.

Lemma allocates_register_open p flags sh : allocates (register_open p flags sh).
Proof.
  intros g H Hn. unfold register_open. apply wp_bind, wp_ev; [done|]. intros g1 x g2 H1 B1 [-> ->].
  pose proof (li_next _ _ _ H1) as Hh. destruct (bgs_frame _ _ B1) as [F1 _ _ _ _ F6].
  assert (h0 < wrap64 (l_next g1 + 1)) as Hnext.
  { destruct (decide (0 <= l_next g1)); [rewrite wrap_small by (unfold in_width; lia); lia|].
    pose proof (wrap_range 64 (l_next g1 + 1) ltac:(lia)). unfold in_width in *. lia. }
  assert (inv (set_next (wrap64 (l_next g1 + 1)) g1)) as H2.
  { eapply inv_change; [exact H1|..]; try done; try apply H1. by left. }
  eapply wp_mono; [|apply quiet_bind; [by apply quiet_ev| |exact H2]].
  - intros fh g3 [H3 [A3 _ _ _]]. split; [done|]. simpl in A3. congruence.
  - intros gen. apply quiet_bind; [apply quiet_ev; simpl; lia|]. intros []. apply quiet_ret.
Qed.

(** ** Closing *)

Lemma wp_drain n g : inv g -> W (drain n h0) g (fun r g' => still g r g' /\ (is_ok r = true -> drained g')).
Proof.
  revert g. induction n as [|n IH]; intros g H; cbn [drain]; [by apply wp_ret|].
  apply wp_bindr. eapply wp_mono; [|by apply (quiet_flush_one h0 true)].
  intros [[]|e] g1 [H1 A1]; [|by split].
  apply wp_bind, wp_ev; [done|]. intros g2 b g3 H2 B2 [-> ->].
  assert (later g g2) as A2 by (etrans; [exact A1|by apply bgs_later]).
  destruct (has_buffered (l_wb g2) h0) eqn:E; simpl.
  - eapply wp_seq; [by apply (quiet_ev (SleepMs 5))|]. intros [] g3 [H3 A3].
    eapply wp_mono; [|by apply IH]. intros r g4 [[H4 A4] Hd]. split; [|done]. split; [done|].
    etrans; [exact A2|by etrans].
  - apply wp_ret. split; [done|]. intros _. unfold drained, chunks_of, has_buffered in *.
    destruct (wb_per_handle (l_wb g2) !! h0) as [hb|]; [|done].
    apply negb_false_iff, bool_decide_eq_true in E. done.
Qed.

(** Success means that nothing accepted is outstanding. *)
Definition settled (g : ledger) (r : result Z unit) (g' : ledger) : Prop :=
  inv g' /\ (r = Ok tt -> later g g' /\ Forall (delivered g') (l_acc g')).

Lemma wp_flush_outcome g : inv g -> W (flush_outcome h0) g (settled g).
Proof.
  intros H. unfold flush_outcome. eapply wp_seq; [by apply wp_drain|].
  intros r g1 [[H1 A1] Hd]. apply wp_bind, wp_ev; [done|]. intros g2 x g3 H2 B2 [-> ->].
  rewrite (bool_decide_true (h0 = h0)) by done. apply wp_ret.
  assert (later g g2) as A2 by (etrans; [exact A1|by apply bgs_later]).
  case_bool_decide as He; simpl.
  - split; [|destruct r; by intros [=]].
    split; simpl; [apply H2|apply H2|apply H2|apply H2|]. right. apply Forall_forall. by left.
  - assert (Forall (fun p => p ∈ buffered g2 \/ delivered g2 p) (l_acc g2)) as Hacc
      by (by destruct (li_acc _ _ _ H2)).
    split.
    + split; simpl; [apply H2|apply H2|apply H2|apply H2|]. by right.
    + intros Hr. destruct r as [[]|]; [|done]. split; [by destruct A2|].
      pose proof (drained_bgs _ _ (Hd eq_refl) B2) as Hd2. eapply Forall_impl; [exact Hacc|].
      intros p [Hp|Hp]; [|exact Hp]. unfold Durable.buffered in Hp. unfold drained in Hd2.
      rewrite Hd2 in Hp. by apply not_elem_of_nil in Hp.
Qed.

Lemma settled_later {A} g (r : A) g' g2 :
  settled g (Ok tt) g' -> still g' r g2 -> inv g2 /\ later g g2 /\ Forall (delivered g2) (l_acc g2).
Proof.
  intros [H1 Hok] [H2 A2]. destruct (Hok eq_refl) as [A1 Hd]. split_and!; [done|by etrans|].
  rewrite (lt_acc _ _ A2). eapply Forall_impl; [exact Hd|]. intros p.
  by apply delivered_mono; apply A2.
Qed.

(** ** Writing *)

Lemma push_chunks iter wb off data now x wb' :
  (x, wb') = push iter wb h0 off data now ->
  (x = Reject /\ wb' = wb) \/
  (x <> Reject /\ wb_per_handle wb' !! h0 =
     Some (MkHandleBuf (chunks_of wb h0 ++ [MkPendingWrite off data now])
             (match wb_per_handle wb !! h0 with Some hb => hb_sending hb | None => false end))).
Proof.
  unfold push, chunks_of. destruct (_ <? _); [intros [= -> ->]; by left|]. intros E. right.
  assert (wb_per_handle wb' = <[h0 := MkHandleBuf
    (hb_chunks (default HandleBuf_default (wb_per_handle wb !! h0)) ++ [MkPendingWrite off data now])
    (hb_sending (default HandleBuf_default (wb_per_handle wb !! h0)))]> (wb_per_handle wb) /\ x <> Reject) as [-> Hx].
  { revert E. simpl. repeat (destruct (_ <=? _)); by intros [= -> ->]. }
  split; [done|]. rewrite lookup_insert_eq. by destruct (wb_per_handle wb !! h0).
Qed.

Lemma inv_push g off data x g' :
  inv g -> in_range (off, data) -> fs_step h0 (WbPush h0 off data) g x g' ->
  inv g' /\ l_acc g' = l_acc g ++ match x with Reject => [] | _ => [(off, data)] end.
Proof.
  intros H Hr (iter & now & Hp & Hg'). rewrite bool_decide_true in Hg' by done. simpl in Hg'.
  destruct (push_chunks _ _ _ _ _ _ _ Hp) as [[-> E]|[Hx E]].
  { rewrite Hg', E, app_nil_r. split; [|done]. by destruct g. }
  assert ((match x with Reject => false | _ => true end) = true) as Ex by (by destruct x).
  rewrite Ex in Hg'. split; [|rewrite Hg'; by destruct x].
  assert (buffered g' = buffered g ++ [(off, data)]) as Hb.
  { unfold Durable.buffered. unfold chunks_of at 1. rewrite E. simpl. by rewrite map_app. }
  rewrite Hg' in Hb |- *. split; simpl; [apply H|apply H| | |].
  - rewrite Hb. apply Forall_app. split; [apply H|]. by apply Forall_singleton.
  - intros cs Hcs. destruct (li_bg _ _ _ H cs Hcs) as [rest Hhb]. unfold hb0 in *. simpl.
    exists (rest ++ [MkPendingWrite off data now]). rewrite E. unfold chunks_of. rewrite Hhb. simpl.
    by rewrite app_assoc.
  - destruct (li_acc _ _ _ H) as [HE|HE]; [by left|right]. rewrite Hb. apply Forall_app. split.
    + eapply Forall_impl; [exact HE|]. intros p [Hp'|Hp']; [left; set_solver|by right].
    + apply Forall_singleton. left. set_solver.
Qed.

(** ** The callbacks *)

Ltac quiet_call :=
  first
    [ apply quiet_flush_one | apply quiet_flush_all | apply quiet_ensure_live | apply quiet_drain | quiet_step ].

Lemma quiet_get_stat p : quiet (get_stat p).
Proof. unfold get_stat, check_reconnect, cache_stat. repeat quiet_call. Qed.

Lemma quiet_readdir_add p i l : quiet (readdir_add p i l).
Proof.
  revert i. induction l as [|e l IH]; intros i; cbn [readdir_add]; [apply quiet_ret|].
  repeat quiet_step. apply IH.
Qed.

Lemma quiet_fence flags : quiet (fence_truncating_open flags).
Proof. unfold fence_truncating_open. repeat quiet_call. Qed.

Lemma quiet_ns t : quiet (opt_ns t).
Proof. unfold opt_ns, ns_of. repeat quiet_step. Qed.

Ltac quiet_callback :=
  unfold with_path, on_rpc, reply_entry, reply_attr, make_file_attr, cache_stat;
  repeat first [apply quiet_get_stat | apply quiet_readdir_add | apply quiet_fence | apply quiet_ns | quiet_call].

Lemma quiet_write_other ino fh off data : fh <> h0 -> quiet (fuse_write ino fh off data).
Proof. intros Hne. unfold fuse_write, live_handle, flush_handle. quiet_callback. Qed.

Lemma quiet_outcome_other fh : fh <> h0 -> quiet (flush_outcome fh).
Proof. intros Hne. unfold flush_outcome, flush_handle_drain. quiet_callback. Qed.

Variables (uid gid : option Z) (ttl : Z).

(** Up to the program that gives out the handle. *)
Ltac to_register :=
  repeat first [apply allocates_after; [solve [quiet_callback]|intros ?] | case_match]; try (apply quiet_allocates; solve [quiet_callback]).

Lemma allocates_open ino flags : allocates (fuse_open ino flags).
Proof.
  unfold fuse_open, with_path, on_rpc. to_register.
  apply allocates_then; [apply allocates_register_open|]. intros fh. quiet_callback.
Qed.

Lemma allocates_create parent name mode flags : allocates (fuse_create uid gid ttl parent name mode flags).
Proof.
  unfold fuse_create, with_path, on_rpc. to_register.
  apply allocates_then; [apply allocates_register_open|]. intros fh. quiet_callback.
Qed.

(** The callbacks that neither write to the handle nor close it, nor open another. *)
Definition passive (c : callback) : Prop :=
  match c with
  | CbOpen _ _ | CbCreate _ _ _ _ => False
  | CbWrite _ fh _ _ | CbFlush fh | CbRelease fh | CbFsync fh _ => fh <> h0
  | _ => True
  end.

Lemma passive_quiet c : passive c -> quiet (run_callback uid gid ttl c).
Proof.
  intros Hp. destruct c; cbn [run_callback passive] in *.
  - unfold fuse_lookup. quiet_callback.
  - unfold fuse_getattr. quiet_callback.
  - unfold fuse_setattr, flush_handle. quiet_callback.
  - unfold fuse_readlink. quiet_callback.
  - unfold fuse_mkdir. quiet_callback.
  - unfold fuse_unlink. quiet_callback.
  - unfold fuse_rmdir. quiet_callback.
  - unfold fuse_symlink. quiet_callback.
  - unfold fuse_rename. quiet_callback.
  - unfold fuse_link. quiet_callback.
  - done.
  - unfold fuse_read, flush_handle, live_handle. quiet_callback.
  - by apply quiet_write_other.
  - unfold fuse_flush. apply quiet_bind; [by apply quiet_outcome_other|]. intros r. apply quiet_ret.
  - unfold fuse_release, flush_handle_drain. quiet_callback.
  - unfold fuse_fsync, live_handle. apply quiet_bind; [by apply quiet_outcome_other|]. intros r. quiet_callback.
  - apply quiet_ret.
  - unfold fuse_readdir. quiet_callback.
  - apply quiet_ret.
  - unfold fuse_statfs. quiet_callback.
  - done.
Qed.

(** What a reply to a write says. *)
Definition taken (r : reply) : bool := match r with ReplyWritten _ => true | _ => false end.

Lemma wp_write ino off data g :
  inv g -> in_range (wrap64 off, data) ->
  W (fuse_write ino h0 off data) g (fun r g' =>
    inv g' /\ l_acc g' = l_acc g ++ if taken r then [(wrap64 off, data)] else []).
Proof.
  intros H Hr. unfold fuse_write, live_handle.
  eapply wp_seq; [by apply (quiet_ev (InodePathOf ino))|]. intros o g1 [H1 A1].
  eapply wp_seq; [by destruct o; [apply (quiet_ev (CacheInvalidate _))|apply quiet_ret]|]. intros [] g2 [H2 A2].
  eapply wp_seq; [by apply quiet_ensure_live|]. intros lh g3 [H3 A3]. cbv zeta.
  apply wp_bind, wp_ev; [done|]. intros g4 x g5 H4 B4 Hs.
  destruct (inv_push _ _ _ _ _ H4 Hr Hs) as [H5 A5].
  assert (l_acc g4 = l_acc g) as A4.
  { rewrite (lt_acc _ _ (bgs_later _ _ B4)), (lt_acc _ _ A3), (lt_acc _ _ A2). apply A1. }
  rewrite A4 in A5. clear g1 g2 g3 g4 H1 H2 H3 H4 A1 A2 A3 A4 B4 Hs lh.
  assert (forall h, l_acc g5 = l_acc g ++ [(wrap64 off, data)] ->
    W (flush_handle h ;;; Ret (ReplyWritten (wrap32 (zlen data)))) g5 (fun r g' =>
      inv g' /\ l_acc g' = l_acc g ++ if taken r then [(wrap64 off, data)] else [])) as Hflush.
  { intros h A. eapply wp_seq; [by apply quiet_flush_one|]. intros r g6 [H6 A6].
    apply wp_ret. split; [done|]. simpl. by rewrite (lt_acc _ _ A6). }
  destruct x as [|h|h|]; [by apply wp_ret|by apply Hflush..|].
  eapply wp_seq; [by apply (quiet_ev (ErrInsert h0))|]. intros [] g6 [H6 A6].
  apply wp_ret. split; [done|]. simpl. by rewrite (lt_acc _ _ A6).
Qed.

Lemma wp_fsync datasync g :
  inv g -> W (fuse_fsync h0 datasync) g (fun r g' => inv g' /\
    ((r = ReplyOk /\ l_acc g' = l_acc g /\ Forall (delivered g') (l_acc g')) \/
     exists errno, r = ReplyError errno)).
Proof.
  intros H. unfold fuse_fsync. eapply wp_seq; [by apply wp_flush_outcome|].
  intros [[]|e] g1 Hs; [|apply wp_ret; split; [apply Hs|eauto]].
  eapply wp_seq; [apply quiet_ensure_live, Hs|]. intros [sh|] g2 H2.
  2:{ apply wp_ret. split; [apply H2|eauto]. }
  unfold on_rpc. eapply wp_seq; [apply (quiet_ev (Rpc (RFsync sh datasync))); [done|apply H2]|].
  intros x g3 H3.
  assert (still g1 x g3) as Hst by (split; [apply H3|etrans; [apply H2|apply H3]]).
  destruct (settled_later _ _ _ _ Hs Hst) as (H4 & A4 & Hd).
  destruct x as [[]|e]; apply wp_ret; (split; [done|]); [|eauto].
  left. split_and!; [done|apply A4|done].
Qed.
End Proofs.

(** ** The background task keeps to its part

    The ledger during a flush of the background task ([allow_reopen] is false),
    with the FUSE thread's steps before each of its events: it may accept writes
    on the handle, send and settle its own flushes and reopen files, but it
    leaves the background's flush in flight alone. *)

Section Background.
Variables (h0 : Z) (P0 : str).

Record fuse_frame (g g' : ledger) : Prop := {
  ff_bg : l_bg g' = l_bg g;
  ff_log : l_log g ⊆ l_log g';
  ff_handles : l_handles g ⊆ l_handles g';
  ff_file : file_ok h0 P0 g';
  ff_range : Forall in_range (buffered h0 g')
}.

(** The steps [bg] allows. *)
Definition bg_pre {X} (e : fsE X) (g : ledger) : Prop :=
  match e with
  | WbBegin fh => fh = h0 -> l_bg g = None
  | WbAck fh n => fh = h0 -> exists cs, l_bg g = Some cs /\ n = zlen cs /\
      Forall (fun c => delivered P0 g (pair_of c)) cs
  | WbFail fh => fh = h0 -> l_bg g <> None
  | WbDrop fh | ErrInsert fh => fh <> h0
  | WbPush _ _ _ | ErrRemove _ | FilesReopened _ _ _ | FilesInsert _ _ | FilesRemove _ | NextClientFh => False
  | Rpc r => match r with RWrite _ _ _ => True | _ => False end
  | _ => True
  end.

(** The ghost bookkeeping of [bg_begin], [bg_ack] and [bg_fail]. *)
Definition bg_mark {X} (e : fsE X) (x : X) (g g' : ledger) : ledger :=
  match e in fsE X return X -> ledger with
  | WbBegin fh => fun x =>
      if bool_decide (fh = h0) && match x with Some _ => true | None => false end
      then set_bg (Some (chunks_of (l_wb g) h0)) g' else g'
  | WbAck fh _ => fun _ => if bool_decide (fh = h0) then set_bg None g' else g'
  | WbFail fh => fun _ => if bool_decide (fh = h0) then set_bg None g' else g'
  | _ => fun _ => g'
  end x.

(** The obligation: whatever the answer, the event is a step of [bg], the
    steps the callbacks were proved to tolerate. *)
Definition bg_spec : spec fsE ledger :=
  Spec _ _
    (fun X e g => forall g1 x g2, fuse_frame g g1 -> fs_step h0 e g1 x g2 ->
       rtc (bg h0 P0) g1 (bg_mark e x g1 g2))
    (fun X e g x g' => exists g1 g2, fuse_frame g g1 /\ fs_step h0 e g1 x g2 /\ g' = bg_mark e x g1 g2).

Lemma rpc_write_bg sh off data g x g2 : rpc_step (RWrite sh off data) g x g2 -> rtc (bg h0 P0) g g2.
Proof. simpl. destruct x; intros ->; [apply rtc_once; constructor|done]. Qed.

Lemma bg_pre_ok {X} (e : fsE X) g : bg_pre e g -> sp_pre bg_spec e g.
Proof.
  intros Hp g1 x g2 [Fb Fl Fh _ _] Hs.
  assert (forall wb, wb_per_handle wb !! h0 = wb_per_handle (l_wb g1) !! h0 ->
    rtc (bg h0 P0) g1 (set_wb wb g1)) as Hother by (intros wb E; apply rtc_once; by constructor).
  destruct e; simpl in Hp, Hs |- *; try done; try (by subst); try (apply proj2 in Hs; by subst).
  - destruct Hs as [E Hg2]. destruct (decide (fh = h0)) as [->|Hne].
    + rewrite bool_decide_true by done. destruct x as [b|]; simpl.
      * rewrite Hg2. apply rtc_once. eapply bg_begin; [by rewrite E|]. rewrite Fb. by apply Hp.
      * rewrite Hg2. assert (l_wb g2 = l_wb g1) as -> by (revert E; unfold begin_flush; repeat case_match; congruence).
        by destruct g1.
    + rewrite bool_decide_false by done. simpl. rewrite Hg2. apply Hother. by eapply begin_flush_other.
  - subst g2. case_bool_decide as Hfh; [subst fh|apply Hother; by apply ack_flush_other].
    destruct (Hp eq_refl) as (cs & Hcs & -> & Hd). apply rtc_once. constructor; [congruence|].
    eapply Forall_impl; [exact Hd|]. intros c. by apply delivered_mono.
  - subst g2. case_bool_decide as Hfh; [subst fh|apply Hother; by apply fail_flush_other].
    apply rtc_once. destruct (l_bg g1) as [cs|] eqn:E; [by econstructor|]. by destruct (Hp eq_refl).
  - destruct Hs as [E ->]. apply Hother. by eapply drop_handle_other.
  - subst g2. apply rtc_once. by constructor.
  - destruct r; try done. by eapply rpc_write_bg.
Qed.

Abbreviation WB := (wp bg_spec).

Lemma wp_bg {X} (e : fsE X) g Q :
  bg_pre e g ->
  (forall g1 x g2, fuse_frame g g1 -> fs_step h0 e g1 x g2 -> Q x (bg_mark e x g1 g2)) -> WB (fc e) g Q.
Proof.
  intros Hp HQ. apply wp_call; [by apply bg_pre_ok|]. intros x g' (g1 & g2 & Hf & Hs & ->). eauto.
Qed.

(** Sending the background's batch. *)
Lemma bg_send_batch sh batch g :
  WB (send_batch sh batch) g (fun e g' =>
    l_bg g' = l_bg g /\ l_handles g ⊆ l_handles g' /\ l_log g ⊆ l_log g' /\
    (e = None -> forall q, q ∈ batch -> (sh, q) ∈ l_log g')).
Proof.
  revert g. induction batch as [|[off data] batch IH]; intros g; cbn [send_batch].
  { apply wp_ret. split_and!; [done..|]. intros _ q Hq. by apply not_elem_of_nil in Hq. }
  apply wp_bind, wp_bg; [done|]. intros g1 x g2 [Fb Fl Fh _ _] Hs. simpl in Hs |- *.
  destruct x as [n|e]; subst g2.
  - eapply wp_mono; [|apply IH]. intros e g' (Hb & Hh & Hl & Hall). simpl in *.
    split_and!; [congruence|by etrans| |].
    + etrans; [exact Fl|]. etrans; [apply sub_app_l|exact Hl].
    + intros He q [->|Hq]%elem_of_cons; [apply Hl; set_solver|by apply Hall].
  - by apply wp_ret.
Qed.

(** A background flush without reopening: a server handle comes from the table. *)
Lemma bg_ensure_live k g :
  l_bg g = None -> WB (ensure_live k false) g (fun r g' =>
    l_bg g' = None /\ forall sh, r = Some sh -> k = h0 -> (sh, P0) ∈ l_handles g').
Proof.
  intros Hn. unfold ensure_live. apply wp_bind, wp_bg; [done|]. intros g1 cur g2 F1 ->.
  simpl. assert (l_bg g1 = None) as Hn1 by (by rewrite (ff_bg _ _ F1)).
  apply wp_bind, wp_bg; [done|]. intros g3 o g4 F3 [-> ->]. simpl.
  assert (l_bg g3 = None) as Hn3 by (by rewrite (ff_bg _ _ F3)).
  destruct (l_files g3 !! k) as [f|] eqn:E; [|by apply wp_ret].
  destruct (_ =? cur); [|by apply wp_ret]. apply wp_ret. split; [done|].
  intros sh [= <-] ->. by destruct (ff_file _ _ F3 f E) as (_ & _ & ?).
Qed.
End Background.

(** The background's flush of [k] in flight with batch [b]. *)
Record ours (h0 : Z) (P0 : str) (k sh : Z) (b : FlushBatch) (g : ledger) : Prop := {
  ours_cs : k = h0 -> exists cs, l_bg g = Some cs /\ fb_chunks b = coalesce (sort_pairs (map pair_of cs)) /\
    fb_sent_count b = zlen cs /\ Forall in_range (map pair_of cs) /\ (sh, P0) ∈ l_handles g;
  ours_other : k <> h0 -> l_bg g = None
}.

Lemma ours_frame h0 P0 k sh b g' g :
  l_bg g' = l_bg g /\ l_handles g ⊆ l_handles g' -> ours h0 P0 k sh b g -> ours h0 P0 k sh b g'.
Proof.
  intros [Hb Hh] [H1 H2]. split; [|intros Hk; rewrite Hb; auto]. intros Hk.
  destruct (H1 Hk) as (cs & ? & ? & ? & ? & ?). exists cs. rewrite Hb. split_and!; auto.
Qed.

Lemma fuse_frame_before h0 P0 g g' : fuse_frame h0 P0 g g' -> l_bg g' = l_bg g /\ l_handles g ⊆ l_handles g'.
Proof. intros F. split; apply F. Qed.

(** After a failed send: a positioned handle keeps its chunks. *)
Lemma bg_failed h0 P0 k sh b e g g0 :
  fuse_frame h0 P0 g0 g -> ours h0 P0 k sh b g ->
  wp (bg_spec h0 P0)
    (if match l_files g !! k with Some f => of_is_append f | None => false end then
       fc (WbDrop k) ;;; fc (ErrInsert k) ;;; Ret (Err e)
     else fc (WbFail k) ;;; Ret (Err e)) g (fun (_ : anyhow unit) g' => l_bg g' = None).
Proof.
  intros F Hours. destruct (match l_files g !! k with Some f => of_is_append f | None => false end) eqn:Happ.
  - assert (k <> h0) as Hne.
    { intros ->. destruct (l_files g !! h0) as [f|] eqn:Ef; [|done].
      destruct (ff_file _ _ _ _ F f Ef) as (_ & ? & _). congruence. }
    apply wp_bind, wp_bg; [done|]. intros g1 x g2 F1 [Hx ->]. simpl.
    apply wp_bind, wp_bg; [done|]. intros g3 [] g4 F3 ->. apply wp_ret. simpl.
    rewrite (ff_bg _ _ _ _ F3). simpl. rewrite (ff_bg _ _ _ _ F1). by apply Hours.
  - apply wp_bind, wp_bg.
    + intros ->. destruct (ours_cs _ _ _ _ _ _ Hours eq_refl) as (cs & -> & _). done.
    + intros g1 [] g2 F1 ->. apply wp_ret. simpl. case_bool_decide; [done|]. simpl.
      rewrite (ff_bg _ _ _ _ F1). by apply Hours.
Qed.

(** ** Executions

    An environment in which the callbacks run: the ledger's own state, and a
    server, clocks, cache and inode table that answer as [kern] says. *)

Section Exec.
Variable h0 : Z.
Context {K : Type} (kern : forall X, fsE X -> K -> X * K) (now : Z).

Definition rpc_after {A} (r : rpcE A) : anyhow A -> ledger -> ledger :=
  match r in rpcE A return anyhow A -> ledger -> ledger with
  | ROpen p _ => fun x g => match x with Ok (sh, _) => add_handle sh p g | Err _ => g end
  | RCreate p _ _ => fun x g => match x with Ok (sh, _) => add_handle sh p g | Err _ => g end
  | RWrite sh off data => fun x g => match x with Ok _ => add_log [(sh, (off, data))] g | Err _ => g end
  | _ => fun _ g => g
  end.

Definition fs_exec (X : Type) (e : fsE X) (s : ledger * K) : X * (ledger * K) :=
  let '(g, k) := s in
  let ask := let '(x, k) := kern X e k in (x, (g, k)) in
  match e in fsE X return X * (ledger * K) -> X * (ledger * K) with
  | WbBegin fh => fun _ => let '(x, wb) := begin_flush (l_wb g) fh in (x, (set_wb wb g, k))
  | WbAck fh n => fun _ => (tt, (set_wb (ack_flush (l_wb g) fh n) g, k))
  | WbFail fh => fun _ => (tt, (set_wb (fail_flush (l_wb g) fh) g, k))
  | WbDrop fh => fun _ => let '(x, wb) := drop_handle (l_wb g) fh in (x, (set_wb wb g, k))
  | WbPush fh off data => fun _ =>
      let '(x, wb) := push map_to_list (l_wb g) fh off data now in
      (x, (set_acc (if bool_decide (fh = h0) && match x with Reject => false | _ => true end
                    then l_acc g ++ [(off, data)] else l_acc g) (set_wb wb g), k))
  | WbHasBuffered fh => fun _ => (has_buffered (l_wb g) fh, (g, k))
  | WbTotalBytes => fun _ => (wb_total_bytes (l_wb g), (g, k))
  | WbHandles => fun _ => (elements (wb_handles (l_wb g)), (g, k))
  | WbOlderThan deadline => fun _ => (elements (older_than (l_wb g) deadline now), (g, k))
  | WbExpired => fun _ => (elements (expired_handles (l_wb g) now), (g, k))
  | ErrInsert fh => fun _ => (tt, (set_err ({[fh]} ∪ l_err g) g, k))
  | ErrRemove fh => fun _ =>
      let x := bool_decide (fh ∈ l_err g) in
      (x, (set_acc (if bool_decide (fh = h0) && x then buffered h0 g else l_acc g)
             (set_err (l_err g ∖ {[fh]}) g), k))
  | FilesGet fh => fun _ => (l_files g !! fh, (g, k))
  | FilesReopened fh sh gen => fun _ => (tt, (set_files
      (alter (fun f => MkOpenFile (of_path f) (of_flags f) sh gen (of_is_append f)) fh (l_files g)) g, k))
  | FilesInsert fh f => fun _ => (tt, (set_files (<[fh := f]> (l_files g)) g, k))
  | FilesRemove fh => fun _ => (l_files g !! fh, (set_files (delete fh (l_files g)) g, k))
  | NextClientFh => fun _ => (l_next g, (set_next (wrap64 (l_next g + 1)) g, k))
  | Rpc r => fun a => (fst a, (rpc_after r (fst a) g, snd (snd a)))
  | _ => fun a => a
  end ask.

(** The environment answers as the callbacks' specification says. *)
Lemma fs_exec_ok P0 X (e : fsE X) s g :
  fst s = g -> sp_pre (fuse_spec h0 P0) e g ->
  exists g', sp_post (fuse_spec h0 P0) e g (fst (fs_exec X e s)) g' /\ fst (snd (fs_exec X e s)) = g'.
Proof.
  destruct s as [g0 k]. intros <- _. eexists. split; [|reflexivity]. exists g0. split; [done|].
  unfold fs_exec. destruct (kern X e k) as [x k'] eqn:Ek.
  destruct e; simpl in *; try (split; done); try done.
  - by destruct (begin_flush (l_wb g0) fh).
  - by destruct (drop_handle (l_wb g0) fh).
  - exists map_to_list, now. by destruct (push map_to_list (l_wb g0) fh offset data now).
  - by destruct r.
Qed.
End Exec.

(** A server that fails every RPC, and one that acknowledges every write. *)
Definition demo_kern (up : bool) (X : Type) (e : fsE X) (k : unit) : X * unit :=
  (match e in fsE X return X with
   | WbBegin _ => None | WbAck _ _ => tt | WbFail _ => tt | WbDrop _ => 0 | WbPush _ _ _ => Reject
   | WbHasBuffered _ => false | WbTotalBytes => 0 | WbHandles => [] | WbOlderThan _ => [] | WbExpired => []
   | ErrInsert _ => tt | ErrRemove _ => false
   | FilesGet _ => None | FilesReopened _ _ _ => tt | FilesInsert _ _ => tt | FilesRemove _ => None
   | NextClientFh => 0 | ReconnectGen => 0 | LastGenLoad => 0 | LastGenStore _ => tt
   | CacheGet _ => None | CacheInsert _ _ _ => tt | CacheNegative _ => tt | CacheInvalidate _ => tt
   | CacheClear => tt
   | InodePathOf _ => None | InodeAlloc _ => 1 | InodeRemove _ => tt | InodeRename _ _ => tt
   | Rpc r =>
       match r in rpcE A return anyhow A with
       | RWrite _ _ data => if up then Ok (zlen data) else Err (lit "connection lost")
       | _ => Err (lit "connection lost")
       end
   | SleepMs _ => tt | SystemNow => 0 | ReplyAdd _ _ _ _ => false
   end, k).

(** One file open under handle 1, with one byte written and still buffered. *)
Definition demo_ledger : ledger :=
  MkLedger (MkWriteBuffer {[1 := MkHandleBuf [MkPendingWrite 0 [x61] 0] false]} 1 100 1000 2000 10)
    ∅ {[1 := MkOpenFile (lit "/f") 1 7 0 false]} 2 [(0, [x61])] [] [(7, lit "/f")] None.

Lemma demo_ledger_inv : ledger_inv 1 (lit "/f") demo_ledger.
Proof.
  split; simpl; [|lia| |done|right].
  - intros f [= <-]. split_and!; [done..|]. left.
  - unfold buffered. simpl. apply Forall_singleton. split; simpl; lia.
  - apply Forall_singleton. left. vm_compute. left.
Qed.

(** ** Theorems *)

(** C11: no write is lost silently.  Take a handle opened for positioned writes,
    any callback of the kernel except the release of that handle, any behaviour
    of the server and of reconnects, and the background task's flushes in
    between; the client's 64-bit counter of handles is not at its last value when
    another file is opened.  The ledger of the handle stays consistent; a write answered with
    success is on it; nothing leaves it unless a [flush] (close) or [fsync] on
    the handle answers with an error; and when one of these answers success,
    every byte of every write on the ledger has been acknowledged by the server,
    at its offset, on a handle of the file's path. *)
Theorem no_silent_loss h0 P0 uid gid ttl c g :
  ledger_inv h0 P0 g ->
  match c with
  | CbRelease fh => fh <> h0
  | CbWrite _ fh off data => in_range (wrap64 off, data)
  | CbOpen _ _ | CbCreate _ _ _ _ => l_next g + 1 < 2 ^ 64
  | _ => True
  end ->
  wp (fuse_spec h0 P0) (run_callback uid gid ttl c) g (fun r g' =>
    ledger_inv h0 P0 g' /\
    match c with
    | CbWrite _ fh off data =>
        l_acc g' = l_acc g ++ if bool_decide (fh = h0) && taken r then [(wrap64 off, data)] else []
    | CbFlush fh | CbFsync fh _ =>
        if bool_decide (fh = h0) then
          (r = ReplyOk /\ l_acc g' = l_acc g /\ Forall (delivered P0 g') (l_acc g')) \/
          (exists errno, r = ReplyError errno)
        else l_acc g' = l_acc g
    | _ => l_acc g' = l_acc g
    end).
Proof.
  intros H Hc.
  assert (passive h0 c -> wp (fuse_spec h0 P0) (run_callback uid gid ttl c) g
            (fun r g' => ledger_inv h0 P0 g' /\ l_acc g' = l_acc g)) as Hpass.
  { intros Hp. eapply wp_mono; [|by apply (passive_quiet h0 P0)]. intros r g' [? A]. split; [done|apply A]. }
  destruct c; try exact (Hpass I); [by apply allocates_open| | |exact (Hpass Hc)| |by apply allocates_create].
  - case_bool_decide as Hfh; [subst; by apply wp_write|].
    eapply wp_mono; [|by apply Hpass]. intros r g' [? ->]. by rewrite app_nil_r.
  - case_bool_decide as Hfh; [subst|exact (Hpass Hfh)]. cbn [run_callback]. unfold fuse_flush.
    eapply wp_seq; [by apply (wp_flush_outcome h0 P0)|]. intros [[]|e] g1 [H1 Hs]; apply wp_ret; split; try done.
    + left. destruct (Hs eq_refl) as [A Hd]. split_and!; [done|apply A|done].
    + right. eauto.
  - case_bool_decide as Hfh; [subst|exact (Hpass Hfh)]. by apply wp_fsync.
Qed.

Lemma no_silent_loss_witness :
  ledger_inv 1 (lit "/f") demo_ledger /\
  let '(r, (g', _)) := run (fs_exec 1 (demo_kern true) 0) (run_callback None None 1 (CbFlush 1)) (demo_ledger, tt) in
  r = ReplyOk /\ l_acc g' = [(0, [x61])] /\ Forall (delivered (lit "/f") g') (l_acc g').
Proof.
  split; [apply demo_ledger_inv|].
  destruct (run_wp (fuse_spec 1 (lit "/f")) (fs_exec 1 (demo_kern true) 0) (fun s g => fst s = g)
    (fun X e s g H1 H2 => fs_exec_ok 1 (demo_kern true) 0 (lit "/f") X e s g H1 H2)
    (run_callback None None 1 (CbFlush 1)) (demo_ledger, tt) demo_ledger _ eq_refl
    (no_silent_loss 1 (lit "/f") None None 1 (CbFlush 1) demo_ledger demo_ledger_inv I)) as (g' & [_ H] & Hg).
  assert (fst (run (fs_exec 1 (demo_kern true) 0) (run_callback None None 1 (CbFlush 1)) (demo_ledger, tt))
          = ReplyOk) as Hr by (by vm_compute).
  destruct (run _ _ _) as [r [g1 k1]]. simpl in *. subst.
  destruct H as [H|[e He]]; [exact H|discriminate].
Defined.

(** The background task's flushes are within what the callbacks tolerate.
    Whatever the FUSE thread does between its events (as long as it leaves the
    flush in flight alone), each event of a background flush, on this or any other
    handle, is one of the steps [bg] under which callbacks were proved to lose
    nothing, and no flush is left in flight. *)
Theorem background_flush_conforms h0 P0 k g :
  l_bg g = None ->
  wp (bg_spec h0 P0) (flush_one k false) g (fun _ g' => l_bg g' = None).
Proof.
  intros Hn. unfold flush_one. cbn [flush_attempts].
  eapply wp_seq; [by apply bg_ensure_live|]. intros [sh|] g1 [Hn1 Hsh].
  2:{ apply wp_bind, wp_bg; [done|]. intros g2 b g3 F2 [-> ->]. apply wp_ret. simpl. by rewrite (ff_bg _ _ _ _ F2). }
  apply wp_bind, wp_bg; [exact (fun _ => Hn1)|]. intros g2 o g3 F2 [Ho Hg3].
  assert (l_bg g3 = None) as Hn3 by (rewrite Hg3; simpl; by rewrite (ff_bg _ _ _ _ F2)).
  destruct o as [b|]; [|simpl; by rewrite andb_false_r].
  assert (ours h0 P0 k sh b (bg_mark h0 (WbBegin k) (Some b) g2 g3)) as Hours.
  { split; simpl; (destruct (decide (k = h0)) as [->|Hne]; [rewrite bool_decide_true by done|rewrite bool_decide_false by done]);
      simpl; try done. intros _. destruct (begin_flush_inv _ _ _ _ (eq_sym Ho)) as (Hb & Hc & _).
    eexists. split_and!; [done..| |].
    - apply (ff_range _ _ _ _ F2).
    - rewrite Hg3. simpl. apply (ff_handles _ _ _ _ F2). by apply Hsh. }
  generalize dependent (bg_mark h0 (WbBegin k) (Some b) g2 g3). intros gm Hours. clear g2 g3 F2 Ho Hg3 Hn3.
  apply wp_bind, wp_bg; [done|]. intros g4 gen g5 F4 ->. simpl.
  apply (ours_frame _ _ _ _ _ _ _ (fuse_frame_before _ _ _ _ F4)) in Hours.
  eapply wp_seq; [apply bg_send_batch|]. intros e g6 (Hbg & Hh & Hl & Hall).
  apply (ours_frame _ _ _ _ _ g6) in Hours; [|done]. destruct e as [e|].
  - apply wp_bind, wp_bg; [done|]. intros g7 f g8 F7 [-> ->]. simpl.
    apply (ours_frame _ _ _ _ _ _ _ (fuse_frame_before _ _ _ _ F7)) in Hours.
    by eapply bg_failed.
  - apply wp_bind, wp_bg.
    + intros ->. destruct (ours_cs _ _ _ _ _ _ Hours eq_refl) as (cs & Hcs & Hb & Hc & Hr & Hp).
      exists cs. split_and!; [done..|]. eapply delivered_batch; [done..|]. intros q Hq. apply Hall; [done|].
      by rewrite Hb.
    + intros g7 [] g8 F7 ->. apply wp_ret. simpl. case_bool_decide as Hk; [done|]. simpl.
      rewrite (ff_bg _ _ _ _ F7). by apply Hours.
Qed.

Lemma background_flush_conforms_witness :
  l_bg demo_ledger = None /\
  wp (bg_spec 1 (lit "/f")) (flush_one 1 false) demo_ledger (fun _ g' => l_bg g' = None).
Proof. split; [done|]. by apply (background_flush_conforms 1 (lit "/f") 1 demo_ledger). Defined.

(** The age-drop has a window.  The background task discards the buffered
    writes of a handle that waited too long and records the loss afterwards,
    under another lock.  A close that runs in between reports success although
    the server acknowledged nothing. *)
Theorem age_drop_loses_silently :
  exists report,
    age_drop 1 = Vis (WbDrop 1) report /\
    let env := fs_exec 1 (demo_kern false) 0 in
    let '(dropped, s1) := env _ (WbDrop 1) (demo_ledger, tt) in
    let '(closed, s2) := run env (run_callback None None 1 (CbFlush 1)) s1 in
    let '(_, s3) := run env (report dropped) s2 in
    closed = ReplyOk /\ l_acc (fst s2) = [(0, [x61])] /\ l_log (fst s3) = [] /\ 1 ∈ l_err (fst s3).
Proof.
  eexists. split; [reflexivity|]. vm_compute. repeat (split; [reflexivity|]). set_solver.
Qed.
