(* ===== verification/Identity.v ===== *)
(** * Key files and identities

    [src/common/src/identity.rs]: the long-lived key pair of a client or server,
    generated once and reused; [config_dir], [ensure_dir] and the fingerprint of
    [src/common/src/trust.rs].  Certificates are made by rcgen and parsed by
    x509-parser, hashed by sha2 and encoded by base64: these are parameters.  The
    file-system calls are events, so a failure of each of them is covered. *)

From S2P Require Import Prelude Prog Text Status Os PathStr BTree Trust.

(** ** Fingerprints *)

(** Pieces of a string around the first occurrence of a pattern: what
    [find] and the slices at its result give. *)
Fixpoint split_once_str (pat s : str) : option (str * str) :=
  if starts_with pat s then Some ([], skipn (length pat) s)
  else match s with
       | [] => None
       | c :: s' => match split_once_str pat s' with
                    | Some (a, b) => Some (c :: a, b)
                    | None => None
                    end
       end.

Definition PEM_BEGIN : str := lit "-----BEGIN CERTIFICATE-----".
Definition PEM_END : str := lit "-----END CERTIFICATE-----".

Section Fingerprint.
Variable b64_decode : str -> anyhow bytes.
Variable b64_encode : bytes -> str.
Variable sha256 : bytes -> bytes.
(** [X509Certificate::from_der] and the DER of its public key. *)
Variable subject_pki : bytes -> anyhow bytes.

(** [fingerprint_of_spki] and [cert_fingerprint] *)
Definition fingerprint_of_spki (spki_der : bytes) : str := lit "SHA256:" ++ b64_encode (sha256 spki_der).
Definition cert_fingerprint (cert_der : bytes) : anyhow str :=
  let? spki := subject_pki cert_der in Ok (fingerprint_of_spki spki).

(** [rustls_pemfile_first_cert] *)
Definition first_cert (pem : str) : anyhow bytes :=
  let? (_, after) := ok_or (lit "no CERTIFICATE block in PEM") (split_once_str PEM_BEGIN pem) in
  let? (block, _) := ok_or (lit "unterminated CERTIFICATE block") (split_once_str PEM_END after) in
  b64_decode (concat (split_whitespace block)).

(** [fingerprint_of_pem] *)
Definition fingerprint_of_pem (cert_pem : str) : anyhow str :=
  let? der := first_cert cert_pem in cert_fingerprint der.
End Fingerprint.

(** ** Events *)

Record Identity := MkIdentity { id_cert_pem : str; id_key_pem : str; id_fingerprint : str }.

Inductive idE : Type -> Type :=
| PathExists (p : str) : idE bool
| ReadToString (p : str) : idE (anyhow str)
| CreateDirAll (p : str) : idE (anyhow unit)
| SetDirMode (p : str) (mode : Z) : idE (anyhow unit)
| FsWrite (p text : str) : idE (anyhow unit)
| OpenTrunc (p : str) (mode : Z) : idE (anyhow unit) (** create, truncate; [mode] for a new file *)
| SetFileMode (p : str) (mode : Z) : idE (anyhow unit)
| WriteAll (p text : str) : idE (anyhow unit)
| SelfSigned (san common_name : str) (not_before not_after : Z * Z * Z) : idE (anyhow (str * str)) (** certificate and key, as PEM *).

Definition ic {X} (e : idE X) : prog idE X := call e.

(** [ensure_dir]: the mode is best effort. *)
Definition ensure_dir (dir : str) : prog idE (anyhow unit) :=
  _ <-? ic (CreateDirAll dir) ;;
  ic (SetDirMode dir 0x1c0 (* 0o700 *)) ;;;
  Ret (Ok tt).

(** [write_key] *)
Definition write_key (path pem : str) : prog idE (anyhow unit) :=
  _ <-? ic (OpenTrunc path 0x180 (* 0o600 *)) ;;
  _ <-? ic (SetFileMode path 0x180) ;;
  ic (WriteAll path pem).

(** The subject alternative name of [generate]. *)
Definition san_of (common_name : str) : str :=
  if forallb (fun c => is_ascii_alphanumeric c || (c =? 45 (* - *)) || (c =? 46 (* . *))) common_name
  then common_name else lit "quicfs".

Section Identity.
Variable fingerprint_of_pem : str -> anyhow str.

(** [Identity::generate] *)
Definition generate (common_name : str) : prog idE (anyhow Identity) :=
  pems <-? ic (SelfSigned (san_of common_name) common_name (2020, 1, 1) (4096, 1, 1)) ;;
  let '(cert_pem, key_pem) := pems in
  fp <-? liftr (fingerprint_of_pem cert_pem) ;;
  Ret (Ok (MkIdentity cert_pem key_pem fp)).

(** [if let Some(parent) = path.parent() { ensure_dir(parent)?; }] *)
Definition ensure_parent (path : str) : prog idE (anyhow unit) :=
  match path_parent path with
  | Some parent => ensure_dir parent
  | None => Ret (Ok tt)
  end.

(** [cert_path.exists() && key_path.exists()]: the second only if the first. *)
Definition both_exist (cert_path key_path : str) : prog idE bool :=
  c <- ic (PathExists cert_path) ;;
  if (c : bool) then ic (PathExists key_path) else Ret false.

(** [Identity::load_or_generate_at] *)
Definition load_or_generate_at (cert_path key_path common_name : str) : prog idE (anyhow Identity) :=
  both <- both_exist cert_path key_path ;;
  if (both : bool) then
    cert_pem <-? ic (ReadToString cert_path) ;;
    key_pem <-? ic (ReadToString key_path) ;;
    fp <-? liftr (fingerprint_of_pem cert_pem) ;;
    Ret (Ok (MkIdentity cert_pem key_pem fp))
  else
    id <-? generate common_name ;;
    _ <-? ensure_parent cert_path ;;
    _ <-? ensure_parent key_path ;;
    _ <-? ic (FsWrite cert_path (id_cert_pem id)) ;;
    _ <-? write_key key_path (id_key_pem id) ;;
    Ret (Ok id).

(** [Identity::load_or_generate] *)
Definition load_or_generate (dir name common_name : str) : prog idE (anyhow Identity) :=
  load_or_generate_at (path_join dir (name ++ lit ".crt")) (path_join dir (name ++ lit ".key")) common_name.
End Identity.

(** ** What the calls do

    The ghost state keeps the disk, the directories' modes, the private keys made
    so far, and the files into which bytes of a key have been written. *)

Record keyring := MkKeyring {
  kr_disk : disk;
  kr_dirs : gmap str Z;
  kr_keys : list str;
  kr_holding : gset str
}.

Definition set_kdisk (d : disk) (g : keyring) : keyring :=
  MkKeyring d (kr_dirs g) (kr_keys g) (kr_holding g).
Definition hold (p text : str) (g : keyring) : keyring :=
  MkKeyring (kr_disk g) (kr_dirs g) (kr_keys g)
    (if bool_decide (text ∈ kr_keys g) then {[p]} ∪ kr_holding g else kr_holding g).

(** The mode a call leaves: an existing file keeps its own. *)
Definition mode_at (d : disk) (p : str) (new : Z) : Z :=
  match d !! p with Some f => df_mode f | None => new end.

Definition prefix_of_text (t text : str) : Prop := exists n, t = take n text.

(** What may be on disk after writing [text] into [p] whose mode is [m]: all of
    it on success, and otherwise any part or the old file. *)
Definition wrote (d : disk) (p text : str) (m : Z) (x : anyhow unit) (d' : disk) : Prop :=
  match x with
  | Ok _ => d' = <[p := DiskFile text m]> d
  | Err _ => d' = d \/ exists t, prefix_of_text t text /\ d' = <[p := DiskFile t m]> d
  end.

Definition id_step {X} (e : idE X) : keyring -> X -> keyring -> Prop :=
  match e in idE X return keyring -> X -> keyring -> Prop with
  | PathExists p => fun g x g' =>
      g' = g /\ x = bool_decide (is_Some (kr_disk g !! p)) || bool_decide (is_Some (kr_dirs g !! p))
  | ReadToString p => fun g x g' =>
      g' = g /\ match x with Ok t => df_text <$> kr_disk g !! p = Some t | Err _ => True end
  | CreateDirAll p => fun g _ g' => exists dirs, kr_dirs g ⊆ dirs /\
      g' = MkKeyring (kr_disk g) dirs (kr_keys g) (kr_holding g)
  | SetDirMode p m => fun g x g' => g' = match x with
      | Ok _ => MkKeyring (kr_disk g) (alter (fun _ => m) p (kr_dirs g)) (kr_keys g) (kr_holding g)
      | Err _ => g
      end
  | FsWrite p text => fun g x g' => exists umask d',
      wrote (kr_disk g) p text (mode_at (kr_disk g) p (Z.land 0x1b6 (Z.lnot umask))) x d' /\
      g' = hold p text (set_kdisk d' g)
  | OpenTrunc p m => fun g x g' => match x with
      | Ok _ => exists umask, g' = MkKeyring
          (<[p := DiskFile [] (mode_at (kr_disk g) p (Z.land m (Z.lnot umask)))]> (kr_disk g))
          (kr_dirs g) (kr_keys g) (kr_holding g ∖ {[p]})
      | Err _ => g' = g
      end
  | SetFileMode p m => fun g x g' => g' = match x with
      | Ok _ => set_kdisk (alter (fun f => DiskFile (df_text f) m) p (kr_disk g)) g
      | Err _ => g
      end
  | WriteAll p text => fun g x g' => exists d',
      wrote (kr_disk g) p text (mode_at (kr_disk g) p 0) x d' /\ g' = hold p text (set_kdisk d' g)
  | SelfSigned _ _ _ _ => fun g x g' => match x with
      | Ok (cert, key) => g' = MkKeyring (kr_disk g) (kr_dirs g) (key :: kr_keys g) (kr_holding g) /\
          cert ∉ key :: kr_keys g
      | Err _ => g' = g
      end
  end.

(** Key bytes are only in files that their owner alone can read. *)
Definition owner_only (g : keyring) : Prop :=
  forall p, p ∈ kr_holding g -> df_mode <$> kr_disk g !! p = Some 0x180.

(** The program owes [owner_only] at every call it makes. *)
Definition id_spec : spec idE keyring :=
  Spec _ _ (fun _ _ g => owner_only g) (fun X e g x g' => id_step e g x g').

(** ** Lemmas *)

Lemma wrote_mode d p text new x d' q :
  wrote d p text (mode_at d p new) x d' ->
  forall m, df_mode <$> d !! q = Some m -> df_mode <$> d' !! q = Some m.
Proof.
  intros Hw m Hm. assert (forall t, df_mode <$> <[p := DiskFile t (mode_at d p new)]> d !! q = Some m) as H.
  { intros t. destruct (decide (q = p)) as [->|Hne]; [|by rewrite lookup_insert_ne].
    rewrite lookup_insert_eq. simpl. unfold mode_at. by destruct (d !! p). }
  destruct x; simpl in Hw; [by subst|]. destruct Hw as [->|(t & _ & ->)]; [done|apply H].
Qed.

Lemma wrote_other d p text m x d' q : wrote d p text m x d' -> q <> p -> d' !! q = d !! q.
Proof.
  intros Hw Hne. destruct x; simpl in Hw; [subst; by rewrite lookup_insert_ne|].
  destruct Hw as [->|(t & _ & ->)]; [done|by rewrite lookup_insert_ne].
Qed.

(** Writing what is no key, anywhere. *)
Lemma owner_only_plain g p text new x d' :
  owner_only g -> text ∉ kr_keys g -> wrote (kr_disk g) p text (mode_at (kr_disk g) p new) x d' ->
  owner_only (hold p text (set_kdisk d' g)).
Proof.
  intros Ho Ht Hw q. unfold hold. simpl. rewrite bool_decide_false by done. intros Hq.
  eapply wrote_mode; [done|]. by apply Ho.
Qed.

(** Writing a key into a file locked down before. *)
Lemma owner_only_key g p text new x d' :
  owner_only g -> df_mode <$> kr_disk g !! p = Some 0x180 ->
  wrote (kr_disk g) p text (mode_at (kr_disk g) p new) x d' ->
  owner_only (hold p text (set_kdisk d' g)).
Proof.
  intros Ho Hp Hw q. unfold hold. simpl. intros Hq. eapply wrote_mode; [done|].
  case_bool_decide; [|by apply Ho]. apply elem_of_union in Hq as [->%elem_of_singleton|Hq]; [done|by apply Ho].
Qed.

Lemma owner_only_dirs g dirs :
  owner_only g -> owner_only (MkKeyring (kr_disk g) dirs (kr_keys g) (kr_holding g)).
Proof. done. Qed.

(** Directories are prepared without touching files. *)
Definition same_files (g g' : keyring) : Prop :=
  kr_disk g' = kr_disk g /\ kr_keys g' = kr_keys g /\ kr_holding g' = kr_holding g.

Lemma wp_ensure_parent path g :
  owner_only g -> wp id_spec (ensure_parent path) g (fun _ g' => owner_only g' /\ same_files g g').
Proof.
  intros Ho. unfold ensure_parent. destruct (path_parent path) as [dir|]; [|by apply wp_ret].
  apply wp_bindr, wp_call; [done|]. intros [[]|e] g1 (dirs & _ & ->); [|done].
  apply wp_bind, wp_call; [done|]. intros [[]|e] g2 ->; by apply wp_ret.
Qed.

(** [write_key]: the key is on disk, for the owner alone, or an error is returned. *)
Lemma wp_write_key path pem g :
  owner_only g ->
  wp id_spec (write_key path pem) g (fun r g' => owner_only g' /\
    (forall q, q <> path -> kr_disk g' !! q = kr_disk g !! q) /\ kr_keys g' = kr_keys g /\
    (r = Ok tt -> kr_disk g' !! path = Some (DiskFile pem 0x180))).
Proof.
  intros Ho. unfold write_key. apply wp_bindr, wp_call; [done|]. intros [[]|e] g1; simpl; [|by intros ->].
  intros [umask ->]. set (g1 := MkKeyring _ _ _ _).
  assert (owner_only g1) as Ho1.
  { intros q [Hq Hne]%elem_of_difference. simpl. rewrite lookup_insert_ne by set_solver. by apply Ho. }
  apply wp_bindr, wp_call; [done|]. intros [[]|e] g2; simpl; intros ->.
  2:{ split_and!; [done| |done|done]. intros q Hq. simpl. by rewrite lookup_insert_ne. }
  set (g2 := set_kdisk _ g1).
  assert (kr_disk g2 !! path = Some (DiskFile [] 0x180)) as Hp.
  { simpl. by rewrite lookup_alter_eq, lookup_insert_eq. }
  assert (owner_only g2) as Ho2.
  { intros q Hq. destruct (decide (q = path)) as [->|Hne]; [by rewrite Hp|].
    simpl. rewrite lookup_alter_ne by done. by apply Ho1. }
  apply wp_call; [done|]. intros x g3 (d' & Hw & ->). split_and!.
  - eapply owner_only_key; [done|by rewrite Hp|exact Hw].
  - intros q Hq. unfold hold. simpl. rewrite (wrote_other _ _ _ _ _ _ _ Hw Hq). simpl.
    by rewrite lookup_alter_ne, lookup_insert_ne.
  - done.
  - intros ->. simpl in Hw. rewrite Hw. unfold hold, mode_at. simpl.
    by rewrite lookup_insert_eq, lookup_alter_eq, lookup_insert_eq.
Qed.

Section Loading.
Variable fop : str -> anyhow str.

(** The identity is the one in the two files. *)
Definition stored (cert_path key_path : str) (id : Identity) (g : keyring) : Prop :=
  df_text <$> kr_disk g !! cert_path = Some (id_cert_pem id) /\
  df_text <$> kr_disk g !! key_path = Some (id_key_pem id) /\
  fop (id_cert_pem id) = Ok (id_fingerprint id).

Lemma wp_both_exist c k g :
  owner_only g -> wp id_spec (both_exist c k) g (fun b g' => g' = g /\
    (is_Some (kr_disk g !! c) -> is_Some (kr_disk g !! k) -> b = true)).
Proof.
  intros Ho. unfold both_exist. apply wp_bind, wp_call; [done|]. intros x g1 [-> ->].
  destruct (_ || _) eqn:E.
  - apply wp_call; [done|]. intros y g2 [-> ->]. split; [done|]. intros _ Hk.
    by rewrite bool_decide_true.
  - apply wp_ret. split; [done|]. intros Hc. by rewrite bool_decide_true in E.
Qed.

(** The branch that reads: nothing changes, the files' identity is returned. *)
Lemma wp_read_identity c k g :
  owner_only g ->
  wp id_spec (cert_pem <-? ic (ReadToString c) ;;
              key_pem <-? ic (ReadToString k) ;;
              fp <-? liftr (fop cert_pem) ;;
              Ret (Ok (MkIdentity cert_pem key_pem fp))) g
    (fun r g' => g' = g /\ forall id, r = Ok id -> stored c k id g).
Proof.
  intros Ho. apply wp_bindr, wp_call; [done|]. intros [cert|e] g1 [-> Hc]; [|done].
  apply wp_bindr, wp_call; [done|]. intros [key|e] g2 [-> Hk]; [|done].
  apply wp_bindr, wp_ret. destruct (fop cert) as [fp|e] eqn:Ef; [|done].
  apply wp_ret. split; [done|]. intros id [= <-]. by split_and!.
Qed.

(** Loading what is stored. *)
Lemma wp_load_stored c k cn id g :
  owner_only g -> stored c k id g ->
  wp id_spec (load_or_generate_at fop c k cn) g (fun r g' => g' = g /\ forall id', r = Ok id' -> id' = id).
Proof.
  intros Ho (Hc & Hk & Hf). unfold load_or_generate_at.
  eapply wp_seq; [by apply wp_both_exist|]. intros b g1 [-> Hb].
  rewrite Hb by (by destruct (kr_disk g !! c), (kr_disk g !! k)).
  eapply wp_mono; [|by apply wp_read_identity]. intros r g' [-> Hr]. split; [done|].
  intros id' Hid. destruct (Hr id' Hid) as (Hc' & Hk' & Hf'). destruct id, id'. simpl in *. congruence.
Qed.

(** The branch that generates. *)
Lemma wp_generate_at c k cn g :
  c <> k -> owner_only g ->
  wp id_spec (id <-? generate fop cn ;;
              _ <-? ensure_parent c ;; _ <-? ensure_parent k ;;
              _ <-? ic (FsWrite c (id_cert_pem id)) ;; _ <-? write_key k (id_key_pem id) ;;
              Ret (Ok id)) g
    (fun r g' => owner_only g' /\ forall id, r = Ok id ->
       stored c k id g' /\ df_mode <$> kr_disk g' !! k = Some 0x180).
Proof.
  intros Hne Ho. apply wp_bindr. unfold generate. apply wp_bindr, wp_call; [done|].
  intros [[cert key]|e] g1; [intros [-> Hcert]|intros ->; done]. set (g1 := MkKeyring _ _ _ _).
  assert (owner_only g1) as Ho1 by exact Ho.
  apply wp_bindr, wp_ret. destruct (fop cert) as [fp|e] eqn:Ef; [|done]. apply wp_ret.
  apply wp_bindr. eapply wp_mono; [|by apply wp_ensure_parent]. intros [[]|e] g2 [Ho2 (_ & K2 & _)]; [|done].
  apply wp_bindr. eapply wp_mono; [|by apply wp_ensure_parent]. intros [[]|e] g3 [Ho3 (_ & K3 & _)]; [|done].
  apply wp_bindr, wp_call; [done|]. intros x g4 (umask & d4 & Hw & ->). cbn [id_cert_pem id_key_pem] in *.
  assert (owner_only (hold c cert (set_kdisk d4 g3))) as Ho4.
  { eapply owner_only_plain; [done| |exact Hw]. by rewrite K3, K2. }
  destruct x as [[]|e]; [|done]. apply wp_bindr.
  eapply wp_mono; [|by apply wp_write_key]. intros [[]|e] g5 (Ho5 & Hoth & _ & Hk); [|done].
  apply wp_ret. split; [done|]. intros id [= <-]. rewrite Hk by done. split; [|done]. split_and!; [|by rewrite Hk|done].
  rewrite Hoth by done. simpl in *. subst d4. by rewrite lookup_insert_eq.
Qed.
End Loading.

(** ** Executions

    A file system with umask 022 whose calls fail where [faults] says so, without
    effect; [pems] is what rcgen makes. *)

Section Exec.
Variable pems : str * str.

Definition umask_demo : Z := 0x12 (* 0o022 *).
Definition disk_error {A} : anyhow A := Err (lit "I/O error").

(** What a call that succeeds does. *)
Definition id_do {X} (e : idE X) (g : keyring) : X * keyring :=
  match e in idE X return X * keyring with
  | PathExists p => (bool_decide (is_Some (kr_disk g !! p)) || bool_decide (is_Some (kr_dirs g !! p)), g)
  | ReadToString p => (ok_or (lit "I/O error") (df_text <$> kr_disk g !! p), g)
  | CreateDirAll p => (Ok tt, MkKeyring (kr_disk g)
      (match kr_dirs g !! p with Some _ => kr_dirs g | None => <[p := 0x1ed]> (kr_dirs g) end)
      (kr_keys g) (kr_holding g))
  | SetDirMode p m => (Ok tt, MkKeyring (kr_disk g) (alter (fun _ => m) p (kr_dirs g)) (kr_keys g) (kr_holding g))
  | FsWrite p text => (Ok tt, hold p text (set_kdisk
      (<[p := DiskFile text (mode_at (kr_disk g) p (Z.land 0x1b6 (Z.lnot umask_demo)))]> (kr_disk g)) g))
  | OpenTrunc p m => (Ok tt, MkKeyring
      (<[p := DiskFile [] (mode_at (kr_disk g) p (Z.land m (Z.lnot umask_demo)))]> (kr_disk g))
      (kr_dirs g) (kr_keys g) (kr_holding g ∖ {[p]}))
  | SetFileMode p m => (Ok tt, set_kdisk (alter (fun f => DiskFile (df_text f) m) p (kr_disk g)) g)
  | WriteAll p text => (Ok tt, hold p text (set_kdisk
      (<[p := DiskFile text (mode_at (kr_disk g) p 0)]> (kr_disk g)) g))
  | SelfSigned _ _ _ _ =>
      if bool_decide (fst pems ∈ snd pems :: kr_keys g) then (disk_error, g)
      else (Ok pems, MkKeyring (kr_disk g) (kr_dirs g) (snd pems :: kr_keys g) (kr_holding g))
  end.

(** What a call that fails does. *)
Definition id_fault {X} (e : idE X) (g : keyring) : option (X * keyring) :=
  match e in idE X return option (X * keyring) with
  | PathExists _ => None
  | FsWrite p text => Some (disk_error, hold p text (set_kdisk (kr_disk g) g))
  | WriteAll p text => Some (disk_error, hold p text (set_kdisk (kr_disk g) g))
  | ReadToString _ => Some (disk_error, g)
  | CreateDirAll _ => Some (disk_error, MkKeyring (kr_disk g) (kr_dirs g) (kr_keys g) (kr_holding g))
  | SetDirMode _ _ | OpenTrunc _ _ | SetFileMode _ _ => Some (disk_error, g)
  | SelfSigned _ _ _ _ => Some (disk_error, g)
  end.

(** [faults] has one entry per call. *)
Definition id_exec (X : Type) (e : idE X) (s : keyring * list bool) : X * (keyring * list bool) :=
  let '(g, faults) := s in
  let '(x, g') := match faults, id_fault e g with
                  | true :: _, Some r => r
                  | _, _ => id_do e g
                  end in
  (x, (g', tail faults)).

Lemma id_do_ok {X} (e : idE X) g : id_step e g (fst (id_do e g)) (snd (id_do e g)).
Proof.
  destruct e; simpl; try (eexists; eexists; split; done); try (eexists; split; done); try done.
  - split; [done|]. by destruct (kr_disk g !! p).
  - eexists. split; [|done]. destruct (kr_dirs g !! p) eqn:E; [done|]. by apply insert_subseteq.
  - case_bool_decide; [done|]. simpl. by destruct pems.
Qed.

Lemma id_fault_ok {X} (e : idE X) g x g' : id_fault e g = Some (x, g') -> id_step e g x g'.
Proof.
  destruct e; intros [= <- <-]; simpl; try done.
  - eexists. by split.
  - exists 0. eexists. split; [by left|done].
  - eexists. split; [by left|done].
Qed.

Lemma id_exec_ok X (e : idE X) s g :
  fst s = g -> sp_pre id_spec e g ->
  exists g', sp_post id_spec e g (fst (id_exec X e s)) g' /\ fst (snd (id_exec X e s)) = g'.
Proof.
  destruct s as [g0 faults]. intros <- _. eexists. split; [|reflexivity]. simpl.
  pose proof (id_do_ok e g0) as Hd. pose proof (id_fault_ok e g0) as Hf.
  destruct faults as [|[] faults]; [by destruct (id_do e g0)| |by destruct (id_do e g0)].
  destruct (id_fault e g0) as [[x g']|]; [by apply Hf|by destruct (id_do e g0)].
Qed.
End Exec.

(** Demonstration: a PEM certificate with an opaque body, and a key. *)
Definition demo_pem (body : str) : str := PEM_BEGIN ++ [NL] ++ body ++ [NL] ++ PEM_END ++ [NL].
Definition demo_fop : str -> anyhow str :=
  fingerprint_of_pem (fun s => Ok (map byte_of_Z s)) (map byte_to_Z) id (fun der => Ok der).
Definition demo_pems : str * str := (demo_pem (lit "cert2"), lit "key2").
Definition empty_ring : keyring := MkKeyring ∅ ∅ [] ∅.

Example demo_fingerprint : demo_fop (demo_pem (lit "ab cd")) = Ok (lit "SHA256:abcd").
Proof. by vm_compute. Qed.

(** ** Theorems *)

(** C35: an identity is permanent and its key private.  Wherever certificate
    and key are kept, whichever call fails and however much of a write reaches
    the disk, at each call and at the end bytes of a private key are only in files
    that their owner alone may read or write.  When an identity is returned it is
    the one in the two files, a key just made is in a file of mode 0600, and every
    later start that returns an identity returns the same one and changes
    nothing. *)
Theorem identity_permanent fop c k cn cn' g :
  c <> k -> owner_only g ->
  wp id_spec (load_or_generate_at fop c k cn) g (fun r g' =>
    owner_only g' /\
    forall id, r = Ok id ->
      stored fop c k id g' /\
      (kr_disk g' <> kr_disk g -> df_mode <$> kr_disk g' !! k = Some 0x180) /\
      wp id_spec (load_or_generate_at fop c k cn') g' (fun r' g'' =>
        g'' = g' /\ forall id', r' = Ok id' -> id' = id)).
Proof.
  intros Hne Ho. unfold load_or_generate_at at 1. eapply wp_seq; [by apply wp_both_exist|].
  intros [] g1 [-> _].
  - eapply wp_mono; [|by apply wp_read_identity]. intros r g' [-> Hr]. split; [done|].
    intros id Hid. specialize (Hr id Hid). split_and!; [done|done|]. by apply wp_load_stored.
  - eapply wp_mono; [|by apply wp_generate_at]. intros r g' [Ho' Hr]. split; [done|].
    intros id Hid. destruct (Hr id Hid) as [Hst Hm]. split_and!; [done|done|]. by apply wp_load_stored.
Qed.

Lemma identity_permanent_witness :
  let env := id_exec demo_pems in
  let start := load_or_generate demo_fop (lit "/h/quicfs") (lit "client") (lit "alice") in
  let '(r, (g', _)) := run env start (empty_ring, []) in
  let id := MkIdentity (fst demo_pems) (snd demo_pems) (lit "SHA256:cert2") in
  r = Ok id /\ owner_only g' /\
  df_mode <$> kr_disk g' !! lit "/h/quicfs/client.key" = Some 0x180 /\
  kr_dirs g' !! lit "/h/quicfs" = Some 0x1c0.
Proof.
  destruct (run_wp id_spec (id_exec demo_pems) (fun s g => fst s = g) (id_exec_ok demo_pems)
    (load_or_generate demo_fop (lit "/h/quicfs") (lit "client") (lit "alice")) (empty_ring, []) empty_ring _ eq_refl
    (identity_permanent demo_fop (path_join (lit "/h/quicfs") (lit "client" ++ lit ".crt"))
       (path_join (lit "/h/quicfs") (lit "client" ++ lit ".key")) (lit "alice") (lit "bob") empty_ring
       ltac:(by vm_compute) ltac:(by intros p Hp%not_elem_of_empty))) as (g' & [Ho H] & Hg).
  assert (fst (run (id_exec demo_pems) (load_or_generate demo_fop (lit "/h/quicfs") (lit "client") (lit "alice"))
                (empty_ring, [])) = Ok (MkIdentity (fst demo_pems) (snd demo_pems) (lit "SHA256:cert2"))) as Hr
    by (by vm_compute).
  assert (kr_dirs (fst (snd (run (id_exec demo_pems) (load_or_generate demo_fop (lit "/h/quicfs") (lit "client") (lit "alice"))
                (empty_ring, [])))) !! lit "/h/quicfs" = Some 0x1c0) as Hd by (by vm_compute).
  cbv zeta. destruct (run _ _ _) as [r [g1 fs]]. simpl in Hr, Hd, Hg, H, Ho. subst r g1. split; [reflexivity|]. split; [exact Ho|].
  split; [|exact Hd]. destruct (H _ eq_refl) as ((Hc & Hk & _) & Hm & _). apply Hm.
  intros Heq. rewrite Heq in Hc. done.
Defined.

(** A failed start can leave a pair that never works.  With a key on disk and no
    certificate, a start that cannot lock the key file down returns an error but has
    already replaced the certificate; the next start loads the new certificate
    with what is left of the old key, truncated, as an identity. *)
Lemma failed_start_mixes_pair :
  let k := lit "/q/s.key" in let c := lit "/q/s.crt" in
  let g := MkKeyring {[k := DiskFile (lit "key1") 0x180]} ∅ [lit "key1"] {[k]} in
  let start := load_or_generate_at demo_fop c k (lit "s") in
  (* calls: exists, self-sign, 2 x (mkdir, chmod), write, open, chmod *)
  let '(r1, (g1, _)) := run (id_exec demo_pems) start
      (g, [false; false; false; false; false; false; false; false; true]) in
  let '(r2, _) := run (id_exec demo_pems) start (g1, []) in
  r1 = disk_error /\ r2 = Ok (MkIdentity (fst demo_pems) [] (lit "SHA256:cert2")).
Proof. by vm_compute. Qed.

(** [ensure_dir] also takes an existing directory away from its other users. *)
Lemma ensure_dir_closes_existing :
  let g := MkKeyring ∅ {[lit "/etc" := 0x1ed (* 0o755 *)]} [] ∅ in
  let '(r, (g', _)) := run (id_exec demo_pems) (ensure_dir (lit "/etc")) (g, []) in
  r = Ok tt /\ kr_dirs g' !! lit "/etc" = Some 0x1c0.
Proof. by vm_compute. Qed.
