(* ===== verification/Startup.v ===== *)
(** * Starting the server

    [src/server/src/main.rs] up to its accept loop ([run_server], the default
    paths, the [fingerprint] command), [config::load], and the QUIC settings of
    [src/server/src/endpoint.rs]; [config_dir] of [src/common/src/trust.rs].  The
    toml, quinn, rustls and rustls-pemfile crates and address parsing are
    parameters.  Loading a trust file through the file-system calls agrees with
    [Trust]'s loaders. *)

From S2P Require Import Prelude Prog Text Status Os PathStr BTree Trust Tofu Accept Identity.

(** ** Directories *)

(** Environment variables and the [dirs] crate's answers. *)
Record user_env := MkUserEnv {
  ue_var : str -> option str; ue_config_dir : option str; ue_home_dir : option str
}.

(** [config_dir] *)
Definition config_dir (env : user_env) : anyhow str :=
  match ue_var env (lit "QUICFS_HOME") with
  | Some custom => Ok custom
  | None =>
      let? base := ok_or (lit "cannot determine config directory")
        (match ue_config_dir env with Some d => Some d | None => ue_home_dir env end) in
      Ok (path_join base (lit "quicfs"))
  end.

(** [KnownHosts::default_path] *)
Definition kh_default_path (env : user_env) : anyhow str :=
  let? d := config_dir env in Ok (path_join d (lit "known_hosts")).

(** [identity_paths] *)
Definition identity_paths (env : user_env) (cfg : option Config) : str * str :=
  let dflt := let dir := match config_dir env with Ok d => d | Err _ => lit "." end in
              (path_join dir (lit "server.crt"), path_join dir (lit "server.key")) in
  match cfg with
  | Some c => match tls_cert (c_tls c), tls_key (c_tls c) with
              | Some cert, Some key => (cert, key)
              | _, _ => dflt
              end
  | None => dflt
  end.

(** [authorized_keys_path] *)
Definition authorized_keys_path (env : user_env) (cfg : option Config) : str :=
  match cfg ≫= fun c => auth_authorized_keys (c_auth c) with
  | Some p => p
  | None => match config_dir env with
            | Ok d => path_join d (lit "authorized_keys")
            | Err _ => lit "authorized_keys"
            end
  end.

(** ** Trust files through file-system calls *)

Definition kh_load_file (path : str) : prog idE (anyhow KnownHosts) :=
  there <- ic (PathExists path) ;;
  if (there : bool) then
    text <-? ic (ReadToString path) ;;
    Ret (Ok (MkKnownHosts path (fold_left kh_load_line (lines text) [])))
  else Ret (Ok (MkKnownHosts path [])).

Definition ak_load_file (path : str) : prog idE (anyhow AuthorizedKeys) :=
  there <- ic (PathExists path) ;;
  if (there : bool) then
    text <-? ic (ReadToString path) ;;
    Ret (Ok (MkAuthorizedKeys path (fold_left ak_load_line (lines text) [])))
  else Ret (Ok (MkAuthorizedKeys path [])).

(** ** endpoint.rs *)

(** The settings of quinn's [TransportConfig] that the server chooses. *)
Record Transport := MkTransport {
  t_max_concurrent_bidi_streams : Z; t_keep_alive_interval : option Z; t_max_idle_timeout : option Z;
  t_stream_receive_window : Z; t_receive_window : Z
}.

(** [VarInt::from_u64] *)
Definition varint_from_u64 (x : Z) : option Z := if x <? 2 ^ 62 then Some x else None.

(** [build_transport], from quinn's defaults *)
Definition build_transport (dflt : Transport) (q : QuicSection) : Transport :=
  MkTransport (q_max_concurrent_bidi_streams q)
    (Some (q_keep_alive_interval_ms q))
    (match varint_from_u64 (q_idle_timeout_ms q) with
     | Some timeout => Some timeout
     | None => t_max_idle_timeout dflt
     end)
    (q_stream_receive_window q)
    (match varint_from_u64 (q_connection_receive_window q) with
     | Some window => window
     | None => t_receive_window dflt
     end).

(** [frames::ALPN_PROTOCOL] *)
Definition ALPN_PROTOCOL : str := lit "quicfs/1".

(** What a server endpoint was made with. *)
Record Endpoint (Addr : Type) := MkEndpoint {
  ep_certs : list bytes; ep_key : bytes; ep_verifier : AuthorizedKeysVerifier; ep_alpn : list str;
  ep_transport : Transport; ep_migration : bool; ep_addr : Addr
}.
Arguments MkEndpoint {Addr}.
Arguments ep_verifier {Addr}.
Arguments ep_certs {Addr}.
Arguments ep_alpn {Addr}.
Arguments ep_key {Addr}.
Arguments ep_addr {Addr}.
Arguments ep_migration {Addr}.

Section Endpoint.
Context {Addr : Type}.
(** rustls-pemfile, and whether rustls and quinn accept the pieces. *)
Variables (pem_certs : str -> anyhow (list bytes)) (pem_private_key : str -> anyhow (option bytes)).
Variables (tls_server_config : list bytes -> bytes -> anyhow unit) (quic_server_config : anyhow unit).
Variable bind_endpoint : Addr -> anyhow unit.

(** [certs_from_pem], [key_from_pem] *)
Definition certs_from_pem (pem : str) : anyhow (list bytes) := pem_certs pem.
Definition key_from_pem (pem : str) : anyhow bytes :=
  let? key := pem_private_key pem in ok_or (lit "no private key found in PEM") key.

(** [make_server_endpoint] *)
Definition make_server_endpoint (server_cert_pem server_key_pem : str) (client_verifier : AuthorizedKeysVerifier)
    (listen_addr : Addr) (transport : Transport) (migration : bool) : anyhow (Endpoint Addr) :=
  let? server_certs := certs_from_pem server_cert_pem in
  let? server_key := key_from_pem server_key_pem in
  let? _ := tls_server_config server_certs server_key in
  let alpn_protocols := [ALPN_PROTOCOL] in
  let? _ := quic_server_config in
  let? _ := bind_endpoint listen_addr in
  Ok (MkEndpoint server_certs server_key client_verifier alpn_protocols transport migration listen_addr).

(** ** main.rs *)

Variable toml_from_str : str -> anyhow Config.
Variable parse_addr : str -> anyhow Addr.
Variable fingerprint_of_pem : str -> anyhow str.
Variable dflt : Transport.

(** [config::load] *)
Definition load_config (path : str) : prog idE (anyhow Config) :=
  contents <-? ic (ReadToString path) ;;
  cfg <-? liftr (toml_from_str contents) ;;
  _ <-? liftr (validate cfg) ;;
  Ret (Ok cfg).

(** The state [run_server] enters its accept loop with. *)
Record running := MkRunning {
  rn_endpoint : Endpoint Addr; rn_root : str; rn_limits : ConnLimits; rn_acceptor : acceptor;
  rn_max_per_ip : Z; rn_fingerprint : str
}.

(** [run_server], before the loop *)
Definition run_server (env : user_env) (config_path : str) : prog idE (anyhow running) :=
  cfg <-? load_config config_path ;;
  listen <-? liftr (parse_addr (ss_listen (c_server cfg))) ;;
  root_exists <- ic (PathExists (ss_export_root (c_server cfg))) ;;
  if negb root_exists then Ret (Err (lit "export_root does not exist"))
  else
    let '(cert_path, key_path) := identity_paths env (Some cfg) in
    identity <-? load_or_generate_at fingerprint_of_pem cert_path key_path (lit "quicfs-server") ;;
    authorized <-? ak_load_file (authorized_keys_path env (Some cfg)) ;;
    let verifier := MkVerifier authorized (auth_allow_any_client (c_auth cfg)) in
    ep <-? liftr (make_server_endpoint (id_cert_pem identity) (id_key_pem identity) verifier listen
                    (build_transport dflt (c_quic cfg)) (q_migration (c_quic cfg))) ;;
    Ret (Ok (MkRunning ep (ss_export_root (c_server cfg)) (from_config cfg) (acceptor_new cfg)
               (ss_max_conns_per_ip (c_server cfg)) (id_fingerprint identity))).

(** [cmd_fingerprint]: what is printed *)
Definition cmd_fingerprint (env : user_env) (config_path : str) : prog idE (anyhow str) :=
  cfg <- load_config config_path ;;
  let '(cert_path, key_path) := identity_paths env (res_ok cfg) in
  identity <-? load_or_generate_at fingerprint_of_pem cert_path key_path (lit "quicfs-server") ;;
  Ret (Ok (id_fingerprint identity)).
End Endpoint.
Arguments rn_endpoint {Addr}.
Arguments rn_root {Addr}.
Arguments rn_limits {Addr}.
Arguments rn_acceptor {Addr}.
Arguments rn_max_per_ip {Addr}.
Arguments rn_fingerprint {Addr}.

(** ** Lemmas *)

(** The loaders read what [Trust]'s do. *)
Lemma wp_load_file {A} path (parse : str -> A) (none : A) g (Q : anyhow A -> Prop) :
  owner_only g ->
  (forall e, Q (Err e)) -> (kr_disk g !! path = None -> Q (Ok none)) ->
  (forall f, kr_disk g !! path = Some f -> Q (Ok (parse (df_text f)))) ->
  wp id_spec (there <- ic (PathExists path) ;;
              if (there : bool) then text <-? ic (ReadToString path) ;; Ret (Ok (parse text))
              else Ret (Ok none)) g (fun r g' => g' = g /\ Q r).
Proof.
  intros Ho He Hn Hf. apply wp_bind, wp_call; [done|]. intros x g1 [-> ->].
  destruct (_ || _) eqn:E.
  - apply wp_bindr, wp_call; [done|]. intros [t|e] g2 [-> Ht]; [|by split].
    apply wp_ret. split; [done|]. destruct (kr_disk g !! path) as [f|]; [|done].
    injection Ht as <-. by apply Hf.
  - apply wp_ret. split; [done|]. apply Hn. apply orb_false_iff in E as [E _].
    apply bool_decide_eq_false in E. by apply eq_None_not_Some.
Qed.

Lemma wp_ak_load_file path g :
  owner_only g ->
  wp id_spec (ak_load_file path) g (fun r g' => g' = g /\
    forall ak, r = Ok ak -> ak_load good_env (kr_disk g) path = Ok ak).
Proof.
  intros Ho. unfold ak_load_file.
  apply (wp_load_file path (fun t => MkAuthorizedKeys path (fold_left ak_load_line (lines t) []))); [done|done|..].
  - intros Hn ak [= <-]. unfold ak_load. by rewrite Hn.
  - intros f Hf ak [= <-]. unfold ak_load. by rewrite Hf.
Qed.

Lemma wp_kh_load_file path g :
  owner_only g ->
  wp id_spec (kh_load_file path) g (fun r g' => g' = g /\
    forall kh, r = Ok kh -> kh_load good_env (kr_disk g) path = Ok kh).
Proof.
  intros Ho. unfold kh_load_file.
  apply (wp_load_file path (fun t => MkKnownHosts path (fold_left kh_load_line (lines t) []))); [done|done|..].
  - intros Hn kh [= <-]. unfold kh_load. by rewrite Hn.
  - intros f Hf kh [= <-]. unfold kh_load. by rewrite Hf.
Qed.

Lemma path_join_inj d a b : is_absolute a = false -> is_absolute b = false ->
  path_join d a = path_join d b -> a = b.
Proof.
  unfold path_join. intros -> ->. destruct (last d) as [c|]; [|done].
  destruct (c =? SLASH); [apply (inj (app d))|]. intros H%(inj (app d)). by injection H.
Qed.

(** ** Where the files are *)

(** The directory of QuicFS's own files, if there is one: [$QUICFS_HOME], or [quicfs]
    in the user's configuration or home directory. *)
Inductive quicfs_home (env : user_env) : option str -> Prop :=
| home_variable d : ue_var env (lit "QUICFS_HOME") = Some d -> quicfs_home env (Some d)
| home_config d : ue_var env (lit "QUICFS_HOME") = None -> ue_config_dir env = Some d ->
    quicfs_home env (Some (path_join d (lit "quicfs")))
| home_home d : ue_var env (lit "QUICFS_HOME") = None -> ue_config_dir env = None -> ue_home_dir env = Some d ->
    quicfs_home env (Some (path_join d (lit "quicfs")))
| home_none : ue_var env (lit "QUICFS_HOME") = None -> ue_config_dir env = None -> ue_home_dir env = None ->
    quicfs_home env None.

(** The certificate's file and the key's: the two of [[tls]] if both are given. *)
Definition identity_files (env : user_env) (cfg : Config) (cert key : str) : Prop :=
  match tls_cert (c_tls cfg), tls_key (c_tls cfg) with
  | Some c, Some k => cert = c /\ key = k
  | _, _ => exists h, quicfs_home env h /\
      cert = path_join (default (lit ".") h) (lit "server.crt") /\ key = path_join (default (lit ".") h) (lit "server.key")
  end.

(** The file of client keys: that of [[auth]] if it is given. *)
Definition client_keys_file (env : user_env) (cfg : Config) (p : str) : Prop :=
  match auth_authorized_keys (c_auth cfg) with
  | Some q => p = q
  | None => exists h, quicfs_home env h /\
      p = match h with Some d => path_join d (lit "authorized_keys") | None => lit "authorized_keys" end
  end.

Lemma config_dir_home env : quicfs_home env (res_ok (config_dir env)).
Proof.
  unfold config_dir. destruct (ue_var env _) as [d|] eqn:E1; [by apply home_variable|].
  destruct (ue_config_dir env) as [d|] eqn:E2; [by apply home_config|].
  destruct (ue_home_dir env) as [d|] eqn:E3; [by apply home_home|by apply home_none].
Qed.

Lemma identity_paths_files env cfg :
  identity_files env cfg (fst (identity_paths env (Some cfg))) (snd (identity_paths env (Some cfg))).
Proof.
  unfold identity_files, identity_paths. pose proof (config_dir_home env) as Hh.
  destruct (tls_cert (c_tls cfg)), (tls_key (c_tls cfg)); [done|..]; (exists (res_ok (config_dir env)); split; [done|]; by destruct (config_dir env)).
Qed.

Lemma authorized_keys_path_file env cfg : client_keys_file env cfg (authorized_keys_path env (Some cfg)).
Proof.
  unfold client_keys_file, authorized_keys_path. simpl. destruct (auth_authorized_keys (c_auth cfg)); [done|].
  exists (res_ok (config_dir env)). split; [apply config_dir_home|by destruct (config_dir env)].
Qed.

(** No configuration names one file for certificate and key. *)
Lemma identity_paths_ne env cfg :
  (forall p, tls_cert (c_tls cfg) = Some p -> tls_key (c_tls cfg) <> Some p) ->
  fst (identity_paths env (Some cfg)) <> snd (identity_paths env (Some cfg)).
Proof.
  intros H. unfold identity_paths.
  assert (forall d, path_join d (lit "server.crt") <> path_join d (lit "server.key")) as Hd.
  { intros d Hd%path_join_inj; done. }
  destruct (tls_cert (c_tls cfg)) as [c|]; [|apply Hd]. destruct (tls_key (c_tls cfg)) as [k|]; [|apply Hd].
  simpl. intros ->. by apply (H k).
Qed.

(** The key stays in its file once the identity is loaded or made. *)
Lemma wp_identity fop c k cn g :
  c <> k -> owner_only g ->
  wp id_spec (load_or_generate_at fop c k cn) g (fun r g' =>
    owner_only g' /\ forall id, r = Ok id -> stored fop c k id g').
Proof.
  intros Hne Ho. unfold load_or_generate_at. eapply wp_seq; [by apply wp_both_exist|]. intros [] g1 [-> _].
  - eapply wp_mono; [|by apply wp_read_identity]. intros r g' [-> Hr]. by split.
  - eapply wp_mono; [|by apply wp_generate_at]. intros r g' [Ho' Hr]. split; [done|]. intros id Hid.
    by apply (Hr id Hid).
Qed.

Section Start.
Context {Addr : Type}.
Context (pem_certs : str -> anyhow (list bytes)) (pem_private_key : str -> anyhow (option bytes)).
Context (tls_cfg : list bytes -> bytes -> anyhow unit) (quic_cfg : anyhow unit) (bind : Addr -> anyhow unit).
Context (toml : str -> anyhow Config) (parse_addr : str -> anyhow Addr) (fop : str -> anyhow str) (dflt : Transport).
Abbreviation serve := (run_server pem_certs pem_private_key tls_cfg quic_cfg bind toml parse_addr fop dflt).

Lemma wp_load_config path g :
  owner_only g ->
  wp id_spec (load_config toml path) g (fun r g' => g' = g /\ forall cfg, r = Ok cfg ->
    (exists text, df_text <$> kr_disk g !! path = Some text /\ toml text = Ok cfg) /\ validate cfg = Ok tt).
Proof.
  intros Ho. unfold load_config. apply wp_bindr, wp_call; [done|]. intros [t|e] g1 [-> Ht]; [|done].
  apply wp_bindr, wp_ret. destruct (toml t) as [cfg|] eqn:Ec; [|done].
  apply wp_bindr, wp_ret. destruct (validate cfg) as [[]|] eqn:Ev; [|done].
  apply wp_ret. split; [done|]. intros ? [= <-]. eauto.
Qed.

Lemma make_endpoint_inv cert key v addr tr m ep :
  make_server_endpoint pem_certs pem_private_key tls_cfg quic_cfg bind cert key v addr tr m = Ok ep ->
  pem_certs cert = Ok (ep_certs ep) /\ pem_private_key key = Ok (Some (ep_key ep)) /\ ep_verifier ep = v /\
  ep_addr ep = addr /\ ep_migration ep = m.
Proof.
  unfold make_server_endpoint, certs_from_pem, key_from_pem. intros H.
  apply res_bind_Ok_inv in H as (certs & Hc & H). apply res_bind_Ok_inv in H as (k & Hk & H).
  apply res_bind_Ok_inv in Hk as (o & Ho & Hk). destruct o as [k'|]; [|done]. injection Hk as ->.
  repeat (apply res_bind_Ok_inv in H as (? & _ & H)). by injection H as <-.
Qed.

(** A server that runs: from a valid configuration, with the identity of its two files
    and the keys of its file of client keys. *)
Record started (env : user_env) (config_path : str) (rn : running (Addr := Addr)) (g0 g : keyring) (cfg : Config) : Prop := {
  st_config : exists text, df_text <$> kr_disk g0 !! config_path = Some text /\ toml text = Ok cfg;
  st_valid : validate cfg = Ok tt;
  st_identity : exists c k cert_pem key_pem, identity_files env cfg c k /\
    df_text <$> kr_disk g !! c = Some cert_pem /\ df_text <$> kr_disk g !! k = Some key_pem /\
    fop cert_pem = Ok (rn_fingerprint rn) /\ pem_certs cert_pem = Ok (ep_certs (rn_endpoint rn)) /\
    pem_private_key key_pem = Ok (Some (ep_key (rn_endpoint rn)));
  st_authorized : exists p ak, client_keys_file env cfg p /\ ak_load good_env (kr_disk g) p = Ok ak /\
    ep_verifier (rn_endpoint rn) = MkVerifier ak (auth_allow_any_client (c_auth cfg));
  st_listen : parse_addr (ss_listen (c_server cfg)) = Ok (ep_addr (rn_endpoint rn)) /\
    ep_migration (rn_endpoint rn) = q_migration (c_quic cfg);
  st_rest : rn_root rn = ss_export_root (c_server cfg) /\ rn_max_per_ip rn = ss_max_conns_per_ip (c_server cfg) /\
    a_permits (rn_acceptor rn) = Z.max (ss_max_clients (c_server cfg)) 1 /\
    cl_max_open_handles (rn_limits rn) = lim_max_open_handles (c_limits cfg)
}.

Lemma wp_run_server env config_path g :
  (forall text cfg p, toml text = Ok cfg -> tls_cert (c_tls cfg) = Some p -> tls_key (c_tls cfg) <> Some p) ->
  owner_only g ->
  wp id_spec (serve env config_path) g (fun r g' =>
    owner_only g' /\ forall rn, r = Ok rn -> exists cfg, started env config_path rn g g' cfg).
Proof.
  intros Hpaths Ho. unfold run_server. apply wp_bindr.
  eapply wp_mono; [|by apply wp_load_config]. intros [cfg|e] g1 [-> Hc]; [|done].
  destruct (Hc cfg eq_refl) as ((text & Htext & Htoml) & Hv). apply wp_bindr, wp_ret.
  destruct (parse_addr _) as [addr|] eqn:Ea; [|done]. apply wp_bind, wp_call; [done|]. intros x g2 [-> ->].
  destruct (negb _); [by apply wp_ret|].
  pose proof (identity_paths_ne env cfg (fun p => Hpaths text cfg p Htoml)) as Hne.
  pose proof (identity_paths_files env cfg) as Hfiles. pose proof (authorized_keys_path_file env cfg) as Hkeys.
  destruct (identity_paths env (Some cfg)) as [c k] eqn:Ep. simpl in Hne, Hfiles. apply wp_bindr.
  eapply wp_mono; [|by apply wp_identity]. intros [id|e] g3 [Ho3 Hid]; [|done].
  apply wp_bindr. eapply wp_mono; [|by apply wp_ak_load_file]. intros [ak|e] g4 [-> Hak]; [|done].
  apply wp_bindr, wp_ret. destruct (make_server_endpoint _ _ _ _ _ _ _ _ _ _ _) as [ep|e] eqn:Eep; [|done].
  apply make_endpoint_inv in Eep as (Hcerts & Hkey & Hver & Haddr & Hm).
  apply wp_ret. split; [done|]. intros rn [= <-]. exists cfg.
  destruct (Hid id eq_refl) as (Hc1 & Hk1 & Hf1). specialize (Hak ak eq_refl).
  split; simpl; [eauto|done|by exists c, k, (id_cert_pem id), (id_key_pem id)|eauto|split; congruence|done].
Qed.
End Start.

(** ** Theorems *)


(** Demonstration: a configuration file is [listen,root] with the default rest. *)
Definition demo_toml (text : str) : anyhow Config :=
  match split_once 44 text with
  | Some (listen, root) => Ok (config_of listen root)
  | None => Err (lit "expected a value")
  end.
Definition demo_env : user_env :=
  MkUserEnv (fun v => if str_eqb v (lit "QUICFS_HOME") then Some (lit "/q") else None) None None.
Definition demo_transport : Transport := MkTransport 100 None (Some 30000) 1250000 (2 ^ 62 - 1).
Definition demo_server (root : str) :=
  run_server (fun pem => Ok [map byte_of_Z pem]) (fun _ => Ok (Some [])) (fun _ _ => Ok tt) (Ok tt)
    (fun _ : str => Ok tt) demo_toml (fun s => Ok s) demo_fop demo_transport demo_env root.
Definition demo_ring : keyring :=
  MkKeyring {[lit "server.toml" := DiskFile (lit "0.0.0.0:9001,/srv") 0x1a4;
              lit "/q/authorized_keys" := DiskFile (lit "SHA256:aaaaaaaaaa alice") 0x1a4]}
    {[lit "/srv" := 0x1ed]} [] ∅.


(** The fingerprint command ignores a configuration it cannot load: next to a
    server that runs with its own certificate, a typo in the configuration makes
    the command create an identity elsewhere and print its fingerprint. *)
Lemma fingerprint_ignores_broken_config :
  let toml (text : str) := Err (lit "TOML parse error") : anyhow Config in
  let g := MkKeyring {[lit "server.toml" := DiskFile (lit "lisetn") 0x1a4;
                       lit "/etc/q.crt" := DiskFile (demo_pem (lit "cert1")) 0x1a4;
                       lit "/etc/q.key" := DiskFile (lit "key1") 0x180]} ∅ [lit "key1"] {[lit "/etc/q.key"]} in
  let '(r, (g', _)) := run (id_exec demo_pems) (cmd_fingerprint toml demo_fop demo_env (lit "server.toml")) (g, []) in
  r = Ok (lit "SHA256:cert2") /\ is_Some (kr_disk g' !! lit "/q/server.key").
Proof. vm_compute. split; [reflexivity|]. by eexists. Qed.
