(* ===== verification/CliArgs.v ===== *)
(** * The client's command line

    [src/client/src/main.rs]: dispatch on the verb, the sshfs-style target
    [[user@]host[:/path]], and the configuration of a connection; and what
    [run_mount] of [src/client/src/mount.rs] makes of the options.  clap's option
    parsing, address parsing and name resolution are parameters. *)

From S2P Require Import Prelude Prog Text Status Os PathStr BTree Trust Tofu Identity Startup WriteBuf Cache FuseOps Inodes.

(** ** Decimal numbers, as [{}] prints a [u16] *)

Definition digit (d : Z) : Z := 48 + d.

Fixpoint dec_fuel (fuel : nat) (n : Z) : str :=
  match fuel with
  | O => []
  | S fuel => (if n <? 10 then [] else dec_fuel fuel (n / 10)) ++ [digit (n mod 10)]
  end.

(** Five digits hold a [u16]. *)
Definition show_u16 (n : Z) : str := dec_fuel 5 n.

(** ** Arguments *)

Definition DEFAULT_PORT : Z := 9001.

Record PingArgs := MkPingArgs {
  pa_spec : str; pa_port : Z; pa_accept_new : bool; pa_strict_host_key : bool;
  pa_identity : option str; pa_known_hosts : option str; pa_server_name : option str
}.

Record MountArgs := MkMountArgs {
  ma_spec : str; ma_mountpoint : str; ma_port : Z; ma_accept_new : bool; ma_strict_host_key : bool;
  ma_identity : option str; ma_known_hosts : option str; ma_server_name : option str;
  ma_chunk_size : Z; ma_cache_ttl : Z; ma_allow_other : bool; ma_readonly : bool; ma_log_level : str;
  ma_uid : option Z; ma_gid : option Z; ma_write_buf : Z; ma_coalesce_ms : Z
}.

(** The arguments when only the two positional ones are given. *)
Definition MountArgs_default (spec mountpoint : str) : MountArgs :=
  MkMountArgs spec mountpoint DEFAULT_PORT false false None None None 262144 2000 false false (lit "info")
    None None 4194304 10.

(** [fn tofu] *)
Definition tofu (accept_new strict : bool) : TofuPolicy :=
  if strict then PolStrict else if accept_new then PolAcceptNew else PolPrompt.

(** [fn current_user] *)
Definition current_user (env : user_env) : str :=
  match ue_var env (lit "USER") with
  | Some u => u
  | None => default (lit "user") (ue_var env (lit "USERNAME"))
  end.

(** ** Targets *)

Definition AT : char := 64.
Definition COLON : char := 58.
Definition LBRACKET : char := 91.
Definition RBRACKET : char := 93.

(** [strip_prefix(c)] *)
Definition strip_prefix_char (c : char) (s : str) : option str :=
  match s with d :: s' => if d =? c then Some s' else None | [] => None end.

(** The path a target names: absolute, the root by default. *)
Definition rooted (path : str) : str :=
  if bool_decide (path = []) then lit "/"
  else if starts_with (lit "/") path then path
  else lit "/" ++ path.

(** [fn parse_spec]: user, host and path *)
Definition parse_spec (env : user_env) (spec : str) : anyhow (str * str * str) :=
  let '(user, rest) := match split_once AT spec with
                       | Some (u, r) => (u, r)
                       | None => (current_user env, spec)
                       end in
  let? (host, path) :=
    match strip_prefix_char LBRACKET rest with
    | Some stripped =>
        let? (host, after) := ok_or (lit "unterminated '[' in host") (split_once RBRACKET stripped) in
        Ok (host, default after (strip_prefix_char COLON after))
    | None => Ok (default (rest, []) (split_once COLON rest))
    end in
  if bool_decide (host = []) then Err (lit "no host in spec")
  else Ok (user, host, rooted path).

(** ** Configuration of a connection *)

(** [host:port], the name under which the server's key is pinned *)
Definition host_port (host : str) (port : Z) : str := host ++ [COLON] ++ show_u16 port.

(** [struct MountConfig] of conn.rs *)
Record MountConfig (Addr : Type) := MkMountConfig {
  mcfg_server_addr : Addr; mcfg_server_name : str; mcfg_host_key : str;
  mcfg_client_cert_pem : str; mcfg_client_key_pem : str; mcfg_chunk_size : Z;
  mcfg_tofu : TofuPolicy; mcfg_known_hosts_path : str
}.
Arguments MkMountConfig {Addr}.
Arguments mcfg_server_addr {Addr}.
Arguments mcfg_server_name {Addr}.
Arguments mcfg_host_key {Addr}.
Arguments mcfg_client_cert_pem {Addr}.
Arguments mcfg_client_key_pem {Addr}.
Arguments mcfg_chunk_size {Addr}.
Arguments mcfg_tofu {Addr}.
Arguments mcfg_known_hosts_path {Addr}.

Section Config.
Context {Addr : Type} (is_ipv4 : Addr -> bool).
(** [parse::<SocketAddr>] and [to_socket_addrs]. *)
Variables (parse_addr : str -> option Addr) (to_socket_addrs : str -> anyhow (list Addr)).
Variable fingerprint_of_pem : str -> anyhow str.
Variable env : user_env.

(** [fn resolve_addr] *)
Definition resolve_addr (host : str) (port : Z) : anyhow Addr :=
  match parse_addr (host_port host port) with
  | Some addr => Ok addr
  | None =>
      let addrs := default [] (res_ok (to_socket_addrs (host_port host port))) in
      ok_or (lit "resolve")
        (match List.find is_ipv4 addrs with Some a => Some a | None => head addrs end)
  end.

(** [fn build_config] *)
Definition build_config (host : str) (port : Z) (server_name_override : option str) (spec : str)
    (policy : TofuPolicy) (identity_dir known_hosts_path : option str) (chunk_size : Z) :
    prog idE (anyhow (MountConfig Addr)) :=
  if chunk_size =? 0 then Ret (Err (lit "--chunk-size must be greater than 0"))
  else
    parsed <-? liftr (parse_spec env spec) ;;
    let '(user, _, _) := parsed in
    addr <-? liftr (resolve_addr host port) ;;
    let server_name := default host server_name_override in
    let host_key := host_port host port in
    id_dir <-? liftr (match identity_dir with Some d => Ok d | None => config_dir env end) ;;
    identity <-? load_or_generate fingerprint_of_pem id_dir (lit "client") user ;;
    kh_path <-? liftr (match known_hosts_path with Some p => Ok p | None => kh_default_path env end) ;;
    Ret (Ok (MkMountConfig addr server_name host_key (id_cert_pem identity) (id_key_pem identity)
               chunk_size policy kh_path)).

(** [run_ping], up to the connection *)
Definition ping_config (args : PingArgs) : prog idE (anyhow (MountConfig Addr)) :=
  parsed <-? liftr (parse_spec env (pa_spec args)) ;;
  let '(_, host, _) := parsed in
  build_config host (pa_port args) (pa_server_name args) (pa_spec args)
    (tofu (pa_accept_new args) (pa_strict_host_key args)) (pa_identity args) (pa_known_hosts args) 262144.

(** [cmd_key]: what is printed *)
Definition cmd_key : prog idE (anyhow str) :=
  dir <-? liftr (config_dir env) ;;
  id <-? load_or_generate fingerprint_of_pem dir (lit "client") (current_user env) ;;
  Ret (Ok (id_fingerprint id)).

(** [cmd_known_hosts]: the path and the file's contents, if it is there *)
Definition cmd_known_hosts : prog idE (anyhow (str * option str)) :=
  path <-? liftr (kh_default_path env) ;;
  kh <-? kh_load_file path ;;
  there <- ic (PathExists path) ;;
  if negb there then Ret (Ok (path, None))
  else text <- ic (ReadToString path) ;; Ret (Ok (path, Some (default [] (res_ok text)))).

(** ** Mounting *)

(** [struct FuseOptions] of mount.rs *)
Record FuseOptions := MkFuseOptions {
  fo_allow_other : bool; fo_readonly : bool; fo_cache_ttl_ms : Z;
  fo_uid_override : option Z; fo_gid_override : option Z;
  fo_write_buf_per_handle : Z; fo_write_buf_total : Z; fo_coalesce_ms : Z; fo_remote_root : str
}.

(** [args.write_buf * 8], 64-bit, at most 64 MiB *)
Definition write_buf_total (write_buf : Z) : Z := Z.min (wrap64 (write_buf * 8)) (64 * 1024 * 1024).

(** [run_mount] of main.rs, up to the mount *)
Definition mount_config (args : MountArgs) : prog idE (anyhow (MountConfig Addr * FuseOptions)) :=
  parsed <-? liftr (parse_spec env (ma_spec args)) ;;
  let '(_, host, remote_path) := parsed in
  cfg <-? build_config host (ma_port args) (ma_server_name args) (ma_spec args)
    (tofu (ma_accept_new args) (ma_strict_host_key args)) (ma_identity args) (ma_known_hosts args)
    (ma_chunk_size args) ;;
  Ret (Ok (cfg, MkFuseOptions (ma_allow_other args) (ma_readonly args) (ma_cache_ttl args) (ma_uid args) (ma_gid args)
    (ma_write_buf args) (write_buf_total (ma_write_buf args)) (ma_coalesce_ms args) remote_path)).
End Config.

(** [enum MountOption], the ones used *)
Inductive MountOption : Type := FSName (n : str) | DefaultPermissions | AllowOther | RO.

(** [mount_opts] of [mount::run_mount] *)
Definition mount_opts (o : FuseOptions) : list MountOption :=
  [FSName (lit "quicfs"); DefaultPermissions]
  ++ (if fo_allow_other o then [AllowOther] else []) ++ (if fo_readonly o then [RO] else []).

(** [cache_cfg] of [mount::run_mount] *)
Definition mount_cache_cfg (o : FuseOptions) : CacheConfig :=
  MkCacheConfig 8192 (fo_cache_ttl_ms o) (fo_cache_ttl_ms o / 4) (fo_cache_ttl_ms o / 2).

(** [struct WriteBufConfig] of fuse_ops.rs and its default *)
Record WriteBufConfig := MkWriteBufConfig {
  wc_max_per_handle_bytes : Z; wc_max_total_bytes : Z; wc_window_ms : Z
}.
Definition WriteBufConfig_default : WriteBufConfig :=
  MkWriteBufConfig (4 * 1024 * 1024) (32 * 1024 * 1024) 10.

(** [wbuf_cfg] of [mount::run_mount] *)
Definition mount_wbuf_cfg (o : FuseOptions) : WriteBufConfig :=
  MkWriteBufConfig (fo_write_buf_per_handle o) (fo_write_buf_total o) (fo_coalesce_ms o).

(** [struct QuicFs], without the connection and the runtime; the cache is over the
    [lru] crate's map. *)
Record quicfs_state (L : Type) := MkQuicFs {
  qf_cache : MetaCache L; qf_inodes : InodeTable; qf_fuse_ttl : Z; qf_write_buf : WriteBuffer;
  qf_write_errors : gset Z; qf_open_files : gmap Z OpenFile; qf_next_client_fh : Z;
  qf_uid_override : option Z; qf_gid_override : option Z; qf_last_reconnect_gen : Z
}.
Arguments MkQuicFs {L}.
Arguments qf_inodes {L}.
Arguments qf_write_buf {L}.
Arguments qf_cache {L}.
Arguments qf_fuse_ttl {L}.
Arguments qf_write_errors {L}.
Arguments qf_open_files {L}.
Arguments qf_next_client_fh {L}.
Arguments qf_uid_override {L}.
Arguments qf_gid_override {L}.
Arguments qf_last_reconnect_gen {L}.

(** [QuicFs::new]; [reconnect_gen] is the connection's *)
Definition quicfs_new {L} `{!LruOps L Entry} (reconnect_gen : Z) (cache_cfg : CacheConfig)
    (wbuf_cfg : WriteBufConfig) (uid_override gid_override : option Z) (remote_root : str) : quicfs_state L :=
  let fuse_ttl := fuse_ttl_from_cache_ms (pos_ttl cache_cfg) in
  let write_buf := wb_new (wc_max_per_handle_bytes wbuf_cfg) (wc_max_total_bytes wbuf_cfg) (wc_window_ms wbuf_cfg) in
  MkQuicFs (cache_new cache_cfg) (inodes_new remote_root) fuse_ttl write_buf ∅ ∅ 1
    uid_override gid_override reconnect_gen.

(** The file system [mount::run_mount] makes. *)
Definition mount_fs {L} `{!LruOps L Entry} (reconnect_gen : Z) (o : FuseOptions) : quicfs_state L :=
  quicfs_new reconnect_gen (mount_cache_cfg o) (mount_wbuf_cfg o) (fo_uid_override o) (fo_gid_override o)
    (fo_remote_root o).

(** The background task's period, in milliseconds. *)
Definition background_period (o : FuseOptions) : Z := Z.max (fo_coalesce_ms o) 1 / 2 + 1.

(** ** main *)

Inductive Command : Type :=
| CmdHelp | CmdVersion | CmdKey | CmdKnownHosts | CmdPing (args : PingArgs) | CmdMount (args : MountArgs)
| CmdUsage (e : str)  (** clap prints its message and exits *)
| CmdPanic.           (** a slice out of range *)

(** [fn sub_args] *)
Definition sub_args (argv : list str) : option (list str) :=
  let prog := lit "quicfs " ++ default [] (argv !! 1%nat) in
  if (length argv <? 2)%nat then None else Some (prog :: drop 2 argv).

Section Main.
Variables (parse_ping : list str -> anyhow PingArgs) (parse_mount : list str -> anyhow MountArgs).

Definition parsed_as {A} (f : A -> Command) (r : anyhow A) : Command :=
  match r with Ok a => f a | Err e => CmdUsage e end.

(** [fn main]'s dispatch *)
Definition dispatch_verb (argv : list str) : Command :=
  let verb := default [] (argv !! 1%nat) in
  let verb_is (s : str) := str_eqb verb s in
  if verb_is [] || verb_is (lit "-h") || verb_is (lit "--help") || verb_is (lit "help") then CmdHelp
  else if verb_is (lit "--version") || verb_is (lit "-V") then CmdVersion
  else if verb_is (lit "key") then CmdKey
  else if verb_is (lit "known-hosts") then CmdKnownHosts
  else if verb_is (lit "ping") then
    match sub_args argv with Some a => parsed_as CmdPing (parse_ping a) | None => CmdPanic end
  else if verb_is (lit "mount") then
    match sub_args argv with Some a => parsed_as CmdMount (parse_mount a) | None => CmdPanic end
  else if (length argv <? 1)%nat then CmdPanic
  else parsed_as CmdMount (parse_mount (lit "quicfs mount" :: drop 1 argv)).
End Main.

(** ** Targets as they are written *)

Record target := MkTarget { t_user : option str; t_host : str; t_brackets : bool; t_path : option str }.

Definition render_host (t : target) : str :=
  (if t_brackets t then [LBRACKET] ++ t_host t ++ [RBRACKET] else t_host t)
  ++ match t_path t with Some p => COLON :: p | None => [] end.

Definition render_spec (t : target) : str :=
  match t_user t with Some u => u ++ AT :: render_host t | None => render_host t end.

(** What a written target says: the user, or the one the environment names; the path,
    from the root, which it is if none is written. *)
Definition written_user (env : user_env) (t : target) : str :=
  match t_user t, ue_var env (lit "USER"), ue_var env (lit "USERNAME") with
  | Some u, _, _ | None, Some u, _ | None, None, Some u => u
  | None, None, None => lit "user"
  end.
Definition written_path (t : target) : str :=
  match t_path t with
  | None | Some [] => [SLASH]
  | Some (c :: p) => if c =? SLASH then c :: p else SLASH :: c :: p
  end.

(** What makes a written target unambiguous. *)
Record target_ok (t : target) : Prop := {
  to_user u : t_user t = Some u -> Forall (fun c => c <> AT) u;
  to_no_user : t_user t = None -> Forall (fun c => c <> AT) (render_host t);
  to_host : t_host t <> [];
  to_brackets : t_brackets t = true -> Forall (fun c => c <> RBRACKET) (t_host t);
  to_plain : t_brackets t = false -> Forall (fun c => c <> COLON) (t_host t) /\ head (t_host t) <> Some LBRACKET
}.

Lemma split_once_app c a b : Forall (fun d => d <> c) a -> split_once c (a ++ c :: b) = Some (a, b).
Proof.
  induction 1 as [|d a Hd Ha IH]; simpl; [by rewrite Z.eqb_refl|].
  rewrite (proj2 (Z.eqb_neq d c) Hd), IH. done.
Qed.

Lemma split_once_none c a : Forall (fun d => d <> c) a -> split_once c a = None.
Proof.
  induction 1 as [|d a Hd Ha IH]; simpl; [done|]. by rewrite (proj2 (Z.eqb_neq d c) Hd), IH.
Qed.

Lemma strip_prefix_char_none c s : head s <> Some c -> strip_prefix_char c s = None.
Proof.
  destruct s as [|d s]; [done|]. simpl. intros H. destruct (d =? c) eqn:E; [|done].
  apply Z.eqb_eq in E. congruence.
Qed.

Lemma rooted_absolute p : head (rooted p) = Some SLASH.
Proof.
  unfold rooted. case_bool_decide; [done|]. destruct p as [|c p]; [done|].
  change (lit "/") with [SLASH]. cbn [starts_with]. rewrite andb_true_r.
  destruct (SLASH =? c) eqn:E; [|done]. apply Z.eqb_eq in E as <-. done.
Qed.

Lemma rooted_written t : rooted (default [] (t_path t)) = written_path t.
Proof.
  unfold rooted, written_path. destruct (t_path t) as [[|c p]|]; [done| |done]. simpl default.
  rewrite bool_decide_false by done. change (lit "/") with [SLASH]. cbn [starts_with]. rewrite andb_true_r, (Z.eqb_sym c). by destruct (SLASH =? c).
Qed.

Lemma current_user_written env t : default (current_user env) (t_user t) = written_user env t.
Proof. unfold current_user, written_user. by destruct (t_user t), (ue_var env (lit "USER")), (ue_var env (lit "USERNAME")). Qed.

(** Host and path of what follows the user. *)
Lemma parse_host_path t :
  target_ok t ->
  match strip_prefix_char LBRACKET (render_host t) with
  | Some stripped =>
      let? (host, after) := ok_or (lit "unterminated '[' in host") (split_once RBRACKET stripped) in
      Ok (host, default after (strip_prefix_char COLON after))
  | None => Ok (default (render_host t, []) (split_once COLON (render_host t)))
  end = Ok (t_host t, default [] (t_path t)).
Proof.
  intros H. unfold render_host. destruct (t_brackets t) eqn:Eb.
  - simpl. rewrite <- app_assoc. simpl. rewrite split_once_app by (by apply H). simpl.
    by destruct (t_path t).
  - destruct (to_plain t H Eb) as [Hc Hb]. pose proof (to_host t H) as Hne.
    rewrite strip_prefix_char_none by (by destruct (t_host t)).
    destruct (t_path t) as [p|]; simpl.
    + by rewrite split_once_app.
    + rewrite app_nil_r. by rewrite split_once_none.
Qed.

Lemma parse_render env t :
  target_ok t ->
  parse_spec env (render_spec t) = Ok (written_user env t, t_host t, written_path t).
Proof.
  intros H. rewrite <- current_user_written, <- rooted_written. unfold parse_spec, render_spec. pose proof (parse_host_path t H) as Hp.
  destruct (t_user t) as [u|] eqn:Eu.
  - rewrite split_once_app by (by apply (to_user t H)). rewrite Hp. simpl.
    by rewrite bool_decide_false by apply H.
  - rewrite split_once_none by (by apply (to_no_user t H)). rewrite Hp. simpl.
    by rewrite bool_decide_false by apply H.
Qed.

Lemma parse_spec_inv env spec u h p :
  parse_spec env spec = Ok (u, h, p) -> h <> [] /\ head p = Some SLASH.
Proof.
  unfold parse_spec. destruct (match split_once AT spec with Some (a, b) => (a, b) | None => _ end) as [user rest].
  intros H. apply res_bind_Ok_inv in H as ([host path] & _ & H). case_bool_decide; [done|].
  injection H as _ <- <-. split; [done|apply rooted_absolute].
Qed.

(** ** Host keys *)

Lemma last_sep_inj (c : Z) a a' b b' :
  Forall (fun d => d <> c) b -> Forall (fun d => d <> c) b' -> a ++ c :: b = a' ++ c :: b' -> a = a' /\ b = b'.
Proof.
  intros Hb Hb' H. apply (f_equal reverse) in H. rewrite !reverse_app, !reverse_cons, <- !app_assoc in H. simpl in H.
  apply (f_equal (split_once c)) in H. rewrite !split_once_app in H by (by apply Forall_reverse).
  injection H as H1 H2. by apply (inj reverse) in H1, H2.
Qed.

(** [ds] is [n] in decimal, without leading zeros. *)
Definition digits_value (ds : str) : Z := foldl (fun a c => 10 * a + (c - 48)) 0 ds.
Definition decimal (ds : str) (n : Z) : Prop :=
  ds <> [] /\ Forall (fun c => 48 <= c <= 57) ds /\ digits_value ds = n /\ (head ds = Some 48 -> ds = [48]).

(** [host:port], the port in decimal. *)
Definition names_endpoint (name host : str) (port : Z) : Prop := exists ds, name = host ++ COLON :: ds /\ decimal ds port.

Lemma dec_fuel_decimal fuel n : 0 <= n < 10 ^ Z.of_nat (S fuel) -> decimal (dec_fuel (S fuel) n) n.
Proof.
  revert n. induction fuel as [|fuel IH]; intros n Hn.
  - assert (n < 10) by (simpl in Hn; lia). cbn [dec_fuel]. rewrite (proj2 (Z.ltb_lt n 10)) by done. rewrite Z.mod_small by lia.
    unfold decimal, digits_value, digit. simpl. split_and!; [done|constructor; [lia|done]|lia|]. intros [= E]. by rewrite E.
  - rewrite Nat2Z.inj_succ, Z.pow_succ_r in Hn by lia. change (dec_fuel (S (S fuel)) n) with
      ((if n <? 10 then [] else dec_fuel (S fuel) (n / 10)) ++ [digit (n mod 10)]).
    pose proof (Z.mod_pos_bound n 10 ltac:(lia)) as Hm. destruct (n <? 10) eqn:E.
    + apply Z.ltb_lt in E. rewrite Z.mod_small by lia. unfold decimal, digits_value, digit. simpl.
      split_and!; [done|constructor; [lia|done]|lia|]. intros [= E']. by rewrite E'.
    + apply Z.ltb_ge in E. destruct (IH (n / 10)) as (Hne & Hd & Hv & Hz).
      { split; [apply Z.div_pos; lia|apply Z.div_lt_upper_bound; lia]. }
      split_and!.
      * by intros [_ ?]%app_eq_nil.
      * apply Forall_app. split; [done|]. constructor; [unfold digit; lia|done].
      * unfold digits_value in *. rewrite foldl_app, Hv. simpl. unfold digit. pose proof (Z.div_mod n 10 ltac:(lia)). lia.
      * destruct (dec_fuel (S fuel) (n / 10)) as [|c ds]; [done|]. cbn [app head]. intros Hc. specialize (Hz Hc).
        injection Hz as -> ->. unfold digits_value in Hv. simpl in Hv. pose proof (Z.div_le_lower_bound n 10 1 ltac:(lia) ltac:(lia)). lia.
Qed.

Lemma host_port_names host port : in_width 16 port -> names_endpoint (host_port host port) host port.
Proof.
  intros Hp. exists (show_u16 port). split; [done|]. apply dec_fuel_decimal. unfold in_width in Hp. simpl in *. lia.
Qed.

(** One name per host and port. *)
Lemma names_endpoint_inj name h p h' p' : names_endpoint name h p -> names_endpoint name h' p' -> h = h' /\ p = p'.
Proof.
  intros (ds & -> & _ & Hd & Hv & _) (ds' & E & _ & Hd' & Hv' & _).
  assert (forall l, Forall (fun c => 48 <= c <= 57) l -> Forall (fun c => c <> COLON) l) as Hn.
  { intros l Hl. eapply Forall_impl; [exact Hl|]. unfold COLON. lia. }
  apply (last_sep_inj COLON) in E as [-> ->]; [|by apply Hn..]. split; [done|congruence].
Qed.

Example show_examples : show_u16 0 = lit "0" /\ show_u16 9001 = lit "9001" /\ show_u16 65535 = lit "65535".
Proof. by vm_compute. Qed.

(** ** The root of the mount *)

Lemma split_slash_snoc s : split is_slash (s ++ [SLASH]) = split is_slash s ++ [[]].
Proof.
  induction s as [|c s IH]; [done|]. cbn [app split]. rewrite IH. destruct (is_slash c); [done|].
  pose proof (split_pieces is_slash s). destruct (split is_slash s) as [|p ps] eqn:E; [|done].
  by destruct s as [|d s]; simpl in E; [|destruct (is_slash d); [|destruct (split is_slash s)]].
Qed.

(** Slashes at its end are no part of an absolute path. *)
Lemma components_trailing s ws :
  is_absolute s = true -> Forall (fun c => is_slash c = true) ws -> components (s ++ ws) = components s.
Proof.
  intros Ha. induction ws as [|c ws IH] using rev_ind; [by rewrite app_nil_r|].
  intros [Hws Hc]%Forall_app. apply Forall_cons in Hc as [Hc _]. apply Z.eqb_eq in Hc as ->.
  rewrite app_assoc. rewrite <- (IH Hws). unfold components.
  assert (forall l, is_absolute ((s ++ ws) ++ l) = true) as Habs.
  { intros l. unfold is_absolute in *. apply starts_with_spec in Ha as [t ->]. by rewrite <- !app_assoc, starts_with_app. }
  rewrite (Habs [SLASH]). specialize (Habs []). rewrite app_nil_r in Habs. rewrite Habs.
  rewrite split_slash_snoc, omap_app. simpl. by rewrite app_nil_r.
Qed.

Lemma trim_end_slashes s : exists ws, s = trim_end_matches is_slash s ++ ws /\ Forall (fun c => is_slash c = true) ws.
Proof.
  unfold trim_end_matches. destruct (drop_while_suffix is_slash (reverse s)) as (pre & Hp & Hws).
  exists (reverse pre). split; [|by apply Forall_reverse].
  rewrite <- reverse_app, <- Hp. by rewrite reverse_involutive.
Qed.

(** The inode table's root is the path that was written, blanks around it aside. *)
Lemma normalize_root_components p :
  head p = Some SLASH -> components (normalize_root p) = components (trim p).
Proof.
  intros Hp. assert (is_absolute (trim p) = true /\ trim p <> []) as [Ha Hne].
  { destruct p as [|c p]; [done|]. injection Hp as ->. unfold trim. cbn [drop_while]. change (is_whitespace SLASH) with false. cbv iota.
    destruct (trim_end_suffix (SLASH :: p)) as (ws & E & Hws). destruct (trim_end_matches is_whitespace (SLASH :: p)) as [|d l].
    - simpl in E. subst ws. by inv Hws.
    - injection E as <- _. done. }
  unfold normalize_root. rewrite (bool_decide_false (trim p = [])) by done. fold (is_absolute (trim p)). rewrite Ha.
  destruct (trim_end_slashes (trim p)) as (ws & E & Hws). case_bool_decide as Hz.
  - rewrite Hz in E. simpl in E. rewrite E. destruct ws as [|c ws]; [congruence|]. apply Forall_cons in Hws as [Hc Hws].
    apply Z.eqb_eq in Hc as ->. symmetry. exact (components_trailing [SLASH] ws eq_refl Hws).
  - rewrite E at 2. symmetry. apply components_trailing; [|done].
    destruct (trim_end_matches is_slash (trim p)) as [|d l]; [done|]. rewrite E in Ha. unfold is_absolute in *.
    change (lit "/") with [SLASH] in *. cbn [app starts_with] in *. by rewrite andb_true_r in *.
Qed.

(** ** Configurations *)

Section Reaches.
Context {Addr : Type} (is_ipv4 : Addr -> bool).
Context (parse_addr : str -> option Addr) (lookup_addrs : str -> anyhow (list Addr)).
Context (fop : str -> anyhow str) (env : user_env).
Abbreviation resolve := (resolve_addr is_ipv4 parse_addr lookup_addrs).

(** The address a name stands for: itself, if it is one; else the first IPv4 address it
    resolves to, or the first of all if there is none. *)
Definition stands_for (name : str) (a : Addr) : Prop :=
  parse_addr name = Some a \/
  parse_addr name = None /\ exists l, lookup_addrs name = Ok l /\
    ((exists l1 l2, l = l1 ++ a :: l2 /\ is_ipv4 a = true /\ Forall (fun b => is_ipv4 b = false) l1) \/
     Forall (fun b => is_ipv4 b = false) l /\ head l = Some a).

Lemma find_first {A} (f : A -> bool) l :
  match List.find f l with
  | Some a => exists l1 l2, l = l1 ++ a :: l2 /\ f a = true /\ Forall (fun b => f b = false) l1
  | None => Forall (fun b => f b = false) l
  end.
Proof.
  induction l as [|a l IH]; [constructor|]. simpl. destruct (f a) eqn:E; [by exists [], l|].
  destruct (List.find f l) as [b|]; [|by constructor].
  destruct IH as (l1 & l2 & -> & ? & ?). exists (a :: l1), l2. split_and!; [done..|by constructor].
Qed.

Lemma resolve_stands host port a : resolve host port = Ok a -> stands_for (host_port host port) a.
Proof.
  unfold resolve_addr, stands_for. destruct (parse_addr _) as [b|]; [intros [= <-]; by left|]. intros H. right. split; [done|].
  destruct (lookup_addrs _) as [l|e]; [|done]. exists l. split; [done|]. simpl in H.
  pose proof (find_first is_ipv4 l) as Hf. destruct (List.find is_ipv4 l) as [b|].
  - injection H as <-. by left.
  - right. split; [done|]. by destruct l; [|injection H as <-].
Qed.

(** What a configuration was built from. *)
Record config_for (host : str) (port : Z) (sni : option str) (policy : TofuPolicy) (identity_dir kh : option str)
    (chunk_size : Z) (g : keyring) (cfg : MountConfig Addr) : Prop := {
  cf_host_key : names_endpoint (mcfg_host_key cfg) host port;
  cf_addr : stands_for (mcfg_host_key cfg) (mcfg_server_addr cfg);
  cf_sni : mcfg_server_name cfg = match sni with Some n => n | None => host end;
  cf_chunk : mcfg_chunk_size cfg = chunk_size /\ chunk_size <> 0;
  cf_tofu : mcfg_tofu cfg = policy;
  cf_known_hosts : match kh with
    | Some p => mcfg_known_hosts_path cfg = p
    | None => exists d, quicfs_home env (Some d) /\ mcfg_known_hosts_path cfg = path_join d (lit "known_hosts")
    end;
  cf_identity : exists dir, match identity_dir with Some d => dir = d | None => quicfs_home env (Some dir) end /\
    df_text <$> kr_disk g !! path_join dir (lit "client.crt") = Some (mcfg_client_cert_pem cfg) /\
    df_text <$> kr_disk g !! path_join dir (lit "client.key") = Some (mcfg_client_key_pem cfg)
}.

Lemma home_dir d : config_dir env = Ok d -> quicfs_home env (Some d).
Proof. intros H. pose proof (config_dir_home env) as Hh. by rewrite H in Hh. Qed.

Lemma wp_build_config host port name spec policy id_dir kh chunk g :
  in_width 16 port -> owner_only g ->
  wp id_spec (build_config is_ipv4 parse_addr lookup_addrs fop env host port name spec policy id_dir kh chunk) g
    (fun r g' => owner_only g' /\ forall cfg, r = Ok cfg -> config_for host port name policy id_dir kh chunk g' cfg).
Proof.
  intros Hport Ho. unfold build_config. destruct (chunk =? 0) eqn:Ec; [by apply wp_ret|]. apply Z.eqb_neq in Ec.
  apply wp_bindr, wp_ret. destruct (parse_spec env spec) as [[[user h2] p2]|]; [|done].
  apply wp_bindr, wp_ret. destruct (resolve host port) as [addr|] eqn:Ea; [|done].
  apply wp_bindr, wp_ret. destruct (match id_dir with Some d => Ok d | None => config_dir env end) as [dir|] eqn:Ed; [|done].
  apply wp_bindr. eapply wp_mono; [|apply wp_identity; [|done]].
  2:{ intros H%path_join_inj; done. }
  intros [id|e] g' [Ho' Hid]; [|done]. apply wp_bindr, wp_ret.
  destruct (match kh with Some p => Ok p | None => kh_default_path env end) as [khp|] eqn:Ek; [|done].
  apply wp_ret. split; [done|]. intros cfg [= <-]. destruct (Hid id eq_refl) as (Hc & Hk & _).
  split; simpl; [by apply host_port_names|by apply resolve_stands|by destruct name|done|done| |].
  - destruct kh as [p|]; [by injection Ek|]. unfold kh_default_path in Ek. apply res_bind_Ok_inv in Ek as (d & Hd & [= <-]).
    exists d. split; [by apply home_dir|done].
  - exists dir. split; [|done]. destruct id_dir; [by injection Ed|by apply home_dir].
Qed.
End Reaches.

(** ** Theorems *)

(** C37: targets are understood as written.  A target with or without user,
    brackets and path that is written unambiguously parses to that user (that of
    [$USER], [$USERNAME] or "user" by default), that host, and that path: as it is if
    it starts with a slash, after one if it does not, [/] if none is written; and
    whatever is accepted has a host and an absolute path. *)
Theorem spec_roundtrip env t :
  target_ok t ->
  parse_spec env (render_spec t) = Ok (written_user env t, t_host t, written_path t) /\
  (forall spec u h p, parse_spec env spec = Ok (u, h, p) -> h <> [] /\ head p = Some SLASH).
Proof. intros H. split; [by apply parse_render|]. intros spec u h p. apply parse_spec_inv. Qed.

Lemma spec_roundtrip_witness :
  let t := MkTarget (Some (lit "alice")) (lit "::1") true (Some (lit "data@2024:x")) in
  render_spec t = lit "alice@[::1]:data@2024:x" /\
  parse_spec demo_env (render_spec t) = Ok (lit "alice", lit "::1", lit "/data@2024:x").
Proof.
  intros t. split; [reflexivity|].
  apply (spec_roundtrip demo_env t). split; try done.
  - intros u [= <-]. repeat (constructor; [done|]). constructor.
  - intros _. repeat (constructor; [done|]). constructor.
Defined.

(** Without a user, an at sign anywhere is taken for the separator after one:
    the mount of a directory whose name has one goes to another host. *)
Lemma at_in_path_changes_host :
  parse_spec demo_env (lit "server:/backups@nightly") = Ok (lit "server:/backups", lit "nightly", lit "/").
Proof. by vm_compute. Qed.

(** C38: a mount reaches what was asked for, with the options asked for.  For an
    unambiguous target, whichever file-system calls fail, a configuration that is built
    pins the server's key under the target's host and the port in decimal, a name no
    other host and port has; dials the address that name is or resolves to, the first
    IPv4 one if there is any; refuses unknown keys if strict checking was asked for,
    else accepts new ones if that was, else prompts; uses the [known_hosts] and the
    identity files asked for, by default those of QuicFS's directory; and sends chunks of
    the size asked for.  The file system that is mounted has the target's path at its
    root (blanks around it aside), the owner and group overrides, the cache time,
    the buffer limits and the window asked for, and is read-only and open to other
    users exactly as asked.  No private key is exposed on the way. *)
Theorem mount_reaches_target {Addr} is_ipv4 (parse_addr : str -> option Addr) lookup fop env t args L (LO : LruOps L Entry) gen g :
  target_ok t -> ma_spec args = render_spec t -> in_width 16 (ma_port args) -> owner_only g ->
  wp id_spec (mount_config is_ipv4 parse_addr lookup fop env args) g (fun r g' =>
    owner_only g' /\ forall cfg o, r = Ok (cfg, o) ->
      config_for is_ipv4 parse_addr lookup env (t_host t) (ma_port args) (ma_server_name args)
        (if ma_strict_host_key args then PolStrict else if ma_accept_new args then PolAcceptNew else PolPrompt)
        (ma_identity args) (ma_known_hosts args) (ma_chunk_size args) g' cfg /\
      (forall h p, in_width 16 p -> names_endpoint (mcfg_host_key cfg) h p -> h = t_host t /\ p = ma_port args) /\
      let fs := mount_fs (L := L) gen o in
      (exists root, path_of (qf_inodes fs) ROOT_INO = Some root /\ components root = components (trim (written_path t))) /\
      qf_uid_override fs = ma_uid args /\ qf_gid_override fs = ma_gid args /\
      pos_ttl (mc_cfg (qf_cache fs)) = ma_cache_ttl args /\
      wb_max_per_handle_bytes (qf_write_buf fs) = ma_write_buf args /\ wb_window (qf_write_buf fs) = ma_coalesce_ms args /\
      (ma_write_buf args < 2 ^ 61 -> 0 <= ma_write_buf args ->
       wb_max_total_bytes (qf_write_buf fs) = Z.min (8 * ma_write_buf args) (64 * 1024 * 1024)) /\
      (RO ∈ mount_opts o <-> ma_readonly args = true) /\ (AllowOther ∈ mount_opts o <-> ma_allow_other args = true)).
Proof.
  intros Ht Hs Hp Ho. unfold mount_config. apply wp_bindr, wp_ret. rewrite Hs, parse_render by done.
  apply wp_bindr. eapply wp_mono; [|by apply wp_build_config].
  intros [cfg|e] g' [Ho' Hc]; [|done]. apply wp_ret. split; [done|]. intros cfg' o [= <- <-].
  specialize (Hc cfg eq_refl). split; [exact Hc|]. split; [|cbv zeta; split_and!; try done].
  - intros h p Hw Hk. pose proof (cf_host_key _ _ _ _ _ _ _ _ _ _ _ _ _ Hc) as Hk'.
    by apply (names_endpoint_inj (mcfg_host_key cfg)).
  - eexists. split; [reflexivity|]. apply normalize_root_components. unfold written_path.
    destruct (t_path t) as [[|c q]|]; [done| |done]. destruct (c =? SLASH) eqn:E; [apply Z.eqb_eq in E as ->|]; done.
  - intros Hw1 Hw2. simpl. unfold write_buf_total. rewrite wrap_small by (unfold in_width; lia). f_equal. lia.
  - unfold mount_opts; simpl. destruct (ma_allow_other args), (ma_readonly args); set_solver.
  - unfold mount_opts; simpl. destruct (ma_allow_other args), (ma_readonly args); set_solver.
Qed.

Lemma mount_reaches_target_witness :
  let args := MountArgs_default (lit "alice@server:/data") (lit "/mnt") in
  let '(r, _) := run (id_exec demo_pems)
    (mount_config (fun _ => true) (fun _ => None) (fun s => Ok [s]) demo_fop demo_env args) (empty_ring, []) in
  exists cfg o, r = Ok (cfg, o) /\ mcfg_tofu cfg = PolPrompt /\ names_endpoint (mcfg_host_key cfg) (lit "server") 9001 /\
    stands_for (fun _ => true) (fun _ => None) (fun s => Ok [s]) (mcfg_host_key cfg) (mcfg_server_addr cfg).
Proof.
  intros args. set (t := MkTarget (Some (lit "alice")) (lit "server") false (Some (lit "/data"))).
  assert (target_ok t) as Ht.
  { split; try done.
    - intros u [= <-]. repeat (constructor; [done|]). constructor.
    - intros _. split; [|done]. repeat (constructor; [done|]). constructor. }
  destruct (run_wp id_spec (id_exec demo_pems) (fun s g => fst s = g) (id_exec_ok demo_pems)
    (mount_config (fun _ => true) (fun _ => None) (fun s => Ok [s]) demo_fop demo_env args) (empty_ring, []) empty_ring _ eq_refl
    (mount_reaches_target (fun _ => true) (fun _ => None) (fun s => Ok [s]) demo_fop demo_env t args (alru Entry) _ 0 empty_ring Ht
       eq_refl ltac:(split; done) ltac:(by intros p Hp%not_elem_of_empty))) as (g' & [_ H] & Hg).
  assert (exists cfg o, fst (run (id_exec demo_pems)
    (mount_config (fun _ => true) (fun _ => None) (fun s => Ok [s]) demo_fop demo_env args) (empty_ring, [])) = Ok (cfg, o))
    as (cfg & o & Hr) by (do 2 eexists; vm_compute; reflexivity).
  destruct (run _ _ _) as [r [g1 fs]]. simpl in Hr, Hg, H. subst r g1.
  exists cfg, o. split; [reflexivity|]. destruct (H cfg o eq_refl) as ([Hk Ha _ _ Htofu _ _] & Hinj & _).
  split; [exact Htofu|]. split; [exact Hk|exact Ha].
Defined.

(** The write-buffer option bounds the size of a single write: a fresh mount
    refuses exactly the writes longer than sixteen times [--write-buf] (or 128
    MiB), with [EIO], although nothing is buffered. *)
Lemma write_buf_bounds_one_write {L} `{!LruOps L Entry} iter gen o w fh off data now :
  0 <= w < 2 ^ 61 -> zlen data < 2 ^ 63 ->
  fo_write_buf_total o = write_buf_total w ->
  fst (push iter (qf_write_buf (mount_fs (L := L) gen o)) fh off data now) = Reject <->
  Z.min (16 * w) (128 * 1024 * 1024) < zlen data.
Proof.
  intros Hw Hd Ho. unfold push, mount_fs, quicfs_new, wb_new. cbn [qf_write_buf mount_wbuf_cfg wc_max_total_bytes wb_hard_total_bytes wb_total_bytes].
  rewrite Ho. unfold write_buf_total. rewrite (wrap_small 64 (w * 8)) by (unfold in_width; lia).
  rewrite wrap_small by (unfold in_width; lia).
  assert (sat_mul64 (Z.min (w * 8) (64 * 1024 * 1024)) 2 = Z.min (16 * w) (128 * 1024 * 1024)) as ->.
  { unfold sat_mul64, u64_max. lia. }
  rewrite Z.add_0_l. destruct (_ <? _) eqn:E.
  - apply Z.ltb_lt in E. simpl. split; [lia|done].
  - apply Z.ltb_ge in E. split; [|lia]. repeat (destruct (_ <=? _)); done.
Qed.
