(* ===== verification/MountPoint.v ===== *)
(** * The mountpoint

    The life of a mount in [src/client/src/mount.rs]: clearing what a killed
    process left behind ([clear_stale_mount]), waiting for a signal or for the
    mountpoint to vanish from the kernel's table ([wait_for_shutdown]), and what
    is flushed on the way out. *)

From S2P Require Import Prelude Prog Text Status Frames Os PathStr BTree Trust WriteBuf FuseOps Durable.

(** ** /proc/mounts *)

(** A line's second field is the mountpoint. *)
Definition line_is_for (path line : str) : bool :=
  match split_whitespace line !! 1%nat with Some mp => str_eqb mp path | None => false end.

Definition listed (path mounts : str) : bool := existsb (line_is_for path) (lines mounts).

(** [is_fuse_mount_gone], given what reading the table answers *)
Definition is_fuse_mount_gone (path : str) (mounts : anyhow str) : bool :=
  match mounts with Ok m => negb (listed path m) | Err _ => true end.

(** ** Stale mounts *)

Inductive mountE : Type -> Type :=
| ReadMounts : mountE (anyhow str)
| RunCommand (program : str) (args : list str) : mountE (anyhow bool) (** whether it exited with success *).

(** [clear_stale_mount] *)
Definition clear_stale_mount (path : str) : prog mountE unit :=
  m <- call ReadMounts ;;
  let is_mounted := match m with Ok m => listed path m | Err _ => false end in
  if is_mounted then
    call (RunCommand (lit "fusermount3") [lit "-u"; path]) ;;;
    m <- call ReadMounts ;;
    if negb (is_fuse_mount_gone path m) then
      call (RunCommand (lit "umount") [lit "-l"; path]) ;;; Ret tt
    else Ret tt
  else Ret tt.

(** ** Shutdown *)

Inductive Shutdown : Type := ShutSignal | ShutUnmounted.

(** What wakes the loop: a signal, or a tick, at which the table is read. *)
Inductive wakeup : Type := Sigterm | Sigint | Poll (mounts : anyhow str).

(** [wait_for_shutdown]: [None] while it waits *)
Fixpoint wait_for_shutdown (path : str) (ws : list wakeup) : option Shutdown :=
  match ws with
  | [] => None
  | (Sigterm | Sigint) :: _ => Some ShutSignal
  | Poll mounts :: ws =>
      if is_fuse_mount_gone path mounts then Some ShutUnmounted else wait_for_shutdown path ws
  end.

(** The end of [run_mount] *)
Definition shutdown_actions (s : Shutdown) : fs unit :=
  match s with ShutSignal => unmount_flush | ShutUnmounted => Ret tt end.

(** ** The kernel's table

    A line has device, mountpoint and the rest, one space apart; white space and
    backslashes inside a field are written as octal escapes. *)

Record mount_entry := MkMountEntry { me_device : str; me_path : str; me_rest : str }.

Definition escape_char (c : Z) : str :=
  if c =? 32 then lit "\040" else if c =? 9 then lit "\011"
  else if c =? 10 then lit "\012" else if c =? 92 then lit "\134" else [c].
Definition escape (s : str) : str := flat_map escape_char s.

Definition mount_line (e : mount_entry) : str :=
  escape (me_device e) ++ SP :: escape (me_path e) ++ SP :: me_rest e.
Definition proc_mounts (t : list mount_entry) : str := concat (map (fun e => mount_line e ++ [NL]) t).

(** Fields the kernel can print: the other white space of Unicode is not escaped. *)
Definition printable (s : str) : Prop :=
  s <> [] /\ Forall (fun c => is_whitespace c = true -> c = 32 \/ c = 9 \/ c = 10) s.
Record entry_ok (e : mount_entry) : Prop := {
  eo_device : printable (me_device e);
  eo_path : printable (me_path e);
  eo_rest : Forall (fun c => c <> NL) (me_rest e) /\ (forall r, me_rest e <> r ++ [CR])
}.

(** A mountpoint the client compares successfully: it needs no escape. *)
Definition plain (s : str) : Prop := Forall (fun c => escape_char c = [c]) s.

(** ** Lemmas *)

Lemma escape_no_ws s : printable s -> Forall (fun c => is_whitespace c = false) (escape s).
Proof.
  intros [_ H]. induction H as [|c s Hc Hs IH]; [constructor|]. simpl. apply Forall_app. split; [|exact IH].
  unfold escape_char. destruct (c =? 32) eqn:E1; [by repeat constructor|]. destruct (c =? 9) eqn:E2; [by repeat constructor|].
  destruct (c =? 10) eqn:E3; [by repeat constructor|]. destruct (c =? 92) eqn:E4; [by repeat constructor|].
  constructor; [|done]. apply Z.eqb_neq in E1, E2, E3. destruct (is_whitespace c); [|done]. by destruct Hc as [|[|]].
Qed.

Lemma escape_plain s : plain s -> escape s = s.
Proof. induction 1 as [|c s Hc Hs IH]; [done|]. simpl. rewrite Hc. simpl. by f_equal. Qed.

Lemma escape_ne s : s <> [] -> escape s <> [].
Proof.
  destruct s as [|c s]; [done|]. intros _. simpl. unfold escape_char.
  repeat (destruct (_ =? _); [done|]). done.
Qed.

(** Only the path itself is written as a plain path. *)
Lemma escape_plain_inj p q : plain p -> escape q = p -> q = p.
Proof.
  intros Hp. revert p Hp. induction q as [|c q IH]; intros p Hp H; [by rewrite <- H|].
  simpl in H. assert (escape_char c = [c]) as Hc.
  { subst p. apply Forall_app in Hp as [Hp _]. unfold escape_char in *.
    destruct (c =? 32); [by inv Hp|]. destruct (c =? 9); [by inv Hp|].
    destruct (c =? 10); [by inv Hp|]. destruct (c =? 92); [by inv Hp|]. done. }
  rewrite Hc in H. simpl in H. subst p. inv Hp. f_equal. by apply IH.
Qed.

Lemma split_ws_skip a t : Forall (fun c => is_whitespace c = false) a -> a <> [] ->
  split_whitespace (a ++ SP :: t) = a :: split_whitespace t.
Proof. intros Ha Hne. unfold split_whitespace. rewrite split_app_sep by done. by destruct a. Qed.

Lemma line_field path e :
  entry_ok e -> line_is_for path (mount_line e) = str_eqb (escape (me_path e)) path.
Proof.
  intros [Hd Hp _]. unfold line_is_for, mount_line.
  rewrite !split_ws_skip by (by apply escape_no_ws || by apply escape_ne, Hd || by apply escape_ne, Hp). done.
Qed.

Lemma mount_line_lines t : Forall entry_ok t -> lines (proc_mounts t) = map mount_line t.
Proof.
  unfold proc_mounts. induction 1 as [|e t He Ht IH]; [done|]. simpl. rewrite <- app_assoc. simpl.
  destruct He as [Hd Hp [Hn Hcr]]. rewrite lines_cons; [by rewrite IH| |].
  - unfold mount_line. apply Forall_app. split; [by apply no_ws_no_nl, escape_no_ws|].
    constructor; [done|]. apply Forall_app. split; [by apply no_ws_no_nl, escape_no_ws|]. by constructor.
  - intros r. unfold mount_line. rewrite app_comm_cons, app_assoc.
    destruct (me_rest e) as [|c l _] eqn:El using rev_ind.
    + intros H. by apply app_inj_tail in H as [_ H].
    + rewrite app_comm_cons, app_assoc. intros H. apply app_inj_tail in H as [_ ->]. by destruct (Hcr l).
Qed.

Lemma listed_proc_mounts path t :
  Forall entry_ok t -> listed path (proc_mounts t) = true <-> exists e, e ∈ t /\ escape (me_path e) = path.
Proof.
  intros Ht. unfold listed. rewrite mount_line_lines by done. rewrite existsb_exists. setoid_rewrite in_map_iff.
  split.
  - intros (l & (e & <- & He%list_elem_of_In) & Hl). rewrite Forall_forall in Ht. rewrite line_field in Hl by auto.
    apply str_eqb_eq in Hl. eauto.
  - intros (e & He & Hp). rewrite Forall_forall in Ht. exists (mount_line e).
    split; [exists e; by rewrite <- list_elem_of_In|]. rewrite line_field by auto. by apply str_eqb_eq.
Qed.

(** ** Watching a mount *)

(** What happens while a mount is up: signals, and ticks at which the kernel's
    table is [t]. *)
Inductive watch_event : Type := EvSignal (term : bool) | EvTick (t : list mount_entry).

Definition wakeup_of (e : watch_event) : wakeup :=
  match e with
  | EvSignal term => if term then Sigterm else Sigint
  | EvTick t => Poll (Ok (proc_mounts t))
  end.

Definition mounted_at (path : str) (t : list mount_entry) : Prop := exists e, e ∈ t /\ me_path e = path.

Definition quiet (path : str) (e : watch_event) : Prop :=
  match e with EvSignal _ => False | EvTick t => mounted_at path t end.
Definition ends (path : str) (s : Shutdown) (e : watch_event) : Prop :=
  match e, s with
  | EvSignal _, ShutSignal => True
  | EvTick t, ShutUnmounted => ~ mounted_at path t
  | _, _ => False
  end.
Definition event_ok (e : watch_event) : Prop :=
  match e with EvSignal _ => True | EvTick t => Forall entry_ok t end.

Lemma gone_iff path t :
  plain path -> Forall entry_ok t ->
  is_fuse_mount_gone path (Ok (proc_mounts t)) = true <-> ~ mounted_at path t.
Proof.
  intros Hp Ht. simpl. rewrite negb_true_iff, <- not_true_iff_false, listed_proc_mounts by done.
  split; intros H (e & He & Hpe); apply H; exists e; (split; [done|]).
  - rewrite Hpe. by apply escape_plain.
  - by apply escape_plain_inj.
Qed.

Lemma wait_first path evs s :
  plain path -> Forall event_ok evs ->
  wait_for_shutdown path (map wakeup_of evs) = Some s ->
  exists pre e post, evs = pre ++ e :: post /\ Forall (quiet path) pre /\ ends path s e.
Proof.
  intros Hp. induction 1 as [|e evs He Hevs IH]; [done|]. simpl. destruct e as [[]|t]; simpl.
  - intros [= <-]. by exists [], (EvSignal true), evs.
  - intros [= <-]. by exists [], (EvSignal false), evs.
  - pose proof (gone_iff path t Hp He) as Hg. simpl in Hg. destruct (negb _).
    + intros [= <-]. exists [], (EvTick t), evs. split_and!; [done..|]. by apply Hg.
    + intros H. destruct (IH H) as (pre & e & post & -> & Hpre & Hend).
      exists (EvTick t :: pre), e, post. split_and!; [done| |done]. constructor; [|done]. simpl.
      destruct (decide (List.Exists (fun e => me_path e = path) t)) as [(e' & ? & ?)%Exists_exists|Hn]; [by exists e'|].
      exfalso. assert (false = true); [|done]. apply Hg. intros (e' & He' & Hpe). apply Hn, Exists_exists. eauto.
Qed.

Lemma wait_quiet path pre e post s :
  plain path -> Forall event_ok (pre ++ e :: post) -> Forall (quiet path) pre -> ends path s e ->
  wait_for_shutdown path (map wakeup_of (pre ++ e :: post)) = Some s.
Proof.
  intros Hp Hok Hpre. induction Hpre as [|[|t] pre Hq Hpre IH]; simpl in *; [|done|].
  - inv Hok. destruct e as [[]|t], s; simpl; try done. intros Hn.
    apply (gone_iff path t Hp H1) in Hn. simpl in Hn. by rewrite Hn.
  - inv Hok. intros He. destruct (negb _) eqn:E; [|by apply IH].
    exfalso. by apply (gone_iff path t Hp H1) in E.
Qed.

(** [clear_stale_mount] acts on the mountpoint alone, and only when the table
    it has just read lists it. *)
Definition stale_spec (path : str) : spec mountE bool :=
  Spec _ _
    (fun X e seen => match e with RunCommand _ args => seen = true /\ last args = Some path | ReadMounts => True end)
    (fun X e => match e in mountE X return bool -> X -> bool -> Prop with
                | ReadMounts => fun _ x seen => seen = match x with Ok m => listed path m | Err _ => false end
                | RunCommand _ _ => fun seen _ seen' => seen' = seen
                end).

Lemma clear_stale_only_listed path seen : wp (stale_spec path) (clear_stale_mount path) seen (fun _ _ => True).
Proof.
  unfold clear_stale_mount. apply wp_bind, wp_call; [done|]. intros m g ->. simpl.
  destruct (match m with Ok m => listed path m | Err _ => false end) eqn:E; [|by apply wp_ret].
  apply wp_bind, wp_call; [done|]. intros x g ->. apply wp_bind, wp_call; [done|]. intros m' g ->.
  unfold is_fuse_mount_gone. destruct m' as [m'|]; simpl; [|by apply wp_ret].
  rewrite negb_involutive. destruct (listed path m') eqn:E'; [|by apply wp_ret].
  by apply wp_bind, wp_call; [|intros].
Qed.

(** ** Theorems *)

(** C39: how a mount ends.  For a mountpoint given as the kernel prints it (an
    absolute path without white space or backslashes), the client stops exactly at
    the first signal or the first tick at which the kernel no longer lists the
    mountpoint, with the reason it acts on; and before mounting it runs an unmount
    command on that path only, and only if the table it has just read lists
    it. *)
Theorem mount_ends_when_unmounted path evs s :
  plain path -> Forall event_ok evs ->
  (wait_for_shutdown path (map wakeup_of evs) = Some s <->
   exists pre e post, evs = pre ++ e :: post /\ Forall (quiet path) pre /\ ends path s e) /\
  (forall seen, wp (stale_spec path) (clear_stale_mount path) seen (fun _ _ => True)).
Proof.
  intros Hp Hok. split; [|apply clear_stale_only_listed]. split; [by apply wait_first|].
  intros (pre & e & post & -> & Hpre & He). by apply wait_quiet.
Qed.

Definition demo_entry (path : str) : mount_entry := MkMountEntry (lit "quicfs") path (lit "fuse rw 0 0").

Lemma mount_ends_when_unmounted_witness :
  let up := EvTick [MkMountEntry (lit "/dev/my disk") (lit "/") (lit "ext4 rw 0 1"); demo_entry (lit "/mnt")] in
  let down := EvTick [demo_entry (lit "/mnt2")] in
  wait_for_shutdown (lit "/mnt") (map wakeup_of [up; up; down]) = Some ShutUnmounted /\
  wait_for_shutdown (lit "/mnt") (map wakeup_of [up; EvSignal true; down]) = Some ShutSignal.
Proof.
  intros up down.
  assert (plain (lit "/mnt")) as Hp by (repeat (constructor; [reflexivity|]); constructor).
  assert (forall a b, printable a -> printable b ->
    entry_ok (MkMountEntry a b (lit "fuse rw 0 0")) /\ entry_ok (MkMountEntry a b (lit "ext4 rw 0 1"))) as Hent.
  { intros a b Ha Hb. split; (split; [done|done|]); (split; [repeat (constructor; [done|]); constructor|]);
      intros r H; apply (f_equal (@last Z)) in H; rewrite last_snoc in H; discriminate. }
  assert (forall s, Forall (fun c => is_whitespace c = false \/ c = 32) s -> s <> [] -> printable s) as Hpr.
  { intros s Hs Hne. split; [done|]. eapply Forall_impl; [exact Hs|]. intros c [Hc | ->]; [congruence|auto]. }
  assert (forall s, forallb (fun c => negb (is_whitespace c) || (c =? 32)) s = true -> s <> [] -> printable s) as Hchk.
  { intros s Hs. apply Hpr, List.Forall_forall. intros c Hc. rewrite forallb_forall in Hs. specialize (Hs c Hc).
    destruct (is_whitespace c); [right; by apply Z.eqb_eq|by left]. }
  assert (event_ok up) as Hou.
  { constructor; [|constructor; [|constructor]]; apply Hent; apply Hchk; done. }
  assert (event_ok down) as Hod by (constructor; [apply Hent; apply Hchk; done|constructor]).
  assert (Forall event_ok [up; up; down] /\ Forall event_ok [up; EvSignal true; down]) as [H1 H2].
  { split; (constructor; [exact Hou|]); (constructor; [exact Hou || exact I|]); (constructor; [exact Hod|constructor]). }
  assert (quiet (lit "/mnt") up) as Hup by (eexists; split; [right; left|done]).
  split.
  - apply (mount_ends_when_unmounted (lit "/mnt") _ ShutUnmounted Hp H1).
    exists [up; up], down, []. split_and!; [done|by do 2 (constructor; [exact Hup|])|].
    intros (e & He%list_elem_of_singleton & Hpe). subst e. discriminate.
  - apply (mount_ends_when_unmounted (lit "/mnt") _ ShutSignal Hp H2).
    exists [up], (EvSignal true), [down]. split_and!; [done|by constructor|done].
Defined.

(** A mountpoint that is not written as the kernel prints it is never found in
    the table: mounted at a relative path, or below a directory with a space in
    its name, the client takes the first tick for an unmount and exits without
    flushing; a byte the application was told is written is then never sent. *)
Lemma unlisted_mountpoint_loses_writes path printed :
  (path, printed) ∈ [(lit "mnt", lit "/home/alice/mnt"); (lit "/mnt/my disk", lit "/mnt/my disk")] ->
  let evs := [EvTick [demo_entry printed]; EvSignal true] in
  wait_for_shutdown path (map wakeup_of evs) = Some ShutUnmounted /\
  let '(_, (g, _)) := run (fs_exec 1 (demo_kern true) 0) (shutdown_actions ShutUnmounted) (demo_ledger, tt) in
  l_acc g = [(0, [x61])] /\ l_log g = [].
Proof.
  rewrite !elem_of_cons. intros [H|[H|H]]; [injection H as -> ->; by vm_compute..|by apply not_elem_of_nil in H].
Qed.
