(* ===== verification/QuicFs.v ===== *)
(** * The client of a mount

    The state of [QuicFs] in [src/client/src/fuse_ops.rs] with the connection's reconnect
    count and the clocks, what each step of a callback does to it, and the mount: this
    client over some far side that performs its RPCs, or fails to. *)

From S2P Require Import Prelude Prog Text Status Frames Os PathStr ClientRpc WriteBuf Cache Inodes FuseOps CliArgs.

(** ** The client's own state *)

(** [QuicFs], the connection's reconnect count, the two clocks, and the directory
    reply being filled, which has room for some entries. *)
Record client (L : Type) := MkClient {
  cl_fs : quicfs_state L;
  cl_gen : Z;
  cl_now : Z;                                       (** [Instant], in milliseconds *)
  cl_wall : Z;                                      (** [SystemTime], in nanoseconds *)
  cl_room : Z;
  cl_listed : list (Z * Z * FileType * str)
}.
Arguments MkClient {L}.
Arguments cl_fs {L}.
Arguments cl_gen {L}.
Arguments cl_now {L}.
Arguments cl_wall {L}.
Arguments cl_room {L}.
Arguments cl_listed {L}.

Section Client.
Context {L : Type} `{!LruOps L Entry}.

Definition upd (f : quicfs_state L -> quicfs_state L) (c : client L) : client L :=
  MkClient (f (cl_fs c)) (cl_gen c) (cl_now c) (cl_wall c) (cl_room c) (cl_listed c).

Definition set_cache (x : MetaCache L) (q : quicfs_state L) : quicfs_state L :=
  MkQuicFs x (qf_inodes q) (qf_fuse_ttl q) (qf_write_buf q) (qf_write_errors q) (qf_open_files q) (qf_next_client_fh q)
    (qf_uid_override q) (qf_gid_override q) (qf_last_reconnect_gen q).
Definition set_inodes (x : InodeTable) (q : quicfs_state L) : quicfs_state L :=
  MkQuicFs (qf_cache q) x (qf_fuse_ttl q) (qf_write_buf q) (qf_write_errors q) (qf_open_files q) (qf_next_client_fh q)
    (qf_uid_override q) (qf_gid_override q) (qf_last_reconnect_gen q).
Definition set_buf (x : WriteBuffer) (q : quicfs_state L) : quicfs_state L :=
  MkQuicFs (qf_cache q) (qf_inodes q) (qf_fuse_ttl q) x (qf_write_errors q) (qf_open_files q) (qf_next_client_fh q)
    (qf_uid_override q) (qf_gid_override q) (qf_last_reconnect_gen q).
Definition set_errors (x : gset Z) (q : quicfs_state L) : quicfs_state L :=
  MkQuicFs (qf_cache q) (qf_inodes q) (qf_fuse_ttl q) (qf_write_buf q) x (qf_open_files q) (qf_next_client_fh q)
    (qf_uid_override q) (qf_gid_override q) (qf_last_reconnect_gen q).
Definition set_open (x : gmap Z OpenFile) (q : quicfs_state L) : quicfs_state L :=
  MkQuicFs (qf_cache q) (qf_inodes q) (qf_fuse_ttl q) (qf_write_buf q) (qf_write_errors q) x (qf_next_client_fh q)
    (qf_uid_override q) (qf_gid_override q) (qf_last_reconnect_gen q).
Definition set_next_fh (x : Z) (q : quicfs_state L) : quicfs_state L :=
  MkQuicFs (qf_cache q) (qf_inodes q) (qf_fuse_ttl q) (qf_write_buf q) (qf_write_errors q) (qf_open_files q) x
    (qf_uid_override q) (qf_gid_override q) (qf_last_reconnect_gen q).
Definition set_last_gen (x : Z) (q : quicfs_state L) : quicfs_state L :=
  MkQuicFs (qf_cache q) (qf_inodes q) (qf_fuse_ttl q) (qf_write_buf q) (qf_write_errors q) (qf_open_files q) (qf_next_client_fh q)
    (qf_uid_override q) (qf_gid_override q) x.

Definition no_rpc {A} : anyhow A := Err (lit "not connected").

(** What a callback does to the client's own state. *)
Definition client_exec (X : Type) (e : fsE X) (c : client L) : X * client L :=
  let q := cl_fs c in
  let wb := qf_write_buf q in
  match e in fsE X return X * client L with
  | WbBegin fh => let '(x, b) := begin_flush wb fh in (x, upd (set_buf b) c)
  | WbAck fh n => (tt, upd (set_buf (ack_flush wb fh n)) c)
  | WbFail fh => (tt, upd (set_buf (fail_flush wb fh)) c)
  | WbDrop fh => let '(x, b) := drop_handle wb fh in (x, upd (set_buf b) c)
  | WbPush fh off data => let '(x, b) := push map_to_list wb fh off data (cl_now c) in (x, upd (set_buf b) c)
  | WbHasBuffered fh => (has_buffered wb fh, c)
  | WbTotalBytes => (wb_total_bytes wb, c)
  | WbHandles => (elements (wb_handles wb), c)
  | WbOlderThan deadline => (elements (older_than wb deadline (cl_now c)), c)
  | WbExpired => (elements (expired_handles wb (cl_now c)), c)
  | ErrInsert fh => (tt, upd (set_errors ({[fh]} ∪ qf_write_errors q)) c)
  | ErrRemove fh => (bool_decide (fh ∈ qf_write_errors q), upd (set_errors (qf_write_errors q ∖ {[fh]})) c)
  | FilesGet fh => (qf_open_files q !! fh, c)
  | FilesReopened fh sh gen =>
      (tt, upd (set_open (alter (fun f => MkOpenFile (of_path f) (of_flags f) sh gen (of_is_append f)) fh (qf_open_files q))) c)
  | FilesInsert fh f => (tt, upd (set_open (<[fh := f]> (qf_open_files q))) c)
  | FilesRemove fh => (qf_open_files q !! fh, upd (set_open (delete fh (qf_open_files q))) c)
  | NextClientFh => (qf_next_client_fh q, upd (set_next_fh (wrap64 (qf_next_client_fh q + 1))) c)
  | ReconnectGen => (cl_gen c, c)
  | LastGenLoad => (qf_last_reconnect_gen q, c)
  | LastGenStore gen => (tt, upd (set_last_gen gen) c)
  | CacheGet p => let '(x, m) := cache_get (qf_cache q) (cl_now c) p in (x, upd (set_cache m) c)
  | CacheInsert p stat is_dir => (tt, upd (set_cache (cache_insert (qf_cache q) (cl_now c) p stat is_dir)) c)
  | CacheNegative p => (tt, upd (set_cache (cache_insert_negative (qf_cache q) (cl_now c) p)) c)
  | CacheInvalidate p => (tt, upd (set_cache (cache_invalidate (qf_cache q) p)) c)
  | CacheClear => (tt, upd (set_cache (cache_clear (qf_cache q))) c)
  | InodePathOf ino => (path_of (qf_inodes q) ino, c)
  | InodeAlloc p => let '(x, t) := get_or_alloc (qf_inodes q) p in (x, upd (set_inodes t) c)
  | InodeRemove p => (tt, upd (set_inodes (remove_path (qf_inodes q) p)) c)
  | InodeRename old new => (tt, upd (set_inodes (rename_ino (qf_inodes q) old new)) c)
  | Rpc _ => (no_rpc, c)
  | SleepMs ms => (tt, MkClient q (cl_gen c) (cl_now c + ms) (cl_wall c) (cl_room c) (cl_listed c))
  | SystemNow => (cl_wall c, c)
  | ReplyAdd ino off kind name =>
      if zlen (cl_listed c) <? cl_room c
      then (false, MkClient q (cl_gen c) (cl_now c) (cl_wall c) (cl_room c) (cl_listed c ++ [(ino, off, kind, name)]))
      else (true, c)
  end.
End Client.

(** ** The mount *)

(** How a call fares: the connection is up; or it had to be made again, so that the
    server has a new session with its own handles; or the call ends with an error
    before the server hears of it; or after it was served. *)
Inductive fate : Type :=
| Up
| Renewed (uuid max_handles : Z)
| Unsent (e : str)
| Unheard (e : str).

(** RPCs go to [rpc] as their fates say (when these run out, the connection is up),
    and everything else is the client's own.  A new connection is counted by [bump]. *)
Section Exec.
Context {T S : Type} (loc : forall X, fsE X -> T -> X * T) (bump : T -> T).
Context (rpc : forall A, rpcE A -> S -> anyhow A * S) (renew : Z -> Z -> S -> S).

Record mount_state := MkMountState { ms_client : T; ms_fates : list fate; ms_far : S }.

Definition next_fate (s : mount_state) : fate := default Up (head (ms_fates s)).

Definition call_far (A : Type) (q : rpcE A) (f : fate) (far : S) : anyhow A * S :=
  match f with
  | Up => rpc _ q far
  | Renewed uuid max => rpc _ q (renew uuid max far)
  | Unsent e => (Err e, far)
  | Unheard e => (Err e, snd (rpc _ q far))
  end.

Definition mount_exec (X : Type) (e : fsE X) (s : mount_state) : X * mount_state :=
  match e in fsE X return X * mount_state with
  | Rpc q =>
      let f := next_fate s in
      let '(a, far) := call_far _ q f (ms_far s) in
      (a, MkMountState (match f with Renewed _ _ => bump (ms_client s) | _ => ms_client s end) (tail (ms_fates s)) far)
  | e => let '(x, t) := loc _ e (ms_client s) in (x, MkMountState t (ms_fates s) (ms_far s))
  end.
End Exec.
Arguments mount_state : clear implicits.
Arguments MkMountState {T S} _ _ _.
Arguments ms_client {T S} _.
Arguments ms_fates {T S} _.
Arguments ms_far {T S} _.

(** The connection's generation is counted in the client's state. *)
Definition bump_gen {L : Type} (c : client L) : client L :=
  MkClient (cl_fs c) (wrap64 (cl_gen c + 1)) (cl_now c) (cl_wall c) (cl_room c) (cl_listed c).

(** ** Callbacks, one after the other *)

Fixpoint callbacks (uid gid : option Z) (ttl : Z) (cs : list callback) : fs (list reply) :=
  match cs with
  | [] => Ret []
  | c :: cs => a <- run_callback uid gid ttl c ;; l <- callbacks uid gid ttl cs ;; Ret (a :: l)
  end.
