(* ===== verification/Coherent.v ===== *)
(** * A mounted file is a file

    The FUSE callbacks of [src/client/src/fuse_ops.rs] with their write buffer, over
    RPCs of [src/client/src/conn.rs] that serve an open file ([FileService]).
    Write-back buffering, sorting, coalescing and chunking are invisible: what an
    application sees through an open handle is an ordinary file.  [Transparent] has
    RPCs that serve it, on a volume and over the wire to the whole server.  Each
    callback runs alone; what the background task may do in
    between is [Durable]'s subject. *)

From S2P Require Import Prelude Prog Text Status Frames FrameIo Os PathStr Sanitize WriteLock Reply MetaOps DataOps CtrlOps Dispatch FileServer ClientRpc EndToEnd WriteBuf Cache Inodes FuseOps CliArgs QuicFs.

(** ** Positioned writes on file contents *)

Definition put_pair (d : bytes) (p : Z * bytes) : bytes := put d (fst p) (snd p).
Definition puts (d : bytes) (l : list (Z * bytes)) : bytes := foldl put_pair d l.

(** A write the client can send: not empty, within the offset range. *)
Definition sendable (p : Z * bytes) : Prop := snd p <> [] /\ in_range p.

Definition apart (p q : Z * bytes) : Prop := forall k, covers p k -> ~ covers q k.

Lemma put_comm d p q :
  sendable p -> sendable q -> apart p q -> put_pair (put_pair d p) q = put_pair (put_pair d q) p.
Proof.
  destruct p as [o a], q as [o' b]. intros [Ha [Ho _]] [Hb [Ho' _]] Hap. unfold apart, covers, put_pair in *.
  cbn [fst snd] in *.
  assert (o + zlen a <= o' \/ o' + zlen b <= o) as Hd.
  { destruct (decide (o + zlen a <= o')); [by left|]. destruct (decide (o' + zlen b <= o)); [by right|].
    destruct a as [|x a]; [done|]. destruct b as [|y b]; [done|]. cbn [length] in *. destruct (Hap (Z.max o o')); lia. }
  apply list_eq. intros i. rewrite !lookup_put by done.
  assert (forall c : bytes, c <> [] -> forall j, (j < length c)%nat -> Some (default x00 (c !! j)) = c !! j) as Hdef.
  { intros c _ j Hj. by destruct (lookup_lt_is_Some_2 c j Hj) as [x ->]. }
  repeat (destruct (decide _); try lia); rewrite ?Hdef by (done || lia); done.
Qed.

Lemma puts_perm d l l' :
  l ≡ₚ l' -> Forall sendable l -> disjoint_writes l -> puts d l = puts d l'.
Proof.
  intros Hp. revert d. induction Hp as [|p l l' Hp IH|p q l|l l' l'' Hp1 IH1 Hp2 IH2]; intros d Hs Hd; [done| | |].
  - simpl. apply IH; [by inv Hs|apply Hd].
  - simpl. do 2 apply Forall_cons in Hs as [? Hs]. destruct Hd as [Hd _].
    rewrite put_comm; [done..|]. exact (Hd p ltac:(left)).
  - rewrite IH1 by done. apply IH2; [by rewrite <- Hp1|]. by eapply disjoint_writes_perm.
Qed.

Lemma merge_puts d m l :
  Forall sendable m -> Forall sendable l ->
  puts d (foldl merge_step m l) = puts d (m ++ l) /\ Forall sendable (foldl merge_step m l).
Proof.
  intros Hm Hl. revert m Hm. induction Hl as [|[off data] l Hp Hl IH]; intros m Hm; simpl.
  { by rewrite app_nil_r. }
  assert (Forall sendable (m ++ [(off, data)])) as Hsnoc by (apply Forall_app; by split; [|constructor]).
  pose proof (IH _ Hsnoc) as Happ. rewrite <- app_assoc in Happ.
  unfold merge_step at 2 4. destruct m as [|[lo ld] m _] using rev_ind; [exact Happ|].
  rewrite last_snoc. apply Forall_app in Hm as [Hm Hlo]. inv Hlo. simpl fst.
  destruct (wrap64 _ =? off) eqn:E; [|exact Happ]. apply Z.eqb_eq in E.
  destruct H1 as [Hld [Hlo Hhi]], Hp as [Hdata [Hoff Hend]]. simpl in *.
  rewrite wrap_small in E by (unfold in_width; lia). subst off.
  rewrite removelast_last. destruct (IH (m ++ [(lo, ld ++ data)])) as [-> Hall].
  - apply Forall_app. split; [done|]. constructor; [|done]. split; simpl; [by destruct ld|].
    split; simpl; [lia|]. rewrite length_app. lia.
  - split; [|done]. unfold puts. rewrite <- !app_assoc, !foldl_app. simpl. f_equal.
    unfold put_pair. simpl. by rewrite put_app.
Qed.

(** What a flush sends amounts to the writes in the order they were made. *)
Lemma batch_puts d l :
  Forall sendable l -> disjoint_writes l ->
  puts d (coalesce (sort_pairs l)) = puts d l /\ Forall sendable (coalesce (sort_pairs l)).
Proof.
  intros Hs Hd. unfold coalesce. destruct (merge_puts d [] (sort_pairs l)) as [-> Hall];
    [constructor|by rewrite sort_pairs_perm|]. split; [|done].
  simpl. symmetry. apply puts_perm; [by rewrite sort_pairs_perm|done..].
Qed.

Lemma disjoint_snoc l p :
  disjoint_writes l -> (forall q, q ∈ l -> apart q p) -> disjoint_writes (l ++ [p]).
Proof.
  induction l as [|q l IH]; simpl; [intros _ _; split; [|done]; intros q Hq; by apply not_elem_of_nil in Hq|].
  intros [Hq Hl] Hp. split; [|apply IH; [done|]; intros r Hr; apply Hp; by right].
  intros r [Hr|Hr%list_elem_of_singleton]%elem_of_app; [by apply Hq|]. subst r. apply Hp. left.
Qed.

(** ** The RPCs behind the callbacks *)

Section Rpcs.
Context {C : Codec}.
Variables (chunk_size : Z) (dir_fuel : nat).

(** Each method of [ConnManager] the callbacks use.  Fuel above the length is
    enough for a read. *)
Definition rpc_prog {A} (r : rpcE A) : cli (anyhow A) :=
  match r in rpcE A return cli (anyhow A) with
  | RGetattr p => getattr p
  | RSetattr p valid mode uid gid size atime mtime => setattr p valid mode uid gid size atime mtime
  | RReaddir p => readdir dir_fuel p
  | RMkdir p mode => ClientRpc.mkdir p mode
  | RRmdir p => rmdir p
  | RUnlink p => unlink p
  | RRename old new flags => rename old new flags
  | RSymlink target l => symlink target l
  | RReadlink p => readlink p
  | RLink p l => link p l
  | RStatfs p => statfs p
  | ROpen p flags => ClientRpc.open p flags
  | RCreate p flags mode => create p flags mode
  | RRelease h => release h
  | RRead h off size => read (S (Z.to_nat size)) h off size
  | RWrite h off data => write chunk_size h off data
  | RFsync h datasync => fsync h datasync
  end.

End Rpcs.

(** What the callbacks need of the RPCs to use a file that is open on the server under
    the handle [hid]: a write changes its contents, a read gives them. *)
Class FileService {W : Type} (rpc : forall A, rpcE A -> W -> anyhow A * W) (hid : Z) (contents : W -> bytes -> Prop) : Prop := {
  service_write s d off data :
    contents s d -> data <> [] -> 0 <= off -> off + zlen data < 2 ^ 64 ->
    exists s', rpc _ (RWrite hid off data) s = (Ok (zlen data), s') /\ contents s' (put d off data);
  service_read s d off len :
    contents s d -> 0 <= off -> 1 <= len <= MAX_READ_REQUEST -> off + len < 2 ^ 64 ->
    exists s', rpc _ (RRead hid off len) s = (Ok (slice d off len), s') /\ contents s' d
}.

(** ** One handle *)

Section Mounted.
Context {W : Type} (rpc : forall A, rpcE A -> W -> anyhow A * W) (hid : Z) (contents : W -> bytes -> Prop).
Context {Service : FileService rpc hid contents}.
Context {L : Type} `{!LruOps L Entry} (renew : Z -> Z -> W -> W).
(** The client handle, its file, the buffer's limits and the clock. *)
Variables (fh : Z) (opened : OpenFile) (per_handle total window now : Z).

Hypothesis opened_ok : of_server_handle opened = hid.
Hypothesis total_ok : 0 < total < 2 ^ 62.

(** The client, on a connection that stays up. *)
Abbreviation exec := (run (mount_exec client_exec bump_gen rpc renew)).
Abbreviation st c w := (MkMountState (T := client L) (S := W) c [] w).

(** The write buffer when only this handle has unsent writes [cs]. *)
Definition entry_of (cs : list PendingWrite) (sending : bool) : gmap Z HandleBuf :=
  match cs with [] => ∅ | _ => {[fh := MkHandleBuf cs sending]} end.
Definition buffer (cs : list PendingWrite) (sending : bool) : WriteBuffer :=
  set_handles (entry_of cs sending) (chunks_bytes cs) (wb_new per_handle total window).

Lemma begin_buffer cs :
  begin_flush (buffer cs false) fh =
  match cs with
  | [] => (None, buffer cs false)
  | _ => (Some (MkFlushBatch (coalesce (sort_pairs (map pair_of cs))) (zlen cs)), buffer cs true)
  end.
Proof.
  unfold begin_flush, buffer, entry_of. destruct cs as [|c cs]; [done|]. simpl.
  rewrite lookup_singleton_eq. simpl. unfold set_handles. simpl. by rewrite insert_singleton_eq.
Qed.

Lemma ack_buffer c cs : ack_flush (buffer (c :: cs) true) fh (zlen (c :: cs)) = buffer [] false.
Proof.
  unfold ack_flush, buffer, entry_of. cbn [wb_per_handle set_handles]. rewrite lookup_singleton_eq.
  cbn [hb_chunks]. rewrite Z.min_id, Nat2Z.id, take_ge, drop_ge by done.
  unfold set_handles. simpl. rewrite delete_singleton_eq. f_equal. unfold sat_sub. lia.
Qed.

Lemma push_buffer cs off data :
  zlen data <= total -> chunks_bytes cs < total ->
  let cs' := cs ++ [MkPendingWrite off data now] in
  push map_to_list (buffer cs false) fh off data now =
  (if per_handle <=? chunks_bytes cs' then FlushThis fh
   else if total <=? chunks_bytes cs' then FlushOther fh else Buffered, buffer cs' false).
Proof.
  intros Hd Hc cs'. pose proof (chunks_bytes_nonneg cs) as Hn.
  assert (chunks_bytes cs' = chunks_bytes cs + zlen data) as Hb by (unfold cs'; rewrite chunks_bytes_app; simpl; lia).
  assert (default HandleBuf_default (entry_of cs false !! fh) = MkHandleBuf cs false) as He.
  { unfold entry_of. destruct cs; [done|]. by rewrite lookup_singleton_eq. }
  assert (<[fh := MkHandleBuf cs' false]> (entry_of cs false) = entry_of cs' false) as Hi.
  { unfold entry_of, cs'. destruct cs; [done|]. simpl. by rewrite insert_singleton_eq. }
  assert (entry_of cs' false = {[fh := MkHandleBuf cs' false]}) as He'.
  { unfold entry_of, cs'. by destruct cs. }
  unfold push, buffer. cbn [wb_hard_total_bytes wb_total_bytes wb_per_handle set_handles wb_new
    wb_max_per_handle_bytes wb_max_total_bytes]. rewrite wrap_small by (unfold in_width; lia).
  destruct (_ <? _) eqn:E.
  { apply Z.ltb_lt in E. unfold sat_mul64, u64_max in E. lia. }
  rewrite He. cbn [hb_chunks hb_sending]. fold cs'. rewrite Hi. unfold hb_bytes. cbn [hb_chunks].
  rewrite <- Hb. destruct (per_handle <=? _); [done|]. destruct (total <=? _); [|done].
  rewrite He', map_to_list_singleton. done.
Qed.

(** Buffered writes, and a state in which the application's file is [file]. *)
Record pending_ok (cs : list PendingWrite) : Prop := {
  po_sendable : Forall sendable (map pair_of cs);
  po_disjoint : disjoint_writes (map pair_of cs)
}.

Record coherent (file : bytes) (cs : list PendingWrite) (c : client L) (w : W) : Prop := {
  co_buffer : qf_write_buf (cl_fs c) = buffer cs false;
  co_pending : pending_ok cs;
  co_file : exists d, contents w d /\ puts d (map pair_of cs) = file;
  co_open : qf_open_files (cl_fs c) !! fh = Some opened;
  co_gen : of_opened_gen opened = cl_gen c;
  co_clean : fh ∉ qf_write_errors (cl_fs c);
  co_now : cl_now c = now
}.

#[local] Ltac step := rewrite ?run_bind, run_call; cbn [mount_exec client_exec ms_client ms_fates ms_far].

(** ** Flushing *)

(** The [live_handle] of a handle opened on this connection. *)
Lemma ensure_live_run allow c w :
  qf_open_files (cl_fs c) !! fh = Some opened -> of_opened_gen opened = cl_gen c ->
  exec (ensure_live fh allow) (st c w) = (Some hid, st c w).
Proof.
  intros Hf Hg. unfold ensure_live. do 2 step. rewrite Hf, Hg, Z.eqb_refl, run_ret. by rewrite opened_ok.
Qed.

Lemma send_batch_run batch c w d :
  Forall sendable batch -> contents w d ->
  exists w', exec (send_batch hid batch) (st c w) = (None, st c w') /\ contents w' (puts d batch).
Proof.
  intros Hb. revert w d. induction Hb as [|[off data] batch [Hne [Ho Hr]] Hb IH]; intros w d Hd.
  { exists w. cbn [send_batch]. by rewrite run_ret. }
  cbn [send_batch]. step. unfold next_fate. cbn [ms_fates head default call_far fst snd tail] in *.
  destruct (service_write w d off data Hd Hne Ho Hr) as (w1 & -> & Hd1). by destruct (IH w1 _ Hd1) as (w2 & -> & Hd2); exists w2.
Qed.

(** A flush sends everything: the server's file is the application's. *)
Lemma flush_run file cs c w :
  coherent file cs c w ->
  exists c' w', exec (flush_handle fh) (st c w) = (Ok tt, st c' w') /\ coherent file [] c' w'.
Proof.
  intros [Hb Hp (d & Hd & Hf) Ho Hg Hc Hnow].
  unfold flush_handle, flush_one. cbn [flush_attempts]. rewrite run_bind, ensure_live_run by done.
  step. rewrite Hb, begin_buffer. destruct cs as [|p cs].
  { rewrite run_ret. eexists _, w. split; [reflexivity|]. split; try done. by exists d. }
  cbn [ms_client]. step. cbn [upd cl_fs set_buf qf_write_buf cl_gen ms_client ms_far ms_fates].
  destruct (batch_puts d (map pair_of (p :: cs)) (po_sendable _ Hp) (po_disjoint _ Hp)) as [Hputs Hall].
  rewrite run_bind. cbn [fb_chunks fb_sent_count]. set (cs' := p :: cs) in *.
  edestruct (send_batch_run (coalesce (sort_pairs (map pair_of cs')))) as (w' & -> & Hd'); [done|exact Hd|].
  step. cbn [upd cl_fs set_buf qf_write_buf]. unfold cs'. rewrite ack_buffer, run_ret.
  eexists _, w'. split; [reflexivity|]. split; cbn [upd cl_fs set_buf qf_write_buf qf_open_files qf_write_errors cl_gen cl_now]; try done.
  exists (puts d (map pair_of cs')). split; [by rewrite <- Hputs|exact Hf].
Qed.

(** ** Callbacks *)

Lemma read_coherent file cs c w off len :
  coherent file cs c w -> 0 <= off -> 1 <= len <= MAX_READ_REQUEST -> off + len < 2 ^ 64 ->
  exists c' w', exec (fuse_read fh off len) (st c w) = (ReplyData (slice file off len), st c' w') /\ coherent file [] c' w'.
Proof.
  intros H Ho Hl Hr. unfold fuse_read. rewrite run_bind.
  destruct (flush_run file cs c w H) as (c1 & w1 & -> & H'). rewrite run_bind. unfold live_handle.
  rewrite ensure_live_run by apply H'. unfold on_rpc. step.
  unfold next_fate. cbn [ms_fates head default call_far tail]. rewrite wrap_small by (unfold in_width; lia).
  destruct H' as [Hb Hp (d & Hd & Hf) Hop Hg Hc Hnow]. simpl in Hf. subst d.
  destruct (service_read w1 file off len Hd) as (w2 & -> & Hd2); [done..|]. rewrite run_ret.
  eexists _, w2. split; [reflexivity|]. split; try done. by exists file.
Qed.

(** The cache and the inode table have no part in a handle's reads and writes. *)
Lemma invalidated_run ino c w : exists m, forall A (k : fs A),
  exec (o <- fc (InodePathOf ino) ;; (match o with Some p => fc (CacheInvalidate p) | None => Ret tt end) ;;; k) (st c w) =
  exec k (st (upd (set_cache m) c) w).
Proof.
  destruct (path_of (qf_inodes (cl_fs c)) ino) as [p|] eqn:E.
  - eexists. intros A k. step. rewrite E. step. reflexivity.
  - exists (qf_cache (cl_fs c)). intros A k. step. rewrite E, run_bind, run_ret. by destruct c as [[] ? ? ? ? ?].
Qed.

Lemma write_coherent file cs c w ino off data :
  coherent file cs c w -> chunks_bytes cs < total ->
  sendable (off, data) -> zlen data <= total -> zlen data < 2 ^ 32 ->
  (forall p, p ∈ map pair_of cs -> apart p (off, data)) ->
  exists c' w' cs', exec (fuse_write ino fh off data) (st c w) = (ReplyWritten (zlen data), st c' w') /\
    coherent (put file off data) cs' c' w' /\ chunks_bytes cs' < total /\
    (cs' = [] \/ map pair_of cs' = map pair_of cs ++ [(off, data)]).
Proof.
  intros [Hb [Hps Hpd] (d & Hd & Hf) Ho Hg Hc Hnow] Hroom Hsend Ht H32 Hap.
  pose proof Hsend as [_ [Hoff Hend]]. cbn [fst snd] in Hoff, Hend.
  unfold fuse_write. destruct (invalidated_run ino c w) as [m Hm]. rewrite Hm. clear Hm.
  set (c1 := upd (set_cache m) c). rewrite run_bind. unfold live_handle. rewrite ensure_live_run by done.
  step. change (qf_write_buf (cl_fs c1)) with (qf_write_buf (cl_fs c)). change (cl_now c1) with (cl_now c).
  rewrite !wrap_small by (unfold in_width; lia). rewrite Hb, Hnow, push_buffer by done.
  set (cs' := cs ++ [MkPendingWrite off data now]).
  assert (map pair_of cs' = map pair_of cs ++ [(off, data)]) as Hmap by (unfold cs'; by rewrite map_app).
  assert (coherent (put file off data) cs' (upd (set_buf (buffer cs' false)) c1) w) as H'.
  { split; try done.
    - split; rewrite Hmap; [apply Forall_app; by split; [|constructor]|by apply disjoint_snoc].
    - exists d. split; [done|]. rewrite Hmap. unfold puts. rewrite foldl_app. fold (puts d (map pair_of cs)). by rewrite Hf. }
  destruct (per_handle <=? _); [|destruct (total <=? _) eqn:E].
  1,2: rewrite run_bind; destruct (flush_run _ _ _ _ H') as (c' & w' & -> & Hs');
       rewrite run_ret; exists c', w', []; split_and!; [done|done|simpl; lia|by left].
  apply Z.leb_gt in E. rewrite run_ret. eexists _, w, cs'. split_and!; [done|apply H'|done|by right].
Qed.

(** The drain of [flush] needs one round. *)
Lemma close_coherent file cs c w :
  coherent file cs c w ->
  exists c' w', exec (fuse_flush fh) (st c w) = (ReplyOk, st c' w') /\ coherent file [] c' w' /\ contents w' file.
Proof.
  intros H. unfold fuse_flush, flush_outcome, flush_handle_drain. rewrite run_bind, run_bind.
  change 500%nat with (S 499). cbn [drain]. rewrite run_bindr.
  destruct (flush_run file cs c w H) as (c1 & w1 & -> & [Hb Hp (d & Hd & Hf) Ho Hg Hc Hnow]). simpl in Hf. subst d.
  step. rewrite Hb. change (has_buffered (buffer [] false) fh) with false. cbn [negb]. rewrite run_ret. step.
  rewrite bool_decide_false by done. rewrite run_ret. cbn [flush_reply]. rewrite run_ret.
  eexists _, w1. split; [reflexivity|]. split; [|exact Hd]. split; try done; [by exists file|].
  cbn [upd cl_fs set_errors qf_write_errors]. set_solver.
Qed.

(** ** Sequences of operations *)

Inductive file_op : Type :=
| FWrite (ino off : Z) (data : bytes)
| FRead (off len : Z)
| FClose.

Definition op_callback (op : file_op) : callback :=
  match op with
  | FWrite ino off data => CbWrite ino fh off data
  | FRead off len => CbRead fh off len
  | FClose => CbFlush fh
  end.

(** An ordinary file. *)
Definition file_step (file : bytes) (op : file_op) : reply * bytes :=
  match op with
  | FWrite _ off data => (ReplyWritten (zlen data), put file off data)
  | FRead off len => (ReplyData (slice file off len), file)
  | FClose => (ReplyOk, file)
  end.

Fixpoint file_run (file : bytes) (ops : list file_op) : list reply * bytes :=
  match ops with
  | [] => ([], file)
  | op :: ops =>
      let '(r, file) := file_step file op in
      let '(rs, file) := file_run file ops in (r :: rs, file)
  end.

(** Operations within the limits, with no byte written twice between two
    operations that wait for the server; [unsynced] are the writes since. *)
Fixpoint ops_ok (unsynced : list (Z * bytes)) (ops : list file_op) : Prop :=
  match ops with
  | [] => True
  | FWrite _ off data :: ops =>
      sendable (off, data) /\ zlen data <= total /\ zlen data < 2 ^ 32 /\
      (forall p, p ∈ unsynced -> apart p (off, data)) /\ ops_ok (unsynced ++ [(off, data)]) ops
  | FRead off len :: ops =>
      0 <= off /\ 1 <= len <= MAX_READ_REQUEST /\ off + len < 2 ^ 64 /\ ops_ok [] ops
  | FClose :: ops => ops_ok [] ops
  end.

(** The operations through the mount, and a final close. *)
Definition through_mount (uid gid : option Z) (ttl : Z) (ops : list file_op) : fs (list reply) :=
  callbacks uid gid ttl (map op_callback ops ++ [CbFlush fh]).

Lemma through_cons uid gid ttl op ops s :
  exec (through_mount uid gid ttl (op :: ops)) s =
  let '(a, s) := exec (run_callback uid gid ttl (op_callback op)) s in
  let '(l, s) := exec (through_mount uid gid ttl ops) s in (a :: l, s).
Proof.
  unfold through_mount. cbn [map app callbacks]. rewrite run_bind. destruct (exec (run_callback _ _ _ _) s) as [a s1].
  rewrite run_bind. by destruct (exec (callbacks _ _ _ _) s1).
Qed.

Lemma through_mount_coherent uid gid ttl ops : forall file cs unsynced c w,
  coherent file cs c w -> chunks_bytes cs < total -> map pair_of cs ⊆ unsynced -> ops_ok unsynced ops ->
  exists c' w', exec (through_mount uid gid ttl ops) (st c w) = (fst (file_run file ops) ++ [ReplyOk], st c' w') /\
    contents w' (snd (file_run file ops)).
Proof.
  induction ops as [|op ops IH]; intros file cs unsynced c w H Hroom Hsub Hok.
  { destruct (close_coherent file cs c w H) as (c' & w' & E & _ & Hd). exists c', w'. split; [|exact Hd].
    unfold through_mount. cbn [map app callbacks run_callback]. by rewrite run_bind, E, run_bind, run_ret. }
  rewrite through_cons. cbn [file_run]. destruct op as [ino off data|off len|]; cbn [op_callback run_callback file_step].
  - destruct Hok as (Hs & Ht & H32 & Hap & Hok).
    destruct (write_coherent file cs c w ino off data) as (c1 & w1 & cs1 & -> & H1 & Hroom1 & Hcs1); [done..|by auto|].
    destruct (IH (put file off data) cs1 (unsynced ++ [(off, data)]) c1 w1) as (c2 & w2 & -> & Hd); [done|done| |done|].
    { destruct Hcs1 as [->| ->]; set_solver. }
    destruct (file_run _ ops). by exists c2, w2.
  - destruct Hok as (Ho & Hl & Hr & Hok).
    destruct (read_coherent file cs c w off len) as (c1 & w1 & -> & H1); [done..|].
    destruct (IH file [] [] c1 w1) as (c2 & w2 & -> & Hd); [done|simpl; lia|done|done|].
    destruct (file_run _ ops). by exists c2, w2.
  - destruct (close_coherent file cs c w H) as (c1 & w1 & -> & H1 & _).
    destruct (IH file [] [] c1 w1) as (c2 & w2 & -> & Hd); [done|simpl; lia|done|done|].
    destruct (file_run _ ops). by exists c2, w2.
Qed.
End Mounted.

(** ** Mounted files *)

(** The client has a file open, of the connection it is on, and nothing buffered. *)
Record client_ready {L} (fh : Z) (opened : OpenFile) (per_handle total window : Z) (c : client L) : Prop := {
  cr_buffer : qf_write_buf (cl_fs c) = wb_new per_handle total window;
  cr_open : qf_open_files (cl_fs c) !! fh = Some opened;
  cr_gen : of_opened_gen opened = cl_gen c;
  cr_clean : fh ∉ qf_write_errors (cl_fs c)
}.

(** Over RPCs that serve a file, the mount is that file: the answers are those of a file
    on which each operation takes effect at once, and after a final close the contents
    are exactly that file's. *)
Lemma service_mounts_file {W} (rpc : forall A, rpcE A -> W -> anyhow A * W) hid contents {Service : FileService rpc hid contents}
    {L} `{!LruOps L Entry} renew fh opened per_handle total window uid gid ttl ops (c : client L) w d :
  of_server_handle opened = hid -> 0 < total < 2 ^ 62 -> client_ready fh opened per_handle total window c ->
  contents w d -> ops_ok total [] ops ->
  exists c' w',
    run (mount_exec client_exec bump_gen rpc renew) (through_mount fh uid gid ttl ops) (MkMountState c [] w) =
      (fst (file_run d ops) ++ [ReplyOk], MkMountState c' [] w') /\
    contents w' (snd (file_run d ops)).
Proof.
  intros Hopen Htotal [Hwb Hfile Hgen Herr] Hd Hok.
  apply (through_mount_coherent rpc hid contents renew fh opened per_handle total window (cl_now c)) with (cs := []) (unsynced := []);
    [done|done| |simpl; lia|done|done].
  split; [done|done| |done..]. by exists d.
Qed.

Lemma before_apart p q : (fst p + zlen (snd p) <= fst q \/ fst q + zlen (snd q) <= fst p) -> apart p q.
Proof. intros Hpq k. unfold covers. lia. Qed.
