(* ===== verification/Remote.v ===== *)
(** * The client's RPCs on a volume

    Every method of [ConnManager] in [src/client/src/conn.rs], over the wire and the
    server's dispatcher, is an operation on the volume the server's process holds:
    [rpc_ref] says which, without messages, pages, chunks or handles of the kernel. *)

From S2P Require Import Prelude Prog Text Status Frames FrameIo Os Sanitize WriteLock Handles Reply MetaOps DataOps Dispatch FileServer ClientRpc EndToEnd FuseOps Coherent Posix Jail Namespace Attributes Reference Volume Service.

Section Remote.
Context {C : Codec} (session : ClientSession) (rs : list str) (r : Z).
Variables (chunk_size : Z) (dir_fuel : nat).
Abbreviation root := (RootDir :: map Normal rs).

(** ** The connection *)

(** The server's process serves a stream, its answers going to the client. *)
Definition serve_world (out : list bytes) (w : posix * desk) : list bytes * (posix * desk) :=
  let '(_, w') := run kexec (dispatch_inner session root (stream_of out))
                    (fst w, MkDesk (dk_hash (snd w)) (dk_table (snd w)) []) in
  (dk_sent (snd w'), w').

Abbreviation remote := (wire (posix * desk)).
Definition remote_rpc (A : Type) (q : rpcE A) (w : remote) : anyhow A * remote :=
  run (wire_exec serve_world) (rpc_prog chunk_size dir_fuel q) w.

(** ** The reference *)

Definition failed {A} (st : Status) : anyhow A := Err (lit "server error: " ++ status_debug st).
Definition io_reply {A B} (f : A -> anyhow B) (x : io A) : anyhow B :=
  match x with Ok a => f a | Err e => failed (status_from_io e) end.

(** The entry a path names, if the export has it within reach. *)
Definition on_path {A} (p : str) (v : volume) (op : list str -> posix -> anyhow A * posix) : anyhow A * volume :=
  match ref_resolve rs r (v_fs v) p with
  | Err _ => (failed StPermission, v)
  | Ok ps => let '(a, k) := op ps (v_fs v) in (a, set_vfs k v)
  end.
Definition on_paths {A} (p q : str) (v : volume) (op : list str -> list str -> posix -> anyhow A * posix) : anyhow A * volume :=
  match ref_resolve rs r (v_fs v) p, ref_resolve rs r (v_fs v) q with
  | Ok ps, Ok qs => let '(a, k) := op ps qs (v_fs v) in (a, set_vfs k v)
  | _, _ => (failed StPermission, v)
  end.

Definition stat_reply (x : io metadata) : anyhow Stat := io_reply (fun m => Ok (metadata_to_stat m)) x.

(** What an operation answers that is followed by a look at what it made. *)
Definition made (follow : bool) (ps : list str) (out : io unit * posix) : anyhow Stat * posix :=
  (io_reply (fun _ => ok_or (lit "missing stat") (stat_at rs follow ps (snd out))) (fst out), snd out).
Definition done_reply (out : io unit * posix) : anyhow unit * posix := (io_reply Ok (fst out), snd out).

(** A file opened. *)
Definition opened (h : vhandle) (v : volume) : anyhow (Z * Stat) * volume :=
  match v_insert h v with
  | (Some id, v') =>
      (match stat_ino (v_fs v) (vh_ino h) with
       | Ok m => Ok (id, metadata_to_stat m)
       | Err _ => Err (lit "missing stat")
       end, v')
  | (None, v') => (failed StNoSpace, v')
  end.

(** The open file of a handle. *)
Definition on_handle {A} (h : Z) (v : volume) (op : vhandle -> anyhow A * volume) : anyhow A * volume :=
  match v_open v !! h with Some f => op f | None => (failed StStale, v) end.

Definition no_answer {A} : anyhow A := Err (lit "read length prefix").

Definition rpc_ref {A} (q : rpcE A) (v : volume) : anyhow A * volume :=
  match q in rpcE A return anyhow A * volume with
  | FuseOps.RGetattr p => on_path p v (fun ps k => (stat_reply (stat_of rs ps k), k))
  | FuseOps.RSetattr p valid mode uid gid size atime mtime =>
      on_path p v (fun ps k =>
        let '(x, k) := ref_setattr r (MkSetAttrRequest OP_SET_ATTR 0 p valid mode uid gid size atime mtime) ps k in
        (io_reply (fun _ => stat_reply (stat_of rs ps k)) x, k))
  | FuseOps.RReaddir p => on_path p v (fun ps k => (io_reply Ok (entries_of rs ps k), k))
  | FuseOps.RMkdir p mode =>
      on_path p v (fun ps k => made true ps (at_path rs ps k (fun cs c => ref_mkdir r cs c (Z.land mode perm_mask) k)))
  | FuseOps.RRmdir p => on_path p v (fun ps k => done_reply (at_path rs ps k (fun cs c => ref_remove r cs c true k)))
  | FuseOps.RUnlink p => on_path p v (fun ps k => done_reply (at_path rs ps k (fun cs c => ref_remove r cs c false k)))
  | FuseOps.RRename p q _ =>
      on_paths p q v (fun ps qs k => done_reply (at_paths rs r ps qs k (fun cs c cs' c' => ref_rename r cs c cs' c' k)))
  | FuseOps.RSymlink target p =>
      if MAX_SYMLINK_TARGET_LEN <? str_len target then (failed StInvalidArg, v)
      else on_path p v (fun ps k => made false ps (at_path rs ps k (symlink_ref r target k)))
  | FuseOps.RReadlink p =>
      on_path p v (fun ps k => let '(x, k) := at_path rs ps k (fun cs c => ref_readlink r cs c k) in (io_reply Ok x, k))
  | FuseOps.RLink p q =>
      on_paths p q v (fun ps qs k => made true qs (at_paths rs r ps qs k (fun cs c cs' c' => ref_link r cs c cs' c' k)))
  | FuseOps.RStatfs p =>
      on_path p v (fun ps k =>
        (Ok (match locate_ino k true (root ++ map Normal ps) with
             | Ok _ => statfs_of (k_statvfs k)
             | Err _ => StatFs_default
             end), k))
  | FuseOps.ROpen p flags =>
      match ref_resolve rs r (v_fs v) p with
      | Err _ => (failed StPermission, v)
      | Ok ps => match ref_open r ps (open_access flags) (v_fs v) with
                 | Err e => (failed (status_from_io e), v)
                 | Ok i => opened (MkVhandle i flags (open_access flags)) v
                 end
      end
  | FuseOps.RCreate p flags mode =>
      match ref_resolve rs r (v_fs v) p with
      | Err _ => (failed StPermission, v)
      | Ok ps => match ref_create r ps flags (Z.land mode perm_mask) (v_fs v) with
                 | (Err e, _) => (failed (status_from_io e), v)
                 | (Ok i, k) => opened (MkVhandle i flags O_RDWR) (set_vfs k v)
                 end
      end
  | FuseOps.RRelease h => (Ok tt, v_remove h v)
  | FuseOps.RRead h off len =>
      if MAX_READ_REQUEST <? len then (failed StInvalidArg, v)
      else on_handle h v (fun f =>
        (if len <=? 0 then no_answer
         else io_reply (fun nd => Ok (slice (snd nd) off len)) (data_of may_read f (v_fs v)), v))
  | FuseOps.RWrite h off data =>
      if bool_decide (data = []) then (no_answer, v)
      else on_handle h v (fun f =>
        match data_of may_write f (v_fs v) with
        | Err e => (failed (status_from_io e), v)
        | Ok (n, d) =>
            let d' := if has_bits (vh_flags f) 0x400 then d ++ data else put d off data in
            (Ok (zlen data), set_vfs (put_node (vh_ino f) (set_kind (KFile d') n) (v_fs v)) v)
        end)
  | FuseOps.RFsync h _ => on_handle h v (fun _ => (Ok tt, v))
  end.

(** ** What crosses the wire *)

(** The frames of a request. *)
Definition request_frames (q : vrequest) : list (option bytes) :=
  match q with
  | VNames (Namespace.RMkdir q) => [encode q]
  | VNames (Namespace.RRmdir q) | VNames (Namespace.RUnlink q) | VNames (Namespace.RReadlink q) => [encode q]
  | VNames (Namespace.RSymlink q) => [encode q]
  | VNames (Namespace.RRename q) => [encode q]
  | VNames (Namespace.RLink q) => [encode q]
  | VAttrs (Attributes.RGetattr q) => [encode q]
  | VAttrs (Attributes.RSetattr q) => [encode q]
  | VAttrs (Attributes.RReaddir q) => [encode q]
  | VAttrs (Attributes.RStatfs q) => [encode q]
  | VOpen q => [encode q]
  | VCreate q => [encode q]
  | VRelease q => [encode q]
  | VFsync q => [encode q]
  | VRead q => [encode q]
  | VWrite q more => map encode (q :: more)
  | VPing q => [encode q]
  end.

(** The pages of a listing. *)
Fixpoint pages (n : nat) (seq : Z) (p : str) (cursor : Z) : list vrequest :=
  match n with
  | O => []
  | S n => VAttrs (Attributes.RReaddir (MkReadDirRequest OP_READ_DIR seq p cursor)) :: pages n (wrap64 (seq + 1)) p (cursor + 256)
  end.

Definition listing (p : str) (v : volume) : list DirEntry :=
  match ref_resolve rs r (v_fs v) p with
  | Ok ps => match entries_of rs ps (v_fs v) with Ok es => es | Err _ => [] end
  | Err _ => []
  end.
Definition page_count (p : str) (v : volume) : nat := S (length (listing p v) / 256).

(** What the client sends for a call when [seq] is its counter. *)
Definition requests {A} (seq : Z) (q : rpcE A) (v : volume) : list vrequest :=
  match q with
  | FuseOps.RGetattr p => [VAttrs (Attributes.RGetattr (MkGetAttrRequest OP_GET_ATTR seq p))]
  | FuseOps.RSetattr p valid mode uid gid size atime mtime =>
      [VAttrs (Attributes.RSetattr (MkSetAttrRequest OP_SET_ATTR seq p valid mode uid gid size atime mtime))]
  | FuseOps.RReaddir p => pages (page_count p v) seq p 0
  | FuseOps.RMkdir p mode => [VNames (Namespace.RMkdir (MkMkDirRequest OP_MKDIR seq p mode))]
  | FuseOps.RRmdir p => [VNames (Namespace.RRmdir (MkPathRequest OP_RMDIR seq p))]
  | FuseOps.RUnlink p => [VNames (Namespace.RUnlink (MkPathRequest OP_UNLINK seq p))]
  | FuseOps.RRename p q flags => [VNames (Namespace.RRename (MkRenameRequest OP_RENAME seq p q flags))]
  | FuseOps.RSymlink target p => [VNames (Namespace.RSymlink (MkSymlinkRequest OP_SYMLINK seq target p))]
  | FuseOps.RReadlink p => [VNames (Namespace.RReadlink (MkPathRequest OP_READLINK seq p))]
  | FuseOps.RLink p q => [VNames (Namespace.RLink (MkLinkRequest OP_LINK seq p q))]
  | FuseOps.RStatfs p => [VAttrs (Attributes.RStatfs (MkPathRequest OP_STAT_FS seq p))]
  | FuseOps.ROpen p flags => [VOpen (MkOpenRequest OP_OPEN seq p flags)]
  | FuseOps.RCreate p flags mode => [VCreate (MkCreateRequest OP_CREATE seq p flags mode)]
  | FuseOps.RRelease h => [VRelease (MkReleaseRequest OP_RELEASE seq h)]
  | FuseOps.RRead h off len => [VRead (MkReadRequest OP_READ seq h off len)]
  | FuseOps.RWrite h off data =>
      let csz := Z.max chunk_size 1 in
      let cs := chunks (Z.to_nat csz) data in
      match write_reqs h seq off csz 0 (zlen cs) cs with [] => [] | q :: more => [VWrite q more] end
  | FuseOps.RFsync h datasync => [VFsync (MkFsyncRequest OP_FSYNC seq h datasync)]
  end.

(** Ranges the sources' integers cannot leave, and a listing within its fuel. *)
Definition in_bounds {A} (q : rpcE A) (v : volume) : bool :=
  match q with
  | FuseOps.RRead _ off len => (0 <=? off) && (off + len <? 2 ^ 64)
  | FuseOps.RWrite _ off data => (0 <=? off) && (off + zlen data <? 2 ^ 64)
  | FuseOps.RReaddir p => (zlen (listing p v) <? 2 ^ 64) && (page_count p v <=? dir_fuel)%nat
  | _ => true
  end.

Definition fits (l : list (option bytes)) : bool :=
  forallb (fun x => match x with Some b => zlen b <=? MAX_FRAME_SIZE | None => false end) l.

(** Every message of the call can be encoded and is no longer than a frame may be. *)
Definition deliverable {A} (seq : Z) (q : rpcE A) (v : volume) : bool :=
  in_bounds q v && forallb (fun x => fits (request_frames x) && fits (fst (vol_serve rs r x v))) (requests seq q v).

(** The client's counter after the call. *)
Definition seq_after {A} (seq : Z) (q : rpcE A) (v : volume) : Z :=
  Nat.iter (length (requests seq q v) `max` 1) (fun n => wrap64 (n + 1)) seq.

(** ** Requests that cross *)

Context {SC : ServiceCodec C}.

(** A request is for its handler, within the ranges. *)
Definition addressed (q : vrequest) : Prop :=
  match q with
  | VNames (Namespace.RMkdir q) => mdq_op q = OP_MKDIR
  | VNames (Namespace.RRmdir q) => pq_op q = OP_RMDIR
  | VNames (Namespace.RUnlink q) => pq_op q = OP_UNLINK
  | VNames (Namespace.RReadlink q) => pq_op q = OP_READLINK
  | VNames (Namespace.RSymlink q) => slq_op q = OP_SYMLINK
  | VNames (Namespace.RRename q) => rnq_op q = OP_RENAME
  | VNames (Namespace.RLink q) => lkq_op q = OP_LINK
  | VAttrs (Attributes.RGetattr q) => gaq_op q = OP_GET_ATTR
  | VAttrs (Attributes.RSetattr q) => saq_op q = OP_SET_ATTR
  | VAttrs (Attributes.RReaddir q) => rdq_op q = OP_READ_DIR /\ 0 <= rdq_cursor q
  | VAttrs (Attributes.RStatfs q) => pq_op q = OP_STAT_FS
  | VOpen q => opq_op q = OP_OPEN
  | VCreate q => crq_op q = OP_CREATE
  | VRelease q => rlq_op q = OP_RELEASE
  | VFsync q => fsq_op q = OP_FSYNC
  | VRead q => rq_op q = OP_READ /\ 0 <= rq_offset q /\ rq_offset q + rq_length q < 2 ^ 64
  | VWrite q more => wq_op q = OP_WRITE /\ well_ended (q :: more) /\ total_len (q :: more) < 2 ^ 64
  | VPing q => pgq_op q = OP_PING
  end.

Lemma arrives_one {T} `{!Wire T} (op_of seq_of : T -> Z) (x : T) b q rest :
  WireLaws T -> envelope_of op_of seq_of -> encode x = Some b -> zlen b <= MAX_FRAME_SIZE -> op_of x = Service.op_of q ->
  (decode b = Some x -> carries q b rest) -> arrives q (b :: rest).
Proof.
  intros HW He Hx Hb Ho Hc. split; [done|]. split; [|by apply Hc, decode_encode]. eexists. split; [by apply (He x b)|done].
Qed.

Lemma arrives_single {T} `{!Wire T} `{!WireLaws T} (op_of seq_of : T -> Z) (x : T) bs q :
  envelope_of op_of seq_of -> frames [encode x] bs -> op_of x = Service.op_of q ->
  (forall b, decode b = Some x -> carries q b []) -> arrives q bs.
Proof. intros He (b & -> & Hx & Hb)%frames_one Ho Hc. eapply arrives_one; eauto. Qed.

#[local] Ltac carried Hf Ha env :=
  lazymatch goal with |- arrives ?q _ => refine (arrives_single _ _ _ _ q env Hf Ha _) end; by intros b Hb.

Lemma arrives_encoded q bs : frames (request_frames q) bs -> addressed q -> arrives q bs.
Proof.
  destruct q as [[q|q|q|q|q|q|q]|[q|q|q|q]|q|q|q|q|q|q more|q]; cbn [request_frames addressed]; intros Hf Ha.
  - carried Hf Ha sc_env_mkdir.
  - carried Hf Ha sc_env_path.
  - carried Hf Ha sc_env_path.
  - carried Hf Ha sc_env_path.
  - carried Hf Ha sc_env_symlink.
  - carried Hf Ha sc_env_rename.
  - carried Hf Ha sc_env_link.
  - carried Hf Ha sc_env_getattr.
  - carried Hf Ha sc_env_setattr.
  - destruct Ha as [Ho Hc]. carried Hf Ho sc_env_readdir.
  - carried Hf Ha sc_env_path.
  - carried Hf Ha sc_env_open.
  - carried Hf Ha sc_env_create.
  - carried Hf Ha sc_env_release.
  - carried Hf Ha sc_env_fsync.
  - destruct Ha as [Ho Hc]. carried Hf Ho sc_env_read.
  - destruct Ha as (Ho & Hw & Ht). cbn [map] in Hf. apply Forall2_cons_inv_l in Hf as (b & rest & [Hx Hb] & Hf & ->).
    apply (arrives_one wq_op wq_seq q b); [apply _|exact sc_env_write|done|done|exact Ho|]. intros Hd. split_and!; [|done|done].
    constructor; [done|]. apply Forall2_fmap_l in Hf. eapply Forall2_impl; [exact Hf|]. intros x c [Hx' Hc]. split; [by apply decode_encode|done].
  - carried Hf Ha sc_env_ping.
Qed.

(** ** One exchange *)

Lemma fits_frames l : fits l = true -> frames l (map (default []) l).
Proof. apply frames_all. Qed.

Section Linked.
Context (k0 : posix) (J0 : gset Z).
Hypothesis Hroot : path_no_nul root = true.
Hypothesis Hx : exports k0 J0 rs r.
Hypothesis Hdir : is_Some (ents_at k0 r).

(** The process at the other end holds the volume. *)
Definition linked (v : volume) (w : remote) : Prop :=
  sound k0 J0 v /\ holds v (fst (n_srv w)) (dk_table (snd (n_srv w))).

(** The volume has gone on to [v'], and the counter to [n]. *)
Definition moved (v' : volume) (n : Z) (w' : remote) : Prop := linked v' w' /\ n_seq w' = n.

Lemma serve_request q bs v k s :
  sound k0 J0 v -> holds v k (dk_table s) -> frames (request_frames q) bs -> addressed q ->
  fits (fst (vol_serve rs r q v)) = true ->
  exists k' s', serve_world bs (k, s) = (map (default []) (fst (vol_serve rs r q v)), (k', s')) /\
    sound k0 J0 (snd (vol_serve rs r q v)) /\ holds (snd (vol_serve rs r q v)) k' (dk_table s').
Proof.
  intros Hs Hh Hb Ha Hf. unfold serve_world. cbn [fst snd]. set (s0 := MkDesk (dk_hash s) (dk_table s) []).
  destruct (step_sound session rs r Hroot k0 J0 Hx Hdir q bs v k s0 _ Hs Hh (arrives_encoded _ _ Hb Ha) (fits_frames _ Hf))
    as (k' & t' & -> & Hh' & Hs'). by eexists _, _.
Qed.

(** One request and its answer, and what the client makes of it. *)
Lemma exchange_run {Req Resp A} `{!Wire Req, !Wire Resp, !WireLaws Resp} (mk : Z -> Req) (mq : Z -> vrequest) (resp : Resp)
    (k : Resp -> cli (anyhow A)) v v' w :
  let q := mq (n_seq w) in
  linked v w -> fits (request_frames q) && fits (fst (vol_serve rs r q v)) = true ->
  request_frames q = [encode (mk (n_seq w))] -> addressed q ->
  vol_serve rs r q v = ([encode resp], v') ->
  exists w', run (wire_exec serve_world) (seq <- cc NextSeq ;; resp <-? rpc (Resp := Resp) (mk seq) ;; k resp) w =
      run (wire_exec serve_world) (k resp) w' /\
    moved v' (wrap64 (n_seq w + 1)) w'.
Proof.
  intros q [Hs Hh] [Hf1 Hf2]%andb_prop Hreq Ha Hans.
  rewrite run_bind, run_call. cbn [wire_exec]. rewrite run_bindr. pose proof (fits_frames _ Hf1) as Hb. rewrite Hreq in Hb.
  destruct (frames_one _ _ Hb) as (b & Eb & He & Hlen). rewrite Eb, <- Hreq in Hb.
  destruct (n_srv w) as [kn sn] eqn:En. cbn [fst snd] in Hh.
  destruct (serve_request q [b] v kn sn Hs Hh Hb Ha Hf2) as (k' & s' & Hsrv & Hs' & Hh').
  pose proof (fits_frames _ Hf2) as Hout. rewrite Hans in Hsrv, Hout, Hs', Hh'. cbn [fst snd] in *.
  destruct (frames_one _ _ Hout) as (rb & Erb & Hr & _). cbn [map] in Hsrv, Erb. injection Erb as Erb. rewrite Erb in Hsrv.
  rewrite (rpc_run serve_world (mk (n_seq w)) resp b rb (k', s') (MkNet (kn, sn) (wrap64 (n_seq w + 1)) (n_out w) (n_in w)) He Hlen Hsrv
    (decode_encode _ _ Hr)).
  eexists. split; [reflexivity|]. split; [|done]. by split.
Qed.

(** A method of one exchange. *)
Lemma method_run {Req Resp A} `{!Wire Req, !Wire Resp, !WireLaws Resp} (mk : Z -> Req) (mq : Z -> vrequest) (resp : Resp)
    (k : Resp -> cli (anyhow A)) a v v' w :
  let q := mq (n_seq w) in
  linked v w -> forallb (fun x => fits (request_frames x) && fits (fst (vol_serve rs r x v))) [q] = true ->
  request_frames q = [encode (mk (n_seq w))] -> addressed q ->
  vol_serve rs r q v = ([encode resp], v') ->
  (forall w', run (wire_exec serve_world) (k resp) w' = (a, w')) ->
  exists w', run (wire_exec serve_world) (seq <- cc NextSeq ;; resp <-? rpc (Resp := Resp) (mk seq) ;; k resp) w = (a, w') /\
    moved v' (wrap64 (n_seq w + 1)) w'.
Proof.
  intros q HL Hfit Hreq Ha Hans Hk. cbn [forallb] in Hfit. rewrite andb_true_r in Hfit.
  destruct (exchange_run mk mq resp k v v' w HL Hfit Hreq Ha Hans) as (w' & -> & Hm). exists w'. by rewrite Hk.
Qed.

Lemma check_failed e : check_status (status_as_u8 (status_from_io e)) = failed (status_from_io e).
Proof. unfold status_from_io. by destruct (ioe_kind e). Qed.

Lemma checked_ok {A} (f : unit -> cli (anyhow A)) w :
  run (wire_exec serve_world) (bindr (checked (status_as_u8 StOk)) f) w = run (wire_exec serve_world) (f tt) w.
Proof. unfold checked. by rewrite run_bindr, run_ret. Qed.

Lemma checked_failed {A} e (f : unit -> cli (anyhow A)) w :
  run (wire_exec serve_world) (bindr (checked (status_as_u8 (status_from_io e))) f) w = (failed (status_from_io e), w).
Proof. unfold checked. by rewrite run_bindr, run_ret, check_failed. Qed.

Lemma checked_last e w :
  run (wire_exec serve_world) (checked (status_as_u8 (status_from_io e))) w = (failed (status_from_io e), w).
Proof. unfold checked. by rewrite run_ret, check_failed. Qed.

Lemma set_vfs_same v : set_vfs (v_fs v) v = v.
Proof. by destruct v. Qed.

(** A call is what the reference says. *)
Definition performed {A} (q : rpcE A) (v : volume) (w : remote) : Prop :=
  linked v w -> deliverable (n_seq w) q v = true ->
  exists w', remote_rpc A q w = (fst (rpc_ref q v), w') /\ moved (snd (rpc_ref q v)) (seq_after (n_seq w) q v) w'.

#[local] Ltac answers :=
  intros ?; first [reflexivity | exact (checked_failed _ _ _) | exact (checked_last _ _)].
(** The exchange of the requests [mq], answered as [served] computes. *)
#[local] Ltac exchange mq served := eapply (method_run _ mq); [done|done|done|done|served|answers].

Lemma getattr_performed p v w : performed (FuseOps.RGetattr p) v w.
Proof.
  intros HL Hd. unfold remote_rpc. cbn [rpc_prog rpc_ref]. unfold getattr, on_path.
  set (mq := fun seq => VAttrs (Attributes.RGetattr (MkGetAttrRequest OP_GET_ATTR seq p))).
  destruct (ref_resolve rs r (v_fs v) p) as [ps|e] eqn:Er; [destruct (stat_of rs ps (v_fs v)) as [m|e] eqn:Es|].
  all: exchange mq ltac:(cbn [vol_serve at_reference mq gaq_path]; rewrite Er, ?Es, ?set_vfs_same; reflexivity).
Qed.

(** The counter is only echoed. *)
Lemma setattr_seq n p valid mode uid gid size atime mtime ps k :
  ref_setattr r (MkSetAttrRequest OP_SET_ATTR n p valid mode uid gid size atime mtime) ps k =
  ref_setattr r (MkSetAttrRequest OP_SET_ATTR 0 p valid mode uid gid size atime mtime) ps k.
Proof. done. Qed.

Lemma setattr_performed p valid mode uid gid size atime mtime v w : performed (FuseOps.RSetattr p valid mode uid gid size atime mtime) v w.
Proof.
  intros HL Hd. unfold remote_rpc. cbn [rpc_prog rpc_ref]. unfold setattr, on_path.
  set (mq := fun seq => VAttrs (Attributes.RSetattr (MkSetAttrRequest OP_SET_ATTR seq p valid mode uid gid size atime mtime))).
  destruct (ref_resolve rs r (v_fs v) p) as [ps|e] eqn:Er.
  1: pose proof (setattr_seq (n_seq w) p valid mode uid gid size atime mtime ps (v_fs v)) as Eq.
  1: destruct (ref_setattr r (MkSetAttrRequest OP_SET_ATTR 0 _ _ _ _ _ _ _ _) ps (v_fs v)) as [[[]|e] k] eqn:Ek.
  1: destruct (stat_of rs ps k) as [m|e] eqn:Es.
  all: exchange mq ltac:(cbn [vol_serve at_reference mq saq_path]; rewrite Er, ?Eq, ?Es, ?set_vfs_same; reflexivity).
Qed.

Lemma statfs_performed p v w : performed (FuseOps.RStatfs p) v w.
Proof.
  intros HL Hd. unfold remote_rpc. cbn [rpc_prog rpc_ref]. unfold statfs, on_path.
  set (mq := fun seq => VAttrs (Attributes.RStatfs (MkPathRequest OP_STAT_FS seq p))).
  destruct (ref_resolve rs r (v_fs v) p) as [ps|e] eqn:Er.
  all: exchange mq ltac:(cbn [vol_serve at_reference mq pq_path]; rewrite Er, ?set_vfs_same; reflexivity).
Qed.

(** ** Names *)

Lemma mkdir_performed p mode v w : performed (FuseOps.RMkdir p mode) v w.
Proof.
  intros HL Hd. unfold remote_rpc. cbn [rpc_prog rpc_ref]. unfold ClientRpc.mkdir, on_path.
  set (mq := fun seq => VNames (Namespace.RMkdir (MkMkDirRequest OP_MKDIR seq p mode))).
  destruct (ref_resolve rs r (v_fs v) p) as [ps|e] eqn:Er.
  1: unfold made; destruct (at_path rs ps (v_fs v) _) as [[[]|e] k] eqn:Ek; cbn [fst snd io_reply].
  1: destruct (stat_at rs true ps k) as [st|] eqn:Es.
  all: exchange mq ltac:(cbn [vol_serve ns_reference mq mdq_path mdq_mode]; rewrite Er, ?Ek; cbn [stat_answer fst snd status_of_io];
    rewrite ?Es, ?set_vfs_same; reflexivity).
Qed.

Lemma rmdir_performed p v w : performed (FuseOps.RRmdir p) v w.
Proof.
  intros HL Hd. unfold remote_rpc. cbn [rpc_prog rpc_ref]. unfold rmdir, on_path.
  set (mq := fun seq => VNames (Namespace.RRmdir (MkPathRequest OP_RMDIR seq p))).
  destruct (ref_resolve rs r (v_fs v) p) as [ps|e] eqn:Er.
  1: unfold done_reply; destruct (at_path rs ps (v_fs v) _) as [[[]|e] k] eqn:Ek; cbn [fst snd io_reply].
  all: exchange mq ltac:(cbn [vol_serve ns_reference mq pq_path]; rewrite Er, ?Ek, ?set_vfs_same; reflexivity).
Qed.

Lemma unlink_performed p v w : performed (FuseOps.RUnlink p) v w.
Proof.
  intros HL Hd. unfold remote_rpc. cbn [rpc_prog rpc_ref]. unfold unlink, on_path.
  set (mq := fun seq => VNames (Namespace.RUnlink (MkPathRequest OP_UNLINK seq p))).
  destruct (ref_resolve rs r (v_fs v) p) as [ps|e] eqn:Er.
  1: unfold done_reply; destruct (at_path rs ps (v_fs v) _) as [[[]|e] k] eqn:Ek; cbn [fst snd io_reply].
  all: exchange mq ltac:(cbn [vol_serve ns_reference mq pq_path]; rewrite Er, ?Ek, ?set_vfs_same; reflexivity).
Qed.

Lemma rename_performed p q flags v w : performed (FuseOps.RRename p q flags) v w.
Proof.
  intros HL Hd. unfold remote_rpc. cbn [rpc_prog rpc_ref]. unfold rename, on_paths.
  set (mq := fun seq => VNames (Namespace.RRename (MkRenameRequest OP_RENAME seq p q flags))).
  destruct (ref_resolve rs r (v_fs v) p) as [ps|e] eqn:Er; [destruct (ref_resolve rs r (v_fs v) q) as [qs|e] eqn:Er'|].
  1: unfold done_reply; destruct (at_paths rs r ps qs (v_fs v) _) as [[[]|e] k] eqn:Ek; cbn [fst snd io_reply].
  all: exchange mq ltac:(cbn [vol_serve ns_reference mq rnq_old rnq_new]; rewrite Er, ?Er', ?Ek, ?set_vfs_same; reflexivity).
Qed.

Lemma symlink_performed target p v w : performed (FuseOps.RSymlink target p) v w.
Proof.
  intros HL Hd. unfold remote_rpc. cbn [rpc_prog rpc_ref]. unfold symlink, on_path.
  set (mq := fun seq => VNames (Namespace.RSymlink (MkSymlinkRequest OP_SYMLINK seq target p))).
  destruct (MAX_SYMLINK_TARGET_LEN <? str_len target) eqn:El; [|destruct (ref_resolve rs r (v_fs v) p) as [ps|e] eqn:Er].
  2: unfold made; destruct (at_path rs ps (v_fs v) _) as [[[]|e] k] eqn:Ek; cbn [fst snd io_reply].
  2: destruct (stat_at rs false ps k) as [st|] eqn:Es.
  all: exchange mq ltac:(cbn [vol_serve ns_reference mq slq_target slq_link]; rewrite El, ?Er, ?Ek; cbn [stat_answer fst snd status_of_io];
    rewrite ?Es, ?set_vfs_same; reflexivity).
Qed.

Lemma readlink_performed p v w : performed (FuseOps.RReadlink p) v w.
Proof.
  intros HL Hd. unfold remote_rpc. cbn [rpc_prog rpc_ref]. unfold readlink, on_path.
  set (mq := fun seq => VNames (Namespace.RReadlink (MkPathRequest OP_READLINK seq p))).
  destruct (ref_resolve rs r (v_fs v) p) as [ps|e] eqn:Er.
  1: destruct (at_path rs ps (v_fs v) _) as [[t|e] k] eqn:Ek; cbn [fst snd io_reply].
  all: exchange mq ltac:(cbn [vol_serve ns_reference mq pq_path]; rewrite Er, ?Ek, ?set_vfs_same; reflexivity).
Qed.

Lemma link_performed p q v w : performed (FuseOps.RLink p q) v w.
Proof.
  intros HL Hd. unfold remote_rpc. cbn [rpc_prog rpc_ref]. unfold link, on_paths.
  set (mq := fun seq => VNames (Namespace.RLink (MkLinkRequest OP_LINK seq p q))).
  destruct (ref_resolve rs r (v_fs v) p) as [ps|e] eqn:Er; [destruct (ref_resolve rs r (v_fs v) q) as [qs|e] eqn:Er'|].
  1: unfold made; destruct (at_paths rs r ps qs (v_fs v) _) as [[[]|e] k] eqn:Ek; cbn [fst snd io_reply].
  1: destruct (stat_at rs true qs k) as [st|] eqn:Es.
  all: exchange mq ltac:(cbn [vol_serve ns_reference mq lkq_path lkq_link]; rewrite Er, ?Er', ?Ek; cbn [stat_answer fst snd status_of_io];
    rewrite ?Es, ?set_vfs_same; reflexivity).
Qed.

(** ** Open files *)

Lemma open_performed p flags v w : performed (FuseOps.ROpen p flags) v w.
Proof.
  intros HL Hd. unfold remote_rpc. cbn [rpc_prog rpc_ref]. unfold ClientRpc.open.
  set (mq := fun seq => VOpen (MkOpenRequest OP_OPEN seq p flags)).
  destruct (ref_resolve rs r (v_fs v) p) as [ps|e] eqn:Er; [destruct (ref_open r ps (open_access flags) (v_fs v)) as [i|e] eqn:Eo|].
  1: unfold opened; destruct (v_insert _ v) as [[id|] v'] eqn:Ei; [destruct (stat_ino (v_fs v) _) as [m|e] eqn:Es|].
  3: assert (v' = v) as -> by (unfold v_insert in Ei; destruct (_ <=? _); congruence).
  all: exchange mq ltac:(cbn [vol_serve mq opq_path opq_flags opq_seq]; rewrite Er, ?Eo; unfold opened_answer; rewrite ?Ei, ?Es; reflexivity).
Qed.

Lemma create_performed p flags mode v w : performed (FuseOps.RCreate p flags mode) v w.
Proof.
  intros HL Hd. unfold remote_rpc. cbn [rpc_prog rpc_ref]. unfold create.
  set (mq := fun seq => VCreate (MkCreateRequest OP_CREATE seq p flags mode)).
  destruct (ref_resolve rs r (v_fs v) p) as [ps|e] eqn:Er; [destruct (ref_create r ps flags _ (v_fs v)) as [[i|e] k] eqn:Eo|].
  1: unfold opened; destruct (v_insert _ (set_vfs k v)) as [[id|] v'] eqn:Ei; [destruct (stat_ino _ _) as [m|e] eqn:Es|].
  3: assert (v' = set_vfs k v) as -> by (unfold v_insert in Ei; destruct (_ <=? _); congruence).
  all: exchange mq ltac:(cbn [vol_serve mq crq_path crq_flags crq_seq crq_mode]; rewrite Er, ?Eo; unfold opened_answer; rewrite ?Ei, ?Es; reflexivity).
Qed.

Lemma release_performed h v w : performed (FuseOps.RRelease h) v w.
Proof.
  intros HL Hd. unfold remote_rpc. cbn [rpc_prog rpc_ref]. unfold release.
  set (mq := fun seq => VRelease (MkReleaseRequest OP_RELEASE seq h)). exchange mq ltac:(reflexivity).
Qed.

Lemma fsync_performed h datasync v w : performed (FuseOps.RFsync h datasync) v w.
Proof.
  intros HL Hd. unfold remote_rpc. cbn [rpc_prog rpc_ref]. unfold fsync, on_handle.
  set (mq := fun seq => VFsync (MkFsyncRequest OP_FSYNC seq h datasync)).
  destruct (v_open v !! h) as [f|] eqn:Eh; exchange mq ltac:(cbn [vol_serve mq fsq_handle]; rewrite Eh; reflexivity).
Qed.

(** ** Reading *)

(** The first frame is what makes the server serve. *)
Lemma collect_served fuel data (w : remote) l s :
  n_in w = None -> serve_world (n_out w) (n_srv w) = (l, s) ->
  run (wire_exec serve_world) (read_collect (S fuel) data) w =
  run (wire_exec serve_world) (read_collect (S fuel) data) (MkNet s (n_seq w) (n_out w) (Some l)).
Proof.
  intros Hi Hs. cbn [read_collect]. rewrite !run_bindr, !run_call. cbn [wire_exec n_in n_srv n_seq n_out]. by rewrite Hi, Hs.
Qed.

(** A request with as many answers as the server likes: what [read_collect] starts on. *)
Lemma read_sent fuel h off len v w :
  linked v w -> deliverable (n_seq w) (FuseOps.RRead h off len) v = true ->
  let q := MkReadRequest OP_READ (n_seq w) h off len in
  exists bs w', run (wire_exec serve_world) (read (S fuel) h off len) w = run (wire_exec serve_world) (read_collect (S fuel) []) w' /\
    frames (map encode (ref_read q v)) bs /\ n_in w' = Some bs /\ moved v (wrap64 (n_seq w + 1)) w'.
Proof.
  intros [Hs Hh] Hd q. unfold deliverable in Hd. cbn [in_bounds requests forallb] in Hd. rewrite andb_true_r in Hd.
  apply andb_prop in Hd as [[Ho%Z.leb_le Hl%Z.ltb_lt]%andb_prop [Hf1 Hf2]%andb_prop]. fold q in Hf1, Hf2.
  pose proof (fits_frames _ Hf1) as Hb. destruct (frames_one _ _ Hb) as (b & Eb & He & Hlen). rewrite Eb in Hb.
  destruct (n_srv w) as [kn sn] eqn:En. cbn [fst snd] in Hh.
  destruct (serve_request (VRead q) [b] v kn sn Hs Hh Hb ltac:(done) Hf2) as (k' & s' & Hsrv & Hs' & Hh').
  exists (map (default []) (map encode (ref_read q v))), (MkNet (k', s') (wrap64 (n_seq w + 1)) [b] (Some (map (default []) (map encode (ref_read q v))))).
  split_and!; [|exact (fits_frames _ Hf2)|done|by split].
  unfold read. rewrite run_bindr, run_call. cbn [wire_exec]. rewrite run_bind, run_call. cbn [wire_exec n_seq].
  unfold encoded. fold q. rewrite run_bindr, run_ret, He. cbn [ok_or].
  rewrite run_bindr, run_call. cbn [wire_exec]. rewrite frame_ok by done. cbv iota.
  rewrite run_bindr, run_call. cbn [wire_exec n_srv n_seq n_out n_in app].
  by apply collect_served; [|cbn [n_srv n_out]; rewrite En].
Qed.

(** A read that is refused has one frame. *)
Lemma collect_refused fuel data q st bs w' :
  n_in w' = Some bs -> frames (map encode (read_error q st)) bs -> check_status (status_as_u8 st) = failed st ->
  exists w2, run (wire_exec serve_world) (read_collect (S fuel) data) w' = (failed st, w2) /\ n_srv w2 = n_srv w' /\ n_seq w2 = n_seq w'.
Proof.
  intros Hi (b & -> & He & _)%frames_one Hst. cbn [read_collect]. rewrite run_bindr, run_call. cbn [wire_exec]. rewrite Hi.
  unfold decoded_as. rewrite run_bindr, run_ret, (decode_encode _ _ He). cbn [ok_or]. unfold checked. rewrite run_bindr, run_ret.
  cbn [rr_status]. rewrite Hst. by eexists.
Qed.

Lemma moved_on v n w w2 : moved v n w -> n_srv w2 = n_srv w -> n_seq w2 = n_seq w -> moved v n w2.
Proof. intros [[Hs Hh] Hn] E1 E2. split; [split|]; [done|by rewrite E1|by rewrite E2]. Qed.

Lemma read_performed h off len v w : performed (FuseOps.RRead h off len) v w.
Proof.
  intros HL Hd. unfold remote_rpc. cbn [rpc_prog rpc_ref].
  destruct (read_sent (Z.to_nat len) h off len v w HL Hd) as (bs & w' & -> & Hf & Hi & Hm).
  unfold deliverable in Hd. cbn [in_bounds] in Hd. apply andb_prop in Hd as [[Ho%Z.leb_le Hl%Z.ltb_lt]%andb_prop _].
  unfold ref_read in Hf. cbn [rq_length rq_handle rq_seq rq_offset] in Hf. unfold on_handle.
  assert (forall st, frames (map encode (read_error (MkReadRequest OP_READ (n_seq w) h off len) st)) bs -> check_status (status_as_u8 st) = failed st ->
    exists w2, run (wire_exec serve_world) (read_collect (S (Z.to_nat len)) []) w' = (failed st, w2) /\ moved v (wrap64 (n_seq w + 1)) w2) as Hrefused.
  { intros st Hfr Hst. destruct (collect_refused (Z.to_nat len) [] _ st bs w' Hi Hfr Hst) as (w2 & Hrun & E1 & E2).
    exists w2. split; [exact Hrun|]. by eapply moved_on. }
  destruct (MAX_READ_REQUEST <? len); [by apply Hrefused|]. destruct (v_open v !! h) as [f|]; [|by apply Hrefused].
  destruct (len <=? 0) eqn:El.
  { inv Hf. cbn [read_collect]. rewrite run_bindr, run_call. cbn [wire_exec]. rewrite Hi. eexists. split; [reflexivity|]. by eapply moved_on. }
  destruct (data_of may_read f (v_fs v)) as [[n d]|e] eqn:Ed; [|apply Hrefused; [done|apply check_failed]].
  apply Z.leb_gt in El. pose proof (read_frames_answer (Z.to_nat len) (n_seq w) off len d Ho ltac:(lia)) as Hans.
  pose proof (read_answer_length _ _ len _ _ ltac:(lia) Hans) as Hlen. destruct Hans as (Hc & Hst & Hend).
  destruct (read_collect_run serve_world (S (Z.to_nat len)) (read_frames (Z.to_nat len) (n_seq w) off len d) bs [] w')
    as (w2 & Hrun & Hsrv & Hseq); [|exact Hi| |exact Hend|exact Hlen|].
  - apply Forall2_fmap_l in Hf. eapply Forall2_impl; [exact Hf|]. intros x b [Hx' _]. by apply decode_encode.
  - eapply Forall_impl; [exact Hst|]. by intros x (_ & _ & ?).
  - exists w2. rewrite Hrun. cbn [io_reply fst snd app]. rewrite Hc. split; [done|]. by eapply moved_on.
Qed.

(** ** Writing *)

(** A stream that ends before it starts gets no answer. *)
Lemma serve_nothing k s : serve_world [] (k, s) = ([], (k, MkDesk (dk_hash s) (dk_table s) [])).
Proof. reflexivity. Qed.

Lemma write_nothing h off v w :
  linked v w -> exists w', remote_rpc Z (FuseOps.RWrite h off []) w = (no_answer, w') /\ moved v (wrap64 (n_seq w + 1)) w'.
Proof.
  intros [Hs Hh]. unfold remote_rpc. cbn [rpc_prog]. unfold write. cbv zeta. rewrite run_bindr, run_call. cbn [wire_exec].
  rewrite run_bind, run_call. cbn [wire_exec n_seq]. change (chunks _ []) with (@nil bytes). cbn [write_chunks].
  rewrite run_bindr, run_ret, run_bindr, run_call. cbn [wire_exec n_srv n_seq n_out n_in].
  destruct (n_srv w) as [kn sn]. rewrite serve_nothing. eexists. split; [reflexivity|]. split; [by split|done].
Qed.

(** The chunks go out, and the answer comes back. *)
Lemma write_run_served h off data q more a v v' w :
  linked v w -> write_reqs h (n_seq w) off (Z.max chunk_size 1) 0 (zlen (chunks (Z.to_nat (Z.max chunk_size 1)) data))
    (chunks (Z.to_nat (Z.max chunk_size 1)) data) = q :: more ->
  addressed (VWrite q more) -> vol_serve rs r (VWrite q more) v = ([encode a], v') ->
  fits (request_frames (VWrite q more)) = true -> fits [encode a] = true ->
  exists w', remote_rpc Z (FuseOps.RWrite h off data) w =
      (match check_status (wr_status a) with Ok _ => Ok (wr_written a) | Err e => Err e end, w') /\
    moved v' (wrap64 (n_seq w + 1)) w'.
Proof.
  intros [Hs Hh] Hq Ha Hans Hf1 Hf2. unfold remote_rpc. cbn [rpc_prog]. unfold write. cbv zeta.
  rewrite run_bindr, run_call. cbn [wire_exec]. rewrite run_bind, run_call. cbn [wire_exec n_seq n_srv n_out n_in].
  pose proof (fits_frames _ Hf1) as Hb. cbn [request_frames] in Hb. set (bs := map (default []) (map encode (q :: more))) in *.
  rewrite run_bindr, (write_chunks_run serve_world h _ _ _ _ _ _ bs) by (rewrite Hq; by apply Forall2_fmap_l in Hb).
  cbn [n_srv n_seq n_out n_in app]. cbv iota. rewrite run_bindr, run_call. cbn [wire_exec n_srv n_seq n_out n_in].
  destruct (n_srv w) as [kn sn] eqn:En. cbn [fst snd] in Hh.
  destruct (serve_request (VWrite q more) bs v kn sn Hs Hh Hb Ha) as (k' & s' & Hsrv & Hs' & Hh'); [by rewrite Hans|].
  rewrite Hans in Hsrv, Hs', Hh'. cbn [fst snd] in *. rewrite Hsrv.
  destruct (frames_one _ _ (fits_frames _ Hf2)) as (rb & Erb & Hr & _). injection Erb as Erb. cbn [map]. rewrite Erb.
  cbv iota. unfold decoded_as. rewrite run_bindr, run_ret, (decode_encode _ _ Hr). cbn [ok_or]. unfold checked. rewrite run_bindr, run_ret.
  destruct (check_status (wr_status a)) as [[]|e]; (eexists; split; [reflexivity|]); (split; [by split|done]).
Qed.

Lemma write_performed h off data v w : performed (FuseOps.RWrite h off data) v w.
Proof.
  intros HL Hd. cbn [rpc_ref]. case_bool_decide as Hdata.
  { subst data. destruct (write_nothing h off v w HL) as (w' & -> & Hm). by exists w'. }
  unfold deliverable in Hd. cbn [in_bounds requests] in Hd. apply andb_prop in Hd as [[Ho%Z.leb_le Hl%Z.ltb_lt]%andb_prop Hd].
  unfold seq_after. cbn [requests]. cbv zeta in *. set (csz := Z.max chunk_size 1) in *. set (cs := chunks (Z.to_nat csz) data) in *.
  assert (cs <> []) as Hcs by (intros E; apply chunks_nil in E; done).
  assert (concat cs = data) as Hcat by (apply chunks_concat; unfold csz; lia).
  pose proof (write_reqs_ended h (n_seq w) off csz 0 cs Hcs) as Hend. rewrite Z.add_0_l in Hend.
  pose proof (write_reqs_total h (n_seq w) off csz 0 (zlen cs) cs) as Htot. rewrite Hcat in Htot.
  assert (forall fl d, foldl (put_chunk fl) d (write_reqs h (n_seq w) off csz 0 (zlen cs) cs) =
    if has_bits fl 0x400 then d ++ data else put d off data) as Hput.
  { intros fl d. pose proof (put_chunks h fl (length data) (n_seq w) off csz 0 (zlen cs) d data) as H.
    rewrite Z.mul_0_l, Z.add_0_r in H. apply H; unfold csz; lia. }
  destruct (write_reqs h (n_seq w) off csz 0 (zlen cs) cs) as [|q more] eqn:Eq; [by destruct cs|].
  assert (wq_op q = OP_WRITE /\ wq_handle q = h /\ wq_seq q = n_seq w) as (Hop & Hh & Hsq)
    by (destruct cs as [|c cs']; [done|cbn [write_reqs] in Eq; by injection Eq as <- _]).
  cbn [forallb] in Hd. rewrite andb_true_r in Hd. apply andb_prop in Hd as [Hf1 Hf2].
  assert (addressed (VWrite q more)) as Ha by (split_and!; [done|done|rewrite Htot; lia]).
  unfold on_handle. pose proof (write_run_served h off data q more) as H.
  cbn [vol_serve] in H, Hf2. unfold ref_write in H, Hf2. rewrite Hh in H, Hf2.
  destruct (v_open v !! h) as [f|] eqn:Ef.
  2:{ destruct (H _ v v w HL Eq Ha ltac:(by rewrite Ef) Hf1 Hf2) as (w' & -> & Hm). by exists w'. }
  destruct (data_of may_write f (v_fs v)) as [[n d]|e] eqn:Ed.
  - edestruct (H _ v _ w HL Eq Ha ltac:(rewrite Ef, Ed; reflexivity) Hf1 Hf2) as (w' & -> & Hm).
    exists w'. rewrite Hput in Hm. cbn [wr_status wr_written fst snd]. rewrite Htot. by split.
  - rewrite Htot in *. destruct (Z.eqb_spec (zlen data) 0) as [E0|_]; [by destruct data|].
    destruct (H _ v v w HL Eq Ha ltac:(by rewrite Ef, Ed) Hf1 Hf2) as (w' & -> & Hm).
    exists w'. cbn [wr_status wr_written]. rewrite check_failed. by split.
Qed.

(** ** Listing *)

Lemma length_pages n seq p cursor : length (pages n seq p cursor) = n.
Proof. revert seq cursor. induction n as [|n IH]; intros seq cursor; [done|]. cbn [pages length]. by rewrite IH. Qed.

Definition next_seq (n : Z) : Z := wrap64 (n + 1).

Lemma readdir_pages n fuel p ps es all cursor v w :
  linked v w -> ref_resolve rs r (v_fs v) p = Ok ps -> entries_of rs ps (v_fs v) = Ok es -> zlen es < 2 ^ 64 ->
  0 <= cursor <= zlen es -> all = take (Z.to_nat cursor) es -> n = S ((length es - Z.to_nat cursor) / 256) -> (n <= fuel)%nat ->
  forallb (fun x => fits (request_frames x) && fits (fst (vol_serve rs r x v))) (pages n (n_seq w) p cursor) = true ->
  exists w', run (wire_exec serve_world) (readdir_from fuel p all cursor) w = (Ok es, w') /\
    moved v (Nat.iter n next_seq (n_seq w)) w'.
Proof.
  intros HL Er Ee Hlen. revert fuel all cursor w HL. induction n as [|n IH]; intros fuel all cursor w HL Hc Hall Hn Hfuel Hfit; [done|].
  destruct fuel as [|fuel]; [lia|]. cbn [readdir_from pages forallb] in *. apply andb_prop in Hfit as [Hfit Hrest].
  set (mq := fun seq => VAttrs (Attributes.RReaddir (MkReadDirRequest OP_READ_DIR seq p cursor))).
  edestruct (exchange_run (fun seq => MkReadDirRequest OP_READ_DIR seq p cursor) mq (readdir_response (n_seq w) cursor es)
    (fun resp => _ <-? checked (rdr_status resp) ;;
      if rdr_eof resp then Ret (Ok (all ++ rdr_entries resp)) else readdir_from fuel p (all ++ rdr_entries resp) (rdr_cursor resp)) v v w HL Hfit)
    as (w1 & Hrun & [HL1 Hs1]); [done|split; [done|cbn; lia]| |].
  { cbn [vol_serve mq at_reference rdq_path rdq_seq rdq_cursor]. rewrite Er, Ee. cbn [at_encode]. by rewrite set_vfs_same. }
  rewrite Hrun. cbn [readdir_response rdr_status rdr_eof rdr_entries rdr_cursor]. rewrite checked_ok.
  assert (length (page_at es cursor) = (256 `min` (length es - Z.to_nat cursor)))%nat as Hpl.
  { unfold page_at. by rewrite length_take, length_drop. }
  rewrite Nat.iter_succ_r. change (next_seq (n_seq w)) with (wrap64 (n_seq w + 1)). rewrite <- Hs1 in *.
  destruct (zlen (page_at es cursor) <? 256) eqn:E.
  - apply Z.ltb_lt in E. assert (length es - Z.to_nat cursor < 256)%nat as Hl by lia.
    rewrite Nat.div_small in Hn by done. injection Hn as ->. exists w1. rewrite run_ret. split; [|done].
    do 2 f_equal. subst all. unfold page_at. rewrite (take_ge (drop _ _)) by (rewrite length_drop; lia). apply take_drop.
  - apply Z.ltb_ge in E. rewrite wrap_small by (unfold in_width; lia). replace (cursor + zlen (page_at es cursor)) with (cursor + 256) by lia.
    apply IH; [done|lia| | |lia|done].
    + subst all. unfold page_at. replace (Z.to_nat (cursor + 256)) with (Z.to_nat cursor + 256)%nat by lia. apply take_take_drop.
    + assert (length es - Z.to_nat cursor = 1 * 256 + (length es - Z.to_nat (cursor + 256)))%nat as Hl by lia.
      rewrite Hl, Nat.div_add_l in Hn by done. lia.
Qed.

Lemma readdir_performed p v w : performed (FuseOps.RReaddir p) v w.
Proof.
  intros HL Hd. unfold deliverable in Hd. cbn [in_bounds requests] in Hd. unfold seq_after. cbn [requests]. rewrite length_pages.
  apply andb_prop in Hd as [[Hlen%Z.ltb_lt Hf%Nat.leb_le]%andb_prop Hd]. unfold page_count, listing in *. unfold remote_rpc. cbn [rpc_prog rpc_ref].
  unfold on_path, readdir. destruct (ref_resolve rs r (v_fs v) p) as [ps|e] eqn:Er; [destruct (entries_of rs ps (v_fs v)) as [es|e] eqn:Ee|].
  1:{ destruct (readdir_pages (S (length es / 256)) dir_fuel p ps es [] 0 v w HL Er Ee Hlen) as (w' & Hrun & Hm);
        [lia|done|by rewrite Nat.sub_0_r|done|done|]. exists w'. rewrite Hrun. cbn [fst snd io_reply]. rewrite set_vfs_same.
      split; [done|]. by rewrite Nat.max_l by lia. }
  all: destruct dir_fuel as [|fuel]; [simpl in Hf; lia|]; cbn [readdir_from]; cbn [length] in Hd; change (0 / 256)%nat with 0%nat in *.
  all: exchange (fun seq => VAttrs (Attributes.RReaddir (MkReadDirRequest OP_READ_DIR seq p 0)))
    ltac:(cbn [vol_serve at_reference rdq_path rdq_cursor]; rewrite Er, ?Ee, ?set_vfs_same; reflexivity).
Qed.

(** ** Every RPC *)

Lemma rpc_performed {A} (q : rpcE A) v w : performed q v w.
Proof.
  destruct q.
  - apply getattr_performed.
  - apply setattr_performed.
  - apply readdir_performed.
  - apply mkdir_performed.
  - apply rmdir_performed.
  - apply unlink_performed.
  - apply rename_performed.
  - apply symlink_performed.
  - apply readlink_performed.
  - apply link_performed.
  - apply statfs_performed.
  - apply open_performed.
  - apply create_performed.
  - apply release_performed.
  - apply read_performed.
  - apply write_performed.
  - apply fsync_performed.
Qed.
End Linked.
End Remote.
