(* ===== verification/Transparent.v ===== *)
(** * A mounted export is a volume

    The whole path from an application's system call to the server's file system: the
    FUSE callbacks of [src/client/src/fuse_ops.rs] with the state of [QuicFs], the RPCs
    of [ConnManager], the wire, the server's dispatcher and handlers, and the kernel,
    for a client alone with the server.  Executed, with connections that end and are
    made again, it is the same client working on the volume itself. *)

From S2P Require Import Prelude Prog Text Status Frames FrameIo Os PathStr Sanitize WriteLock Handles Reply MetaOps DataOps CtrlOps Dispatch FileServer ClientRpc EndToEnd ExampleCodec Server Posix Jail Namespace Attributes Reference Volume Service WriteBuf Cache Inodes FuseOps CliArgs QuicFs Coherent Remote.

Section Mount.
Context {C : Codec} (session : ClientSession) (rs : list str) (r chunk_size : Z) (dir_fuel : nat).

(** On the volume itself.  The counter only numbers the messages there would be. *)
Definition local_rpc (A : Type) (q : rpcE A) (s : Z * volume) : anyhow A * (Z * volume) :=
  let '(a, v) := rpc_ref rs r q (snd s) in (a, (seq_after rs r chunk_size (fst s) q (snd s), v)).

(** A new session: nothing is open. *)
Definition local_renew (uuid max : Z) (s : Z * volume) : Z * volume := (fst s, fresh_volume (v_fs (snd s)) uuid max).

(** The server's: the files of the old table are closed with it. *)
Definition close_all (t : HandleTable) (k : posix) : posix :=
  set_fds (foldr delete (k_fds k) (map (fun ih => oh_file (snd ih)) (map_to_list (ht_inner t)))) k.
Definition remote_renew (uuid max : Z) (w : wire (posix * desk)) : wire (posix * desk) :=
  let '(k, s) := n_srv w in
  MkNet (close_all (dk_table s) k, MkDesk (dk_hash s) (with_limit uuid max) []) (n_seq w) [] None.

(** The messages of a call fit into frames. *)
Definition far_fits {A : Type} (q : rpcE A) (f : fate) (s : Z * volume) : bool :=
  match f with
  | Up | Unheard _ => deliverable rs r chunk_size dir_fuel (fst s) q (snd s)
  | Renewed uuid max => let s := local_renew uuid max s in deliverable rs r chunk_size dir_fuel (fst s) q (snd s)
  | Unsent _ => true
  end.
Definition call_fits {T : Type} (X : Type) (e : fsE X) (s : mount_state T (Z * volume)) : bool :=
  match e with Rpc q => far_fits q (next_fate s) (ms_far s) | _ => true end.

Section Linked.
Context {SC : ServiceCodec C} (k0 : posix) (J0 : gset Z).
Hypothesis Hroot : path_no_nul (RootDir :: map Normal rs) = true.
Hypothesis Hx : exports k0 J0 rs r.
Hypothesis Hdir : is_Some (ents_at k0 r).

(** The two far sides, and the two states of a mount. *)
Definition same_far (w : wire (posix * desk)) (s : Z * volume) : Prop := n_seq w = fst s /\ linked k0 J0 (snd s) w.
Definition same_mount {T : Type} (s : mount_state T (wire (posix * desk))) (s' : mount_state T (Z * volume)) : Prop :=
  ms_client s = ms_client s' /\ ms_fates s = ms_fates s' /\ same_far (ms_far s) (ms_far s').

Lemma rpc_same A (q : rpcE A) w s :
  same_far w s -> deliverable rs r chunk_size dir_fuel (fst s) q (snd s) = true ->
  exists w', remote_rpc session rs chunk_size dir_fuel A q w = (fst (local_rpc A q s), w') /\ same_far w' (snd (local_rpc A q s)).
Proof.
  destruct s as [n v]. intros [Hn HL] Hf. cbn [fst snd] in *. subst n.
  destruct (rpc_performed session rs r chunk_size dir_fuel k0 J0 Hroot Hx Hdir q v w HL Hf) as (w' & -> & HL' & Hn).
  unfold local_rpc. cbn [fst snd]. destruct (rpc_ref rs r q v) as [a v']. cbn [fst snd] in *. eexists. by split.
Qed.

Lemma renew_same uuid max w s : same_far w s -> same_far (remote_renew uuid max w) (local_renew uuid max s).
Proof.
  destruct s as [n v]. intros [Hn [Hs Hh]]. unfold remote_renew. destruct (n_srv w) as [k d] eqn:Ew. cbn [fst snd] in *.
  split; [done|]. split.
  - split; [exact (so_good _ _ _ Hs)|]. intros id h H. cbn [local_renew snd fresh_volume v_open] in H. by rewrite lookup_empty in H.
  - destruct (hd_fs _ _ _ Hh) as [f Hf]. split; [|done|done|].
    + cbn [local_renew snd fresh_volume v_fs n_srv fst]. unfold close_all. rewrite Hf. by eexists.
    + intros id. cbn [local_renew snd fresh_volume v_open n_srv dk_table with_limit ht_inner]. by rewrite !lookup_empty.
Qed.

Lemma far_same A (q : rpcE A) f w s :
  same_far w s -> far_fits q f s = true ->
  exists w', call_far (remote_rpc session rs chunk_size dir_fuel) remote_renew A q f w = (fst (call_far local_rpc local_renew A q f s), w') /\
    same_far w' (snd (call_far local_rpc local_renew A q f s)).
Proof.
  intros Hw Hf. destruct f as [|uuid max|e|e]; cbn [call_far far_fits] in *.
  - by apply rpc_same.
  - apply rpc_same; [by apply renew_same|done].
  - by exists w.
  - destruct (rpc_same A q w s Hw Hf) as (w' & -> & Hw'). by exists w'.
Qed.

Lemma mount_call {T : Type} (loc : forall X, fsE X -> T -> X * T) bump X (e : fsE X) s s' :
  same_mount s s' -> call_fits X e s' = true ->
  exists s2, mount_exec loc bump (remote_rpc session rs chunk_size dir_fuel) remote_renew X e s =
      (fst (mount_exec loc bump local_rpc local_renew X e s'), s2) /\
    same_mount s2 (snd (mount_exec loc bump local_rpc local_renew X e s')).
Proof.
  destruct s as [t fs w], s' as [t' fs' s']. intros (Ht & Hfs & Hw) Hf. cbn [ms_client ms_fates ms_far] in *. subst t' fs'.
  destruct e; cbn [mount_exec ms_client ms_fates ms_far];
    try (destruct (loc _ _ t) as [x t2]; eexists; split; [reflexivity|by split_and!]).
  cbn [call_fits ms_far] in Hf. unfold next_fate in *. cbn [ms_fates] in *.
  match goal with q : rpcE _ |- _ => destruct (far_same _ q (default Up (head fs)) w s' Hw Hf) as (w' & -> & Hw') end.
  destruct (call_far local_rpc local_renew _ _ _ s') as [a far]. eexists. split; [reflexivity|]. by split_and!.
Qed.
End Linked.
End Mount.

(** ** An open file *)

Section Files.
Context {C : Codec} (session : ClientSession) (rs : list str) (r chunk_size : Z) (dir_fuel : nat).
(** A file open for positioned reads and writes. *)
Variables (v0 : volume) (hid : Z) (f : vhandle) (n0 : inode).
Hypothesis Hopen : v_open v0 !! hid = Some f.
Hypothesis Hread : may_read (vh_access f) = true.
Hypothesis Hwrite : may_write (vh_access f) = true.
Hypothesis Hpositioned : has_bits (vh_flags f) 0x400 = false.

(** The volume when the file's contents are [d], everything else being as it was. *)
Definition with_data (d : bytes) : volume := set_vfs (put_node (vh_ino f) (set_kind (KFile d) n0) (v_fs v0)) v0.

Lemma with_data_same d : k_nodes (v_fs v0) !! vh_ino f = Some n0 -> i_kind n0 = KFile d -> with_data d = v0.
Proof.
  clear Hopen. intros Hn Hk. unfold with_data, put_node, set_vfs, set_kind. rewrite <- Hk. destruct n0, v0 as [[] ? ? ?]. cbn in *. by rewrite insert_id.
Qed.

Lemma data_of_with may d : may (vh_access f) = true -> data_of may f (v_fs (with_data d)) = Ok (set_kind (KFile d) n0, d).
Proof. intros Hm. unfold data_of. rewrite Hm. cbn. by rewrite lookup_insert_eq. Qed.

Lemma read_with d off len :
  len <= MAX_READ_REQUEST -> 1 <= len -> rpc_ref rs r (FuseOps.RRead hid off len) (with_data d) = (Ok (slice d off len), with_data d).
Proof.
  intros Hmax Hlen. cbn [rpc_ref]. destruct (Z.ltb_spec MAX_READ_REQUEST len); [lia|].
  unfold on_handle. cbn [with_data set_vfs v_open]. rewrite Hopen, data_of_with by done. by destruct (Z.leb_spec len 0); [lia|].
Qed.

Lemma write_with d off data :
  data <> [] -> rpc_ref rs r (FuseOps.RWrite hid off data) (with_data d) = (Ok (zlen data), with_data (put d off data)).
Proof.
  intros Hd. cbn [rpc_ref]. rewrite bool_decide_false by done. unfold on_handle. cbn [with_data set_vfs v_open].
  rewrite Hopen, data_of_with, Hpositioned by done. f_equal. unfold with_data, set_vfs, put_node, set_kind. cbn. by rewrite insert_insert_eq.
Qed.

(** The volume serves it. *)
Definition volume_file (s : Z * volume) (d : bytes) : Prop := snd s = with_data d.

Lemma volume_service : FileService (local_rpc rs r chunk_size) hid volume_file.
Proof.
  split; intros [n v] d off; unfold volume_file, local_rpc; cbn [fst snd]; intros.
  - subst v. rewrite write_with by done. by eexists.
  - subst v. rewrite read_with by lia. by eexists.
Qed.

(** Reads and writes fit into frames. *)
Context {DC : DataCodec C} {SC : ServiceCodec C}.
Hypothesis Hhid : in_width 64 hid.
Hypothesis Hchunk : chunk_size <= MAX_CHUNK_SIZE.

Lemma fits_one {T} `{!Wire T} (x : T) : (exists b, encode x = Some b /\ zlen b <= MAX_FRAME_SIZE) -> fits [encode x] = true.
Proof. intros (b & -> & Hb). cbn. rewrite andb_true_r. by apply Z.leb_le. Qed.

Lemma fits_cons x l : fits (x :: l) = fits [x] && fits l.
Proof. unfold fits. cbn [forallb]. by rewrite andb_true_r. Qed.

Lemma fits_all {T} `{!Wire T} (l : list T) bs :
  Forall2 (fun x b => encode x = Some b /\ zlen b <= MAX_FRAME_SIZE) l bs -> fits (map encode l) = true.
Proof. induction 1 as [|x b l bs [Hx Hb] _ IH]; [done|]. cbn. rewrite Hx. apply andb_true_intro. split; [by apply Z.leb_le|done]. Qed.

Lemma read_frames_fit fuel seq off len d :
  in_width 64 seq -> 0 <= off -> 0 <= len -> off + len < 2 ^ 64 -> fits (map encode (read_frames fuel seq off len d)) = true.
Proof.
  intros Hs. revert off len. induction fuel as [|fuel IH]; intros off len Ho Hl Hr; [done|]. cbn [read_frames map].
  set (buf := slice d off (Z.min len CHUNK)).
  assert (0 <= zlen buf <= Z.min len CHUNK) as Hb by (unfold buf, slice, CHUNK; rewrite length_take; lia).
  rewrite (fits_cons (encode _)), fits_one by (apply (read_fits StOk); [done|unfold in_width|]; lia). cbn [andb].
  destruct (_ || _); [done|]. apply IH; lia.
Qed.

Lemma read_deliverable seq off len d :
  in_width 64 seq -> 0 <= off -> 1 <= len <= MAX_READ_REQUEST -> off + len < 2 ^ 64 ->
  deliverable rs r chunk_size dir_fuel seq (FuseOps.RRead hid off len) (with_data d) = true.
Proof.
  intros Hs Ho Hl Hr. unfold deliverable. cbn [in_bounds requests forallb request_frames vol_serve fst].
  rewrite andb_true_r, !andb_true_iff, Z.leb_le, Z.ltb_lt. split_and!; [lia..| |].
  - apply fits_one, dc_read_req; [done|done|unfold in_width; lia|unfold in_width, MAX_READ_REQUEST in *; lia].
  - unfold ref_read. cbn [rq_length rq_handle rq_seq rq_offset]. destruct (Z.ltb_spec MAX_READ_REQUEST len); [lia|].
    cbn [with_data set_vfs v_open]. rewrite Hopen. destruct (Z.leb_spec len 0); [lia|].
    rewrite data_of_with by done. apply read_frames_fit; [done|lia..].
Qed.

Lemma write_reqs_addressed seq off csz i n cs :
  Forall (fun q => wq_handle q = hid /\ wq_seq q = seq) (write_reqs hid seq off csz i n cs).
Proof. revert i. induction cs as [|c cs IH]; intros i; cbn [write_reqs]; constructor; [done|apply IH]. Qed.

Lemma write_deliverable seq off data d :
  in_width 64 seq -> data <> [] -> 0 <= off -> off + zlen data < 2 ^ 64 ->
  deliverable rs r chunk_size dir_fuel seq (FuseOps.RWrite hid off data) (with_data d) = true.
Proof.
  intros Hs Hne Ho Hr. unfold deliverable. cbn [in_bounds requests]. cbv zeta.
  set (csz := Z.max chunk_size 1). set (cs := chunks (Z.to_nat csz) data).
  destruct (write_reqs_encode hid seq off csz 0 (zlen cs) cs) as (bs & HF); [done|done| |].
  { unfold cs, chunks. eapply Forall_impl; [apply chunks_fuel_small|]. simpl. intros c Hc. unfold csz, MAX_CHUNK_SIZE in *. lia. }
  pose proof (write_reqs_total hid seq off csz 0 (zlen cs) cs) as Htot.
  assert (concat cs = data) as Hcat by (apply chunks_concat; unfold csz; lia). rewrite Hcat in Htot.
  pose proof (write_reqs_addressed seq off csz 0 (zlen cs) cs) as Hall.
  rewrite !andb_true_iff, Z.leb_le, Z.ltb_lt. split; [lia|].
  destruct (write_reqs hid seq off csz 0 (zlen cs) cs) as [|q more]; [done|]. cbn [forallb request_frames vol_serve].
  rewrite andb_true_r. apply andb_true_intro. split; [exact (fits_all _ _ HF)|].
  apply Forall_cons in Hall as [[Hh Hq] _]. unfold ref_write. cbn [with_data set_vfs v_open]. rewrite Hh, Hopen, data_of_with by done.
  cbn [fst]. rewrite Hq, Htot. apply fits_one, (write_resp_fits StOk); [done|unfold in_width; lia].
Qed.

(** So does the server that holds the volume, over the wire. *)
Section Served.
Context (k0 : posix) (J0 : gset Z).
Hypothesis Hroot : path_no_nul (RootDir :: map Normal rs) = true.
Hypothesis Hx : exports k0 J0 rs r.
Hypothesis Hdir : is_Some (ents_at k0 r).

Definition remote_file (w : wire (posix * desk)) (d : bytes) : Prop := linked k0 J0 (with_data d) w /\ in_width 64 (n_seq w).

Lemma seq_after_width {A} n (q : rpcE A) v : in_width 64 (seq_after rs r chunk_size n q v).
Proof. unfold seq_after. destruct (_ `max` 1)%nat eqn:E; [lia|]. apply wrap_range. lia. Qed.

Lemma remote_service : FileService (remote_rpc session rs chunk_size dir_fuel) hid remote_file.
Proof.
  split; intros w d off.
  - intros data [HL Hs] Hne Ho Hr.
    destruct (rpc_performed session rs r chunk_size dir_fuel k0 J0 Hroot Hx Hdir _ _ w HL (write_deliverable _ off data d Hs Hne Ho Hr))
      as (w' & -> & HL' & Hn). rewrite write_with in * by done.
    exists w'. split; [done|]. split; [done|]. rewrite Hn. apply seq_after_width.
  - intros len [HL Hs] Ho Hl Hr.
    destruct (rpc_performed session rs r chunk_size dir_fuel k0 J0 Hroot Hx Hdir _ _ w HL (read_deliverable _ off len d Hs Ho Hl Hr))
      as (w' & -> & HL' & Hn). rewrite read_with in * by lia.
    exists w'. split; [done|]. split; [done|]. rewrite Hn. apply seq_after_width.
Qed.
End Served.
End Files.

(** ** Theorem *)

(** C5: the network is invisible.  Whatever the client runs (any callbacks of the
    kernel, rounds of the background task, the flush of an unmount, in any order; any
    program over its state and the RPCs), whatever state it keeps and however each of
    its calls fares (served, served by a new session after a reconnect, failed before
    the server heard of it or after it was served), with messages that fit into frames,
    running it against the server over the wire gives the same results, the same state
    of the client and the same file system as running it on the export itself, where
    each RPC is one operation on names or on an open file: paging, chunking, framing,
    sequence numbers, status codes, handles of the table, descriptors and path
    resolution leave no trace. *)
Theorem mount_is_local {C : Codec} {SC : ServiceCodec C} session rs r chunk_size dir_fuel k0 J0 {T A : Type}
    (loc : forall X, fsE X -> T -> X * T) (bump : T -> T) (m : fs A) t fates v w :
  exports k0 J0 rs r -> is_Some (ents_at k0 r) -> path_no_nul (RootDir :: map Normal rs) = true ->
  linked k0 J0 v w ->
  let on_export := mount_exec loc bump (local_rpc rs r chunk_size) local_renew in
  let over_wire := mount_exec loc bump (remote_rpc session rs chunk_size dir_fuel) remote_renew in
  let start := MkMountState t fates (n_seq w, v) in
  run_ok on_export (call_fits rs r chunk_size dir_fuel) m start = true ->
  let out := run on_export m start in
  exists w', run over_wire m (MkMountState t fates w) = (fst out, MkMountState (ms_client (snd out)) (ms_fates (snd out)) w') /\
    linked k0 J0 (snd (ms_far (snd out))) w'.
Proof.
  intros Hx Hd Hroot HL on_export over_wire start Hok out.
  destruct (run_sim over_wire on_export (same_mount k0 J0) (call_fits rs r chunk_size dir_fuel)
    (fun X e s s' => mount_call session rs r chunk_size dir_fuel k0 J0 Hroot Hx Hd loc bump X e s s')
    m (MkMountState t fates w) start) as ([t2 f2 w2] & Hrun & Ht & Hf & _ & HL'); [done|done|]. fold out in Hrun, Ht, Hf, HL'.
  cbn [ms_client ms_fates ms_far] in Ht, Hf, HL'. subst t2 f2. by exists w2.
Qed.

(** A file made in a new directory, written through the buffer, moved while it is open,
    read and listed; a reconnect, after which its handle has no file to be reopened on;
    the file opened by its new name and written, the first flush lost; and another
    reconnect, after which the handle reads on.  The chunks are two bytes long. *)
Definition tour_client : client (alru Entry) :=
  MkClient (quicfs_new 0 CacheConfig_default WriteBufConfig_default None None (lit "/")) 0 0 0 100 [].
Definition tour_calls : list callback :=
  [CbMkdir 1 (lit "d") 0x1ed; CbCreate 2 (lit "n") 0x1a4 2; CbWrite 3 1 0 [x41; x42]; CbWrite 3 1 2 [x43]; CbFlush 1;
   CbRename 2 (lit "n") 1 (lit "m") 0; CbUnlink 1 (lit "f"); CbRead 1 0 10; CbReaddir 1 0; CbLookup 1 (lit "m");
   CbRead 1 0 10; CbOpen 3 2; CbWrite 3 2 3 [x44]; CbFlush 2; CbFlush 2; CbLookup 1 (lit "m"); CbRead 2 0 10; CbRelease 2].
Definition tour_fates : list fate :=
  [Up; Up; Up; Up; Up; Up; Up; Renewed 9 4; Up; Up; Up; Unsent (lit "timed out"); Up; Renewed 11 4].
Definition tour_program : fs (list reply) := callbacks None None 1 tour_calls.
Definition tour_wire : wire (posix * desk) := MkNet (ns_kernel, tour_desk) 1 [] None.
Definition tour_mount : list reply * mount_state (client (alru Entry)) (Z * volume) :=
  run (mount_exec client_exec bump_gen (local_rpc [lit "srv"] 2 2) local_renew) tour_program
    (MkMountState tour_client tour_fates (1, tour_volume)).

Definition data_of_reply (a : reply) : option bytes := match a with ReplyData d => Some d | _ => None end.
Definition errno_of_reply (a : reply) : option Z := match a with ReplyError e => Some e | _ => None end.

(** What the application sees, what [ls] lists and what is left on the server. *)
Example tour_seen :
  (let '(replies, s) := tour_mount in
   (omap data_of_reply replies, omap errno_of_reply replies, map snd (cl_listed (ms_client s)), ents_at (v_fs (snd (ms_far s))) 2)) =
  ([[x41; x42; x43]; [x41; x42; x43; x44]], [ESTALE; EIO], [lit "out"; lit "m"; lit "d"],
   Some (<[lit "d" := 6]> (<[lit "m" := 7]> {[lit "out" := 4]}))).
Proof. by vm_compute. Qed.

Lemma tour_linked : linked ns_kernel {[2; 4; 5]} tour_volume tour_wire.
Proof. split; [apply tour_sound|apply (fresh_holds ns_kernel 7 4)]. Qed.

Lemma tour_fits_frames :
  run_ok (mount_exec client_exec bump_gen (local_rpc [lit "srv"] 2 2) local_renew) (call_fits (C := example_codec) [lit "srv"] 2 2 4)
    tour_program (MkMountState tour_client tour_fates (1, tour_volume)) = true.
Proof. by vm_compute. Qed.

Lemma mount_is_local_witness :
  exists w', run (mount_exec client_exec bump_gen (remote_rpc (C := example_codec) demo_session [lit "srv"] 2 4) remote_renew) tour_program
      (MkMountState tour_client tour_fates tour_wire) =
      (fst tour_mount, MkMountState (ms_client (snd tour_mount)) (ms_fates (snd tour_mount)) w') /\
    linked ns_kernel {[2; 4; 5]} (snd (ms_far (snd tour_mount))) w'.
Proof.
  exact (mount_is_local (C := example_codec) demo_session [lit "srv"] 2 2 4 ns_kernel {[2; 4; 5]} client_exec bump_gen tour_program
    tour_client tour_fates tour_volume tour_wire ns_kernel_exports (proj2 (proj2 ns_kernel_exported)) eq_refl tour_linked tour_fits_frames).
Defined.

(** ** A mounted file is a file *)

(** C10: a mounted file is a file.  A file is open for positioned access; an application
    reads, writes and closes it through the mount in any order, with any sizes within
    the limits and any buffer and chunk sizes, no byte being written twice between two
    operations that wait for the server.  Through callbacks, write buffer, RPCs, wire,
    dispatcher, handlers and kernel, the answers are those of an ordinary file on which
    each operation takes effect at once (a read sees every earlier write); and after a
    final close the server holds exactly that file, everything else on its volume being
    as it was. *)
Theorem mount_refines_file {C : Codec} {DC : DataCodec C} {SC : ServiceCodec C} session rs r chunk_size dir_fuel k0 J0
    {L} `{!LruOps L Entry} v hid f n d w fh opened per_handle total window uid gid ttl ops (c : client L) :
  exports k0 J0 rs r -> is_Some (ents_at k0 r) -> path_no_nul (RootDir :: map Normal rs) = true ->
  linked k0 J0 v w -> in_width 64 (n_seq w) -> in_width 64 hid -> chunk_size <= MAX_CHUNK_SIZE ->
  v_open v !! hid = Some f -> k_nodes (v_fs v) !! vh_ino f = Some n -> i_kind n = KFile d ->
  vh_access f = O_RDWR -> has_bits (vh_flags f) 0x400 = false ->
  of_server_handle opened = hid -> 0 < total < 2 ^ 62 -> client_ready fh opened per_handle total window c ->
  ops_ok total [] ops ->
  let over_wire := mount_exec client_exec bump_gen (remote_rpc session rs chunk_size dir_fuel) remote_renew in
  let '(replies, file) := file_run d ops in
  exists c' w',
    run over_wire (through_mount fh uid gid ttl ops) (MkMountState c [] w) = (replies ++ [ReplyOk], MkMountState c' [] w') /\
    linked k0 J0 (with_data v f n file) w'.
Proof.
  intros Hx Hdir Hroot HL Hseq Hhid Hchunk Hf Hn Hk Hacc Hpos Hopen Htotal Hc Hok over_wire.
  assert (may_read (vh_access f) = true /\ may_write (vh_access f) = true) as [Hr Hw] by (by rewrite Hacc).
  pose proof (remote_service session rs r chunk_size dir_fuel v hid f n Hf Hr Hw Hpos Hhid Hchunk k0 J0 Hroot Hx Hdir) as HS.
  destruct (service_mounts_file _ hid _ (Service := HS) remote_renew fh opened per_handle total window uid gid ttl ops c w d)
    as (c' & w' & E & HL' & _); [done..| |done|].
  - split; [|done]. by rewrite with_data_same.
  - destruct (file_run d ops). by exists c', w'.
Qed.

(** The export's file opened, and used: a gap, an out-of-order write that is merged. *)
Definition tour_opened : volume := snd (rpc_ref [lit "srv"] 2 (FuseOps.ROpen (lit "/f") 2) tour_volume).
Definition tour_opened_wire : wire (posix * desk) :=
  snd (remote_rpc (C := example_codec) demo_session [lit "srv"] 2 4 _ (FuseOps.ROpen (lit "/f") 2) tour_wire).
Definition tour_file : OpenFile := MkOpenFile (lit "/f") 2 0x700000001 0 false.
Definition tour_reader : client (alru Entry) :=
  upd (fun q => set_open {[1 := tour_file]} (set_buf (wb_new 100 200 10) q)) tour_client.

Lemma tour_opened_linked : linked ns_kernel {[2; 4; 5]} tour_opened tour_opened_wire /\ n_seq tour_opened_wire = 2.
Proof.
  destruct (rpc_performed (C := example_codec) demo_session [lit "srv"] 2 2 4 ns_kernel {[2; 4; 5]} eq_refl ns_kernel_exports
    (proj2 (proj2 ns_kernel_exported)) (FuseOps.ROpen (lit "/f") 2) tour_volume tour_wire tour_linked) as (w' & E & HL & Hn); [by vm_compute|].
  unfold tour_opened_wire. rewrite E. split; [exact HL|exact Hn].
Qed.

Lemma tour_ready : client_ready 1 tour_file 100 200 10 tour_reader.
Proof. split; try reflexivity. apply not_elem_of_empty. Qed.

Definition tour_ops : list file_op :=
  [FWrite 2 6 [x66; x67]; FWrite 2 4 [x64; x65]; FRead 1 5; FWrite 2 0 [x7a]; FRead 0 100].

Lemma tour_ops_ok : ops_ok 200 [] tour_ops.
Proof.
  unfold tour_ops, sendable, in_range, MAX_READ_REQUEST. cbn [ops_ok fst snd length app].
  split_and!; try done; try lia; intros p; rewrite ?elem_of_cons; intros Hp;
    repeat destruct Hp as [->|Hp]; try (by apply not_elem_of_nil in Hp); apply before_apart; simpl; lia.
Qed.

Lemma mount_refines_file_witness :
  exists c' w',
    run (mount_exec client_exec bump_gen (remote_rpc (C := example_codec) demo_session [lit "srv"] 2 4) remote_renew)
      (through_mount 1 None None 1 tour_ops) (MkMountState tour_reader [] tour_opened_wire) =
      ([ReplyWritten 2; ReplyWritten 2; ReplyData [x00; x00; x00; x64; x65]; ReplyWritten 1;
        ReplyData [x7a; x00; x00; x00; x64; x65; x66; x67]; ReplyOk], MkMountState c' [] w') /\
    linked ns_kernel {[2; 4; 5]}
      (with_data tour_opened (MkVhandle 5 2 O_RDWR) (new_inode (KFile [x41]) 0x180) [x7a; x00; x00; x00; x64; x65; x66; x67]) w'.
Proof.
  exact (mount_refines_file (C := example_codec) demo_session [lit "srv"] 2 2 4 ns_kernel {[2; 4; 5]} tour_opened 0x700000001
    (MkVhandle 5 2 O_RDWR) (new_inode (KFile [x41]) 0x180) [x41] tour_opened_wire 1 tour_file 100 200 10 None None 1 tour_ops tour_reader
    ns_kernel_exports (proj2 (proj2 ns_kernel_exported)) eq_refl
    (proj1 tour_opened_linked) ltac:(rewrite (proj2 tour_opened_linked); unfold in_width; lia) ltac:(unfold in_width; lia)
    ltac:(unfold MAX_CHUNK_SIZE; lia) ltac:(by vm_compute) ltac:(by vm_compute) eq_refl eq_refl eq_refl
    eq_refl ltac:(lia) tour_ready tour_ops_ok).
Defined.

(** ** A renamed file is reopened by its old name *)

(** [fuse_rename] leaves the paths of open files as they were, so after a reconnect
    [ensure_live] reopens a renamed file by a name that is another file's by now: an
    application that saves to [a], moves it to [b] and saves a new [a] while it keeps
    the first file open then writes into the new [a], and its close reports success. *)
Definition moved_calls : list callback :=
  [CbCreate 1 (lit "a") 0x1a4 2; CbWrite 2 1 0 [x41]; CbFlush 1; CbRename 1 (lit "a") 1 (lit "b") 0;
   CbCreate 1 (lit "a") 0x1a4 2; CbWrite 3 2 0 [x42]; CbFlush 2; CbStatfs 1; CbWrite 2 1 0 [x43]; CbFlush 1].

Definition moved_end : list reply * mount_state (client (alru Entry)) (wire (posix * desk)) :=
  run (mount_exec client_exec bump_gen (remote_rpc (C := example_codec) demo_session [lit "srv"] 2 4) remote_renew)
    (callbacks None None 1 moved_calls) (MkMountState tour_client [Up; Up; Up; Up; Up; Renewed 9 4] tour_wire).

Definition contents (k : posix) (d : Z) (c : str) : option bytes :=
  e ← ents_at k d; i ← e !! c; match kind_at k i with Some (KFile data) => Some data | _ => None end.

(** The last reply, the errors, and the two files on the server. *)
Lemma renamed_file_reopened_by_old_name :
  (let '(replies, s) := moved_end in let k := fst (n_srv (ms_far s)) in
   (last replies, omap errno_of_reply replies, contents k 2 (lit "b"), contents k 2 (lit "a"))) =
  (Some ReplyOk, [], Some [x41], Some [x43]).
Proof. by vm_compute. Qed.
