(* ===== verification/Liveness.v ===== *)
(** * Buffered writes get out

    What one round of the background task of [src/client/src/mount.rs] does to
    each handle when the server answers: writes that waited for the coalesce
    window are delivered, those that waited too long are given up with an error,
    and younger ones stay. *)

From S2P Require Import Prelude Prog Text Status Frames Os PathStr BTree Trust Tofu Identity Startup Cache Inodes WriteBuf FuseOps Durable CliArgs.

(** ** Other handles *)

Lemma drop_handle_self wb h : wb_per_handle (snd (drop_handle wb h)) !! h = None.
Proof. unfold drop_handle. destruct (wb_per_handle wb !! h) eqn:E; simpl; [by rewrite lookup_delete_eq|done]. Qed.

Lemma drop_handle_ne wb h h' : h <> h' -> wb_per_handle (snd (drop_handle wb h)) !! h' = wb_per_handle wb !! h'.
Proof.
  intros Hne. apply (drop_handle_other h' wb h (fst (drop_handle wb h))); [done|]. by destruct (drop_handle wb h).
Qed.

(** ** A connection that is up *)

Section Up.
Context {K : Type} (kern : forall X, fsE X -> K -> X * K) (now gen h0 : Z).
Hypothesis kern_gen : forall k, kern _ ReconnectGen k = (gen, k).
Hypothesis kern_write : forall sh off data k, exists n k', kern _ (Rpc (RWrite sh off data)) k = (Ok n, k').

Abbreviation exec := (run (fs_exec h0 kern now)).

(** A handle whose flush can succeed: open on this connection, not being sent. *)
Definition ready (g : ledger) (h : Z) (f : OpenFile) (cs : list PendingWrite) : Prop :=
  l_files g !! h = Some f /\ of_opened_gen f = gen /\
  wb_per_handle (l_wb g) !! h = Some (MkHandleBuf cs false) /\ cs <> [].

Lemma send_batch_up sh batch g k :
  exists k', exec (send_batch sh batch) (g, k) = (None, (add_log (map (pair sh) batch) g, k')).
Proof.
  revert g k. induction batch as [|[off data] batch IH]; intros g k.
  { exists k. cbn. rewrite run_ret. unfold add_log. rewrite app_nil_r. by destruct g. }
  cbn [send_batch]. rewrite run_bind, run_call. cbn [fs_exec].
  destruct (kern_write sh off data k) as (n & k1 & ->). cbn [fst snd rpc_after].
  destruct (IH (add_log [(sh, (off, data))] g) k1) as (k2 & ->). exists k2. do 2 f_equal.
  unfold add_log. simpl. by rewrite <- app_assoc.
Qed.

(** What a flush that succeeds leaves. *)
Record flushed (h sh : Z) (cs : list PendingWrite) (g g' : ledger) : Prop := {
  fl_self : wb_per_handle (l_wb g') !! h = None;
  fl_other h' : h' <> h -> wb_per_handle (l_wb g') !! h' = wb_per_handle (l_wb g) !! h';
  fl_files : l_files g' = l_files g;
  fl_err : l_err g' = l_err g;
  fl_log : l_log g' = l_log g ++ map (pair sh) (coalesce (sort_pairs (map pair_of cs)))
}.

Lemma flush_one_up h f cs g k :
  ready g h f cs ->
  exists g' k', exec (flush_one h false) (g, k) = (Ok tt, (g', k')) /\ flushed h (of_server_handle f) cs g g'.
Proof.
  intros (Hf & Hg & Hhb & Hne). unfold flush_one. cbn [flush_attempts].
  assert (exec (ensure_live h false) (g, k) = (Some (of_server_handle f), (g, k))) as Hl.
  { unfold ensure_live. rewrite run_bind, run_call. cbn [fs_exec]. rewrite kern_gen.
    rewrite run_bind, run_call. cbn [fs_exec]. rewrite Hf, Hg, Z.eqb_refl. by rewrite run_ret. }
  rewrite run_bind, Hl, run_bind, run_call. cbn [fs_exec].
  assert (begin_flush (l_wb g) h = (Some (MkFlushBatch (coalesce (sort_pairs (map pair_of cs))) (zlen cs)),
    set_handles (<[h := MkHandleBuf cs true]> (wb_per_handle (l_wb g))) (wb_total_bytes (l_wb g)) (l_wb g))) as ->.
  { unfold begin_flush. rewrite Hhb. cbn [hb_sending hb_chunks orb]. by rewrite bool_decide_false. }
  rewrite run_bind, run_call. cbn [fs_exec]. rewrite kern_gen. cbn [fb_chunks fb_sent_count]. rewrite run_bind.
  destruct (send_batch_up (of_server_handle f) (coalesce (sort_pairs (map pair_of cs)))
    (set_wb (set_handles (<[h := MkHandleBuf cs true]> (wb_per_handle (l_wb g))) (wb_total_bytes (l_wb g)) (l_wb g)) g) k)
    as (k' & ->).
  rewrite run_bind, run_call. cbn [fs_exec]. rewrite run_ret. do 2 eexists. split; [reflexivity|].
  unfold ack_flush. cbn [l_wb add_log set_wb wb_per_handle set_handles]. rewrite lookup_insert_eq. cbn [hb_chunks].
  rewrite Z.min_id, Nat2Z.id, drop_ge by done. split; simpl; try done.
  - by rewrite lookup_delete_eq.
  - intros h' Hh. by rewrite lookup_delete_ne, lookup_insert_ne.
Qed.

(** ** The two loops of a round *)

(** What giving up on the handles [hs] leaves. *)
Record gave_up (hs : list Z) (g g' : ledger) : Prop := {
  gu_in h : h ∈ hs -> wb_per_handle (l_wb g') !! h = None;
  gu_out h : h ∉ hs -> wb_per_handle (l_wb g') !! h = wb_per_handle (l_wb g) !! h;
  gu_err h : h ∈ l_err g' <-> h ∈ l_err g \/ (h ∈ hs /\ 0 < fst (drop_handle (l_wb g) h));
  gu_same : l_files g' = l_files g /\ l_log g' = l_log g /\ wb_window (l_wb g') = wb_window (l_wb g)
}.

Lemma age_drop_run h g k :
  exists g', exec (age_drop h) (g, k) = (tt, (g', k)) /\ gave_up [h] g g'.
Proof.
  unfold age_drop. rewrite run_bind, run_call. cbn [fs_exec].
  pose proof (drop_handle_self (l_wb g) h) as Hs. pose proof (fun h' Hne => drop_handle_ne (l_wb g) h h' Hne) as Ho.
  assert (wb_window (snd (drop_handle (l_wb g) h)) = wb_window (l_wb g)) as Hw
    by (unfold drop_handle; by destruct (wb_per_handle (l_wb g) !! h)).
  destruct (drop_handle (l_wb g) h) as [n wb] eqn:E. cbn [fst snd] in *.
  assert (forall err, (forall h', h' ∈ err <-> h' ∈ l_err g \/ (h' ∈ [h] /\ 0 < fst (drop_handle (l_wb g) h'))) ->
    gave_up [h] g (set_err err (set_wb wb g))) as Hall.
  { intros err Herr. split; [| |exact Herr|done].
    - intros h' ->%list_elem_of_singleton. done.
    - intros h' Hh'. simpl. apply Ho. set_solver. }
  destruct (0 <? n) eqn:En.
  - rewrite run_call. cbn [fs_exec]. apply Z.ltb_lt in En. eexists. split; [reflexivity|]. apply Hall. simpl.
    intros h'. rewrite elem_of_union, elem_of_singleton, list_elem_of_singleton. split.
    + intros [->|?]; [right; by rewrite E|by left].
    + intros [?|[-> _]]; auto.
  - rewrite run_ret. apply Z.ltb_ge in En. exists (set_wb wb g). split; [done|].
    destruct (Hall (l_err g)) as [H1 H2 H3 H4]; [|by split].
    intros h'. rewrite list_elem_of_singleton. split; [by left|]. intros [?|[-> Hn]]; [done|]. rewrite E in Hn. simpl in Hn. lia.
Qed.

Lemma drop_loop_run hs g k :
  NoDup hs -> exists g', exec (for_each age_drop hs) (g, k) = (tt, (g', k)) /\ gave_up hs g g'.
Proof.
  intros Hnd. revert g. induction Hnd as [|h hs Hh Hnd IH]; intros g.
  { exists g. split; [done|]. split; [|done| |done].
    - intros h Hn. by apply not_elem_of_nil in Hn.
    - intros h. split; [by left|]. intros [?|[Hn _]]; [done|]. by apply not_elem_of_nil in Hn. }
  cbn [for_each]. rewrite run_bind. destruct (age_drop_run h g k) as (g1 & -> & [I1 O1 E1 S1]).
  destruct (IH g1) as (g2 & -> & [I2 O2 E2 S2]). exists g2. split; [done|]. split.
  - intros h'. rewrite elem_of_cons. intros [->|Hin]; [|by apply I2]. rewrite O2 by done. apply I1. set_solver.
  - intros h'. rewrite not_elem_of_cons. intros [Hne Hin]. rewrite O2 by done. apply O1. set_solver.
  - intros h'. rewrite E2, E1, list_elem_of_singleton, elem_of_cons.
    destruct (decide (h' = h)) as [->|Hne]; [tauto|].
    assert (fst (drop_handle (l_wb g1) h') = fst (drop_handle (l_wb g) h')) as ->; [|tauto].
    unfold drop_handle. rewrite O1 by set_solver. by destruct (wb_per_handle (l_wb g) !! h').
  - destruct S1 as (? & ? & ?), S2 as (? & ? & ?). split_and!; congruence.
Qed.

(** What flushing the handles [hs] leaves. *)
Record sent_all (hs : list Z) (g g' : ledger) : Prop := {
  sa_in h f cs : h ∈ hs -> ready g h f cs -> wb_per_handle (l_wb g') !! h = None /\
    forall q, q ∈ coalesce (sort_pairs (map pair_of cs)) -> (of_server_handle f, q) ∈ l_log g';
  sa_out h : h ∉ hs -> wb_per_handle (l_wb g') !! h = wb_per_handle (l_wb g) !! h;
  sa_err : l_err g' = l_err g;
  sa_log : l_log g ⊆ l_log g'
}.

Lemma flush_loop_run hs g k :
  NoDup hs -> (forall h, h ∈ hs -> exists f cs, ready g h f cs) ->
  exists g' k', exec (for_each (fun fh => flush_one fh false ;;; Ret tt) hs) (g, k) = (tt, (g', k')) /\ sent_all hs g g'.
Proof.
  intros Hnd. revert g k. induction Hnd as [|h hs Hh Hnd IH]; intros g k Hr.
  { exists g, k. split; [done|]. split; try done. intros h f cs Hn. by apply not_elem_of_nil in Hn. }
  cbn [for_each]. rewrite !run_bind. destruct (Hr h) as (f & cs & Hrd); [left|].
  destruct (flush_one_up h f cs g k Hrd) as (g1 & k1 & -> & [Fs Fo Ff Fe Fl]). rewrite run_ret.
  assert (forall h' f' cs', h' ∈ hs -> ready g h' f' cs' -> ready g1 h' f' cs') as Hkeep.
  { intros h' f' cs' Hin (R1 & R2 & R3 & R4). split_and!; [by rewrite Ff|done| |done]. rewrite Fo; [done|]. by intros ->. }
  destruct (IH g1 k1) as (g2 & k2 & -> & [A1 A2 A3 A4]).
  { intros h' Hin. destruct (Hr h') as (f' & cs' & Hrd'); [by right|]. exists f', cs'. by apply Hkeep. }
  exists g2, k2. split; [done|]. split.
  - intros h' f' cs' Hin Hrd'. apply elem_of_cons in Hin as [->|Hin]; [|by apply A1; [|apply Hkeep]].
    assert (f' = f /\ cs' = cs) as [-> ->].
    { destruct Hrd as (R1 & _ & R3 & _), Hrd' as (R1' & _ & R3' & _). split; congruence. }
    split; [by rewrite A2|]. intros q Hq. apply A4. rewrite Fl, elem_of_app. right. by apply list_elem_of_fmap_2.
  - intros h'. rewrite not_elem_of_cons. intros [Hne Hin]. rewrite A2 by done. by apply Fo.
  - congruence.
  - etrans; [|exact A4]. rewrite Fl. apply sub_app_l.
Qed.

Lemma elem_older wb deadline h :
  h ∈ elements (older_than wb deadline now) <->
  exists hb, wb_per_handle wb !! h = Some hb /\ is_older deadline now hb = true.
Proof.
  unfold older_than. rewrite elem_of_elements, elem_of_dom. split.
  - intros [hb Hhb]. apply map_lookup_filter_Some in Hhb as [? ?]. eauto.
  - intros (hb & ? & ?). exists hb. by apply map_lookup_filter_Some.
Qed.
End Up.

(** The ticks of an interval of [p] that started at [start]: the first one at or
    after [t] comes less than [p] later. *)
Lemma tick_in_time start p t :
  0 < p -> start <= t -> exists n, 0 <= n /\ t <= start + n * p < t + p.
Proof.
  intros Hp Ht. exists ((t - start + p - 1) / p). split; [apply Z.div_pos; lia|].
  pose proof (Z.div_mod (t - start + p - 1) p ltac:(lia)). pose proof (Z.mod_pos_bound (t - start + p - 1) p Hp). nia.
Qed.

Definition NS_PER_MS : Z := 1000000.

(** ** Theorems *)

(** C12: buffered writes get out.  On a connection that is up and a server that takes
    writes, when every handle with a write older than the window (and not than the
    maximal age) is open on this very connection, not stale after a reconnect, and has
    no flush in flight, one round of the background task settles every handle: writes
    that waited for the window are sent, every byte of them is acknowledged, and the
    handle's buffer is empty with no error recorded; a handle whose oldest write passed
    the maximal age is given up, with an error recorded for it; a younger one keeps its
    writes.  The task's interval ticks every [max(window, 1) / 2 + 1] milliseconds, so
    once a write's window has passed the next tick is less than that away, on a clock
    of nanoseconds: up to a millisecond past one and a half windows. *)
Theorem background_delivers {K} (kern : forall X, fsE X -> K -> X * K) now gen h0 g k :
  (forall k, kern _ ReconnectGen k = (gen, k)) ->
  (forall sh off data k, exists n k', kern _ (Rpc (RWrite sh off data)) k = (Ok n, k')) ->
  (forall h hb, wb_per_handle (l_wb g) !! h = Some hb -> is_older (wb_window (l_wb g)) now hb = true ->
     is_older MAX_UNACKED_AGE now hb = false ->
     Forall in_range (map pair_of (hb_chunks hb)) /\ exists f, ready gen g h f (hb_chunks hb)) ->
  exists g' k', run (fs_exec h0 kern now) background_tick (g, k) = (tt, (g', k')) /\
    (forall h hb, wb_per_handle (l_wb g) !! h = Some hb ->
       if is_older MAX_UNACKED_AGE now hb then
         wb_per_handle (l_wb g') !! h = None /\ (0 < hb_bytes hb -> h ∈ l_err g')
       else if is_older (wb_window (l_wb g)) now hb then
         wb_per_handle (l_wb g') !! h = None /\ (h ∈ l_err g' <-> h ∈ l_err g) /\
         exists f, l_files g !! h = Some f /\
           forall c i b, c ∈ hb_chunks hb -> has_byte (pair_of c) i b ->
             exists q, (of_server_handle f, q) ∈ l_log g' /\ has_byte q i b
       else wb_per_handle (l_wb g') !! h = Some hb) /\
    (forall o start queued, fo_coalesce_ms o = wb_window (l_wb g) -> 0 <= wb_window (l_wb g) -> start <= queued ->
       let due := queued + wb_window (l_wb g) * NS_PER_MS in
       exists n, 0 <= n /\
         due <= start + n * (background_period o * NS_PER_MS) < due + (Z.max (wb_window (l_wb g)) 1 / 2 + 1) * NS_PER_MS).
Proof.
  intros Hgen Hwr Hready. unfold background_tick. rewrite run_bind, run_call. cbn [fs_exec]. rewrite run_bind.
  set (old := elements (older_than (l_wb g) MAX_UNACKED_AGE now)).
  destruct (drop_loop_run kern now gen h0 Hgen Hwr old g k) as (g1 & -> & [I1 O1 E1 (F1 & L1 & W1)]); [apply NoDup_elements|].
  rewrite run_bind, run_call. cbn [fs_exec]. set (exp := elements (expired_handles (l_wb g1) now)).
  assert (forall h hb, wb_per_handle (l_wb g) !! h = Some hb -> h ∈ old <-> is_older MAX_UNACKED_AGE now hb = true) as Hold.
  { intros h hb Hhb. unfold old. rewrite elem_older. split; [intros (hb' & ? & ?); by simplify_eq|eauto]. }
  assert (forall h hb, wb_per_handle (l_wb g) !! h = Some hb -> h ∈ exp <->
    is_older MAX_UNACKED_AGE now hb = false /\ is_older (wb_window (l_wb g)) now hb = true) as Hexp.
  { intros h hb Hhb. unfold exp, expired_handles. rewrite W1, elem_older. split.
    - intros (hb' & Hl & Hwin). destruct (is_older MAX_UNACKED_AGE now hb) eqn:E.
      + rewrite (I1 h) in Hl by (by apply (Hold h hb)). done.
      + rewrite O1 in Hl by (rewrite (Hold h hb) by done; congruence). by simplify_eq.
    - intros [Hn Hwin]. exists hb. rewrite O1; [done|]. rewrite (Hold h hb) by done. congruence. }
  assert (forall h f cs, wb_per_handle (l_wb g1) !! h = wb_per_handle (l_wb g) !! h ->
    ready gen g h f cs -> ready gen g1 h f cs) as Hkeep.
  { intros h f cs Hl (R1 & R2 & R3 & R4). split_and!; [by rewrite F1|done|by rewrite Hl|done]. }
  destruct (flush_loop_run kern now gen h0 Hgen Hwr exp g1 k) as (g2 & k2 & -> & [A1 A2 A3 A4]); [apply NoDup_elements| |].
  { intros h Hh. destruct (proj1 (elem_older now (l_wb g1) _ h) Hh) as (hb & Hl & _).
    destruct (decide (h ∈ old)) as [Ho|Ho]; [by rewrite I1 in Hl|]. rewrite O1 in Hl by done.
    destruct (proj1 (Hexp h hb Hl) Hh) as [Hn Hwin]. destruct (Hready h hb Hl Hwin Hn) as (_ & f & Hf).
    exists f, (hb_chunks hb). apply Hkeep; [by apply O1|done]. }
  exists g2, k2. split; [done|]. split.
  2:{ intros o start queued Ho Hw Hq. unfold background_period. rewrite Ho. apply tick_in_time.
      - assert (0 <= Z.max (wb_window (l_wb g)) 1 / 2) by (apply Z.div_pos; lia). unfold NS_PER_MS. lia.
      - unfold NS_PER_MS. lia. }
  intros h hb Hhb. pose proof (Hold h hb Hhb) as Ho. pose proof (Hexp h hb Hhb) as He.
  destruct (is_older MAX_UNACKED_AGE now hb) eqn:Eo.
  - assert (h ∉ exp) by (rewrite He; intros [? _]; done). rewrite A2, A3 by done. split; [by apply I1, Ho|].
    intros Hb. apply E1. right. split; [by apply Ho|]. unfold drop_handle. by rewrite Hhb.
  - assert (h ∉ old) by (rewrite Ho; done).
    destruct (is_older (wb_window (l_wb g)) now hb) eqn:Ew.
    + destruct (Hready h hb Hhb Ew Eo) as (Hr & f & Hf).
      destruct (A1 h f (hb_chunks hb)) as [Hnone Hlog]; [by apply He|apply Hkeep; [by apply O1|done]|].
      split; [done|]. split; [rewrite A3, E1; tauto|]. exists f. split; [apply Hf|].
      intros c i b Hc Hb. destruct (batch_bytes _ (pair_of c) i b Hr) as (q & Hq & Hqb); [by apply list_elem_of_fmap_2|done|].
      exists q. auto.
    + rewrite A2 by (rewrite He; intros [_ ?]; done). by rewrite O1.
Qed.

Lemma background_delivers_witness :
  exists g', run (fs_exec 1 (demo_kern true) 50) background_tick (demo_ledger, tt) = (tt, (g', tt)) /\
    wb_per_handle (l_wb g') !! 1 = None /\ (1 ∈ l_err g' <-> 1 ∈ l_err demo_ledger) /\
    exists q, (7, q) ∈ l_log g' /\ has_byte q 0 x61.
Proof.
  destruct (background_delivers (demo_kern true) 50 0 1 demo_ledger tt) as (g' & [] & E & H & _).
  - done.
  - intros sh off data k. by exists (zlen data), k.
  - intros h hb Hhb _ _. cbn [demo_ledger l_wb wb_per_handle] in Hhb. apply lookup_singleton_Some in Hhb as [<- <-]. split.
    + apply Forall_singleton. split; simpl; lia.
    + eexists. split_and!; [reflexivity|done|reflexivity|done].
  - exists g'. split; [exact E|].
    destruct (H 1 (MkHandleBuf [MkPendingWrite 0 [x61] 0] false) eq_refl) as (H1 & H2 & f & Hf & Hb).
    split; [exact H1|]. split; [exact H2|]. simpl in Hf. injection Hf as <-.
    apply (Hb (MkPendingWrite 0 [x61] 0) 0 x61); [left|]. split; [unfold covers; simpl; lia|reflexivity].
Defined.

(** A write can wait longer than one and a half windows: with a window of 100 ms and a
    tick a nanosecond before it has passed, the next one is 51 ms later. *)
Example waits_past_half :
  let p := background_period (MkFuseOptions false false 2000 None None 4194304 33554432 100 (lit "/")) * NS_PER_MS in
  let queued := p * 10 - 100 * NS_PER_MS + 1 in
  10 * p < queued + 100 * NS_PER_MS /\ 11 * p - queued > 150 * NS_PER_MS.
Proof. split; reflexivity. Qed.

(** A coalesce window beyond the maximal age turns buffering into loss: with
    [--coalesce-ms 300000] the same write on the same connection is given up
    after two minutes, before any attempt to send it. *)
Lemma long_window_gives_up :
  let g := set_wb (set_handles (wb_per_handle (l_wb demo_ledger)) 1 (wb_new 100 1000 300000)) demo_ledger in
  let '(_, (g1, _)) := run (fs_exec 1 (demo_kern true) 119999) background_tick (g, tt) in
  let '(_, (g2, _)) := run (fs_exec 1 (demo_kern true) 120000) background_tick (g1, tt) in
  l_log g1 = [] /\ chunks_of (l_wb g1) 1 = [MkPendingWrite 0 [x61] 0] /\
  l_log g2 = [] /\ chunks_of (l_wb g2) 1 = [] /\ 1 ∈ l_err g2.
Proof. vm_compute. repeat (split; [reflexivity|]). set_solver. Qed.
