(* ===== verification/Connection.v ===== *)
(** * One connection, all its streams at once

    [handle_connection] of [src/server/src/lib.rs] with [ClientSession::new] of
    [src/server/src/session.rs]: the handshake on the first stream, then a task per
    stream, all sharing the session's handle table.  A step of the connection is
    one call of one task, so tasks interleave in every way; a task may be dropped
    between two of its calls when its deadline passes (a call in progress counts as
    made), and its destructors run.

    A file is open as long as someone holds it: the handle table, the task that
    opened it or took it out of the table, or a task that fetched it from the
    table ([Arc<File>]).  A task's resources are the [ghost] record of [Confine];
    here they are part of the state. *)

From S2P Require Import Prelude Prog Text Status Frames FrameIo Os Sanitize WriteLock Handles Confine Reply MetaOps DataOps CtrlOps Dispatch ExampleCodec Server Accept.

(** ** Who holds which file *)

Definition refs (g : ghost) : gset Z := dom (g_own g) ∪ g_shared g.

Definition tabled (tab : gmap Z OpenHandle) : gset Z :=
  list_to_set (map (fun p => oh_file (snd p)) (map_to_list tab)).

Definition held (tab : gmap Z OpenHandle) (gs : list ghost) : gset Z := tabled tab ∪ ⋃ (map refs gs).

Lemma elem_of_tabled tab fd : fd ∈ tabled tab <-> exists id h, tab !! id = Some h /\ oh_file h = fd.
Proof.
  unfold tabled. rewrite elem_of_list_to_set, list_elem_of_fmap. split.
  - intros ([id h] & -> & Hin%elem_of_map_to_list). eauto.
  - intros (id & h & Hin & <-). exists (id, h). split; [done|]. by apply elem_of_map_to_list.
Qed.

Lemma elem_of_refs_list gs fd : fd ∈ ⋃ (map refs gs) <-> exists i g, gs !! i = Some g /\ fd ∈ refs g.
Proof.
  rewrite elem_of_union_list. setoid_rewrite list_elem_of_fmap. split.
  - intros (X & (g & -> & [i Hi]%list_elem_of_lookup) & Hfd). eauto.
  - intros (i & g & Hi & Hfd). exists (refs g). split; [|done]. exists g. split; [done|]. by eapply list_elem_of_lookup_2.
Qed.

Lemma elem_of_held tab gs fd :
  fd ∈ held tab gs <->
  (exists id h, tab !! id = Some h /\ oh_file h = fd) \/ (exists i g, gs !! i = Some g /\ fd ∈ refs g).
Proof. unfold held. by rewrite elem_of_union, elem_of_tabled, elem_of_refs_list. Qed.

(** The descriptors are exactly those held; a file has one owner. *)
Record res_inv (open : gset Z) (tab : gmap Z OpenHandle) (gs : list ghost) : Prop := {
  ri_open : open = held tab gs;
  ri_inj id id' h h' : tab !! id = Some h -> tab !! id' = Some h' -> oh_file h = oh_file h' -> id = id';
  ri_tab id h i g : tab !! id = Some h -> gs !! i = Some g -> g_own g !! oh_file h = None;
  ri_own i j g g' fd : gs !! i = Some g -> gs !! j = Some g' ->
    is_Some (g_own g !! fd) -> is_Some (g_own g' !! fd) -> i = j
}.

(** Dropping references [S] closes the files no one else holds. *)
Definition close_unheld (S : gset Z) (tab : gmap Z OpenHandle) (gs : list ghost) (open : gset Z) : gset Z :=
  open ∖ (S ∖ held tab gs).

Lemma close_unheld_eq S tab gs open :
  held tab gs ⊆ open -> (forall fd, fd ∈ open -> fd ∉ S -> fd ∈ held tab gs) -> close_unheld S tab gs open = held tab gs.
Proof.
  intros H1 H2. unfold close_unheld. apply set_eq. intros fd. rewrite !elem_of_difference.
  destruct (decide (fd ∈ held tab gs)); [set_solver|]. split; [|done]. intros [Ho Hn]. destruct (decide (fd ∈ S)); [tauto|auto].
Qed.

(** ** One call *)

(** What a call does: its answer, the kernel and table after it, the task's
    resources, the descriptors it opens and the references it drops. *)
Record effect (K X : Type) := MkEffect {
  ef_x : X; ef_kern : K; ef_table : HandleTable; ef_res : ghost; ef_opened : gset Z; ef_dropped : gset Z
}.
Arguments MkEffect {K X}.
Arguments ef_x {K X}.
Arguments ef_kern {K X}.
Arguments ef_table {K X}.
Arguments ef_res {K X}.
Arguments ef_opened {K X}.
Arguments ef_dropped {K X}.

Section Calls.
Context {K : Type} (kern : forall X, sysE X -> K -> X * K) (path_hash : path -> Z) (root : path).

Definition opens (kind : fd_kind) (r : io Z) (k : K) (open : gset Z) (t : HandleTable) (g : ghost) : effect K (io Z) :=
  match r with
  | Err e => MkEffect (Err e) k t g ∅ ∅
  | Ok _ => let fd := fresh open in MkEffect (Ok fd) k t (own_add fd kind g) {[fd]} ∅
  end.

Definition call_effect {X} (e : sysE X) (k : K) (open : gset Z) (t : HandleTable) (g : ghost) : effect K X :=
  match e in sysE X return effect K X with
  | Open p flags mode => let '(r, k) := kern _ (Open p flags mode) k in opens (plain_kind root p flags mode) r k open t g
  | Openat2 d rel flags mode resolve =>
      let '(r, k) := kern _ (Openat2 d rel flags mode resolve) k in opens Beneath r k open t g
  | Close fd => MkEffect tt k t (own_del fd g) ∅ {[fd]}
  | TryInsert p flags fd =>
      let '(m, k) := kern _ (FileMetadata fd) k in
      match try_insert path_hash t p flags fd m with
      | (Err _, t') => MkEffect None k t' g ∅ ∅
      | (Ok id, t') => MkEffect (Some id) k t' (own_del fd g) ∅
          (match ht_inner t !! id with Some old => {[oh_file old]} | None => ∅ end)
      end
  | HandleRemove id =>
      let '(o, t') := ht_remove t id in
      MkEffect o k t' (match o with Some h => own_add (oh_file h) Beneath g | None => g end) ∅ ∅
  | GetFile id =>
      let o := get_file t id in
      MkEffect o k t (match o with Some fd => share fd g | None => g end) ∅ ∅
  | GetWriteCtx id =>
      let o := get_write_ctx t id in
      MkEffect o k t (match o with Some (fd, _, key) => with_key fd key (share fd g) | None => g end) ∅ ∅
  | Mkdirat fd name mode =>
      let '(r, k) := kern _ (Mkdirat fd name mode) k in
      MkEffect r k t (match r with Ok _ => own_add fd (Maker name mode) g | Err _ => g end) ∅ ∅
  | RecordRx _ => MkEffect tt k t g ∅ ∅
  | RecordTx _ => MkEffect tt k t g ∅ ∅
  | LockStripe i => MkEffect tt k t (with_lock (Some i) g) ∅ ∅
  | UnlockStripe _ => MkEffect tt k t (with_lock None g) ∅ ∅
  | SendFrame b =>
      let '(r, k) := kern _ (SendFrame b) k in
      MkEffect r k t (match r with Ok _ => sent b g | Err _ => g end) ∅ ∅
  | e => let '(x, k) := kern _ e k in MkEffect x k t g ∅ ∅
  end.

(** ** Preservation, by what happens to the resources *)

Lemma gs_update (gs : list ghost) i g g' j gj :
  gs !! i = Some g -> <[i := g']> gs !! j = Some gj -> (j = i /\ gj = g') \/ (j <> i /\ gs !! j = Some gj).
Proof.
  intros Hi. destruct (decide (j = i)) as [->|Hne].
  - rewrite list_lookup_insert_eq by (by eapply lookup_lt_Some). intros [= <-]. by left.
  - rewrite list_lookup_insert_ne by done. by right.
Qed.

Lemma held_update tab gs i g g' fd :
  gs !! i = Some g ->
  fd ∈ held tab (<[i := g']> gs) <->
  (exists id h, tab !! id = Some h /\ oh_file h = fd) \/ fd ∈ refs g' \/
  (exists j gj, j <> i /\ gs !! j = Some gj /\ fd ∈ refs gj).
Proof.
  intros Hi. rewrite elem_of_held. split.
  - intros [?|(j & gj & Hj & Hfd)]; [by left|]. destruct (gs_update _ _ _ _ _ _ Hi Hj) as [[-> ->]|[? ?]]; eauto 10.
  - intros [?|[Hfd|(j & gj & Hne & Hj & Hfd)]]; [by left|right..].
    + exists i, g'. split; [|done]. rewrite list_lookup_insert_eq; [done|]. by eapply lookup_lt_Some.
    + exists j, gj. by rewrite list_lookup_insert_ne.
Qed.

(** The whole of what a step has to establish. *)
Definition kept (open : gset Z) (gs : list ghost) (i : nat) {X} (ef : effect K X) : Prop :=
  res_inv (close_unheld (ef_dropped ef) (ht_inner (ef_table ef)) (<[i := ef_res ef]> gs) (open ∪ ef_opened ef))
          (ht_inner (ef_table ef)) (<[i := ef_res ef]> gs).

Section Keep.
Context (open : gset Z) (t : HandleTable) (gs : list ghost) (i : nat) (g : ghost).
Hypothesis Hinv : res_inv open (ht_inner t) gs.
Hypothesis Hi : gs !! i = Some g.

(** What others own the task does not, and conversely. *)
Lemma others_own fd j gj : is_Some (g_own g !! fd) -> j <> i -> gs !! j = Some gj -> g_own gj !! fd = None.
Proof.
  intros Hs Hne Hj. apply eq_None_not_Some. intros Hs'. apply Hne. by eapply (ri_own _ _ _ Hinv j i gj g fd).
Qed.

Lemma kept_intro {X} (ef : effect K X) :
  let tab' := ht_inner (ef_table ef) in let g' := ef_res ef in
  (forall id id' h h', tab' !! id = Some h -> tab' !! id' = Some h' -> oh_file h = oh_file h' -> id = id') ->
  (forall id h, tab' !! id = Some h -> g_own g' !! oh_file h = None /\
     forall j gj, j <> i -> gs !! j = Some gj -> g_own gj !! oh_file h = None) ->
  (forall fd j gj, is_Some (g_own g' !! fd) -> j <> i -> gs !! j = Some gj -> g_own gj !! fd = None) ->
  (forall fd, fd ∈ held tab' (<[i := g']> gs) -> fd ∈ open ∪ ef_opened ef) ->
  (forall fd, fd ∈ open ∪ ef_opened ef -> fd ∉ ef_dropped ef -> fd ∈ held tab' (<[i := g']> gs)) ->
  kept open gs i ef.
Proof.
  intros tab' g' H1 H2 H3 H4 H5. unfold kept. rewrite close_unheld_eq by done. split; [done|done| |].
  - intros id h j gj Hh Hj. destruct (gs_update _ _ _ _ _ _ Hi Hj) as [[_ ->]|[Hne Hj']].
    + apply (H2 id h Hh).
    + by eapply (proj2 (H2 id h Hh)).
  - intros j j' gj gj' fd Hj Hj' Hs Hs'.
    destruct (gs_update _ _ _ _ _ _ Hi Hj) as [[-> ->]|[Hne Hl]],
             (gs_update _ _ _ _ _ _ Hi Hj') as [[-> ->]|[Hne' Hl']]; [done| | |by eapply (ri_own _ _ _ Hinv)].
    + rewrite (H3 fd j' gj') in Hs' by done. by destruct Hs'.
    + rewrite (H3 fd j gj) in Hs by done. by destruct Hs.
Qed.

(** Where the table stays as it is. *)
Lemma kept_same_table {X} (ef : effect K X) :
  ef_table ef = t ->
  (forall fd, is_Some (g_own (ef_res ef) !! fd) -> is_Some (g_own g !! fd) \/ fd ∉ open) ->
  (forall fd, fd ∈ refs (ef_res ef) -> fd ∈ open ∪ ef_opened ef) ->
  (forall fd, fd ∈ refs g ∪ ef_opened ef -> fd ∉ ef_dropped ef -> fd ∈ refs (ef_res ef)) ->
  kept open gs i ef.
Proof.
  intros Ht Hown Hin Hout. pose proof (ri_open _ _ _ Hinv) as Hopen. apply kept_intro; rewrite ?Ht.
  - apply (ri_inj _ _ _ Hinv).
  - intros id h Hh. split; [|intros j gj _ Hj; by eapply (ri_tab _ _ _ Hinv)].
    apply eq_None_not_Some. intros [Hs|Hn]%Hown.
    + rewrite (ri_tab _ _ _ Hinv id h i g Hh Hi) in Hs. by destruct Hs.
    + apply Hn. rewrite Hopen, elem_of_held. eauto.
  - intros fd j gj [Hs|Hn]%Hown Hne Hj; [by eapply others_own|].
    apply eq_None_not_Some. intros Hs. apply Hn. rewrite Hopen, elem_of_held. right. exists j, gj. split; [done|].
    unfold refs. apply elem_of_union_l. by apply elem_of_dom.
  - intros fd. rewrite (held_update _ _ _ g) by done. intros [?|[?|(j & gj & _ & Hj & ?)]]; [|by apply Hin|];
      apply elem_of_union_l; rewrite Hopen, elem_of_held; eauto.
  - intros fd Hfd Hnd. rewrite (held_update _ _ _ g) by done.
    apply elem_of_union in Hfd as [Hfd|Hfd]; [|right; left; apply Hout; [set_solver|done]].
    rewrite Hopen, elem_of_held in Hfd. destruct Hfd as [?|(j & gj & Hj & Hr)]; [by left|right].
    destruct (decide (j = i)) as [->|Hne]; [left|right; eauto]. assert (gj = g) as -> by congruence.
    apply Hout; [set_solver|done].
Qed.

(** The resources that decide. *)
Lemma kept_same_res {X} (ef : effect K X) :
  ef_table ef = t -> g_own (ef_res ef) = g_own g -> g_shared (ef_res ef) = g_shared g ->
  ef_opened ef = ∅ -> ef_dropped ef = ∅ -> kept open gs i ef.
Proof.
  intros Ht Ho Hs He _. apply kept_same_table; [done|rewrite Ho; by left| |].
  - intros fd. unfold refs. rewrite Ho, Hs. intros Hfd. apply elem_of_union_l.
    rewrite (ri_open _ _ _ Hinv), elem_of_held. right. eauto.
  - intros fd. unfold refs. rewrite Ho, Hs, He. set_solver.
Qed.

Lemma kept_opens kind (r : io Z) k : kept open gs i (opens kind r k open t g).
Proof.
  destruct r as [fd0|e]; simpl; [|by apply kept_same_res]. pose proof (is_fresh open) as Hf.
  apply kept_same_table; simpl; [done| | |].
  - intros fd. rewrite lookup_insert_is_Some'. intros [<-|?]; auto.
  - intros fd. unfold refs. simpl. rewrite dom_insert. intros Hfd.
    destruct (decide (fd = fresh open)) as [->|Hne]; [set_solver|].
    apply elem_of_union_l. rewrite (ri_open _ _ _ Hinv), elem_of_held. right. exists i, g. unfold refs. set_solver.
  - intros fd. unfold refs. simpl. rewrite dom_insert. set_solver.
Qed.

(** A descriptor is remembered differently. *)
Lemma kept_again {X} (x : X) fd kind k : is_Some (g_own g !! fd) -> kept open gs i (MkEffect x k t (own_add fd kind g) ∅ ∅).
Proof.
  intros Hfd. assert (refs (own_add fd kind g) = refs g) as Hr.
  { unfold refs. simpl. rewrite dom_insert_L. apply elem_of_dom in Hfd. set_solver. }
  apply kept_same_table; simpl; rewrite ?Hr; [done| | |set_solver].
  - intros fd'. rewrite lookup_insert_is_Some'. intros [<-|?]; by left.
  - intros fd' Hin. apply elem_of_union_l. rewrite (ri_open _ _ _ Hinv), elem_of_held. right. eauto.
Qed.

Lemma kept_close fd k : is_Some (g_own g !! fd) -> kept open gs i (MkEffect tt k t (own_del fd g) ∅ {[fd]}).
Proof.
  intros Hfd. apply kept_same_table; simpl; [done| | |].
  - intros fd'. rewrite lookup_delete_is_Some. intros [_ ?]. by left.
  - intros fd'. unfold refs. simpl. rewrite dom_delete. intros Hr. apply elem_of_union_l.
    rewrite (ri_open _ _ _ Hinv), elem_of_held. right. exists i, g. unfold refs. set_solver.
  - intros fd'. unfold refs. simpl. rewrite dom_delete. set_solver.
Qed.

Lemma kept_share fd g' k {X} (x : X) :
  fd ∈ tabled (ht_inner t) -> g_own g' = g_own g -> g_shared g' = {[fd]} ∪ g_shared g ->
  kept open gs i (MkEffect x k t g' ∅ ∅).
Proof.
  intros Hfd Ho Hs. apply kept_same_table; simpl; [done|rewrite Ho; by left| |].
  - intros fd'. unfold refs. rewrite Ho, Hs. intros Hr. apply elem_of_union_l.
    rewrite (ri_open _ _ _ Hinv). destruct (decide (fd' = fd)) as [->|Hne].
    + unfold held. set_solver.
    + rewrite elem_of_held. right. exists i, g. unfold refs. set_solver.
  - intros fd'. unfold refs. rewrite Ho, Hs. set_solver.
Qed.

(** A handle leaves the table for the task. *)
Lemma kept_remove id h k :
  ht_inner t !! id = Some h ->
  kept open gs i (MkEffect (Some h) k (snd (ht_remove t id)) (own_add (oh_file h) Beneath g) ∅ ∅).
Proof.
  intros Hh. pose proof (ri_open _ _ _ Hinv) as Hopen. apply kept_intro; simpl.
  - intros a b h1 h2 [_ ?]%lookup_delete_Some [_ ?]%lookup_delete_Some. by apply (ri_inj _ _ _ Hinv).
  - intros id' h' [Hne Hh']%lookup_delete_Some. split; [|intros j gj _ Hj; by eapply (ri_tab _ _ _ Hinv)].
    rewrite lookup_insert_ne; [by eapply (ri_tab _ _ _ Hinv)|]. intros E. by eapply Hne, (ri_inj _ _ _ Hinv).
  - intros fd j gj. rewrite lookup_insert_is_Some'. intros [<-|Hs] Hne Hj; [by eapply (ri_tab _ _ _ Hinv)|by eapply others_own].
  - intros fd. rewrite (held_update _ _ _ g) by done. intros Hfd. apply elem_of_union_l. rewrite Hopen, elem_of_held.
    destruct Hfd as [(id' & h' & [_ ?]%lookup_delete_Some & ?)|[Hr|(j & gj & _ & ? & ?)]]; [eauto| |eauto].
    unfold refs in Hr. simpl in Hr. rewrite dom_insert in Hr.
    destruct (decide (fd = oh_file h)) as [->|Hne]; [eauto|]. right. exists i, g. unfold refs. set_solver.
  - intros fd Hfd _. rewrite (held_update _ _ _ g) by done. unfold refs at 1. simpl. rewrite dom_insert.
    rewrite union_empty_r_L, Hopen, elem_of_held in Hfd. destruct Hfd as [(id' & h' & Hh' & <-)|(j & gj & Hj & Hr)].
    + destruct (decide (id' = id)) as [->|Hne]; [right; left; simplify_eq; set_solver|].
      left. exists id', h'. by rewrite lookup_delete_ne.
    + destruct (decide (j = i)) as [->|Hne]; [|eauto 10]. assert (gj = g) as -> by congruence.
      unfold refs in Hr. set_solver.
Qed.

(** The task's file enters the table, where it may replace a handle. *)
Lemma kept_insert p flags fd m id t' k :
  is_Some (g_own g !! fd) -> try_insert path_hash t p flags fd m = (Ok id, t') ->
  kept open gs i (MkEffect (Some id) k t' (own_del fd g) ∅
    (match ht_inner t !! id with Some old => {[oh_file old]} | None => ∅ end)).
Proof.
  intros [kind Hown] E. apply try_insert_inv in E as (_ & _ & _ & _ & Hin). set (hn := MkOpenHandle _ _ _ _) in Hin.
  pose proof (ri_open _ _ _ Hinv) as Hopen.
  assert (forall id' h', ht_inner t !! id' = Some h' -> oh_file h' <> fd) as Hne.
  { intros id' h' Hh' E. pose proof (ri_tab _ _ _ Hinv id' h' i g Hh' Hi) as Hn. rewrite E in Hn. congruence. }
  apply kept_intro; simpl; rewrite ?Hin.
  - intros a b h1 h2 [[<- <-]|[? H1]]%lookup_insert_Some [[<- <-]|[? H2]]%lookup_insert_Some Ef;
      [done|by destruct (Hne b h2 H2 (eq_sym Ef))|by destruct (Hne a h1 H1 Ef)|by apply (ri_inj _ _ _ Hinv a b h1 h2)].
  - intros id' h' [[<- <-]|[_ Hh']]%lookup_insert_Some; simpl.
    + split; [apply lookup_delete_eq|]. intros j gj Hj Hl. eapply others_own; eauto.
    + split; [|intros j gj _ Hj; by eapply (ri_tab _ _ _ Hinv)]. apply lookup_delete_None. right. by eapply (ri_tab _ _ _ Hinv).
  - intros fd' j gj. rewrite lookup_delete_is_Some. intros [_ Hs] Hj Hl. by eapply others_own.
  - intros fd'. rewrite (held_update _ _ _ g) by done. intros Hfd. apply elem_of_union_l. rewrite Hopen, elem_of_held.
    assert (fd ∈ refs g) as Hr by (unfold refs; apply elem_of_union_l, elem_of_dom; eauto).
    destruct Hfd as [(id' & h' & [[<- <-]|[_ ?]]%lookup_insert_Some & <-)|[Hr'|(j & gj & _ & ? & ?)]]; [eauto|eauto| |eauto].
    right. exists i, g. split; [done|]. unfold refs in *. simpl in Hr'. rewrite dom_delete in Hr'. set_solver.
  - intros fd' Hfd Hnd. rewrite (held_update _ _ _ g) by done. unfold refs at 1. simpl. rewrite dom_delete.
    destruct (decide (fd' = fd)) as [->|Hfne]; [left; exists id, hn; by rewrite lookup_insert_eq|].
    rewrite union_empty_r_L, Hopen, elem_of_held in Hfd. destruct Hfd as [(id' & h' & Hh' & <-)|(j & gj & Hj & Hr)].
    + destruct (decide (id' = id)) as [->|?]; [rewrite Hh' in Hnd; set_solver|].
      left. exists id', h'. by rewrite lookup_insert_ne.
    + destruct (decide (j = i)) as [->|?]; [|eauto 10]. assert (gj = g) as -> by congruence.
      unfold refs in Hr. set_solver.
Qed.

Lemma tabled_lookup id h : ht_inner t !! id = Some h -> oh_file h ∈ tabled (ht_inner t).
Proof. intros Hh. apply elem_of_tabled. eauto. Qed.

(** Every call keeps the account. *)
Lemma call_kept legacy {X} (e : sysE X) k : srv_pre legacy root X e g -> kept open gs i (call_effect e k open t g).
Proof.
  intros Hpre. destruct e; cbn [call_effect]; try (destruct (kern _ _ _) as [x k'] eqn:Ek);
    try (by apply kept_same_res); try apply kept_opens.
  - by apply kept_close.
  - destruct x; [|by apply kept_same_res]. apply kept_again, Hpre.
  - destruct (try_insert _ _ _ _ _ _) as [[id|e] t'] eqn:E.
    + eapply kept_insert; [apply Hpre|exact E].
    + apply try_insert_inv in E as [_ ->]. by apply kept_same_res.
  - unfold ht_remove. destruct (ht_inner t !! id) as [h|] eqn:Eh; [by apply (kept_remove id h)|].
    apply kept_same_res; simpl; try done. destruct t. simpl in *. by rewrite delete_id.
  - unfold get_file. destruct (ht_inner t !! id) as [h|] eqn:Eh; simpl; [|by apply kept_same_res].
    eapply kept_share; [by eapply tabled_lookup|done|done].
  - unfold get_write_ctx. destruct (ht_inner t !! id) as [h|] eqn:Eh; simpl; [|by apply kept_same_res].
    eapply kept_share; [by eapply tabled_lookup|done|done].
  - by destruct x; apply kept_same_res.
Qed.

(** Every call answers as the contract of a task says. *)
Lemma call_post legacy {X} (e : sysE X) k :
  (legacy = false -> has_openat2 K kern) ->
  srv_post legacy root X e g (ef_x (call_effect e k open t g)) (ef_res (call_effect e k open t g)).
Proof.
  intros Hk. assert (g_own g !! fresh open = None) as Hf.
  { apply eq_None_not_Some. intros Hs. apply (is_fresh open). rewrite (ri_open _ _ _ Hinv) at 2.
    apply elem_of_held. right. exists i, g. split; [done|]. apply elem_of_union_l. by apply elem_of_dom. }
  destruct e; cbn [call_effect srv_post]; try (destruct (kern _ _ _) as [x k'] eqn:Ek); try done.
  - destruct x; simpl; [done|]. split; [intros Hl; by eapply (proj1 (Hk Hl))|done].
  - destruct x; simpl; [done|]. split; [intros Hl; by eapply (proj2 (Hk Hl))|done].
  - by destruct x.
  - destruct (try_insert _ _ _ _ _ _) as [[id|e] t']; done.
  - simpl. destruct (ht_inner t !! id) as [h|] eqn:Eh; [|done]. split; [by eapply (ri_tab _ _ _ Hinv)|done].
  - simpl. by destruct (get_file t id).
  - simpl. by destruct (get_write_ctx t id) as [[[fd fl] key]|].
  - by destruct x.
Qed.
End Keep.
End Calls.

(** ** The connection *)

(** What a task ends with. *)
Inductive outcome : Type := StreamDone | Handshaken (r : anyhow ClientIdentity).

Record task := MkTask { tk_prog : sys outcome; tk_res : ghost }.

(** [handle_connection]: waiting for the handshake, accepting streams, closed
    (tasks may still run), and gone with its session. *)
Inductive phase : Type := Handshaking | Serving (session : ClientSession) | Closed | Gone.

(** [ClientSession::new]; the handle table is separate state. *)
Definition session_new (identity : ClientIdentity) (features : list str) (limits : ConnLimits) : ClientSession :=
  MkClientSession (ci_subject identity) features (cl_sync_on_close limits) (cl_sync_metadata limits).

Record conn (K : Type) := MkConn {
  c_phase : phase; c_kern : K; c_open : gset Z; c_table : HandleTable; c_tasks : list task; c_log : list any_call
}.
Arguments MkConn {K}.
Arguments c_phase {K}.
Arguments c_kern {K}.
Arguments c_open {K}.
Arguments c_table {K}.
Arguments c_tasks {K}.
Arguments c_log {K}.

Definition resources {K} (c : conn K) : list ghost := map tk_res (c_tasks c).

Section Conn.
Context {C : Codec} {K : Type} (kern : forall X, sysE X -> K -> X * K) (path_hash : path -> Z).
Variables (cert_fingerprint : bytes -> option str) (root : path) (server_id : str).
Variables (limits : ConnLimits) (uuid : Z) (peer : option (list bytes)) (legacy : bool).

Definition handshake_task (recv : bytes) : task :=
  MkTask (r <- handle_handshake cert_fingerprint root recv peer server_id ;; Ret (Handshaken r)) ghost0.

Definition stream_task (session : ClientSession) (recv : bytes) : task :=
  MkTask (dispatch_stream session root recv ;;; Ret StreamDone) ghost0.

(** The connection after TLS; [recv] is what the peer sends on its first
    stream. *)
Definition conn_start (k : K) (recv : bytes) : conn K :=
  MkConn Handshaking k ∅ (with_limit uuid (cl_max_open_handles limits)) [handshake_task recv] [].

(** Task [i] makes its call [e] and goes on with the answer. *)
Definition do_call {X} (c : conn K) (i : nat) (e : sysE X) (cont : X -> sys outcome) (g : ghost) : conn K :=
  let ef := call_effect kern path_hash root e (c_kern c) (c_open c) (c_table c) g in
  MkConn (c_phase c) (ef_kern ef)
    (close_unheld (ef_dropped ef) (ht_inner (ef_table ef)) (<[i := ef_res ef]> (resources c)) (c_open c ∪ ef_opened ef))
    (ef_table ef) (<[i := MkTask (cont (ef_x ef)) (ef_res ef)]> (c_tasks c)) (c_log c ++ [AnyCall X e]).

(** Task [i] is gone; what it held is dropped. *)
Definition end_task (p : phase) (c : conn K) (i : nat) (g : ghost) : conn K :=
  MkConn p (c_kern c)
    (close_unheld (refs g) (ht_inner (c_table c)) (delete i (resources c)) (c_open c))
    (c_table c) (delete i (c_tasks c)) (c_log c).

Definition after_outcome (p : phase) (o : outcome) : phase :=
  match o with
  | StreamDone => p
  | Handshaken (Ok identity) => Serving (session_new identity [] limits)
  | Handshaken (Err _) => Closed
  end.

(** A stripe is waited for as long as another task holds it. *)
Definition blocked {X} (e : sysE X) (ts : list task) : Prop :=
  match e with LockStripe s => exists t, t ∈ ts /\ g_lock (tk_res t) = Some s | _ => False end.

#[export] Instance blocked_dec {X} (e : sysE X) ts : Decision (blocked e ts).
Proof.
  destruct e; simpl; try apply _.
  destruct (decide (List.Exists (fun t => g_lock (tk_res t) = Some i) ts)) as [H|H]; [left|right].
  - by apply Exists_exists.
  - intros Hex. by apply H, Exists_exists.
Defined.

Inductive cstep : conn K -> conn K -> Prop :=
| st_call c i X (e : sysE X) cont g :
    c_tasks c !! i = Some (MkTask (Vis e cont) g) -> ~ blocked e (c_tasks c) -> cstep c (do_call c i e cont g)
| st_return c i o g :
    c_tasks c !! i = Some (MkTask (Ret o) g) -> cstep c (end_task (after_outcome (c_phase c) o) c i g)
| st_timeout c i t :
    c_tasks c !! i = Some t ->
    cstep c (end_task (match c_phase c with Handshaking => Closed | p => p end) c i (tk_res t))
| st_accept c session recv :
    c_phase c = Serving session ->
    cstep c (MkConn (c_phase c) (c_kern c) (c_open c) (c_table c) (c_tasks c ++ [stream_task session recv]) (c_log c))
| st_close c session :
    c_phase c = Serving session -> cstep c (MkConn Closed (c_kern c) (c_open c) (c_table c) (c_tasks c) (c_log c))
| st_drop c :
    c_phase c = Closed -> c_tasks c = [] ->
    cstep c (MkConn Gone (c_kern c) (close_unheld (tabled (ht_inner (c_table c))) ∅ [] (c_open c))
               (with_limit uuid (cl_max_open_handles limits)) [] (c_log c)).

(** ** The invariant *)

(** A task that keeps its contract, and one that only sends. *)
Definition stream_ok (t : task) : Prop :=
  wp (srv_spec legacy root) (tk_prog t) (tk_res t) (fun o g => o = StreamDone /\ g_own g = ∅ /\ g_lock g = None).

Definition is_send (c : any_call) : Prop := match ac_event c with SendFrame _ | Finish => True | _ => False end.
Definition send_only : spec sysE unit :=
  Spec _ _ (fun X e _ => is_send (AnyCall X e)) (fun _ _ _ _ _ => True).

Definition peer_subject : str := default (lit "unknown") (extract_mtls_fingerprint cert_fingerprint peer).

Definition handshake_ok (t : task) : Prop :=
  wp (srv_spec legacy root) (tk_prog t) (tk_res t) (fun o g =>
    (exists r, o = Handshaken r /\ forall id, r = Ok id -> ci_subject id = peer_subject) /\
    g_own g = ∅ /\ g_lock g = None) /\
  wp send_only (tk_prog t) tt (fun _ _ => True).

Definition phase_ok (c : conn K) : Prop :=
  match c_phase c with
  | Handshaking => (exists t, c_tasks c = [t] /\ handshake_ok t) /\ ht_inner (c_table c) = ∅ /\ Forall is_send (c_log c)
  | Serving s => s_identity s = peer_subject /\ Forall stream_ok (c_tasks c)
  | Closed => Forall stream_ok (c_tasks c)
  | Gone => c_tasks c = [] /\ ht_inner (c_table c) = ∅
  end.

Record conn_inv (c : conn K) : Prop := {
  ci_res : res_inv (c_open c) (ht_inner (c_table c)) (resources c);
  ci_lock i j ti tj s : c_tasks c !! i = Some ti -> c_tasks c !! j = Some tj ->
    g_lock (tk_res ti) = Some s -> g_lock (tk_res tj) = Some s -> i = j;
  ci_log : Forall (call_safe legacy root) (c_log c);
  ci_phase : phase_ok c
}.

(** What the contract of a task says of its next call. *)
Definition task_ok (t : task) : Prop := exists Q, wp (srv_spec legacy root) (tk_prog t) (tk_res t) Q.

Lemma phase_tasks_ok c t : phase_ok c -> t ∈ c_tasks c -> task_ok t.
Proof.
  unfold phase_ok. destruct (c_phase c) as [|s| |].
  - intros ((t' & -> & [H _]) & _) ->%list_elem_of_singleton. by eexists.
  - intros [_ H] Hin. rewrite Forall_forall in H. eexists. by apply H.
  - intros H Hin. rewrite Forall_forall in H. eexists. by apply H.
  - intros [-> _] Hin. by apply not_elem_of_nil in Hin.
Qed.

(** ** Tasks keep their contract *)

Lemma stream_task_ok {EL : EnvelopeLaws C} session recv : stream_ok (stream_task session recv).
Proof.
  unfold stream_ok, stream_task, dispatch_stream. simpl. apply wp_bind, wp_bind.
  eapply wp_mono; [|by apply wp_dispatch_inner]. intros r g ([Ho Hl] & _). by do 2 apply wp_ret.
Qed.

Lemma send_resp_sends {T} `{!Wire T} (x : T) : wp send_only (send_resp x) tt (fun _ _ => True).
Proof.
  unfold send_resp. destruct (encode x); [|by apply wp_ret].
  apply wp_bindr, wp_call; [done|]. intros [[]|e] [] _; [|done].
  apply wp_bindr, wp_call; [done|]. intros [[]|e] [] _; [|done]. by apply wp_ret.
Qed.

Lemma handshake_task_ok recv : handshake_ok (handshake_task recv).
Proof.
  split; simpl; apply wp_bind.
  - eapply wp_mono; [|apply wp_handle_handshake]. intros r g ([Ho Hl] & Hr). apply wp_ret. split; [|done].
    exists r. split; [done|]. intros id ->.
    destruct (read_frame recv) as [[raw rest]|]; [|by destruct Hr].
    destruct (decode raw) as [env|]; [|by destruct Hr]. destruct (decode raw) as [req|]; [|by destruct Hr].
    destruct (env_op env =? OP_HANDSHAKE); [|by destruct Hr]. unfold handshake_verdict in Hr.
    destruct (MAX_CHUNK_SIZE <? _); [by destruct Hr as [Hr _]; specialize (Hr id eq_refl)|].
    destruct (bool_decide _); destruct Hr as [Hr _]; specialize (Hr id eq_refl); [|done]. by injection Hr as <-.
  - unfold handle_handshake. destruct (read_frame recv) as [[raw rest]|]; [|done].
    destruct (decode raw) as [env|]; [|done]. destruct (negb _); [done|]. destruct (decode raw) as [req|]; [|done].
    destruct (_ <? _); [|destruct (negb _)]; apply wp_bindr;
      (eapply wp_mono; [|apply send_resp_sends]); by intros [[]|].
Qed.

(** ** Preservation *)

Definition unshift (i j : nat) : nat := if decide (j < i)%nat then j else S j.

Lemma delete_lookup {A} (l : list A) i j x : delete i l !! j = Some x -> l !! unshift i j = Some x.
Proof. unfold unshift. case_decide; [by rewrite list_lookup_delete_lt|by rewrite list_lookup_delete_ge by lia]. Qed.

Lemma unshift_inj i j k : unshift i j = unshift i k -> j = k.
Proof. unfold unshift. repeat case_decide; lia. Qed.

Lemma delete_elem_of {A} (l : list A) i x : x ∈ delete i l -> x ∈ l.
Proof. intros [j Hj%delete_lookup]%list_elem_of_lookup. by eapply list_elem_of_lookup_2. Qed.

Lemma res_inv_delete open tab gs i g :
  res_inv open tab gs -> gs !! i = Some g ->
  res_inv (close_unheld (refs g) tab (delete i gs) open) tab (delete i gs).
Proof.
  intros [Ho Hin Htab Hown] Hi. rewrite close_unheld_eq.
  - split; [done|done| |].
    + intros id h j gj Hh Hj%delete_lookup. by eapply Htab.
    + intros j k gj gk fd Hj%delete_lookup Hk%delete_lookup Hs Hs'. by eapply unshift_inj, Hown.
  - intros fd. rewrite Ho, !elem_of_held. intros [?|(j & gj & Hj%delete_lookup & Hr)]; [by left|]. right. eauto.
  - intros fd. rewrite Ho, !elem_of_held. intros [?|(j & gj & Hj & Hr)] Hn; [by left|]. right.
    destruct (decide (j = i)) as [->|Hne]; [congruence|].
    exists (if decide (j < i)%nat then j else pred j), gj. split; [|done]. case_decide.
    + by rewrite list_lookup_delete_lt.
    + rewrite list_lookup_delete_ge by lia. by replace (S (pred j)) with j by lia.
Qed.

Lemma res_inv_snoc open tab gs : res_inv open tab gs -> res_inv open tab (gs ++ [ghost0]).
Proof.
  intros [Ho Hin Htab Hown].
  assert (forall j gj, (gs ++ [ghost0]) !! j = Some gj -> gs !! j = Some gj \/ gj = ghost0) as Hlk.
  { intros j gj [?|[_ Hj]]%lookup_app_Some; [by left|]. right. by apply list_lookup_singleton_Some in Hj as [_ <-]. }
  split; [|done| |].
  - rewrite Ho. apply set_eq. intros fd. rewrite !elem_of_held. split; (intros [?|(j & gj & Hj & Hr)]; [by left|right]).
    + exists j, gj. split; [|done]. by apply lookup_app_l_Some.
    + destruct (Hlk j gj Hj) as [?| ->]; [eauto|]. unfold refs in Hr. simpl in Hr. set_solver.
  - intros id h j gj Hh Hj. destruct (Hlk j gj Hj) as [?| ->]; [by eapply Htab|done].
  - intros j k gj gk fd Hj Hk Hs Hs'. destruct (Hlk j gj Hj) as [?| ->]; [|simpl in Hs; by destruct Hs].
    destruct (Hlk k gk Hk) as [?| ->]; [|simpl in Hs'; by destruct Hs']. by eapply Hown.
Qed.

Lemma resources_end p c i g : resources (end_task p c i g) = delete i (resources c).
Proof.
  unfold resources. simpl. revert i. induction (c_tasks c) as [|t ts IH]; intros [|i]; simpl; [done..|]. by f_equal.
Qed.

Lemma end_task_inv p c i t :
  conn_inv c -> c_tasks c !! i = Some t -> phase_ok (end_task p c i (tk_res t)) -> conn_inv (end_task p c i (tk_res t)).
Proof.
  intros [Hr Hl Hlog _] Hi Hp. split; [|..|exact Hlog|exact Hp].
  - rewrite resources_end. simpl. apply res_inv_delete; [done|]. unfold resources. by rewrite list_lookup_fmap, Hi.
  - simpl. intros j k tj tk s Hj%delete_lookup Hk%delete_lookup H1 H2. by eapply unshift_inj, Hl.
Qed.

Lemma end_phase_ok c i t p :
  phase_ok c -> c_tasks c !! i = Some t ->
  match c_phase c with
  | Handshaking => match p with
                   | Serving s => s_identity s = peer_subject
                   | Closed => True
                   | _ => False
                   end
  | q => p = q
  end -> phase_ok (end_task p c i (tk_res t)).
Proof.
  intros Hp Hi Hph. unfold phase_ok in *. simpl.
  assert (forall P : task -> Prop, Forall P (c_tasks c) -> Forall P (delete i (c_tasks c))) as Hdel.
  { intros P HP. apply Forall_forall. intros x Hx%delete_elem_of. rewrite Forall_forall in HP. auto. }
  destruct (c_phase c) as [|s| |].
  - destruct Hp as ((t' & Ht & _) & _ & _). rewrite Ht in *. destruct i as [|i]; [|done].
    destruct p; simpl; [done| |constructor|done]. split; [done|constructor].
  - subst p. destruct Hp. auto.
  - subst p. auto.
  - destruct Hp as [Hn _]. by rewrite Hn in Hi.
Qed.

Lemma effect_lock {X} (e : sysE X) k open t g :
  g_lock (ef_res (call_effect kern path_hash root e k open t g)) =
  match e with LockStripe s => Some s | UnlockStripe _ => None | _ => g_lock g end.
Proof.
  destruct e; cbn [call_effect]; try (destruct (kern _ _ _) as [x k']); try done; try (by destruct x).
  - by destruct (try_insert _ _ _ _ _ _) as [[]].
  - simpl. by destruct (ht_inner t !! id).
  - simpl. by destruct (get_file t id).
  - simpl. by destruct (get_write_ctx t id) as [[[]]|].
Qed.

Hypothesis Hkern : legacy = false -> has_openat2 K kern.

(** A call moves the task's contract on. *)
Lemma wp_after_call {X} (e : sysE X) (cont : X -> sys outcome) c i g Q :
  res_inv (c_open c) (ht_inner (c_table c)) (resources c) -> resources c !! i = Some g ->
  wp (srv_spec legacy root) (Vis e cont) g Q ->
  let ef := call_effect kern path_hash root e (c_kern c) (c_open c) (c_table c) g in
  wp (srv_spec legacy root) (cont (ef_x ef)) (ef_res ef) Q.
Proof. intros Hr Hi [_ Hk] ef. apply Hk. by eapply call_post. Qed.

Lemma call_phase_ok c i {X} (e : sysE X) (cont : X -> sys outcome) g :
  conn_inv c -> c_tasks c !! i = Some (MkTask (Vis e cont) g) -> phase_ok (do_call c i e cont g).
Proof.
  intros [Hr _ _ Hp] Hi. assert (resources c !! i = Some g) as Hg by (unfold resources; by rewrite list_lookup_fmap, Hi).
  unfold phase_ok in *. simpl.
  assert (Forall stream_ok (c_tasks c) -> Forall stream_ok
    (<[i := MkTask (cont (ef_x (call_effect kern path_hash root e (c_kern c) (c_open c) (c_table c) g)))
                   (ef_res (call_effect kern path_hash root e (c_kern c) (c_open c) (c_table c) g))]> (c_tasks c))) as Hs.
  { intros HF. apply Forall_insert; [done|]. unfold stream_ok. simpl. eapply wp_after_call; [done|done|].
    by apply (Forall_lookup_1 _ _ _ _ HF Hi). }
  destruct (c_phase c) as [|s| |]; [|destruct Hp; auto|auto|].
  - destruct Hp as ((t & Ht & [Hw Hso]) & Htab & Hlog). rewrite Ht in Hi |- *. destruct i as [|i]; [|done].
    injection Hi as ->. simpl in *. destruct Hso as [Hsend Hk]. split_and!.
    + eexists. split; [done|]. split; simpl; [by eapply wp_after_call|by apply Hk].
    + destruct e; try done; cbn [call_effect]; by destruct (kern _ _ _).
    + apply Forall_app. split; [done|by constructor].
  - destruct Hp as [Hn _]. by rewrite Hn in Hi.
Qed.

Lemma do_call_inv c i {X} (e : sysE X) (cont : X -> sys outcome) g :
  conn_inv c -> c_tasks c !! i = Some (MkTask (Vis e cont) g) -> ~ blocked e (c_tasks c) ->
  conn_inv (do_call c i e cont g).
Proof.
  intros H Hi Hb. pose proof H as [Hr Hl Hlog Hp].
  assert (resources c !! i = Some g) as Hg by (unfold resources; by rewrite list_lookup_fmap, Hi).
  destruct (phase_tasks_ok c (MkTask (Vis e cont) g) Hp) as (Q & Hpre & _); [by eapply list_elem_of_lookup_2|].
  split; [| | |by apply call_phase_ok].
  - unfold resources at 1. simpl. rewrite list_fmap_insert.
    exact (call_kept kern path_hash root (c_open c) (c_table c) (resources c) i g Hr Hg legacy e (c_kern c) Hpre).
  - simpl. assert (forall j k tj tk s, j <> k ->
      <[i := MkTask (cont (ef_x (call_effect kern path_hash root e (c_kern c) (c_open c) (c_table c) g)))
             (ef_res (call_effect kern path_hash root e (c_kern c) (c_open c) (c_table c) g))]> (c_tasks c) !! j = Some tj ->
      c_tasks c !! k = Some tk -> k <> i ->
      g_lock (tk_res tj) = Some s -> g_lock (tk_res tk) = Some s -> False) as Hone.
    { intros j k tj tk s Hjk Hj Hk Hki H1 H2. destruct (decide (j = i)) as [->|Hne].
      - rewrite list_lookup_insert_eq in Hj by (by eapply lookup_lt_Some). injection Hj as <-. simpl in H1.
        rewrite effect_lock in H1. assert (g_lock g = Some s -> False) as Hold.
        { intros Hgs. apply Hjk. by eapply (Hl i k). }
        destruct e; try (by apply Hold). simplify_eq. apply Hb. exists tk. split; [|done].
        by eapply list_elem_of_lookup_2.
      - rewrite list_lookup_insert_ne in Hj by done. apply Hjk. by eapply (Hl j k). }
    intros j k tj tk s Hj Hk H1 H2. destruct (decide (j = k)) as [|Hjk]; [done|exfalso].
    destruct (decide (k = i)) as [->|Hki].
    + destruct (decide (j = i)) as [|Hji]; [done|]. pose proof Hj as Hj'. rewrite list_lookup_insert_ne in Hj' by done.
      by eapply (Hone i j).
    + pose proof Hk as Hk'. rewrite list_lookup_insert_ne in Hk' by done. by eapply (Hone j k).
  - simpl. apply Forall_app. split; [done|]. constructor; [|done]. exact (srv_pre_call_safe path_hash legacy root X e g Hpre).
Qed.

Lemma return_phase_ok c i o g :
  phase_ok c -> c_tasks c !! i = Some (MkTask (Ret o) g) ->
  phase_ok (end_task (after_outcome (c_phase c) o) c i g).
Proof.
  intros Hp Hi. apply (end_phase_ok c i (MkTask (Ret o) g)); [done..|]. unfold phase_ok in Hp.
  assert (Forall stream_ok (c_tasks c) -> o = StreamDone) as Hs.
  { intros HF. by destruct (Forall_lookup_1 _ _ _ _ HF Hi) as [-> _]. }
  destruct (c_phase c) as [|s| |]; [|by rewrite Hs by apply Hp|by rewrite Hs by done|destruct Hp as [Hn _]; by rewrite Hn in Hi].
  destruct Hp as ((t & Ht & [Hw _]) & _). rewrite Ht in Hi. destruct i as [|i]; [|done]. injection Hi as ->.
  destruct Hw as [(r & -> & Hid) _]. destruct r as [id|e]; simpl; [|done]. by apply Hid.
Qed.

Lemma cstep_inv {EL : EnvelopeLaws C} c c' : conn_inv c -> cstep c c' -> conn_inv c'.
Proof.
  intros H Hstep. pose proof H as [Hr Hl Hlog Hp].
  destruct Hstep as [c i X e cont g Hi Hb|c i o g Hi|c i t Hi|c session recv Hph|c session Hph|c Hph Ht].
  - by apply do_call_inv.
  - apply (end_task_inv _ c i (MkTask (Ret o) g)); [done..|]. by apply return_phase_ok.
  - apply end_task_inv; [done..|]. apply end_phase_ok; [done..|]. by destruct (c_phase c).
  - split; simpl; [| |done|].
    + unfold resources. simpl. rewrite map_app. by apply res_inv_snoc.
    + intros j k tj tk s Hj Hk H1 H2. apply lookup_app_Some in Hj, Hk.
      assert (forall n t s, [stream_task session recv] !! n = Some t -> g_lock (tk_res t) = Some s -> False) as Hnew.
      { intros [|n] t s' [= <-]. done. }
      destruct Hj as [Hj|[_ Hj]]; [|by destruct (Hnew _ _ _ Hj H1)].
      destruct Hk as [Hk|[_ Hk]]; [|by destruct (Hnew _ _ _ Hk H2)]. by eapply Hl.
    + unfold phase_ok in *. simpl. rewrite Hph in *. destruct Hp as [? HF]. split; [done|].
      apply Forall_app. split; [done|]. constructor; [apply stream_task_ok|constructor].
  - split; simpl; [done..|]. unfold phase_ok in *. simpl. rewrite Hph in Hp. apply Hp.
  - split; simpl; [|done|done|].
    + unfold resources in Hr. rewrite Ht in Hr. simpl in Hr.
      assert (close_unheld (tabled (ht_inner (c_table c))) ∅ [] (c_open c) = ∅) as ->; [|split; by intros].
      rewrite (ri_open _ _ _ Hr). unfold close_unheld. change (held ∅ []) with (∅ : gset Z).
      unfold held. set_solver.
    + by unfold phase_ok.
Qed.

(** ** Progress *)

(** As long as tasks run, one of them can go on: a stripe is only waited for by
    tasks that hold none. *)
Lemma some_task_runs c :
  conn_inv c -> c_tasks c <> [] ->
  exists i t, c_tasks c !! i = Some t /\
    match tk_prog t with Ret _ => True | Vis e _ => ~ blocked e (c_tasks c) end.
Proof.
  intros H Hne. destruct (c_tasks c) as [|t ts] eqn:Ets; [done|]. rewrite <- Ets in *.
  assert (c_tasks c !! 0%nat = Some t) as H0 by (by rewrite Ets).
  destruct (tk_prog t) as [o|X e cont] eqn:Ep; [exists 0%nat, t; by rewrite Ep|].
  destruct (decide (blocked e (c_tasks c))) as [Hb|Hb]; [|exists 0%nat, t; by rewrite Ep].
  destruct e; try done. destruct Hb as (t' & Hin & Hlock). pose proof Hin as [j Hj]%list_elem_of_lookup.
  exists j, t'. split; [done|]. destruct (tk_prog t') as [o|Y e' cont'] eqn:Ep'; [done|].
  destruct (phase_tasks_ok c t' (ci_phase c H) Hin) as (Q & Hw). rewrite Ep' in Hw. destruct Hw as [Hpre _].
  destruct e'; simpl; try (by intros []). simpl in Hpre. destruct Hpre as [Hn _]. congruence.
Qed.

Lemma start_inv k recv : conn_inv (conn_start k recv).
Proof.
  split; simpl; [| |constructor|].
  - apply (res_inv_snoc ∅ ∅ []). split; by intros.
  - intros [|j] [|l] tj tl s [= <-] [= <-]; done.
  - split_and!; [|done|constructor]. eexists. split; [done|apply handshake_task_ok].
Qed.

Lemma reachable_inv {EL : EnvelopeLaws C} k recv c : rtc cstep (conn_start k recv) c -> conn_inv c.
Proof.
  pose proof (start_inv k recv) as H. revert H. generalize (conn_start k recv). intros c0 H.
  induction 1 as [|c0 c1 c2 Hs _ IH]; [done|]. apply IH. by eapply cstep_inv.
Qed.

(** Two writes at the same time are to files of different stripes. *)
Lemma writes_exclusive c i j fd fd' data data' cont cont' g g' key key' :
  conn_inv c -> i <> j ->
  c_tasks c !! i = Some (MkTask (Vis (WriteAll fd data) cont) g) ->
  c_tasks c !! j = Some (MkTask (Vis (WriteAll fd' data') cont') g') ->
  g_key g !! fd = Some key -> g_key g' !! fd' = Some key' -> stripe_for key <> stripe_for key'.
Proof.
  intros H Hne Hi Hj Hk Hk' E. apply Hne.
  destruct (phase_tasks_ok c _ (ci_phase c H) (list_elem_of_lookup_2 _ _ _ Hi)) as (Q & (_ & key1 & Hk1 & Hl1) & _).
  destruct (phase_tasks_ok c _ (ci_phase c H) (list_elem_of_lookup_2 _ _ _ Hj)) as (Q' & (_ & key2 & Hk2 & Hl2) & _).
  simpl in *. simplify_eq. eapply (ci_lock c H i j); [done..| |]; simpl; [exact Hl1|]. congruence.
Qed.

(** ** Schedules *)

Inductive action : Type := ARun (i : nat) | ATimeout (i : nat) | AAccept (recv : bytes) | AClose | ADrop.

Definition act (c : conn K) (a : action) : option (conn K) :=
  match a with
  | ARun i =>
      match c_tasks c !! i with
      | Some (MkTask (Vis e cont) g) => if decide (blocked e (c_tasks c)) then None else Some (do_call c i e cont g)
      | Some (MkTask (Ret o) g) => Some (end_task (after_outcome (c_phase c) o) c i g)
      | None => None
      end
  | ATimeout i =>
      t ← c_tasks c !! i;
      Some (end_task (match c_phase c with Handshaking => Closed | p => p end) c i (tk_res t))
  | AAccept recv =>
      match c_phase c with
      | Serving session => Some (MkConn (c_phase c) (c_kern c) (c_open c) (c_table c)
                                   (c_tasks c ++ [stream_task session recv]) (c_log c))
      | _ => None
      end
  | AClose =>
      match c_phase c with
      | Serving _ => Some (MkConn Closed (c_kern c) (c_open c) (c_table c) (c_tasks c) (c_log c))
      | _ => None
      end
  | ADrop =>
      match c_phase c, c_tasks c with
      | Closed, [] => Some (MkConn Gone (c_kern c) (close_unheld (tabled (ht_inner (c_table c))) ∅ [] (c_open c))
                              (with_limit uuid (cl_max_open_handles limits)) [] (c_log c))
      | _, _ => None
      end
  end.

Fixpoint schedule (c : conn K) (acts : list action) : option (conn K) :=
  match acts with
  | [] => Some c
  | a :: acts => c' ← act c a; schedule c' acts
  end.

Lemma act_sound c a c' : act c a = Some c' -> cstep c c'.
Proof.
  destruct a as [i|i|recv| |]; simpl.
  - destruct (c_tasks c !! i) as [[[o|X e cont] g]|] eqn:E; [|case_decide|]; try done; intros [= <-]; by constructor.
  - destruct (c_tasks c !! i) as [t|] eqn:E; [|done]. intros [= <-]. by constructor.
  - destruct (c_phase c) as [|s| |] eqn:E; try done. intros [= <-]. rewrite <- E. by apply (st_accept c s).
  - destruct (c_phase c) as [|s| |] eqn:E; try done. intros [= <-]. by apply (st_close c s).
  - destruct (c_phase c) eqn:E; try done. destruct (c_tasks c) eqn:Et; [|done]. intros [= <-]. by apply st_drop.
Qed.

Lemma schedule_sound acts : forall c c', schedule c acts = Some c' -> rtc cstep c c'.
Proof.
  induction acts as [|a acts IH]; intros c c'; simpl; [intros [= <-]; apply rtc_refl|].
  destruct (act c a) as [c1|] eqn:E; [|done]. simpl. intros H.
  eapply rtc_l; [by eapply act_sound|]. by apply IH.
Qed.
End Conn.

(** ** Theorems *)

(** C6: one connection, every interleaving.  However the calls of a connection's
    tasks interleave, whenever tasks time out and streams arrive, and whatever the
    peer sends and the kernel answers: before the handshake has succeeded only answer
    frames were sent; the session then runs under the fingerprint of the TLS peer;
    every call is one [call_safe] allows (opens beneath an anchor on the root with
    RESOLVE_BENEATH, changes of the name space at one safe name of an open directory,
    queries of paths lexically beneath the root, plain opens of such paths only if the
    kernel may lack openat2); a file is open exactly while the handle table or a
    running task holds it, so once no task runs only the table's files are open, and
    none is once the session is gone; two tasks never write at the same time to files
    of one stripe; and while tasks run, one of them can go on.  ([Machine] says what
    the calls change of a file system.) *)
Theorem connection_safe {C : Codec} {EL : EnvelopeLaws C} (K : Type) (kern : forall X, sysE X -> K -> X * K)
    path_hash cert_fingerprint root server_id limits uuid peer legacy k recv (c : conn K) :
  (legacy = false -> has_openat2 K kern) ->
  rtc (cstep kern path_hash root limits uuid)
      (conn_start cert_fingerprint root server_id limits uuid peer k recv) c ->
  (c_phase c = Handshaking -> Forall is_send (c_log c)) /\
  (forall s, c_phase c = Serving s -> s_identity s = peer_subject cert_fingerprint peer) /\
  Forall (call_safe legacy root) (c_log c) /\
  c_open c = held (ht_inner (c_table c)) (resources c) /\
  (c_tasks c = [] -> c_open c = tabled (ht_inner (c_table c))) /\
  (c_phase c = Gone -> c_open c = ∅) /\
  (forall i j fd fd' data data' cont cont' g g' key key', i <> j ->
     c_tasks c !! i = Some (MkTask (Vis (WriteAll fd data) cont) g) ->
     c_tasks c !! j = Some (MkTask (Vis (WriteAll fd' data') cont') g') ->
     g_key g !! fd = Some key -> g_key g' !! fd' = Some key' -> stripe_for key <> stripe_for key') /\
  (c_tasks c <> [] -> exists i t, c_tasks c !! i = Some t /\
     match tk_prog t with Ret _ => True | Vis e _ => ~ blocked e (c_tasks c) end).
Proof.
  intros Hk Hr. eapply (reachable_inv kern path_hash cert_fingerprint root server_id limits uuid peer legacy) in Hr as H; [|done..].
  pose proof H as [Hres _ Hlog Hp].
  pose proof (ri_open _ _ _ Hres) as Ho. unfold phase_ok in Hp.
  assert (c_tasks c = [] -> c_open c = tabled (ht_inner (c_table c))) as Hidle.
  { intros Ht. rewrite Ho. unfold held, resources. rewrite Ht. simpl. set_solver. }
  split_and!; [|..|done|done|done| | |].
  - intros E. rewrite E in Hp. apply Hp.
  - intros s E. rewrite E in Hp. apply Hp.
  - intros E. rewrite E in Hp. destruct Hp as [Ht Htab]. rewrite Hidle by done. by rewrite Htab.
  - intros i j fd fd' data data' cont cont' g g' key key' Hne Hi Hj. by eapply writes_exclusive.
  - intros Hne. by eapply some_task_runs.
Qed.

(** A handshake, two Open requests served in turns, one of them dropped on the
    way, and the end of the connection. *)
Definition demo_hello : bytes :=
  framed (Wire0 := @wire_HandshakeRequest example_codec)
    (MkHandshakeRequest OP_HANDSHAKE 1 1 (lit "c") [] 262144 (lit "mtls")).
Definition demo_conn : conn unit :=
  conn_start (C := example_codec) (fun _ => Some (lit "SHA256:alice")) demo_root (lit "srv") ConnLimits_default 7
    (Some [[x00]]) tt demo_hello.
Definition demo_schedule (acts : list action) : option (conn unit) :=
  schedule (C := example_codec) demo_kern (fun _ => 0) demo_root ConnLimits_default 7 demo_conn acts.

Fixpoint in_turns (n : nat) : list action :=
  match n with O => [] | S n => ARun 0 :: ARun 1 :: in_turns n end.

Definition demo_serve : list action :=
  [ARun 0; ARun 0; ARun 0; AAccept demo_open; AAccept demo_open] ++ in_turns 7.
Definition demo_finish : list action := demo_serve ++ [ATimeout 1] ++ replicate 7 (ARun 0).

Definition ends_with (acts : list action) (P : conn unit -> bool) : bool :=
  match demo_schedule acts with Some c => P c | None => false end.
Definition idle_with (fds : list Z) (c : conn unit) : bool :=
  match c_tasks c with [] => bool_decide (elements (c_open c) = fds) | _ => false end.
Definition is_gone (c : conn unit) : bool := match c_phase c with Gone => true | _ => false end.

Example demo_serving : ends_with demo_serve (fun c => bool_decide (elements (c_open c) = [3; 2; 1; 0])) = true.
Proof. by vm_compute. Qed.
Example demo_finished : ends_with demo_finish (idle_with [2]) = true.
Proof. by vm_compute. Qed.
Example demo_gone : ends_with (demo_finish ++ [AClose; ADrop]) is_gone = true.
Proof. by vm_compute. Qed.

Lemma ends_with_some acts P : ends_with acts P = true -> exists c, demo_schedule acts = Some c /\ P c = true.
Proof. unfold ends_with. destruct (demo_schedule acts) as [c|]; [by exists c|done]. Qed.

Lemma idle_with_inv fds c : idle_with fds c = true -> c_tasks c = [] /\ elements (c_open c) = fds.
Proof. unfold idle_with. destruct (c_tasks c); [|done]. intros H%bool_decide_eq_true. done. Qed.
Lemma is_gone_inv c : is_gone c = true -> c_phase c = Gone.
Proof. unfold is_gone. by destruct (c_phase c). Qed.

Lemma connection_safe_witness :
  exists c c', demo_schedule demo_finish = Some c /\ c_open c = tabled (ht_inner (c_table c)) /\
    elements (c_open c) = [2] /\
    demo_schedule (demo_finish ++ [AClose; ADrop]) = Some c' /\ c_open c' = ∅.
Proof.
  assert (forall acts c, demo_schedule acts = Some c ->
    (c_tasks c = [] -> c_open c = tabled (ht_inner (c_table c))) /\ (c_phase c = Gone -> c_open c = ∅)) as H.
  { intros acts c Hc.
    destruct (connection_safe (C := example_codec) (EL := example_envelope_laws) unit demo_kern (fun _ => 0)
      (fun _ => Some (lit "SHA256:alice")) demo_root (lit "srv") ConnLimits_default 7 (Some [[x00]]) false tt demo_hello c)
      as (_ & _ & _ & _ & H1 & H2 & _);
      [intros _; split; [by intros ? ? ? ? ? ? [= <-]|by intros ? ? ? ? ? ? ? ? [= <-]]|by eapply schedule_sound|by split]. }
  destruct (ends_with_some _ _ demo_finished) as (c & Hc & [Ht He]%idle_with_inv).
  destruct (ends_with_some _ _ demo_gone) as (c' & Hc' & Hg%is_gone_inv).
  exists c, c'. exact (conj Hc (conj (proj1 (H _ _ Hc) Ht) (conj He (conj Hc' (proj2 (H _ _ Hc') Hg))))).
Defined.
