(* ===== verification/ConnMgr.v ===== *)
(** * The connection manager

    [ConnManager] of [src/client/src/conn.rs]: one value shared by every callback and
    by the background task.  Its operations are programs over single accesses to the
    shared state and over the QUIC connection; a system runs [connect] first and then
    any number of RPCs in every interleaving, each of which may find the connection
    dead, reconnect, and be given up by its deadline at any [await].

    The RPC methods are those of [ClientRpc]: [lift] puts [ensure_conn], the
    connection and its streams under them.

    [rtc] of [sstep] is over all servers: whom a dial reaches, with which certificate,
    and what comes back on a stream is the environment's choice. *)

From S2P Require Import Prelude Prog Text Status Frames FrameIo BTree Trust Tofu ClientRpc ExampleCodec.

(** ** State *)

(** A QUIC connection: the certificate its server presented, whether it is closed,
    and what was sent and received on its streams.  With each frame sent goes whether
    the server had accepted the handshake by then; [co_index] is how many connections
    had been stored in the manager before it was. *)
Record qconn := MkQconn {
  co_peer : bytes; co_alive : bool; co_sent : list (bytes * bool); co_got : list bytes; co_index : option Z
}.

(** [struct Inner].  [seq] and [reconnect_gen] are counted from their start, see
    [mg_seq] and [mg_gen]; [mg_stores] counts the connections ever stored. *)
Record mgr := MkMgr {
  mg_conns : gmap Z qconn;
  mg_conn : option Z; mg_endpoint : option Z;
  mg_issued : Z; mg_bumps : Z; mg_stores : Z;
  mg_expected : option str; mg_sink : option str;
  mg_disk : disk
}.

(** [AtomicU64::new(2)] and [AtomicU64::new(0)] after that many [fetch_add(1)]. *)
Definition mg_seq (m : mgr) : Z := wrap64 (2 + mg_issued m).
Definition mg_gen (m : mgr) : Z := wrap64 (mg_bumps m).

(** The [Inner] [connect] starts with. *)
Definition mgr_new (d : disk) : mgr := MkMgr ∅ None None 0 0 0 None None d.

Definition set_conns (cs : gmap Z qconn) (m : mgr) : mgr :=
  MkMgr cs (mg_conn m) (mg_endpoint m) (mg_issued m) (mg_bumps m) (mg_stores m) (mg_expected m) (mg_sink m) (mg_disk m).
Definition set_endpoint (o : option Z) (m : mgr) : mgr :=
  MkMgr (mg_conns m) (mg_conn m) o (mg_issued m) (mg_bumps m) (mg_stores m) (mg_expected m) (mg_sink m) (mg_disk m).
Definition set_issued (n : Z) (m : mgr) : mgr :=
  MkMgr (mg_conns m) (mg_conn m) (mg_endpoint m) n (mg_bumps m) (mg_stores m) (mg_expected m) (mg_sink m) (mg_disk m).
Definition set_bumps (n : Z) (m : mgr) : mgr :=
  MkMgr (mg_conns m) (mg_conn m) (mg_endpoint m) (mg_issued m) n (mg_stores m) (mg_expected m) (mg_sink m) (mg_disk m).
Definition set_expected (o : option str) (m : mgr) : mgr :=
  MkMgr (mg_conns m) (mg_conn m) (mg_endpoint m) (mg_issued m) (mg_bumps m) (mg_stores m) o (mg_sink m) (mg_disk m).
Definition set_sink (o : option str) (m : mgr) : mgr :=
  MkMgr (mg_conns m) (mg_conn m) (mg_endpoint m) (mg_issued m) (mg_bumps m) (mg_stores m) (mg_expected m) o (mg_disk m).
Definition set_disk (d : disk) (m : mgr) : mgr :=
  MkMgr (mg_conns m) (mg_conn m) (mg_endpoint m) (mg_issued m) (mg_bumps m) (mg_stores m) (mg_expected m) (mg_sink m) d.

(** What becomes of one connection. *)
Definition kill (k : qconn) : qconn := MkQconn (co_peer k) false (co_sent k) (co_got k) (co_index k).
Definition received (raw : bytes) (k : qconn) : qconn :=
  MkQconn (co_peer k) (co_alive k) (co_sent k) (co_got k ++ [raw]) (co_index k).
Definition indexed (i : Z) (k : qconn) : qconn := MkQconn (co_peer k) (co_alive k) (co_sent k) (co_got k) (Some i).

Section Manager.
Context {C : Codec} (cert_fingerprint : bytes -> option str).
Variables (env : disk_env) (has_parent : bool) (known_hosts_path host_key : str).

(** The server accepted the handshake on this connection. *)
Definition accepts (raw : bytes) : bool :=
  match decode (T := HandshakeResponse) raw with Some resp => hr_status resp =? 0 | None => false end.
Definition greeted (k : qconn) : bool := existsb accepts (co_got k).

Definition sent_on (b : bytes) (k : qconn) : qconn :=
  MkQconn (co_peer k) (co_alive k) (co_sent k ++ [(b, greeted k)]) (co_got k) (co_index k).

Definition at_conn (f : qconn -> qconn) (c : Z) (m : mgr) : mgr := set_conns (alter f c (mg_conns m)) m.

(** [*self.0.conn.lock().await = Some(conn)] *)
Definition store (c : Z) (m : mgr) : mgr :=
  MkMgr (alter (indexed (mg_stores m)) c (mg_conns m)) (Some c) (mg_endpoint m) (mg_issued m) (mg_bumps m)
    (mg_stores m + 1) (mg_expected m) (mg_sink m) (mg_disk m).

(** [live_conn] *)
Definition live_conn (m : mgr) : option Z :=
  match mg_conn m with
  | Some c => match mg_conns m !! c with Some k => if co_alive k then Some c else None | None => None end
  | None => None
  end.

(** ** Events *)

Inductive cmE : Type -> Type :=
| ConnGet : cmE (option Z)                       (** [live_conn] *)
| ConnPeek : cmE (option Z)                      (** [conn.lock().await.as_ref()] *)
| ConnSet (c : Z) : cmE unit                     (** [*conn.lock().await = Some(c)] *)
| EndpointSet (c : Z) : cmE unit                 (** [*endpoint.lock().await = Some(ep)] *)
| EndpointTake : cmE (option Z)
| WaitIdle : cmE unit
| SeqNext : cmE Z
| GenGet : cmE Z                                 (** [reconnect_gen.load] *)
| GenBump : cmE unit                             (** [reconnect_gen.fetch_add(1)] *)
| ExpectedGet : cmE (option str)
| ExpectedSet (o : option str) : cmE unit
| SinkTake : cmE (option str)
| Dial (mode : PinMode) : cmE (anyhow Z)         (** [ep.connect(..).await] with that verifier *)
| OpenStream (c : Z) : cmE (anyhow unit)         (** [open_bi] *)
| SendOn (c : Z) (b : bytes) : cmE (anyhow unit) (** [write_frame] *)
| FinishOn (c : Z) : cmE (anyhow unit)
| RecvOn (c : Z) : cmE (anyhow bytes)            (** [read_frame] *)
| CloseConn (c : Z) : cmE unit
| Sleep (ms : Z) : cmE unit
| KhLoad : cmE (anyhow KnownHosts)
| KhSave (kh : KnownHosts) : cmE (anyhow unit).

Abbreviation cm A := (prog cmE A).
Abbreviation me e := (@call cmE _ e) (only parsing).

(** What the environment decides of a call: that it succeeds or fails, the frame that
    came, or the server a dial reached, with the name of the new connection and
    whether the handshake of QUIC got through after the certificate was checked. *)
Inductive choice : Type :=
| Done
| Failed (e : str)
| Frame (raw : bytes)
| Reached (c : Z) (cert : bytes) (up : bool).

(** [ep.connect]: rustls calls the verifier on the certificate it was shown. *)
Definition dial (mode : PinMode) (c : Z) (cert : bytes) (up : bool) (m : mgr) : option (anyhow Z * mgr) :=
  let '(r, sink) := verify_server_cert cert_fingerprint mode (mg_sink m) cert in
  let m := set_sink sink m in
  match r with
  | Err e => Some (Err e, m)
  | Ok _ =>
      if negb up then Some (Err (lit "QUIC handshake"), m)
      else match mg_conns m !! c with
           | Some _ => None
           | None => Some (Ok c, set_conns (<[c := MkQconn cert true [] [] None]> (mg_conns m)) m)
           end
  end.

(** One call: its answer and the state after it; [None] if the environment cannot
    decide this way.  A frame whose write fails may have been sent. *)
Definition cm_do {X} (e : cmE X) (ch : choice) (m : mgr) : option (X * mgr) :=
  match e in cmE X return option (X * mgr) with
  | ConnGet => Some (live_conn m, m)
  | ConnPeek => Some (mg_conn m, m)
  | ConnSet c => Some (tt, store c m)
  | EndpointSet c => Some (tt, set_endpoint (Some c) m)
  | EndpointTake => Some (mg_endpoint m, set_endpoint None m)
  | WaitIdle => Some (tt, m)
  | SeqNext => Some (mg_seq m, set_issued (mg_issued m + 1) m)
  | GenGet => Some (mg_gen m, m)
  | GenBump => Some (tt, set_bumps (mg_bumps m + 1) m)
  | ExpectedGet => Some (mg_expected m, m)
  | ExpectedSet o => Some (tt, set_expected o m)
  | SinkTake => Some (mg_sink m, set_sink None m)
  | Dial mode =>
      match ch with
      | Failed e => Some (Err e, m)
      | Reached c cert up => dial mode c cert up m
      | _ => None
      end
  | OpenStream c | FinishOn c =>
      match ch with Done => Some (Ok tt, m) | Failed e => Some (Err e, m) | _ => None end
  | SendOn c b =>
      match ch with
      | Done => Some (Ok tt, at_conn (sent_on b) c m)
      | Failed e => Some (Err e, at_conn (sent_on b) c m)
      | _ => None
      end
  | RecvOn c =>
      match ch with Frame raw => Some (Ok raw, at_conn (received raw) c m) | Failed e => Some (Err e, m) | _ => None end
  | CloseConn c => Some (tt, at_conn kill c m)
  | Sleep _ => Some (tt, m)
  | KhLoad => Some (kh_load env (mg_disk m) known_hosts_path, m)
  | KhSave kh =>
      match kh_save env has_parent (mg_disk m) kh with
      | Ok d => Some (Ok tt, set_disk d m)
      | Err e => Some (Err e, set_disk (kh_save_failed env has_parent (mg_disk m) kh) m)
      end
  end.

(** ** The methods *)

(** One call of an RPC method: [get] is what its [OpenBi] takes the connection from;
    [cur] is the connection of the stream it has open. *)
Definition lift_call (get : cm (anyhow Z)) {X} (e : cliE X) (cur : option Z) : cm (X * option Z) :=
  match e in cliE X return cm (X * option Z) with
  | NextSeq => seq <- me SeqNext ;; Ret (seq, cur)
  | OpenBi =>
      r <- get ;;
      match r with
      | Err e => Ret (Err e, cur)
      | Ok c =>
          r <- me (OpenStream c) ;;
          Ret (r, match r with Ok _ => Some c | Err _ => cur end)
      end
  | CSend b => match cur with Some c => r <- me (SendOn c b) ;; Ret (r, cur) | None => Ret (Err (lit "no stream"), cur) end
  | CFinish => match cur with Some c => r <- me (FinishOn c) ;; Ret (r, cur) | None => Ret (Err (lit "no stream"), cur) end
  | CRecv => match cur with Some c => r <- me (RecvOn c) ;; Ret (r, cur) | None => Ret (Err (lit "no stream"), cur) end
  end.

Fixpoint lift (get : cm (anyhow Z)) {A} (m : cli A) (cur : option Z) : cm (A * option Z) :=
  match m with
  | Ret a => Ret (a, cur)
  | Vis e k => xc <- lift_call get e cur ;; lift get (k xc.1) xc.2
  end.

Section Methods.
(** [MountConfig::chunk_size], a fresh UUID, and whether the client's own key and the
    TLS configuration made from it are usable. *)
Variables (chunk_size : Z) (client_id : str) (tls_client : anyhow unit).

(** [establish] *)
Definition mgr_establish : cm (anyhow Z) :=
  _ <-? Ret tls_client ;;
  expected <- me ExpectedGet ;;
  let mode := match expected with Some fp => Enforce fp | None => Capture end in
  c <-? me (Dial mode) ;;
  me (EndpointSet c) ;;;
  Ret (Ok c).

(** [app_handshake(&conn)] *)
Definition mgr_handshake (c : Z) : cm (anyhow unit) :=
  rc <- lift (Ret (Ok c)) (app_handshake chunk_size client_id) None ;;
  Ret rc.1.

(** [do_connect] *)
Definition mgr_do_connect : cm (anyhow Z) :=
  c <-? mgr_establish ;;
  _ <-? mgr_handshake c ;;
  me (ConnSet c) ;;;
  Ret (Ok c).

(** The [loop] of [reconnect]; see [attempts_fill_deadline] for [fuel]. *)
Fixpoint mgr_reconnect (fuel : nat) (delay attempt : Z) : cm (anyhow Z) :=
  match fuel with
  | O => Ret (Err (lit "timed out"))
  | S fuel =>
      let attempt := wrap32 (attempt + 1) in
      r <- mgr_do_connect ;;
      match r with
      | Ok c => me GenBump ;;; Ret (Ok c)
      | Err _ => me (Sleep (sleep_ms delay attempt)) ;;; mgr_reconnect fuel (next_delay delay) attempt
      end
  end.

(** [RPC_TIMEOUT], in milliseconds, and the attempts that fit in it. *)
Definition RPC_TIMEOUT : Z := 30000.
Definition ATTEMPTS : nat := 9.

(** [ensure_conn] *)
Definition ensure_conn : cm (anyhow Z) :=
  c <- me ConnGet ;;
  match c with
  | Some c => Ret (Ok c)
  | None => mgr_reconnect ATTEMPTS 100 0
  end.

(** [ConnManager::connect] *)
Definition mgr_connect (policy : TofuPolicy) (tty : bool) (input : list (anyhow str)) : cm (anyhow unit) :=
  known <-? me KhLoad ;;
  let pinned := kh_get known host_key in
  me (ExpectedSet pinned) ;;;
  c <-? mgr_establish ;;
  _ <-?
    match pinned with
    | Some _ => Ret (Ok tt)
    | None =>
        sink <- me SinkTake ;;
        captured <-? liftr (ok_or (lit "server presented no certificate") sink) ;;
        accepted <-? liftr (decide_first_contact policy tty input) ;;
        if negb accepted then me (CloseConn c) ;;; Ret (Err (lit "host key was not accepted"))
        else
          _ <-? me (KhSave (kh_insert known host_key captured)) ;;
          me (ExpectedSet (Some captured)) ;;;
          Ret (Ok tt)
    end ;;
  _ <-? mgr_handshake c ;;
  me (ConnSet c) ;;;
  Ret (Ok tt).

(** [close] *)
Definition mgr_close : cm unit :=
  c <- me ConnPeek ;;
  match c with Some c => me (CloseConn c) | None => Ret tt end ;;;
  ep <- me EndpointTake ;;
  match ep with Some _ => me WaitIdle | None => Ret tt end.

(** ** Callers *)

(** What a caller ends with: for an open, the generation it stamps the handle with and
    the connection the handle was opened on. *)
Inductive outcome : Type :=
| Finished
| Reopened (stamp c : Z)
| Registered (stamp c : Z).

(** Any RPC method, with [ensure_conn] under it. *)
Definition on_conn {A} (m : cli (anyhow A)) : cm (anyhow A * option Z) := lift ensure_conn m None.

Definition rpc_caller {A} (m : cli (anyhow A)) : cm outcome := on_conn m ;;; Ret Finished.

(** [ensure_live] of fuse_ops.rs: the generation is read before the open. *)
Definition reopen_caller {A} (m : cli (anyhow A)) : cm outcome :=
  cur <- me GenGet ;;
  rc <- on_conn m ;;
  Ret match rc with (Ok _, Some c) => Reopened cur c | _ => Finished end.

(** The [open] callback and [register_open]: it is read after the open. *)
Definition open_caller {A} (m : cli (anyhow A)) : cm outcome :=
  rc <- on_conn m ;;
  match rc with
  | (Ok _, Some c) => opened_gen <- me GenGet ;; Ret (Registered opened_gen c)
  | _ => Ret Finished
  end.

Inductive caller : cm outcome -> Prop :=
| call_rpc {A} (m : cli (anyhow A)) : caller (rpc_caller m)
| call_reopen {A} (m : cli (anyhow A)) : caller (reopen_caller m)
| call_open {A} (m : cli (anyhow A)) : caller (open_caller m)
| call_close : caller (mgr_close ;;; Ret Finished).

(** ** The system *)

Inductive stage : Type := Connecting (m : cm (anyhow unit)) | Shared | Refused.

Record system := MkSystem {
  sy_mgr : mgr; sy_stage : stage; sy_tasks : gmap Z (cm outcome); sy_done : list outcome
}.

Definition system_start (policy : TofuPolicy) (tty : bool) (input : list (anyhow str)) (d : disk) : system :=
  MkSystem (mgr_new d) (Connecting (mgr_connect policy tty input)) ∅ [].

(** The deadline drops a future at an [await].  There is none between storing a new
    connection and counting it. *)
Definition cancellable {A} (p : cm A) : bool :=
  match p with Vis e _ => match e with GenBump => false | _ => true end | Ret _ => true end.

Inductive sstep : system -> system -> Prop :=
| ss_connect m X (e : cmE X) k ts dn ch x m' :
    cm_do e ch m = Some (x, m') ->
    sstep (MkSystem m (Connecting (Vis e k)) ts dn) (MkSystem m' (Connecting (k x)) ts dn)
| ss_connected m r ts dn :
    sstep (MkSystem m (Connecting (Ret r)) ts dn)
          (MkSystem m (match r with Ok _ => Shared | Err _ => Refused end) ts dn)
| ss_spawn m ts dn tid p :
    caller p -> ts !! tid = None ->
    sstep (MkSystem m Shared ts dn) (MkSystem m Shared (<[tid := p]> ts) dn)
| ss_call m ts dn tid X (e : cmE X) k ch x m' :
    ts !! tid = Some (Vis e k) -> cm_do e ch m = Some (x, m') ->
    sstep (MkSystem m Shared ts dn) (MkSystem m' Shared (<[tid := k x]> ts) dn)
| ss_return m ts dn tid o :
    ts !! tid = Some (Ret o) ->
    sstep (MkSystem m Shared ts dn) (MkSystem m Shared (delete tid ts) (o :: dn))
| ss_deadline m ts dn tid p :
    ts !! tid = Some p -> cancellable p = true ->
    sstep (MkSystem m Shared ts dn) (MkSystem m Shared (delete tid ts) dn)
| ss_lost m st ts dn c :
    sstep (MkSystem m st ts dn) (MkSystem (at_conn kill c m) st ts dn).
End Methods.
End Manager.

(** ** What holds of the manager *)

Section Facts.
Context {C : Codec} (cert_fingerprint : bytes -> option str).
Variables (env : disk_env) (has_parent : bool) (known_hosts_path host_key : str).
Abbreviation cm_do := (cm_do cert_fingerprint env has_parent known_hosts_path).

Definition is_hello (b : bytes) : Prop := exists req, hq_op req = OP_HANDSHAKE /\ encode req = Some b.

(** [c] was made to the server whose key is enforced. *)
Definition pinned (m : mgr) (c : Z) : Prop :=
  exists k fp, mg_conns m !! c = Some k /\ mg_expected m = Some fp /\ cert_fingerprint (co_peer k) = Some fp.
Definition welcomed (m : mgr) (c : Z) : Prop := exists k, mg_conns m !! c = Some k /\ greeted k = true.

(** The connection was stored, after at least [b] generations. *)
Definition stored_after (b : Z) (m : mgr) (c : Z) : Prop :=
  exists k i, mg_conns m !! c = Some k /\ co_index k = Some i /\ b <= i.

Definition frame_ok (m : mgr) (c : Z) (f : bytes * bool) : Prop := pinned m c /\ (f.2 = true \/ is_hello f.1).

Record mgr_ok (m : mgr) : Prop := {
  mo_sent : forall c k, mg_conns m !! c = Some k -> Forall (frame_ok m c) (co_sent k);
  mo_conn : forall c, mg_conn m = Some c ->
    pinned m c /\ welcomed m c /\ exists k, mg_conns m !! c = Some k /\ co_index k = Some (mg_stores m - 1);
  mo_index : forall c k i, mg_conns m !! c = Some k -> co_index k = Some i -> 0 <= i < mg_stores m;
  mo_inj : forall c c' k k' i, mg_conns m !! c = Some k -> mg_conns m !! c' = Some k' ->
    co_index k = Some i -> co_index k' = Some i -> c = c';
  mo_counts : 0 <= mg_bumps m /\ 0 <= mg_stores m
}.

(** What a call may rely on of the others: connections keep their server, what they
    have been answered, and are stored anew at most. *)
Definition conn_grows (k k' : qconn) : Prop :=
  co_peer k' = co_peer k /\ (greeted k = true -> greeted k' = true) /\
  (forall i, co_index k = Some i -> exists i', co_index k' = Some i' /\ i <= i').

Record grows (m m' : mgr) : Prop := {
  gr_expected : mg_expected m' = mg_expected m;
  gr_disk : mg_disk m' = mg_disk m;
  gr_bumps : mg_bumps m <= mg_bumps m';
  gr_stores : mg_stores m <= mg_stores m';
  gr_conns : forall c k, mg_conns m !! c = Some k -> exists k', mg_conns m' !! c = Some k' /\ conn_grows k k'
}.

Lemma conn_grows_refl k : conn_grows k k.
Proof. split_and!; [done|done|]. intros i Hi. exists i. split; [done|lia]. Qed.

Lemma conn_grows_trans k1 k2 k3 : conn_grows k1 k2 -> conn_grows k2 k3 -> conn_grows k1 k3.
Proof.
  intros (P1 & G1 & I1) (P2 & G2 & I2). split_and!; [congruence|auto|].
  intros i (i2 & H2 & ?)%I1. apply I2 in H2 as (i3 & H3 & ?). exists i3. split; [done|lia].
Qed.

#[global] Instance grows_preorder : PreOrder grows.
Proof.
  split.
  - intros m. split; [done|done|lia|lia|]. intros c k H. exists k. split; [done|apply conn_grows_refl].
  - intros m1 m2 m3 [E1 D1 B1 S1 C1] [E2 D2 B2 S2 C2]. split; [congruence|congruence|lia|lia|].
    intros c k (k2 & H2 & G2)%C1. apply C2 in H2 as (k3 & H3 & G3). exists k3.
    split; [done|by eapply conn_grows_trans].
Qed.

Lemma pinned_grows m m' c : grows m m' -> pinned m c -> pinned m' c.
Proof.
  intros Hg (k & fp & Hk & He & Hf). destruct (gr_conns _ _ Hg c k Hk) as (k' & Hk' & Hp & _).
  exists k', fp. rewrite (gr_expected _ _ Hg), Hp. done.
Qed.

Lemma welcomed_grows m m' c : grows m m' -> welcomed m c -> welcomed m' c.
Proof.
  intros Hg (k & Hk & Hw). destruct (gr_conns _ _ Hg c k Hk) as (k' & Hk' & _ & Hw' & _). exists k'. auto.
Qed.

Lemma stored_after_grows b m m' c : grows m m' -> stored_after b m c -> stored_after b m' c.
Proof.
  intros Hg (k & i & Hk & Hi & Hb). destruct (gr_conns _ _ Hg c k Hk) as (k' & Hk' & _ & _ & Hx).
  destruct (Hx i Hi) as (i' & Hi' & ?). exists k', i'. split_and!; [done|done|lia].
Qed.

Lemma frame_ok_grows m m' c f : grows m m' -> frame_ok m c f -> frame_ok m' c f.
Proof. intros Hg [Hp Hf]. split; [by eapply pinned_grows|done]. Qed.

(** ** What a call owes *)

(** Nothing has been sent yet. *)
Definition unsent (m : mgr) : Prop := forall c k, mg_conns m !! c = Some k -> co_sent k = [].

(** [setup] is the stage in which [connect] runs alone. *)
Definition allowed (setup : bool) {X} (e : cmE X) (m : mgr) : Prop :=
  match e with
  | ConnSet c => pinned m c /\ welcomed m c
  | SendOn c b => pinned m c /\ (welcomed m c \/ is_hello b)
  | Dial mode => setup = true \/ exists fp, mode = Enforce fp /\ mg_expected m = Some fp
  | ExpectedSet _ => setup = true /\ unsent m /\ mg_conn m = None
  | KhSave _ => setup = true
  | GenBump => setup = false
  | _ => True
  end.

(** The calls that leave alone what [connect] and [reconnect] set. *)
Definition quiet {X} (e : cmE X) : Prop :=
  match e with ConnSet _ | ExpectedSet _ | KhSave _ | GenBump => False | _ => True end.

(** Connections may be lost at any moment. *)
Definition loses (m m' : mgr) : Prop := exists cs, m' = set_conns cs m /\
  forall c, mg_conns m !! c = None /\ cs !! c = None \/
            exists k, mg_conns m !! c = Some k /\ (cs !! c = Some k \/ cs !! c = Some (kill k)).

Lemma loses_kill c m : loses m (at_conn kill c m).
Proof.
  exists (alter kill c (mg_conns m)). split; [done|]. intros c'.
  destruct (decide (c = c')) as [<-|Hne].
  - rewrite lookup_alter_eq. destruct (mg_conns m !! c) as [k|]; [right|by left]. exists k. auto.
  - rewrite lookup_alter_ne by done. destruct (mg_conns m !! c') as [k|]; [right|by left]. exists k. auto.
Qed.

Lemma greeted_kill k : greeted (kill k) = greeted k.
Proof. done. Qed.

(** An altered connection, and the others. *)
Lemma alter_grows f c m :
  (forall k, conn_grows k (f k)) -> grows m (at_conn f c m).
Proof.
  intros Hf. split; [done|done|simpl; lia|simpl; lia|]. intros c' k Hk. simpl.
  destruct (decide (c = c')) as [<-|Hne].
  - rewrite lookup_alter_eq, Hk. exists (f k). auto.
  - rewrite lookup_alter_ne, Hk by done. exists k. split; [done|apply conn_grows_refl].
Qed.

Lemma kill_grows k : conn_grows k (kill k).
Proof. apply (conn_grows_refl k). Qed.

Lemma received_grows raw k : conn_grows k (received raw k).
Proof.
  split_and!; [done| |apply (conn_grows_refl k)]. unfold greeted. simpl. rewrite existsb_app. by intros ->.
Qed.

Lemma sent_grows b k : conn_grows k (sent_on b k).
Proof. apply (conn_grows_refl k). Qed.

Lemma alter_lookup {A} (f : A -> A) (c c' : Z) (cs : gmap Z A) k' :
  alter f c cs !! c' = Some k' -> exists k, cs !! c' = Some k /\ (k' = k \/ (c = c' /\ k' = f k)).
Proof.
  destruct (decide (c = c')) as [<-|Hne].
  - rewrite lookup_alter_eq. intros (k & Hk & ->)%fmap_Some. exists k. auto.
  - rewrite lookup_alter_ne by done. intros ->. exists k'. auto.
Qed.

(** A change of one connection that leaves its index alone keeps what holds, if the
    frames it has sent are still in order. *)
Lemma at_conn_ok f c m :
  mgr_ok m -> (forall k, conn_grows k (f k) /\ co_index (f k) = co_index k) ->
  (forall k, mg_conns m !! c = Some k -> Forall (frame_ok m c) (co_sent (f k))) ->
  mgr_ok (at_conn f c m).
Proof.
  intros [Hs Hc Hi Hj Hn] Hf Hsent.
  assert (grows m (at_conn f c m)) as Hg by (apply alter_grows; intros k; apply Hf).
  assert (forall c' k', mg_conns (at_conn f c m) !! c' = Some k' ->
            exists k, mg_conns m !! c' = Some k /\ co_index k' = co_index k /\
              (k' = k \/ (c = c' /\ k' = f k))) as Hback.
  { intros c' k' (k & Hk & Hor)%alter_lookup. exists k. split; [done|]. split; [|done].
    destruct Hor as [->|[_ ->]]; [done|apply Hf]. }
  split.
  - intros c' k' H. destruct (Hback c' k' H) as (k & Hk & _ & Hor).
    apply (Forall_impl (frame_ok m c')); [|intros g; by apply frame_ok_grows].
    destruct Hor as [->|[<- ->]]; [by apply Hs|by apply Hsent].
  - intros c' (Hp & Hw & k & Hk & Hx)%Hc. split; [by eapply pinned_grows|]. split; [by eapply welcomed_grows|].
    destruct (gr_conns _ _ Hg c' k Hk) as (k' & Hk' & _). exists k'. split; [done|].
    destruct (Hback c' k' Hk') as (k2 & Hk2 & -> & _). rewrite Hk in Hk2. by injection Hk2 as <-.
  - intros c' k' i H Hx. destruct (Hback c' k' H) as (k & Hk & E & _). rewrite E in Hx. by apply (Hi c' k).
  - intros c1 c2 k1 k2 i H1 H2 X1 X2. destruct (Hback _ _ H1) as (k1' & K1 & E1 & _).
    destruct (Hback _ _ H2) as (k2' & K2 & E2 & _). rewrite E1 in X1. rewrite E2 in X2. by apply (Hj c1 c2 k1' k2' i).
  - done.
Qed.

(** A change of the fields [mgr_ok] says nothing of. *)
Lemma same_conns_ok m m' :
  mgr_ok m -> mg_conns m' = mg_conns m -> mg_conn m' = mg_conn m -> mg_expected m' = mg_expected m ->
  mg_stores m' = mg_stores m -> 0 <= mg_bumps m' -> mgr_ok m'.
Proof.
  intros [Hs Hc Hi Hj Hn] E1 E2 E3 E4 E5.
  assert (forall c, pinned m c -> pinned m' c) as Hp by (unfold pinned; rewrite E1, E3; done).
  split; rewrite ?E1, ?E2, ?E4; [|..|done|done|lia].
  - intros c k Hk. eapply Forall_impl; [by apply Hs|]. intros f [? ?]. split; [auto|done].
  - intros c (? & ? & ?)%Hc. split_and!; [auto| |done]. unfold welcomed. by rewrite E1.
Qed.

Lemma store_ok c m : mgr_ok m -> pinned m c -> welcomed m c -> mgr_ok (store c m) /\ grows m (store c m).
Proof.
  intros [Hs Hc Hi Hj Hn] Hp Hw.
  assert (grows m (store c m)) as Hg.
  { split; [done|done|simpl; lia|simpl; lia|]. intros c' k Hk. simpl. destruct (decide (c = c')) as [<-|Hne].
    - rewrite lookup_alter_eq, Hk. eexists. split; [done|]. split_and!; [done|done|].
      intros i Hx. simpl. exists (mg_stores m). split; [done|]. specialize (Hi c k i Hk Hx). lia.
    - rewrite lookup_alter_ne, Hk by done. exists k. split; [done|apply conn_grows_refl]. }
  split; [|done]. split.
  - intros c' k' (k & Hk & Hor)%alter_lookup. apply (Forall_impl (frame_ok m c')); [|intros f; by apply frame_ok_grows].
    destruct Hor as [->|[<- ->]]; exact (Hs _ _ Hk).
  - intros c' [= <-]. split; [by eapply pinned_grows|]. split; [by eapply welcomed_grows|].
    destruct Hw as (k & Hk & _). simpl. rewrite lookup_alter_eq, Hk. eexists. split; [done|]. simpl. f_equal. lia.
  - simpl. intros c' k' i (k & Hk & Hor)%alter_lookup Hx.
    destruct Hor as [->|[<- ->]]; [specialize (Hi c' k i Hk Hx); lia|]. injection Hx as <-. lia.
  - simpl. intros c1 c2 k1 k2 i (k1' & K1 & O1)%alter_lookup (k2' & K2 & O2)%alter_lookup X1 X2.
    destruct O1 as [->|[<- ->]], O2 as [->|[<- ->]].
    + by apply (Hj c1 c2 k1' k2' i).
    + injection X2 as <-. specialize (Hi _ _ _ K1 X1). lia.
    + injection X1 as <-. specialize (Hi _ _ _ K2 X2). lia.
    + done.
  - simpl. lia.
Qed.

(** A connection that did not exist. *)
Lemma fresh_ok c cert m : mg_conns m !! c = None -> mgr_ok m ->
  mgr_ok (set_conns (<[c := MkQconn cert true [] [] None]> (mg_conns m)) m) /\
  grows m (set_conns (<[c := MkQconn cert true [] [] None]> (mg_conns m)) m).
Proof.
  intros Hc [Hs Hcn Hi Hj Hn].
  assert (grows m (set_conns (<[c := MkQconn cert true [] [] None]> (mg_conns m)) m)) as Hg.
  { split; [done|done|simpl; lia|simpl; lia|]. intros c' k Hk. simpl. exists k.
    rewrite lookup_insert_ne by congruence. split; [done|apply conn_grows_refl]. }
  split; [|done]. split; simpl.
  - intros c' k [[<- <-]|[Hne Hk]]%lookup_insert_Some; [constructor|].
    apply (Forall_impl (frame_ok m c')); [by apply Hs|intros f; by apply frame_ok_grows].
  - intros c' Hc'. destruct (Hcn c' Hc') as (Hp & Hw & k & Hk & Hx).
    split; [by eapply pinned_grows|]. split; [by eapply welcomed_grows|].
    exists k. rewrite lookup_insert_ne by congruence. done.
  - intros c' k i [[<- <-]|[Hne Hk]]%lookup_insert_Some; [done|by apply (Hi c' k)].
  - intros c1 c2 k1 k2 i [[<- <-]|[N1 K1]]%lookup_insert_Some [[<- <-]|[N2 K2]]%lookup_insert_Some; [done..|].
    by apply (Hj c1 c2 k1 k2 i).
  - done.
Qed.

(** ** One call *)

Lemma dial_inv mode c cert up m r m' :
  dial cert_fingerprint mode c cert up m = Some (r, m') ->
  exists sink, let m1 := set_sink sink m in
    ((exists e, r = Err e) /\ m' = m1) \/
    (r = Ok c /\ verify_server_cert cert_fingerprint mode (mg_sink m) cert = (Ok tt, sink) /\ mg_conns m !! c = None /\
     m' = set_conns (<[c := MkQconn cert true [] [] None]> (mg_conns m)) m1).
Proof.
  unfold dial. destruct (verify_server_cert _ _ _ _) as [v sink]. intros H. exists sink. cbv zeta.
  destruct v as [[]|e]; [|by injection H as <- <-; eauto].
  destruct up; simpl in H; [|by injection H as <- <-; eauto].
  destruct (mg_conns m !! c) eqn:E; [done|]. injection H as <- <-. right. done.
Qed.

(** Every allowed call keeps what holds; when [connect] is over, also what the others
    rely on. *)
Lemma cm_do_ok setup {X} (e : cmE X) ch m x m' :
  allowed setup e m -> mgr_ok m -> cm_do e ch m = Some (x, m') ->
  mgr_ok m' /\ ((setup = true -> quiet e) -> grows m m').
Proof.
  intros Ha Hok Hd.
  assert (forall m2, mg_conns m2 = mg_conns m -> mg_conn m2 = mg_conn m -> mg_expected m2 = mg_expected m ->
    mg_stores m2 = mg_stores m -> mg_disk m2 = mg_disk m -> mg_bumps m <= mg_bumps m2 ->
    mgr_ok m2 /\ ((setup = true -> quiet e) -> grows m m2)) as Hsame.
  { intros m2 E1 E2 E3 E4 E5 Hb. destruct (mo_counts _ Hok). split; [apply (same_conns_ok m); auto; lia|].
    intros _. split; [done|done|lia|lia|]. intros c k Hk. exists k. rewrite E1. split; [done|apply conn_grows_refl]. }
  assert (forall f c, (forall k, conn_grows k (f k) /\ co_index (f k) = co_index k) ->
    (forall k, mg_conns m !! c = Some k -> Forall (frame_ok m c) (co_sent (f k))) ->
    mgr_ok (at_conn f c m) /\ ((setup = true -> quiet e) -> grows m (at_conn f c m))) as Halter.
  { intros f c Hf Hs. split; [by apply at_conn_ok|]. intros _. apply alter_grows. intros k. apply Hf. }
  assert (forall c b, pinned m c -> welcomed m c \/ is_hello b ->
    mgr_ok (at_conn (sent_on b) c m) /\ ((setup = true -> quiet e) -> grows m (at_conn (sent_on b) c m))) as Hsend.
  { intros c b Hp Hw. apply Halter; [intros k; split; [apply sent_grows|done]|]. intros k Hk. simpl.
    apply Forall_app. split; [by apply (mo_sent _ Hok)|]. constructor; [|constructor]. split; [done|]. simpl.
    destruct Hw as [(k' & Hk' & Hw)|Hh]; [left|by right]. rewrite Hk in Hk'. by injection Hk' as <-. }
  destruct e; simpl in Hd, Ha; simplify_eq/=;
    repeat match goal with
    | H : match ?ch with Done => _ | _ => _ end = _ |- _ => destruct ch; simplify_eq/=
    end;
    try (apply Hsame; simpl; solve [done | lia]).
  - destruct Ha as [Hp Hw]. destruct (store_ok c m Hok Hp Hw). auto.
  - destruct Ha as (-> & Hun & Hnc). split; [|by intros H; destruct (H eq_refl)]. destruct Hok as [Hs Hc Hi Hj Hn]. split; simpl; [..|done].
    + intros c k Hk. by rewrite (Hun c k Hk).
    + intros c. by rewrite Hnc.
    + done.
    + done.
  - apply dial_inv in Hd as (sink & [([e ->] & ->)|(-> & Hv & Hf & ->)]); [apply Hsame; simpl; solve [done|lia]|].
    destruct (fresh_ok c cert m Hf Hok) as [Hok' Hg].
    split.
    { apply (same_conns_ok (set_conns (<[c:=MkQconn cert true [] [] None]> (mg_conns m)) m)); try done. apply (mo_counts _ Hok). }
    intros _. destruct Hg as [G1 G2 G3 G4 G5]. by split.
  - destruct Ha. by apply Hsend.
  - destruct Ha. by apply Hsend.
  - apply Halter; [intros k; split; [apply received_grows|done]|]. intros k Hk. exact (mo_sent _ Hok _ _ Hk).
  - apply Halter; [intros k; split; [apply kill_grows|done]|]. intros k Hk. exact (mo_sent _ Hok _ _ Hk).
  - destruct (kh_save _ _ _ _) as [d|e]; simplify_eq/=;
      (split; [|by intros H; destruct (H eq_refl)]; apply (same_conns_ok m); auto; by apply (mo_counts _ Hok)).
Qed.

Lemma kill_ok c m : mgr_ok m -> mgr_ok (at_conn kill c m) /\ grows m (at_conn kill c m).
Proof.
  intros Hok. split; [|apply alter_grows, kill_grows].
  apply at_conn_ok; [done|intros k; split; [apply kill_grows|done]|]. intros k Hk. exact (mo_sent _ Hok _ _ Hk).
Qed.

Lemma allowed_grows {X} (e : cmE X) m m' : grows m m' -> allowed false e m -> allowed false e m'.
Proof.
  intros Hg. destruct e; simpl; try done.
  - intros [Hp Hw]. split; [by eapply pinned_grows|by eapply welcomed_grows].
  - by intros [? _].
  - intros [?|(fp & -> & He)]; [done|right]. exists fp. by rewrite (gr_expected _ _ Hg).
  - intros [Hp Hw]. split; [by eapply pinned_grows|]. destruct Hw as [Hw|Hw]; [left|by right].
    by eapply welcomed_grows.
Qed.

Lemma quiet_same {X} (e : cmE X) ch m x m' :
  quiet e -> cm_do e ch m = Some (x, m') ->
  mg_stores m' = mg_stores m /\ mg_bumps m' = mg_bumps m /\ mg_conn m' = mg_conn m.
Proof.
  intros Hq Hd. destruct e; simpl in Hd, Hq; try done; simplify_eq/=; try done; destruct ch; simplify_eq/=; try done.
  by apply dial_inv in Hd as (sink & [(_ & ->)|(_ & _ & _ & ->)]).
Qed.

Lemma loses_grows m m' : loses m m' -> grows m m'.
Proof.
  intros (cs & -> & Hl). split; [done|done|simpl; lia|simpl; lia|]. intros c k Hk. simpl.
  destruct (Hl c) as [[? _]|(k2 & Hk2 & [Hc|Hc])]; [congruence|..]; rewrite Hk in Hk2; injection Hk2 as <-.
  - exists k. split; [done|apply conn_grows_refl].
  - exists (kill k). split; [done|apply kill_grows].
Qed.

#[local] Instance loses_preorder : PreOrder loses.
Proof.
  split.
  - intros m. exists (mg_conns m). split; [by destruct m|]. intros c. destruct (mg_conns m !! c) as [k|]; [right|by left].
    exists k. auto.
  - intros m1 m2 m3 (cs & -> & H1) (cs' & -> & H2). exists cs'. split; [done|]. intros c.
    destruct (H1 c) as [[N1 N2]|(k & K1 & O1)], (H2 c) as [[M1 M2]|(k' & K2 & O2)]; simpl in *.
    + by left.
    + congruence.
    + destruct O1; congruence.
    + right. exists k. split; [done|]. rewrite K2 in O1. destruct O1 as [[= ->]|[= ->]]; [done|].
      destruct O2; auto.
Qed.

(** ** The obligations of a program *)

(** What others do between two calls. *)
Definition rely (setup : bool) : mgr -> mgr -> Prop := if setup then loses else grows.

#[local] Instance rely_preorder setup : PreOrder (rely setup).
Proof. destruct setup; apply _. Qed.

Lemma unsent_loses m m' : loses m m' -> unsent m -> unsent m'.
Proof.
  intros (cs & -> & Hl) Hu c k Hk. simpl in Hk. destruct (Hl c) as [[_ N]|(k0 & H0 & [H|H])]; [congruence|..];
    rewrite H in Hk; injection Hk as <-; exact (Hu c _ H0).
Qed.

Lemma allowed_rely setup {X} (e : cmE X) m m' : rely setup m m' -> allowed setup e m -> allowed setup e m'.
Proof.
  destruct setup; [|by apply allowed_grows]. simpl. intros Hl. pose proof (loses_grows _ _ Hl) as Hg.
  destruct e; simpl; try done.
  - intros [Hp Hw]. split; [by eapply pinned_grows|by eapply welcomed_grows].
  - intros (_ & Hu & Hc). split_and!; [done|by apply (unsent_loses m)|]. by destruct Hl as (cs & -> & _).
  - intros [?|(fp & -> & He)]; [by left|right]. exists fp. by rewrite (gr_expected _ _ Hg).
  - intros [Hp Hw]. split; [by eapply pinned_grows|]. destruct Hw as [Hw|Hw]; [left|by right].
    by eapply welcomed_grows.
Qed.

Definition is_bump {X} (e : cmE X) : bool := match e with GenBump => true | _ => false end.
Definition is_store {X} (e : cmE X) : bool := match e with ConnSet _ => true | _ => false end.

(** A connection stored by [reconnect] is counted by the very next call; there is
    always one connection more than generations. *)
Definition counted (setup : bool) (m : mgr) : Prop := setup = false -> mg_bumps m < mg_stores m.

Definition cm_spec (setup : bool) : spec cmE (mgr * bool) :=
  Spec _ _ (fun X e g => g.2 = is_bump e /\ allowed setup e g.1)
       (fun X e g x g' => exists g1 ch, rely setup g.1 g1 /\ mgr_ok g1 /\ counted setup g1 /\
          cm_do e ch g1 = Some (x, g'.1) /\ mgr_ok g'.1 /\ counted setup g'.1 /\
          g'.2 = is_store e && negb setup).

(** How far the manager may have come in a program that sets nothing. *)
Definition reach (setup : bool) (m m' : mgr) : Prop :=
  grows m m' /\
  (setup = true -> mg_stores m' = mg_stores m /\ mg_bumps m' = mg_bumps m /\ mg_conn m' = mg_conn m).

#[local] Instance reach_preorder setup : PreOrder (reach setup).
Proof.
  split; [by split|]. intros m1 m2 m3 [G1 S1] [G2 S2]. split; [by etransitivity|]. intros E.
  destruct (S1 E) as (? & ? & ?), (S2 E) as (? & ? & ?). split_and!; congruence.
Qed.

Lemma rely_reach setup m m' : rely setup m m' -> reach setup m m'.
Proof.
  destruct setup; simpl; [|by split]. intros H. split; [by apply loses_grows|]. by destruct H as (cs & -> & _).
Qed.

Lemma call_reach setup {X} (e : cmE X) g x g' :
  quiet e -> sp_pre (cm_spec setup) e g -> sp_post (cm_spec setup) e g x g' -> reach setup g.1 g'.1.
Proof.
  intros Hq [_ Ha] (g1 & ch & R & O1 & _ & D & _). transitivity g1; [by apply rely_reach|].
  destruct (cm_do_ok setup e ch g1 x g'.1 (allowed_rely _ _ _ _ R Ha) O1 D) as [_ Hg].
  split; [by apply Hg|]. intros _. by eapply quiet_same.
Qed.

Lemma wp_quiet setup {X} (e : cmE X) m (Q : X -> mgr * bool -> Prop) :
  quiet e -> allowed setup e m ->
  (forall g1 ch x m', rely setup m g1 -> mgr_ok g1 -> counted setup g1 -> cm_do e ch g1 = Some (x, m') ->
     reach setup m m' -> Q x (m', false)) ->
  wp (cm_spec setup) (call e) (m, false) Q.
Proof.
  intros Hq Ha HQ.
  assert (is_bump e = false /\ is_store e = false) as [Hb Hs] by (destruct e; done).
  apply wp_call; [split; [by rewrite Hb|done]|]. intros x [m' b] Hp.
  assert (reach setup m m') as Hr.
  { apply (call_reach setup e (m, false) x (m', b)); [done|split; [by rewrite Hb|done]|done]. }
  destruct Hp as (g1 & ch & R & O1 & B1 & D & O2 & B2 & E). simpl in *. rewrite Hs in E. subst b. by eapply HQ.
Qed.

(** ** The programs meet theirs *)

Section Programs.
Variables (chunk_size : Z) (client_id : str) (tls_client : anyhow unit).

(** What a program that sets nothing ends with. *)
Definition comes {A} (setup : bool) (m : mgr) (P : A -> mgr -> Prop) (a : A) (g : mgr * bool) : Prop :=
  g.2 = false /\ reach setup m g.1 /\ P a g.1.

Lemma wp_establish setup fp m :
  mg_expected m = Some fp ->
  wp (cm_spec setup) (mgr_establish tls_client) (m, false)
    (comes setup m (fun r m' => match r with Ok c => pinned m' c | Err _ => True end)).
Proof.
  intros He. unfold mgr_establish. wp_step. wp_step. destruct tls_client as [[]|err]; [|split; [done|split; [reflexivity|done]]].
  wp_step. apply wp_quiet; [done|done|]. intros g1 ch x m1 R O1 _ [= <- <-] Hr1.
  rewrite (gr_expected _ _ (proj1 Hr1)), He. wp_step. apply wp_quiet; [done| |].
  { right. exists fp. by rewrite (gr_expected _ _ (proj1 Hr1)). }
  intros g2 ch2 r m2 R2 O2 _ D2 Hr2. assert (reach setup m m2) as Hr by (by etransitivity).
  destruct r as [c|err]; [|done]. wp_step. apply wp_quiet; [done|done|].
  intros g3 ch3 [] m3 R3 O3 _ [= <-] Hr3. apply wp_ret. split; [done|]. split; [by etransitivity|].
  apply (pinned_grows m2); [apply Hr3|]. simpl in D2.
  assert (mg_expected m2 = Some fp) as He2 by (by rewrite (gr_expected _ _ (proj1 Hr))).
  destruct ch2; try done. apply dial_inv in D2 as (sink & [([? [=]] & _)|([= ->] & Hv & Hf & ->)]).
  eexists _, fp. split; [by apply lookup_insert_eq|]. split; [done|]. simpl.
  unfold verify_server_cert in Hv. destruct (cert_fingerprint cert) as [fp'|]; [|done].
  destruct (str_eqb fp' fp) eqn:E; [|done]. apply str_eqb_eq in E. by subst.
Qed.

Lemma lift_call_then get {A B} (e : cliE (anyhow A)) (f : A -> cli (anyhow B)) cur :
  lift get (bindr (call e) f) cur =
  (xc <- lift_call get e cur ;;
   lift get (match xc.1 with Ok a => f a | Err e => Ret (Err e) end) xc.2).
Proof. reflexivity. Qed.

(** A call on a stream whose answer may be an error. *)
Lemma wp_on_stream setup {A} (e : cmE (anyhow A)) cur m (Q : anyhow A * option Z -> mgr * bool -> Prop) :
  quiet e -> allowed setup e m ->
  (forall r m', reach setup m m' ->
     (forall a, r = Ok a -> exists g1 ch, rely setup m g1 /\ mgr_ok g1 /\ cm_do e ch g1 = Some (Ok a, m')) ->
     Q (r, cur) (m', false)) ->
  wp (cm_spec setup) (r <- call e ;; Ret (r, cur)) (m, false) Q.
Proof.
  intros Hq Ha HQ. wp_step. apply wp_quiet; [done|done|]. intros g1 ch r m' R O1 _ D Hr. apply wp_ret, HQ; [done|].
  intros a ->. eauto.
Qed.

Lemma wp_handshake setup c m :
  pinned m c ->
  wp (cm_spec setup) (mgr_handshake chunk_size client_id c) (m, false)
    (comes setup m (fun r m' => r = Ok tt -> welcomed m' c)).
Proof.
  intros Hp. unfold mgr_handshake, app_handshake. wp_step.
  assert (forall (r : anyhow unit) cur m', reach setup m m' -> r <> Ok tt ->
    wp (cm_spec setup) (lift (Ret (Ok c)) (Ret r) cur) (m', false)
      (fun rc g' => wp (cm_spec setup) (Ret rc.1) g' (comes setup m (fun r m' => r = Ok tt -> welcomed m' c)))) as Hfail.
  { intros r cur m' Hr Hne. apply wp_ret, wp_ret. split; [done|]. split; [done|]. by intros E. }
  rewrite lift_call_then. wp_step. cbn [lift_call]. wp_step. wp_step. wp_step.
  apply wp_quiet; [done|done|]. intros g1 ch1 r1 m1 R1 O1 _ D1 Hr1. apply wp_ret. cbn [fst snd].
  destruct r1 as [[]|err]; [|by apply Hfail].
  unfold encoded. destruct (encode _) as [b|] eqn:Eb; [|by apply (Hfail (Err (lit "msgpack encode")))].
  change (bindr (Ret (ok_or _ (Some b))) ?f) with (f b). cbv beta.
  rewrite lift_call_then. wp_step. cbn [lift_call].
  apply wp_on_stream; [done| |].
  { split; [apply (pinned_grows m); [apply Hr1|done]|right]. eexists. by split; [|exact Eb]. }
  intros r2 m2 Hr2 _. cbn [fst snd]. assert (reach setup m m2) as Hr by (by etransitivity).
  destruct r2 as [[]|err]; [|by apply Hfail].
  rewrite lift_call_then. wp_step. cbn [lift_call]. apply wp_on_stream; [done|done|].
  intros r3 m3 Hr3 _. cbn [fst snd]. assert (reach setup m m3) as Hr' by (by etransitivity).
  destruct r3 as [[]|err]; [|by apply Hfail].
  rewrite lift_call_then. wp_step. cbn [lift_call]. apply wp_on_stream; [done|done|].
  intros r4 m4 Hr4 Hgot. cbn [fst snd]. assert (reach setup m m4) as Hr'' by (by etransitivity).
  destruct r4 as [raw|err]; [|by apply Hfail].
  unfold decoded_as. destruct (decode raw) as [resp|] eqn:Ed; [|by apply (Hfail (Err (lit "msgpack decode")))].
  change (bindr (Ret (ok_or _ (Some resp))) ?f) with (f resp). cbv beta.
  destruct (hr_status resp =? 0) eqn:Es; [|by apply Hfail].
  apply wp_ret, wp_ret. split; [done|]. split; [done|]. intros _. cbn.
  destruct (Hgot raw eq_refl) as (g1' & ch & R & O & D). simpl in D. destruct ch; simplify_eq/=.
  assert (pinned g1' c) as (k & fp & Hk & _).
  { apply (pinned_grows m3); [exact (proj1 (rely_reach _ _ _ R))|]. apply (pinned_grows m); [apply Hr'|done]. }
  exists (received raw k). split; [simpl; by rewrite lookup_alter_eq, Hk|].
  unfold greeted. simpl. rewrite existsb_app. simpl. unfold accepts. rewrite Ed, Es. by rewrite orb_true_r.
Qed.

(** [do_connect] of [reconnect]. *)
Lemma wp_do_connect fp m :
  mg_expected m = Some fp ->
  wp (cm_spec false) (mgr_do_connect chunk_size client_id tls_client) (m, false)
    (fun r g => grows m g.1 /\
       match r with
       | Ok c => g.2 = true /\ pinned g.1 c /\ welcomed g.1 c /\ stored_after (mg_bumps m) g.1 c
       | Err _ => g.2 = false
       end).
Proof.
  intros He. unfold mgr_do_connect. wp_step. eapply wp_mono; [|by apply (wp_establish false fp)].
  intros [c|err] [m1 b1] (E1 & [G1 _] & P1); simpl in *; subst b1; [|by split].
  wp_step. eapply wp_mono; [|by apply wp_handshake].
  intros [[]|err] [m2 b2] (E2 & [G2 _] & P2); simpl in *; subst b2; [|split; [by etransitivity|done]].
  assert (pinned m2 c) as Hp by (by eapply pinned_grows). specialize (P2 eq_refl).
  wp_step. wp_step; [split; [done|by split]|]. intros [] [m3 b3] (g1 & ch & R & O1 & B1 & D & O3 & B3 & E3).
  apply wp_ret. simpl in *. injection D as <-.
  destruct (store_ok c g1 O1) as [_ Gs]; [by eapply pinned_grows|by eapply welcomed_grows|].
  assert (grows m (store c g1)) as G by (etransitivity; [|exact Gs]; etransitivity; [|exact R]; by etransitivity).
  split; [done|]. split; [done|]. assert (grows m2 (store c g1)) by (by etransitivity).
  split; [by eapply pinned_grows|]. split; [by eapply welcomed_grows|].
  destruct Hp as (k & fp' & Hk & _). destruct (gr_conns _ _ R c k Hk) as (k' & Hk' & _).
  exists (indexed (mg_stores g1) k'), (mg_stores g1). simpl. rewrite lookup_alter_eq, Hk'. split_and!; [done|done|].
  assert (grows m g1) as [_ _ Hb _ _] by (transitivity m2; [by transitivity m1|done]). specialize (B1 eq_refl). lia.
Qed.

(** A connection a call may be made on. *)
Definition usable (b : Z) (m : mgr) (c : Z) : Prop := pinned m c /\ welcomed m c /\ stored_after b m c.

Lemma usable_grows b m m' c : grows m m' -> usable b m c -> usable b m' c.
Proof.
  intros Hg (Hp & Hw & Hs). split; [by eapply pinned_grows|]. split; [by eapply welcomed_grows|by eapply stored_after_grows].
Qed.

Lemma usable_mono b b' m c : b' <= b -> usable b m c -> usable b' m c.
Proof. intros Hb (Hp & Hw & k & i & Hk & Hi & ?). split_and!; [done|done|]. exists k, i. split_and!; [done|done|lia]. Qed.

Definition vouched (m : mgr) (r : anyhow Z) (m' : mgr) : Prop :=
  match r with Ok c => usable (mg_bumps m) m' c | Err _ => True end.

Lemma vouched_mono m0 m r m' : grows m0 m -> vouched m r m' -> vouched m0 r m'.
Proof. intros [_ _ Hb _ _]. destruct r; [|done]. by apply usable_mono. Qed.

Lemma wp_reconnect fp fuel : forall delay attempt m,
  mg_expected m = Some fp ->
  wp (cm_spec false) (mgr_reconnect chunk_size client_id tls_client fuel delay attempt) (m, false)
    (comes false m (vouched m)).
Proof.
  induction fuel as [|fuel IH]; intros delay attempt m He; cbn [mgr_reconnect].
  { apply wp_ret. by split_and!. }
  wp_step. eapply wp_mono; [|by apply (wp_do_connect fp)].
  intros [c|err] [m1 b1] (G1 & P1); simpl in *.
  - destruct P1 as (-> & Hp & Hw & Hs). wp_step. wp_step; [done|].
    intros [] [m2 b2] (g1 & ch & R & O1 & Bg & D & O2 & B2 & E2). apply wp_ret. simpl in *. injection D as <-. subst b2.
    destruct (cm_do_ok false GenBump Done g1 tt _ eq_refl O1 eq_refl) as [_ Gb].
    specialize (Gb ltac:(done)). assert (grows m1 (set_bumps (mg_bumps g1 + 1) g1)) as G2 by (by etransitivity).
    split; [done|]. split; [split; [by etransitivity|done]|]. by apply (usable_grows _ m1).
  - subst b1. wp_step. apply wp_quiet; [done|done|]. intros g1 ch [] m2 R O1 _ _ [G2 _].
    assert (grows m m2) as G by (by etransitivity).
    eapply wp_mono; [|apply IH; by rewrite (gr_expected _ _ G)].
    intros r g' (E & [Hg _] & Hv). split; [done|]. split; [split; [by etransitivity|done]|]. by eapply vouched_mono.
Qed.

Lemma wp_ensure_conn fp m :
  mg_expected m = Some fp ->
  wp (cm_spec false) (ensure_conn chunk_size client_id tls_client) (m, false) (comes false m (vouched m)).
Proof.
  intros He. unfold ensure_conn. wp_step. apply wp_quiet; [done|done|]. intros g1 ch c m1 R O1 B1 [= <- <-] [G1 _].
  destruct (live_conn g1) as [c|] eqn:El.
  - apply wp_ret. split; [done|]. split; [by split|]. unfold live_conn in El.
    destruct (mg_conn g1) as [c'|] eqn:Ec; [|done]. destruct (mo_conn _ O1 c' Ec) as (Hp & Hw & k & Hk & Hi).
    rewrite Hk in El. destruct (co_alive k); [|done]. injection El as <-.
    split; [done|]. split; [done|]. exists k, (mg_stores g1 - 1). split_and!; [done|done|].
    specialize (B1 eq_refl). destruct G1. lia.
  - eapply wp_mono; [|by apply (wp_reconnect fp); rewrite (gr_expected _ _ G1)].
    intros r g' (E & [Hg _] & Hv). split; [done|]. split; [split; [by etransitivity|done]|]. by eapply vouched_mono.
Qed.

(** Every RPC method. *)
Lemma wp_lift fp {A} (m : cli A) : forall b g cur,
  mg_expected g = Some fp -> b <= mg_bumps g -> (forall c, cur = Some c -> usable b g c) ->
  wp (cm_spec false) (lift (ensure_conn chunk_size client_id tls_client) m cur) (g, false)
    (comes false g (fun ac g' => forall c, ac.2 = Some c -> usable b g' c)).
Proof.
  induction m as [a|X e k IH]; intros b g cur He Hb Hc; cbn [lift].
  { apply wp_ret. split; [done|]. split; [reflexivity|done]. }
  apply wp_seq with (P := comes false g (fun xc g' => forall c, xc.2 = Some c -> usable b g' c)).
  2:{ intros [x cur'] [g' b'] (E & [Hg _] & HP). simpl in *. subst b'.
      eapply wp_mono; [|apply (IH x b); [by rewrite (gr_expected _ _ Hg)|destruct Hg; lia|exact HP]].
      intros ac g2 (E2 & [Hg2 _] & HP2). split; [done|]. split; [split; [by etransitivity|done]|done]. }
  assert (forall (g' : mgr), reach false g g' -> forall c, cur = Some c -> usable b g' c) as Hcur.
  { intros g' [Hg _] c E. by apply (usable_grows _ g), Hc. }
  destruct e; cbn [lift_call].
  - wp_step. apply wp_quiet; [done|done|]. intros g1 ch x g2 _ _ _ _ Hr. apply wp_ret. split; [done|]. split; [done|].
    by apply Hcur.
  - wp_step. eapply wp_mono; [|by apply (wp_ensure_conn fp)]. intros [c|err] [g1 b1] (E & Hr & HP); simpl in *; subst b1.
    + wp_step. apply wp_quiet; [done|done|]. intros g2 ch r g3 _ _ _ _ Hr3.
      assert (reach false g g3) as Hr' by (by etransitivity).
      apply wp_ret. split; [done|]. split; [done|]. cbn [fst snd]. destruct r as [[]|err]; [|by apply Hcur].
      intros c' [= <-]. apply (usable_grows _ g1); [apply Hr3|]. by eapply usable_mono.
    + apply wp_ret. split; [done|]. split; [done|]. by apply Hcur.
  - destruct cur as [c|]; [|apply wp_ret; split; [done|]; split; [reflexivity|done]].
    apply wp_on_stream; [done| |intros r g' Hr _; split; [done|]; split; [done|by apply Hcur]].
    destruct (Hc c eq_refl) as (? & ? & _). split; [done|by left].
  - destruct cur as [c|]; [|apply wp_ret; split; [done|]; split; [reflexivity|done]].
    apply wp_on_stream; [done|done|intros r g' Hr _; split; [done|]; split; [done|by apply Hcur]].
  - destruct cur as [c|]; [|apply wp_ret; split; [done|]; split; [reflexivity|done]].
    apply wp_on_stream; [done|done|intros r g' Hr _; split; [done|]; split; [done|by apply Hcur]].
Qed.

(** What a caller leaves behind. *)
Definition outcome_ok (o : outcome) (m : mgr) : Prop :=
  match o with
  | Finished | Registered _ _ => True
  | Reopened stamp c => exists b, stamp = wrap64 b /\ 0 <= b /\ stored_after b m c
  end.

Lemma outcome_ok_grows o m m' : grows m m' -> outcome_ok o m -> outcome_ok o m'.
Proof.
  intros Hg. destruct o; [done| |done]. intros (b & ? & ? & ?). exists b. split_and!; [done|done|].
  by eapply stored_after_grows.
Qed.

Lemma wp_caller fp p m :
  caller chunk_size client_id tls_client p -> mg_expected m = Some fp ->
  wp (cm_spec false) p (m, false) (fun o g => g.2 = false /\ outcome_ok o g.1).
Proof.
  intros Hp He.
  assert (forall A (k : cli (anyhow A)) b g, mg_expected g = Some fp -> b <= mg_bumps g ->
    wp (cm_spec false) (on_conn chunk_size client_id tls_client k) (g, false)
      (comes false g (fun ac g' => forall c, ac.2 = Some c -> usable b g' c))) as Hon.
  { intros A k b g Hg Hb. by apply (wp_lift fp). }
  destruct Hp as [A k|A k|A k|].
  - unfold rpc_caller. wp_step. eapply wp_mono; [|by apply (Hon _ _ (mg_bumps m))]. intros ac g (E & _). by apply wp_ret.
  - unfold reopen_caller. wp_step. apply wp_quiet; [done|done|]. intros g1 ch stamp m1 R O1 _ [= <- <-] [G1 _].
    wp_step. eapply wp_mono; [|apply (Hon _ _ (mg_bumps g1)); [by rewrite (gr_expected _ _ G1)|done]].
    intros [r cur] g (E & _ & Hu). apply wp_ret. split; [done|]. destruct r as [a|err]; [|done]. destruct cur as [c|]; [|done].
    exists (mg_bumps g1). split; [done|]. split; [apply (mo_counts _ O1)|]. by apply (Hu c).
  - unfold open_caller. wp_step. eapply wp_mono; [|by apply (Hon _ _ (mg_bumps m))].
    intros [r cur] [g b] (E & _). simpl in E. subst b. destruct r as [a|err]; [|by apply wp_ret].
    destruct cur as [c|]; [|by apply wp_ret]. wp_step. apply wp_quiet; [done|done|]. intros. by apply wp_ret.
  - unfold mgr_close. wp_step. wp_step. apply wp_quiet; [done|done|]. intros g1 ch c m1 _ _ _ _ _.
    wp_step. apply (wp_mono _ _ _ (fun _ g => g.2 = false)).
    2:{ destruct c; [|by apply wp_ret]. by apply wp_quiet. }
    intros [] [m2 b2] E. simpl in E. subst b2. wp_step. apply wp_quiet; [done|done|]. intros g2 ch2 ep m3 _ _ _ _ _.
    destruct ep; [|by apply wp_ret, wp_ret]. apply wp_quiet; [done|done|]. intros. by apply wp_ret.
Qed.

(** First contact: the certificate the server showed is in the sink. *)
Lemma wp_establish_capture m :
  mg_expected m = None -> unsent m ->
  wp (cm_spec true) (mgr_establish tls_client) (m, false)
    (comes true m (fun r m' => unsent m' /\
       match r with
       | Ok c => exists k fp, mg_conns m' !! c = Some k /\ cert_fingerprint (co_peer k) = Some fp /\ mg_sink m' = Some fp
       | Err _ => True
       end)).
Proof.
  intros He Hu. unfold mgr_establish. wp_step. wp_step. destruct tls_client as [[]|err]; [|split; [done|split; [reflexivity|done]]].
  wp_step. apply wp_quiet; [done|done|]. intros g1 ch x m1 R O1 _ [= <- <-] Hr1.
  rewrite (gr_expected _ _ (proj1 Hr1)), He. pose proof (unsent_loses _ _ R Hu) as Hu1.
  wp_step. apply wp_quiet; [done|by left|]. intros g2 ch2 r m2 R2 O2 _ D2 Hr2.
  assert (reach true m m2) as Hr by (by etransitivity). pose proof (unsent_loses _ _ R2 Hu1) as Hu2.
  assert (unsent m2 /\ match r with
    | Ok c => exists k fp, mg_conns m2 !! c = Some k /\ cert_fingerprint (co_peer k) = Some fp /\ mg_sink m2 = Some fp
    | Err _ => True end) as [Hu3 Hc].
  { simpl in D2. destruct ch2; simplify_eq/=; [done|]. apply dial_inv in D2 as (sink & [([? ->] & ->)|(-> & Hv & Hf & ->)]); [done|].
    split.
    - intros c' k Hk. simpl in Hk. apply lookup_insert_Some in Hk as [[<- <-]|[_ Hk]]; [done|by apply (Hu2 c')].
    - unfold verify_server_cert in Hv. destruct (cert_fingerprint cert) as [fp|] eqn:Efp; [|done]. injection Hv as <-.
      eexists _, fp. split; [by apply lookup_insert_eq|]. by split. }
  destruct r as [c|err]; [|split; [done|by split]]. wp_step. apply wp_quiet; [done|done|].
  intros g3 ch3 [] m3 R3 O3 _ D3 Hr3. simpl in D3. injection D3 as <-.
  apply wp_ret. split; [done|]. split; [by etransitivity|]. split; [exact (unsent_loses _ _ R3 Hu3)|].
  destruct Hc as (k & fp & Hk & Hfp & Hsk). destruct R3 as (cs & -> & Hl). simpl.
  destruct (Hl c) as [[? _]|(k0 & K0 & [K|K])]; [congruence|..]; rewrite Hk in K0; injection K0 as <-; by eexists _, fp.
Qed.

(** [c]'s server showed this key. *)
Definition shows (fp : str) (m : mgr) (c : Z) : Prop :=
  exists k, mg_conns m !! c = Some k /\ cert_fingerprint (co_peer k) = Some fp.

Lemma shows_loses fp m m' c : loses m m' -> shows fp m c -> shows fp m' c.
Proof.
  intros Hl (k & Hk & Hf). destruct (gr_conns _ _ (loses_grows _ _ Hl) c k Hk) as (k' & Hk' & Hp & _).
  exists k'. by rewrite Hp.
Qed.

(** What [connect] leaves: the key it enforces, one connection, the saved file. *)
Definition trusted (d : disk) (policy : TofuPolicy) (tty : bool) (input : list (anyhow str)) (m : mgr) : Prop :=
  exists fp kh kh0, mg_expected m = Some fp /\
    kh_load env (mg_disk m) known_hosts_path = Ok kh /\ kh_get kh host_key = Some fp /\
    kh_load env d known_hosts_path = Ok kh0 /\
    (kh_get kh0 host_key = Some fp \/ (kh_get kh0 host_key = None /\ consented policy tty input)).

Definition connected (d : disk) policy tty input (r : anyhow unit) (g : mgr * bool) : Prop :=
  r = Ok tt -> trusted d policy tty input g.1 /\ is_Some (mg_conn g.1) /\ mg_stores g.1 = 1 /\ mg_bumps g.1 = 0.

Lemma wp_connect_rest d policy tty input c m :
  trusted d policy tty input m -> mg_stores m = 0 -> mg_bumps m = 0 -> pinned m c ->
  wp (cm_spec true) (_ <-? mgr_handshake chunk_size client_id c ;; call (ConnSet c) ;;; Ret (Ok tt)) (m, false)
    (connected d policy tty input).
Proof.
  intros Ht Hs Hb Hp. wp_step. eapply wp_mono; [|by apply wp_handshake].
  intros [[]|err] [m1 b1] (E & [Hg Hr] & Hw); simpl in *; subst b1; [|done].
  destruct (Hr eq_refl) as (Hs1 & Hb1 & _). specialize (Hw eq_refl).
  wp_step. wp_step; [split; [done|split; [by eapply pinned_grows|done]]|].
  intros [] [m2 b2] (g1 & ch & R & O1 & _ & D & _). apply wp_ret. intros _. simpl in *. injection D as <-.
  destruct R as (cs & -> & _). simpl. split_and!; [|done|lia|lia].
  destruct Ht as (fp & kh & kh0 & He & Hl & Hrest). exists fp, kh, kh0. simpl.
  rewrite (gr_expected _ _ Hg), (gr_disk _ _ Hg). done.
Qed.

Lemma wp_connect d policy tty input :
  (forall cert fp, cert_fingerprint cert = Some fp -> token fp) -> key_token host_key -> env_read env = Ok tt ->
  wp (cm_spec true) (mgr_connect host_key chunk_size client_id tls_client policy tty input)
    (mgr_new d, false) (connected d policy tty input).
Proof.
  intros Htok Hhost Hread. unfold mgr_connect. wp_step. apply wp_quiet; [done|done|].
  intros g1 ch r m1 R1 _ _ D Hr1. simpl in D. injection D as <- <-.
  assert (mg_disk g1 = d) as -> by (by rewrite (gr_disk _ _ (proj1 Hr1))).
  destruct (proj2 Hr1 eq_refl) as (Hs1 & Hb1 & Hc1). simpl in Hs1, Hb1, Hc1.
  assert (unsent g1) as Hu1 by (by apply (unsent_loses (mgr_new d))).
  destruct (kh_load env d known_hosts_path) as [known|err] eqn:El; [|by intros H].
  wp_step. wp_step; [by split_and!|]. intros [] [m2 b2] (g2 & ch2 & R2 & _ & _ & D2 & _ & _ & E2).
  simpl in *. injection D2 as <-. subst b2.
  pose proof (unsent_loses _ _ R2 Hu1) as Hu2. destruct R2 as (cs & -> & _). simpl.
  assert (mg_disk g1 = d) as Hd1 by (by rewrite (gr_disk _ _ (proj1 Hr1))).
  destruct (kh_get known host_key) as [fp|] eqn:Ep.
  - wp_step. eapply wp_mono; [|by apply (wp_establish true fp)]. intros [c|err] [m3 b3] (E & [Hg Hr] & Hp); [|by intros H].
    simpl in *. subst b3. destruct (Hr eq_refl) as (Hs & Hb & _). simpl in *. wp_step. wp_step.
    apply (wp_connect_rest d policy tty input); [|congruence|congruence|done].
    exists fp, known, known. rewrite (gr_expected _ _ Hg), (gr_disk _ _ Hg). simpl. rewrite Hd1. auto 10.
  - wp_step. eapply wp_mono; [|by apply wp_establish_capture]. intros [c|err] [m3 b3] (E & [Hg Hr] & Hu3 & Hp); [|by intros H].
    simpl in *. subst b3. destruct (Hr eq_refl) as (Hs & Hb & Hc). simpl in *. destruct Hp as (k & fp & Hk & Hfp & Hsk).
    assert (mg_disk m3 = d) as Hd3 by (by rewrite (gr_disk _ _ Hg)).
    wp_step. wp_step. apply wp_quiet; [done|done|]. intros g4 ch4 sink m4 R4 _ _ D4 Hr4. simpl in D4. injection D4 as <- <-.
    assert (shows fp g4 c) as Hs4 by (apply (shows_loses _ _ _ _ R4); by exists k).
    pose proof (unsent_loses _ _ R4 Hu3) as Hu4. destruct R4 as (cs4 & -> & _). simpl in *.
    wp_step. rewrite Hsk. wp_step. cbn [ok_or]. wp_step. wp_step.
    destruct (decide_first_contact policy tty input) as [acc|err] eqn:Edec; [|by intros H].
    destruct acc; simpl; [|wp_step; apply wp_quiet; [done|done|intros; by apply wp_ret]].
    wp_step. wp_step; [done|]. intros r [m5 b5] (g5 & ch5 & R5 & _ & _ & D5 & _ & _ & E5). simpl in *. subst b5.
    pose proof (shows_loses fp (set_sink None _) _ c R5 Hs4) as Hs5.
    pose proof (unsent_loses _ _ R5 Hu4) as Hu5. destruct R5 as (cs5 & -> & _). simpl in *. rewrite Hd3 in D5.
    destruct (kh_save env has_parent d _) as [d'|err] eqn:Esave; injection D5 as <- <-; [|by intros H].
    wp_step. wp_step; [split; [done|split; [done|split; [exact Hu5|simpl; congruence]]]|].
    intros [] [m6 b6] (g6 & ch6 & R6 & _ & _ & D6 & _ & _ & E6). simpl in *. injection D6 as <-. subst b6.
    destruct (shows_loses fp (set_disk d' _) _ c R6 Hs5) as (k6 & Hk6 & Hfp6).
    destruct R6 as (cs6 & -> & _). simpl in *. wp_step.
    apply (wp_connect_rest d policy tty input); simpl; [|congruence|congruence|by exists k6, fp].
    destruct (pin_kept env has_parent d d' known_hosts_path host_key known fp El) as [Hkh Hget];
      [by eapply Htok|done|done|done|].
    eexists fp, _, known. split_and!; [done|exact Hkh|exact Hget|done|]. right. split; [done|by apply decide_consented].
Qed.

(** ** The system *)

(** A task that has stored a new connection and not counted it yet. *)
Definition bumping {A} (p : prog cmE A) : bool := match p with Vis e _ => is_bump e | Ret _ => false end.
Definition in_progress (ts : gmap Z (prog cmE outcome)) : Z := Z.of_nat (size (filter (fun tp => bumping tp.2 = true) ts)).

Lemma in_progress_fresh ts tid p : ts !! tid = None -> in_progress (<[tid := p]> ts) = in_progress ts + Z.b2z (bumping p).
Proof.
  intros Hn. unfold in_progress. destruct (bumping p) eqn:E.
  - rewrite map_filter_insert_True by done. rewrite map_size_insert_None; [simpl; lia|].
    apply map_lookup_filter_None. by left.
  - rewrite map_filter_insert_False by (simpl; congruence). rewrite delete_id by done. simpl. lia.
Qed.

Lemma in_progress_delete ts tid p : ts !! tid = Some p -> in_progress ts = in_progress (delete tid ts) + Z.b2z (bumping p).
Proof.
  intros Hp. rewrite <- (insert_delete_id ts tid p Hp) at 1. apply in_progress_fresh. apply lookup_delete_eq.
Qed.

Lemma in_progress_update ts tid p q :
  ts !! tid = Some p -> in_progress (<[tid := q]> ts) + Z.b2z (bumping p) = in_progress ts + Z.b2z (bumping q).
Proof.
  intros Hp. rewrite (in_progress_delete _ _ _ Hp), <- insert_delete_eq.
  rewrite in_progress_fresh by apply lookup_delete_eq. lia.
Qed.

Lemma in_progress_nonneg ts : 0 <= in_progress ts.
Proof. unfold in_progress. lia. Qed.

Definition caller_ends (o : outcome) (g : mgr * bool) : Prop := g.2 = false /\ outcome_ok o g.1.

(** The mark of a task is what its next call says. *)
Lemma wp_mark (p : prog cmE outcome) m b : wp (cm_spec false) p (m, b) caller_ends -> b = bumping p.
Proof. destruct p as [o|X e k]; [by intros [? _]|]. by intros [[? _] _]. Qed.

Section System.
Variables (d : disk) (policy : TofuPolicy) (tty : bool) (input : list (anyhow str)).
Abbreviation step := (sstep cert_fingerprint env has_parent known_hosts_path chunk_size client_id tls_client).
Abbreviation start := (system_start host_key chunk_size client_id tls_client policy tty input d).

Record shared_ok (m : mgr) (ts : gmap Z (prog cmE outcome)) (dn : list outcome) : Prop := {
  so_trusted : trusted d policy tty input m;
  so_conn : is_Some (mg_conn m);
  so_count : mg_stores m = mg_bumps m + 1 + in_progress ts;
  so_tasks : forall tid p, ts !! tid = Some p -> exists g, grows g m /\ wp (cm_spec false) p (g, bumping p) caller_ends;
  so_done : Forall (fun o => outcome_ok o m) dn
}.

Record system_ok (s : system) : Prop := {
  sk_mgr : mgr_ok (sy_mgr s);
  sk_stage : match sy_stage s with
    | Connecting p => sy_tasks s = ∅ /\ sy_done s = [] /\
        exists g, loses g (sy_mgr s) /\ wp (cm_spec true) p (g, false) (connected d policy tty input)
    | Shared => shared_ok (sy_mgr s) (sy_tasks s) (sy_done s)
    | Refused => sy_tasks s = ∅ /\ sy_done s = []
    end
}.

Lemma trusted_grows m m' : grows m m' -> trusted d policy tty input m -> trusted d policy tty input m'.
Proof.
  intros Hg (fp & kh & kh0 & H). exists fp, kh, kh0. by rewrite (gr_expected _ _ Hg), (gr_disk _ _ Hg).
Qed.

(** What a call does to the counters and the stored connection. *)
Lemma cm_do_counts {X} (e : cmE X) ch m x m' :
  cm_do e ch m = Some (x, m') ->
  mg_stores m' = mg_stores m + Z.b2z (is_store e) /\ mg_bumps m' = mg_bumps m + Z.b2z (is_bump e) /\
  (is_Some (mg_conn m) -> is_Some (mg_conn m')).
Proof.
  intros Hd. destruct e; simpl in Hd; simplify_eq/=; try (split_and!; [lia|lia|done]).
  all: repeat match type of Hd with
       | match ?c with Done => _ | _ => _ end = _ => destruct c; simplify_eq/=
       | match ?r with Ok _ => _ | Err _ => _ end = _ => destruct r; simplify_eq/=
       end; try (split_and!; [lia|lia|done]).
  apply dial_inv in Hd as (sink & [(_ & ->)|(_ & _ & _ & ->)]); simpl; (split_and!; [lia|lia|done]).
Qed.

Lemma shared_call m ts dn tid X (e : cmE X) k ch x m' :
  mgr_ok m -> shared_ok m ts dn -> ts !! tid = Some (Vis e k) -> cm_do e ch m = Some (x, m') ->
  mgr_ok m' /\ shared_ok m' (<[tid := k x]> ts) dn.
Proof.
  intros Hok [Ht Hc Hn Hts Hdn] Htid Hd. destruct (Hts tid _ Htid) as (g & Hg & [_ Ha] & Hk). simpl in Ha.
  apply (allowed_grows e g m Hg) in Ha.
  destruct (cm_do_ok false e ch m x m' Ha Hok Hd) as [Hok' Hgr]. specialize (Hgr ltac:(done)).
  destruct (cm_do_counts e ch m x m' Hd) as (Es & Eb & Hc').
  pose proof (in_progress_nonneg ts) as H0. pose proof (in_progress_delete _ _ _ Htid) as Hdel.
  pose proof (in_progress_nonneg (delete tid ts)) as H1. cbn [bumping] in Hdel.
  assert (mg_bumps m' < mg_stores m') as Hlt by (destruct (is_store e), (is_bump e); simpl in *; lia).
  assert (wp (cm_spec false) (k x) (m', is_store e && negb false) caller_ends) as Hw.
  { apply (Hk x (m', is_store e && negb false)). exists m, ch. split_and!; [done|done|intros _; simpl; lia|done|done|intros _; simpl; lia|done]. }
  pose proof (wp_mark _ _ _ Hw) as Hmark. rewrite andb_true_r in Hmark, Hw.
  split; [done|]. split.
  - by eapply trusted_grows.
  - auto.
  - pose proof (in_progress_update _ _ _ (k x) Htid) as Hup. cbn [bumping] in Hup. rewrite <- Hmark in Hup. lia.
  - intros tid' p [[<- <-]|[Hne Hp]]%lookup_insert_Some.
    + exists m'. split; [reflexivity|]. by rewrite <- Hmark.
    + destruct (Hts tid' p Hp) as (g' & Hg' & Hw'). exists g'. split; [by etransitivity|done].
  - eapply Forall_impl; [done|]. intros o. by apply outcome_ok_grows.
Qed.

Lemma shared_delete m ts dn tid p :
  ts !! tid = Some p -> bumping p = false -> shared_ok m ts dn -> shared_ok m (delete tid ts) dn.
Proof.
  intros Hp Hb [Ht Hc Hn Hts Hdn]. split; [done|done| | |done].
  - rewrite (in_progress_delete _ _ _ Hp), Hb in Hn. simpl in Hn. lia.
  - intros tid' q [_ Hq]%lookup_delete_Some. by apply (Hts tid').
Qed.

Lemma sstep_ok s s' : step s s' -> system_ok s -> system_ok s'.
Proof.
  intros Hs [Hm Hst]. destruct Hs as [m X e k ts dn ch x m' Hd|m r ts dn|m ts dn tid p Hp Hn|m ts dn tid X e k ch x m' Htid Hd
    |m ts dn tid o Htid|m ts dn tid p Htid Hcan|m st ts dn c]; simpl in *.
  - destruct Hst as (E1 & E2 & g & Hl & [Hbump Ha] & Hk). simpl in Ha.
    destruct (cm_do_ok true e ch m x m' (allowed_rely true e g m Hl Ha) Hm Hd) as [Hok _]. split; [done|]. simpl.
    split_and!; [done|done|]. exists m'. split; [reflexivity|]. apply (Hk x (m', false)).
    exists m, ch. split_and!; [done|done|done|done|done|done|by rewrite andb_false_r].
  - split; [done|]. simpl. destruct Hst as (-> & -> & g & Hl & Hw). destruct r as [[]|err]; [|done].
    destruct (Hw eq_refl) as (Ht & Hc & Hs & Hb). pose proof (loses_grows _ _ Hl) as Hg. simpl in *.
    split; [by eapply trusted_grows| | |done|constructor]; destruct Hl as (cs & -> & _); [done|].
    simpl. rewrite Hs, Hb. reflexivity.
  - split; [done|]. simpl. destruct Hst as [Ht Hc Hcnt Hts Hdn].
    assert (wp (cm_spec false) p (m, false) caller_ends) as Hw.
    { destruct Ht as (fp & _ & _ & He & _). by apply (wp_caller fp). }
    pose proof (wp_mark _ _ _ Hw) as Hmark. split; [done|done| | |done].
    + rewrite in_progress_fresh, <- Hmark by done. simpl. lia.
    + intros tid' q [[<- <-]|[_ Hq]]%lookup_insert_Some; [|by apply (Hts tid')]. exists m. split; [reflexivity|].
      by rewrite <- Hmark.
  - destruct (shared_call m ts dn tid X e k ch x m' Hm Hst Htid Hd). by split.
  - split; [done|]. simpl. destruct (shared_delete m ts dn tid _ Htid eq_refl Hst) as [Ht Hc Hcnt Hts Hdn].
    split; [done..|]. constructor; [|done]. destruct (so_tasks _ _ _ Hst tid _ Htid) as (g & Hg & _ & Ho).
    by apply (outcome_ok_grows o g).
  - split; [done|]. simpl. apply (shared_delete m ts dn tid p); [done| |done]. destruct p as [o|X e k]; [done|]. by destruct e.
  - destruct (kill_ok c m Hm) as [Hok Hg]. split; [done|]. simpl. destruct st as [p| |]; [|..|done].
    + destruct Hst as (E1 & E2 & g & Hl & Hw). split_and!; [done|done|]. exists g. split; [|done].
      etransitivity; [exact Hl|apply loses_kill].
    + destruct Hst as [Ht Hc Hcnt Hts Hdn]. split; [by eapply trusted_grows|done|done| |].
      * intros tid p Hp. destruct (Hts tid p Hp) as (g & Hg' & Hw). exists g. split; [by etransitivity|done].
      * eapply Forall_impl; [done|]. intros o. by apply outcome_ok_grows.
Qed.

Hypothesis Htok : forall cert fp, cert_fingerprint cert = Some fp -> token fp.
Hypothesis Hhost : key_token host_key.
Hypothesis Hread : env_read env = Ok tt.

Lemma system_reachable s : rtc step start s -> system_ok s.
Proof.
  intros Hr. cut (system_ok start).
  { revert Hr. generalize start. intros s0 Hr. induction Hr as [|s1 s2 s3 Hs _ IH]; [done|]. intros. by eapply IH, sstep_ok. }
  split.
  - split; simpl; try done.
  - simpl. split_and!; [done|done|]. exists (mgr_new d). split; [reflexivity|]. by apply wp_connect.
Qed.
End System.
End Programs.
End Facts.

(** ** Theorems *)

(** C16: who is spoken to.  Whatever servers the dials reach, whichever connections are
    lost, and however the callers, their reconnects and their deadlines interleave:
    every frame the client ever sent went to a server whose certificate has the
    enforced fingerprint, and it was the handshake request unless that server had
    accepted the handshake on the same connection.  Once [connect] has succeeded the
    enforced fingerprint is the one known_hosts holds for the host, it was there before
    or the user or the policy agreed to it, and the manager holds a connection to its
    owner. *)
Theorem pinned_traffic {C : Codec} cert_fingerprint env has_parent known_hosts_path host_key chunk_size client_id tls_client
    d policy tty input s :
  (forall cert fp, cert_fingerprint cert = Some fp -> token fp) -> key_token host_key -> env_read env = Ok tt ->
  rtc (sstep cert_fingerprint env has_parent known_hosts_path chunk_size client_id tls_client)
      (system_start host_key chunk_size client_id tls_client policy tty input d) s ->
  (forall c k b accepted, mg_conns (sy_mgr s) !! c = Some k -> (b, accepted) ∈ co_sent k ->
     exists fp, mg_expected (sy_mgr s) = Some fp /\ cert_fingerprint (co_peer k) = Some fp /\
       (accepted = true \/ is_hello b)) /\
  (sy_stage s = Shared ->
     exists fp kh kh0 c k, mg_expected (sy_mgr s) = Some fp /\
       kh_load env (mg_disk (sy_mgr s)) known_hosts_path = Ok kh /\ kh_get kh host_key = Some fp /\
       kh_load env d known_hosts_path = Ok kh0 /\
       (kh_get kh0 host_key = Some fp \/ (kh_get kh0 host_key = None /\ consented policy tty input)) /\
       mg_conn (sy_mgr s) = Some c /\ mg_conns (sy_mgr s) !! c = Some k /\
       cert_fingerprint (co_peer k) = Some fp /\ greeted k = true).
Proof.
  intros Htok Hhost Hread Hr. destruct (system_reachable _ _ _ _ _ _ _ _ _ _ _ _ Htok Hhost Hread s Hr) as [Hm Hst]. split.
  - intros c k b acc Hk Hb. pose proof (mo_sent _ _ Hm c k Hk) as Hall.
    destruct (proj1 (Forall_forall _ _) Hall _ Hb) as [(k' & fp & Hk' & He & Hf) Hor]. rewrite Hk in Hk'. injection Hk' as <-.
    exists fp. auto.
  - intros E. rewrite E in Hst. destruct Hst as [(fp & kh & kh0 & He & H1 & H2 & H3 & H4) [c Hc] _ _ _].
    destruct (mo_conn _ _ Hm c Hc) as [(k & fp' & Hk & He' & Hf) [(k' & Hk' & Hg) _]].
    rewrite Hk in Hk'. injection Hk' as <-. rewrite He in He'. injection He' as <-. exists fp, kh, kh0, c, k. by split_and!.
Qed.

(** C17: generations.  The generation counts the connections stored since [connect],
    but for those a task has stored and not counted yet: [reconnect] stores first and
    counts then.  So when a handle was stamped as [ensure_live] does, with the
    generation read {e before} the open, and the stamp is the current generation, at
    most as many connections were stored after the handle's own as there are tasks
    between these two steps; when there is none, the stored connection is the one the
    handle was opened on (for fewer than 2^64 reconnects).  While there is one the
    handle can be taken for live on the new connection: [stale_while_counting]. *)
Theorem reopen_stamp_sound {C : Codec} cert_fingerprint env has_parent known_hosts_path host_key chunk_size client_id tls_client
    d policy tty input s :
  (forall cert fp, cert_fingerprint cert = Some fp -> token fp) -> key_token host_key -> env_read env = Ok tt ->
  rtc (sstep cert_fingerprint env has_parent known_hosts_path chunk_size client_id tls_client)
      (system_start host_key chunk_size client_id tls_client policy tty input d) s ->
  sy_stage s = Shared -> mg_stores (sy_mgr s) < 2 ^ 64 ->
  mg_stores (sy_mgr s) = mg_gen (sy_mgr s) + 1 + in_progress (sy_tasks s) /\
  (forall stamp c, Reopened stamp c ∈ sy_done s -> mg_gen (sy_mgr s) = stamp ->
     (exists k i, mg_conns (sy_mgr s) !! c = Some k /\ co_index k = Some i /\
        mg_stores (sy_mgr s) <= i + 1 + in_progress (sy_tasks s)) /\
     (in_progress (sy_tasks s) = 0 -> mg_conn (sy_mgr s) = Some c)).
Proof.
  intros Htok Hhost Hread Hr E Hlt. destruct (system_reachable _ _ _ _ _ _ _ _ _ _ _ _ Htok Hhost Hread s Hr) as [Hm Hst].
  rewrite E in Hst. destruct Hst as [_ [c0 Hc0] Hcnt _ Hdone]. pose proof (in_progress_nonneg (sy_tasks s)) as H0.
  destruct (mo_counts _ _ Hm) as [Hb _]. assert (mg_gen (sy_mgr s) = mg_bumps (sy_mgr s)) as Hgen.
  { apply wrap_small. unfold in_width. lia. }
  split; [lia|]. intros stamp c Hin Hs. destruct (proj1 (Forall_forall _ _) Hdone _ Hin) as (b & -> & Hb0 & k & i & Hk & Hi & Hle).
  destruct (mo_index _ _ Hm c k i Hk Hi) as [_ Hi']. rewrite wrap_small in Hs by (unfold in_width; lia).
  split; [exists k, i; split_and!; [done|done|lia]|]. intros Hz.
  destruct (mo_conn _ _ Hm c0 Hc0) as (_ & _ & k0 & Hk0 & Hi0). rewrite Hc0. f_equal.
  apply (mo_inj _ _ Hm c0 c k0 k i Hk0 Hk); [|done]. rewrite Hi0. f_equal. lia.
Qed.

(** [mgr_reconnect]'s fuel: the sleeps after nine failed attempts fill the deadline of
    the RPC that is waiting, whatever the attempts took. *)
Lemma attempts_fill_deadline :
  RPC_TIMEOUT <= foldr Z.add 0 (snd (reconnect (replicate ATTEMPTS (Err [])))).
Proof. apply Z.leb_le. by vm_compute. Qed.

(** ** Playing a schedule *)

Inductive event : Type :=
| EvConnect (ch : choice)
| EvConnected
| EvOpen (tid : Z) (p : str)
| EvReopen (tid : Z) (p : str)
| EvPing (tid : Z)
| EvRun (tid : Z) (ch : choice)
| EvReturn (tid : Z)
| EvDeadline (tid : Z)
| EvLost (c : Z).

Section Play.
Context {C : Codec} (cert_fingerprint : bytes -> option str).
Variables (env : disk_env) (has_parent : bool) (known_hosts_path host_key : str).
Variables (chunk_size : Z) (client_id : str) (tls_client : anyhow unit).

Definition spawn (tid : Z) (p : prog cmE outcome) (s : system) : option system :=
  match sy_stage s, sy_tasks s !! tid with
  | Shared, None => Some (MkSystem (sy_mgr s) Shared (<[tid := p]> (sy_tasks s)) (sy_done s))
  | _, _ => None
  end.

Definition mgr_play (s : system) (ev : event) : option system :=
  let '(MkSystem m st ts dn) := s in
  match ev with
  | EvConnect ch =>
      match st with
      | Connecting (Vis e k) =>
          match cm_do cert_fingerprint env has_parent known_hosts_path e ch m with
          | Some (x, m') => Some (MkSystem m' (Connecting (k x)) ts dn)
          | None => None
          end
      | _ => None
      end
  | EvConnected =>
      match st with
      | Connecting (Ret r) => Some (MkSystem m (match r with Ok _ => Shared | Err _ => Refused end) ts dn)
      | _ => None
      end
  | EvOpen tid p => spawn tid (open_caller chunk_size client_id tls_client (open p 0)) s
  | EvReopen tid p => spawn tid (reopen_caller chunk_size client_id tls_client (open p 0)) s
  | EvPing tid => spawn tid (rpc_caller chunk_size client_id tls_client ping) s
  | EvRun tid ch =>
      match st, ts !! tid with
      | Shared, Some (Vis e k) =>
          match cm_do cert_fingerprint env has_parent known_hosts_path e ch m with
          | Some (x, m') => Some (MkSystem m' Shared (<[tid := k x]> ts) dn)
          | None => None
          end
      | _, _ => None
      end
  | EvReturn tid =>
      match st, ts !! tid with
      | Shared, Some (Ret o) => Some (MkSystem m Shared (delete tid ts) (o :: dn))
      | _, _ => None
      end
  | EvDeadline tid =>
      match st, ts !! tid with
      | Shared, Some p => if cancellable p then Some (MkSystem m Shared (delete tid ts) dn) else None
      | _, _ => None
      end
  | EvLost c => Some (MkSystem (at_conn kill c m) st ts dn)
  end.

Fixpoint mgr_plays (s : system) (evs : list event) : option system :=
  match evs with
  | [] => Some s
  | ev :: evs => match mgr_play s ev with Some s => mgr_plays s evs | None => None end
  end.

Lemma spawn_sound tid p s s' :
  caller chunk_size client_id tls_client p -> spawn tid p s = Some s' ->
  sstep cert_fingerprint env has_parent known_hosts_path chunk_size client_id tls_client s s'.
Proof.
  intros Hp. destruct s as [m st ts dn]. unfold spawn. simpl. destruct st; [done| |done].
  destruct (ts !! tid) eqn:E; [done|]. intros [= <-]. by constructor.
Qed.

Lemma mgr_play_sound s ev s' :
  mgr_play s ev = Some s' -> sstep cert_fingerprint env has_parent known_hosts_path chunk_size client_id tls_client s s'.
Proof.
  destruct s as [m st ts dn]. destruct ev; unfold mgr_play; intros H; try (eapply spawn_sound; [|exact H]; constructor).
  - destruct st as [[r|X e k]| |]; try done. destruct (cm_do _ _ _ _ e ch m) as [[x m']|] eqn:E; [|done].
    injection H as <-. by econstructor.
  - destruct st as [[r|X e k]| |]; try done. injection H as <-. constructor.
  - destruct st; try done. destruct (ts !! tid) as [[o|X e k]|] eqn:E; try done.
    destruct (cm_do _ _ _ _ e ch m) as [[x m']|] eqn:E2; [|done]. injection H as <-. by econstructor.
  - destruct st; try done. destruct (ts !! tid) as [[o|X e k]|] eqn:E; try done. injection H as <-. by constructor.
  - destruct st; try done. destruct (ts !! tid) as [p|] eqn:E; [|done]. destruct (cancellable p) eqn:E2; [|done].
    injection H as <-. by econstructor.
  - injection H as <-. constructor.
Qed.

Lemma mgr_plays_sound evs : forall s s', mgr_plays s evs = Some s' ->
  rtc (sstep cert_fingerprint env has_parent known_hosts_path chunk_size client_id tls_client) s s'.
Proof.
  induction evs as [|ev evs IH]; intros s s'; cbn [mgr_plays]; [by intros [= <-]|].
  destruct (mgr_play s ev) as [s1|] eqn:E; [|done]. intros H. eapply rtc_l; [by eapply mgr_play_sound|by apply IH].
Qed.
End Play.

(** ** A server that is restarted *)

Definition demo_cert : bytes := [x01].
Definition demo_host : str := lit "h:9001".

Definition demo_plays (evs : list event) : option system :=
  mgr_plays (C := example_codec) demo_fp good_env true (lit "kh") 65536 (lit "id") (Ok tt)
    (system_start (C := example_codec) demo_host 65536 (lit "id") (Ok tt) PolAcceptNew false [] ∅) evs.

(** The state a schedule ends in. *)
Definition demo_ends (evs : list event) (P : system -> bool) : bool :=
  match demo_plays evs with Some s => P s | None => false end.

Definition demo_welcome : bytes :=
  default [] (encode (Wire := @wire_HandshakeResponse example_codec) (MkHandshakeResponse OP_HANDSHAKE 1 0 1 [] 65536 [] [])).
Definition demo_opened : bytes :=
  default [] (encode (Wire := @wire_OpenResponse example_codec)
    (MkOpenResponse OP_OPEN 2 0 7 (Some (MkStat 5 0 1 0 0 0 0 0 0 0 0)))).

(** [connect] at first contact; its handshake takes the last five. *)
Definition demo_connect : list event :=
  map EvConnect [Done; Done; Done; Reached 0 demo_cert true; Done; Done; Done; Done; Done; Done; Done; Frame demo_welcome; Done]
  ++ [EvConnected].

(** The server restarts; another task's RPC reconnects, up to the counting. *)
Definition demo_restart : list event :=
  [EvLost 0; EvPing 2] ++
  map (EvRun 2) [Done; Done; Done; Reached 1 demo_cert true; Done; Done; Done; Done; Frame demo_welcome; Done; Done]
  ++ [EvDeadline 2].

Definition demo_open_answered (ev : event) : list event :=
  ev :: map (EvRun 1) [Done; Done; Done; Done; Done; Frame demo_opened].

(** The open was answered before the restart; [register_open] reads the generation
    after it.  [ensure_live]'s order, with one more call before the open. *)
Definition demo_register : list event :=
  demo_connect ++ demo_open_answered (EvOpen 1 (lit "/f")) ++ demo_restart ++ [EvRun 1 Done; EvReturn 1].
Definition demo_reopen : list event :=
  demo_connect ++ [EvReopen 1 (lit "/f")] ++ map (EvRun 1) [Done; Done; Done; Done; Done; Done; Frame demo_opened]
  ++ [EvReturn 1].

#[export] Instance outcome_eq_dec : EqDecision outcome.
Proof. solve_decision. Defined.

Definition is_shared (s : system) : bool := match sy_stage s with Shared => true | _ => false end.

(** The caller ended with [o], the generation is [gen], counted, and [c] is stored. *)
Definition demo_is (o : outcome) (gen c : Z) (s : system) : bool :=
  is_shared s && bool_decide (sy_done s = [o] /\ mg_gen (sy_mgr s) = gen /\ mg_conn (sy_mgr s) = Some c /\
    in_progress (sy_tasks s) = 0 /\ mg_stores (sy_mgr s) = gen + 1).

(** A reopened handle, and then the restart: the other task has stored the new
    connection and not counted it. *)
Definition demo_uncounted : list event :=
  demo_reopen ++ [EvLost 0; EvPing 2] ++
  map (EvRun 2) [Done; Done; Done; Reached 1 demo_cert true; Done; Done; Done; Done; Frame demo_welcome; Done].

Definition demo_counting (s : system) : bool :=
  is_shared s && bool_decide (sy_done s = [Reopened 0 0] /\ mg_gen (sy_mgr s) = 0 /\ mg_conn (sy_mgr s) = Some 1 /\
    in_progress (sy_tasks s) = 1).

Lemma demo_uncounted_end : demo_ends demo_uncounted demo_counting = true.
Proof. by vm_compute. Qed.
Lemma demo_register_end : demo_ends demo_register (demo_is (Registered 1 0) 1 1) = true.
Proof. by vm_compute. Qed.
Lemma demo_reopen_end : demo_ends demo_reopen (demo_is (Reopened 0 0) 0 0) = true.
Proof. by vm_compute. Qed.
Lemma demo_reopen_restart_end : demo_ends (demo_reopen ++ demo_restart) (demo_is (Reopened 0 0) 1 1) = true.
Proof. by vm_compute. Qed.

Abbreviation demo_step :=
  (sstep (C := example_codec) demo_fp good_env true (lit "kh") 65536 (lit "id") (Ok tt)).
Abbreviation demo_start :=
  (system_start (C := example_codec) demo_host 65536 (lit "id") (Ok tt) PolAcceptNew false [] ∅).

Lemma demo_ends_at evs P : demo_ends evs P = true -> exists s, rtc demo_step demo_start s /\ P s = true.
Proof.
  unfold demo_ends. destruct (demo_plays evs) as [s|] eqn:E; [|done]. exists s.
  split; [by eapply mgr_plays_sound|done].
Qed.

Lemma demo_reaches evs o gen c :
  demo_ends evs (demo_is o gen c) = true ->
  exists s, rtc demo_step demo_start s /\ sy_stage s = Shared /\ sy_done s = [o] /\ mg_gen (sy_mgr s) = gen /\
    mg_conn (sy_mgr s) = Some c /\ in_progress (sy_tasks s) = 0 /\ mg_stores (sy_mgr s) = gen + 1.
Proof.
  intros (s & Hr & H)%demo_ends_at. exists s. split; [done|]. unfold demo_is, is_shared in H.
  destruct (sy_stage s); [done| |done]. split; [done|].
  by apply bool_decide_eq_true in H as (? & ? & ? & ? & ?).
Qed.

(** [register_open] reads the generation after the open was answered: when another
    task, such as the background flush, reconnects in between, a handle of the old
    connection is recorded as opened in the new generation, and is taken for live from
    then on.  [ensure_live] reads it before the open to rule this out. *)
Lemma registered_stale_as_live :
  exists s, rtc demo_step demo_start s /\ sy_stage s = Shared /\ sy_done s = [Registered 1 0] /\
    mg_gen (sy_mgr s) = 1 /\ mg_conn (sy_mgr s) = Some 1 /\ in_progress (sy_tasks s) = 0.
Proof. destruct (demo_reaches _ _ _ _ demo_register_end) as (s & ? & ? & ? & ? & ? & ? & _). by exists s. Qed.

(** [reconnect] stores the connection before it counts it: in between the handle of the
    lost connection, stamped with the generation that is still current, passes
    [ensure_live]'s test, and its next RPC goes out on the new connection. *)
Lemma stale_while_counting :
  exists s, rtc demo_step demo_start s /\ sy_stage s = Shared /\ sy_done s = [Reopened 0 0] /\
    mg_gen (sy_mgr s) = 0 /\ mg_conn (sy_mgr s) = Some 1 /\ in_progress (sy_tasks s) = 1.
Proof.
  destruct (demo_ends_at _ _ demo_uncounted_end) as (s & Hr & H). exists s. split; [done|].
  unfold demo_counting, is_shared in H. destruct (sy_stage s); [done| |done]. by apply bool_decide_eq_true in H.
Qed.

Lemma pinned_traffic_witness :
  exists s fp c k, rtc demo_step demo_start s /\ mg_expected (sy_mgr s) = Some fp /\ mg_conn (sy_mgr s) = Some c /\
    mg_conns (sy_mgr s) !! c = Some k /\ demo_fp (co_peer k) = Some fp.
Proof.
  destruct (demo_reaches _ _ _ _ demo_reopen_restart_end) as (s & Hr & Hs & _).
  destruct (proj2 (pinned_traffic (C := example_codec) demo_fp good_env true (lit "kh") demo_host 65536 (lit "id") (Ok tt)
    ∅ PolAcceptNew false [] s demo_fp_token demo_host_token eq_refl Hr) Hs)
    as (fp & kh & kh0 & c & k & H1 & _ & _ & _ & _ & H2 & H3 & H4 & _).
  exists s, fp, c, k. split; [exact Hr|]. split; [exact H1|]. split; [exact H2|]. split; [exact H3|exact H4].
Defined.

Lemma reopen_stamp_sound_witness :
  exists s, rtc demo_step demo_start s /\ sy_done s = [Reopened 0 0] /\ mg_conn (sy_mgr s) = Some 0.
Proof.
  destruct (demo_reaches _ _ _ _ demo_reopen_end) as (s & Hr & Hs & Hd & Hg & _ & Hp & Hst).
  exists s. split; [exact Hr|]. split; [exact Hd|].
  refine (proj2 (proj2 (reopen_stamp_sound (C := example_codec) demo_fp good_env true (lit "kh") demo_host 65536 (lit "id") (Ok tt)
    ∅ PolAcceptNew false [] s demo_fp_token demo_host_token eq_refl Hr Hs _) 0 0 _ Hg) Hp).
  - rewrite Hst. reflexivity.
  - rewrite Hd. apply list_elem_of_here.
Defined.
