(* ===== verification/Machine.v ===== *)
(** * The whole server on one file system

    Every connection of [src/server/src/main.rs]'s accept loop, every stream of
    every connection, on the kernel of [Posix]: admission, the TLS check of the
    peer's key, the handshake, a task per stream, deadlines, closes and the end of a
    session, in every interleaving.  The write-lock stripes of [writelock.rs] are
    shared by all connections; a session's handle table is its own.

    A slot ([_permit], [_ip_guard]) is held until [handle_connection] returns;
    stream tasks already spawned run on, and the session goes with the last. *)

From S2P Require Import Prelude Prog Text Status Frames FrameIo Os Sanitize WriteLock Handles Confine Reply MetaOps DataOps CtrlOps Dispatch FileServer ExampleCodec Server BTree Trust Tofu Accept Connection Posix Jail.

(** ** One call on the kernel and a session's table *)

Definition answer (path_hash : path -> Z) {X} (e : sysE X) (k : posix) (t : HandleTable) : X * (posix * HandleTable) :=
  match e in sysE X return X * (posix * HandleTable) with
  | TryInsert p flags fd =>
      let '(m, k) := posix_call _ (FileMetadata fd) k in
      match try_insert path_hash t p flags fd m with
      | (Ok id, t) => (Some id, (k, t))
      | (Err _, t) => (None, (k, t))
      end
  | HandleRemove id => let '(o, t) := ht_remove t id in (o, (k, t))
  | GetFile id => (get_file t id, (k, t))
  | GetWriteCtx id => (get_write_ctx t id, (k, t))
  | e => let '(x, k) := posix_call _ e k in (x, (k, t))
  end.

(** What the task holds after the answer. *)
Definition after (root : path) {X} (e : sysE X) (g : ghost) : X -> ghost :=
  match e in sysE X return X -> ghost with
  | Open p flags mode => fun r => match r with Ok fd => own_add fd (plain_kind root p flags mode) g | Err _ => g end
  | Openat2 _ _ _ _ _ => fun r => match r with Ok fd => own_add fd Beneath g | Err _ => g end
  | Mkdirat fd name mode => fun r => match r with Ok _ => own_add fd (Maker name mode) g | Err _ => g end
  | Close fd => fun _ => own_del fd g
  | TryInsert _ _ fd => fun r => match r with Some _ => own_del fd g | None => g end
  | HandleRemove _ => fun r => match r with Some h => own_add (oh_file h) Beneath g | None => g end
  | GetFile _ => fun r => match r with Some fd => share fd g | None => g end
  | GetWriteCtx _ => fun r =>
      match r with Some (fd, _, key) => with_key fd key (share fd g) | None => g end
  | LockStripe i => fun _ => with_lock (Some i) g
  | UnlockStripe _ => fun _ => with_lock None g
  | SendFrame b => fun r => match r with Ok _ => sent b g | Err _ => g end
  | _ => fun _ => g
  end.

(** ** State *)

(** [handle_connection]: [incoming.await], the handshake, the accept loop over
    streams, returned. *)
Inductive stage : Type := Connecting | Greeting | Accepting | Ended.

#[export] Instance stage_eq_dec : EqDecision stage.
Proof. solve_decision. Defined.

Record mconn := MkMconn {
  mc_ip : Z;
  mc_peer : option (list bytes);          (** the peer's certificates, once TLS is done *)
  mc_stage : stage;
  mc_session : option ClientSession;      (** once the handshake succeeded *)
  mc_table : HandleTable
}.

Definition set_stage (s : stage) (c : mconn) : mconn := MkMconn (mc_ip c) (mc_peer c) s (mc_session c) (mc_table c).
Definition set_table (t : HandleTable) (c : mconn) : mconn := MkMconn (mc_ip c) (mc_peer c) (mc_stage c) (mc_session c) t.

Record mtask := MkMtask { mt_conn : Z; mt_task : task }.

(** A call that was made: for which peer, whether its handshake had succeeded. *)
Record entry := MkEntry { en_peer : option (list bytes); en_served : bool; en_call : any_call }.

Record machine := MkMachine {
  m_kern : posix;
  m_acc : acceptor;
  m_conns : gmap Z mconn;
  m_tasks : gmap Z mtask;
  m_log : list entry;
  m_followed : bool      (** some [fchmodat] ran on a name that was a symbolic link *)
}.

Definition machine_start (cfg : Config) (k : posix) : machine := MkMachine k (acceptor_new cfg) ∅ ∅ [] false.

(** The guards of a connection from [ip] drop. *)
Definition drop_guards (a : acceptor) (ip : Z) : acceptor :=
  match list_find (.= ip) (a_live a) with Some (i, _) => end_conn a i | None => a end.

Section Machine.
Context {C : Codec} (path_hash : path -> Z) (cert_fingerprint : bytes -> option str).
Variables (verifier : AuthorizedKeysVerifier) (root : path) (server_id : str) (cfg : Config).
Abbreviation limits := (from_config cfg).
Abbreviation max_per_ip := (ss_max_conns_per_ip (c_server cfg)).

Definition put_conn (cid : Z) (c : mconn) (m : machine) : machine :=
  MkMachine (m_kern m) (m_acc m) (<[cid := c]> (m_conns m)) (m_tasks m) (m_log m) (m_followed m).
Definition put_task (tid : Z) (t : mtask) (m : machine) : machine :=
  MkMachine (m_kern m) (m_acc m) (m_conns m) (<[tid := t]> (m_tasks m)) (m_log m) (m_followed m).
Definition del_task (tid : Z) (m : machine) : machine :=
  MkMachine (m_kern m) (m_acc m) (m_conns m) (delete tid (m_tasks m)) (m_log m) (m_followed m).
Definition set_acc (a : acceptor) (m : machine) : machine :=
  MkMachine (m_kern m) a (m_conns m) (m_tasks m) (m_log m) (m_followed m).

(** [handle_connection] returns: the guards drop. *)
Definition end_handler (cid : Z) (c : mconn) (m : machine) : machine :=
  set_acc (drop_guards (m_acc m) (mc_ip c)) (put_conn cid (set_stage Ended c) m).

(** The handshake is over. *)
Definition handshaken (cid : Z) (c : mconn) (r : anyhow ClientIdentity) (m : machine) : machine :=
  match r with
  | Ok identity =>
      put_conn cid (MkMconn (mc_ip c) (mc_peer c) Accepting (Some (session_new identity [] limits)) (mc_table c)) m
  | Err _ => end_handler cid c m
  end.

Definition returned (cid : Z) (c : mconn) (o : outcome) (m : machine) : machine :=
  match o, mc_stage c with
  | Handshaken r, Greeting => handshaken cid c r m
  | _, _ => m
  end.

Definition timed_out (cid : Z) (c : mconn) (m : machine) : machine :=
  match mc_stage c with Greeting => end_handler cid c m | _ => m end.

(** Task [tid] makes its call. *)
Definition make_call {X} (tid cid : Z) (c : mconn) (e : sysE X) (cont : X -> sys outcome) (g : ghost) (m : machine) :
    machine :=
  let '(x, (k, t)) := answer path_hash e (m_kern m) (mc_table c) in
  MkMachine k (m_acc m) (<[cid := set_table t c]> (m_conns m))
    (<[tid := MkMtask cid (MkTask (cont x) (after root e g x))]> (m_tasks m))
    (m_log m ++ [MkEntry (mc_peer c) (bool_decide (is_Some (mc_session c))) (AnyCall X e)])
    (m_followed m || follows_link (m_kern m) e).

(** A stripe is waited for as long as any task of any connection holds it. *)
Definition stripe_held (s : Z) (m : machine) : Prop :=
  map_Exists (fun _ t => g_lock (tk_res (mt_task t)) = Some s) (m_tasks m).
Definition waits {X} (e : sysE X) (m : machine) : Prop :=
  match e with LockStripe s => stripe_held s m | _ => False end.

#[export] Instance waits_dec {X} (e : sysE X) m : Decision (waits e m).
Proof.
  destruct e; simpl; try apply _.
Defined.

(** rustls with the verifier as configured: a client must present a certificate,
    the verifier judges the first of the chain, and its key must have signed the
    handshake ([signed], which the crypto provider checks). *)
Definition tls_outcome (chain : list bytes) (signed : bool) : anyhow (option (list bytes)) :=
  match chain with
  | [] => if client_auth_mandatory then Err (lit "peer sent no certificates") else Ok None
  | cert :: _ =>
      let? _ := verify_client_cert cert_fingerprint verifier cert in
      if signed then Ok (Some chain) else Err (lit "bad signature")
  end.

(** [incoming.await] ends with the verdict, and the handshake begins or the
    connection is over. *)
Definition tls_done (cid : Z) (c : mconn) (chain : list bytes) (signed : bool) (tid : Z) (recv : bytes) (m : machine) : machine :=
  match tls_outcome chain signed with
  | Ok peer =>
      put_task tid (MkMtask cid (handshake_task cert_fingerprint root server_id peer recv))
        (put_conn cid (MkMconn (mc_ip c) peer Greeting None (mc_table c)) m)
  | Err _ => end_handler cid c m
  end.

Inductive mstep : machine -> machine -> Prop :=
| ms_incoming m ip cid uuid :
    m_conns m !! cid = None -> fst (accept_conn max_per_ip (m_acc m) ip) = true ->
    mstep m (put_conn cid (MkMconn ip None Connecting None (with_limit uuid (cl_max_open_handles limits)))
               (set_acc (snd (accept_conn max_per_ip (m_acc m) ip)) m))
| ms_refused m ip :
    fst (accept_conn max_per_ip (m_acc m) ip) = false ->
    mstep m (set_acc (snd (accept_conn max_per_ip (m_acc m) ip)) m)
| ms_tls m cid c chain signed tid recv :
    m_conns m !! cid = Some c -> mc_stage c = Connecting -> m_tasks m !! tid = None ->
    mstep m (tls_done cid c chain signed tid recv m)
| ms_tls_failed m cid c :
    m_conns m !! cid = Some c -> mc_stage c = Connecting -> mstep m (end_handler cid c m)
| ms_stream m cid c session tid recv :
    m_conns m !! cid = Some c -> mc_stage c = Accepting -> mc_session c = Some session -> m_tasks m !! tid = None ->
    mstep m (put_task tid (MkMtask cid (stream_task root session recv)) m)
| ms_call m tid cid c X (e : sysE X) cont g :
    m_tasks m !! tid = Some (MkMtask cid (MkTask (Vis e cont) g)) -> m_conns m !! cid = Some c -> ~ waits e m ->
    mstep m (make_call tid cid c e cont g m)
| ms_return m tid cid c o g :
    m_tasks m !! tid = Some (MkMtask cid (MkTask (Ret o) g)) -> m_conns m !! cid = Some c ->
    mstep m (returned cid c o (del_task tid m))
| ms_timeout m tid cid c t :
    m_tasks m !! tid = Some (MkMtask cid t) -> m_conns m !! cid = Some c ->
    mstep m (timed_out cid c (del_task tid m))
| ms_close m cid c :
    m_conns m !! cid = Some c -> mc_stage c = Accepting -> mstep m (end_handler cid c m)
| ms_drop m cid c :
    m_conns m !! cid = Some c -> mc_stage c = Ended -> (forall tid t, m_tasks m !! tid = Some t -> mt_conn t <> cid) ->
    mstep m (MkMachine (m_kern m) (m_acc m) (delete cid (m_conns m)) (m_tasks m) (m_log m) (m_followed m)).
End Machine.

(** ** One call keeps the jail *)

Section Call.
Context (path_hash : path -> Z) (k0 : posix) (J0 : gset Z) (strict : bool) (cs : list str) (r : Z).
Abbreviation root := (RootDir :: map Normal cs).
Abbreviation jailed := (jailed k0 J0 strict).
Abbreviation fd_in := (fd_in k0 J0).

(** The files a task holds: what it opened beneath the root or took from the
    table is inside, its anchors are the root, what it borrowed is inside. *)
Record res_in (k : posix) (g : ghost) : Prop := {
  rn_own fd kind : g_own g !! fd = Some kind -> match kind with Anchor => fd_at k fd r | _ => fd_in k fd end;
  rn_shared fd : fd ∈ g_shared g -> fd_in k fd
}.

Definition tab_in (k : posix) (t : HandleTable) : Prop := forall id h, ht_inner t !! id = Some h -> fd_in k (oh_file h).

Lemma res_in_grows k k' g : grows k k' -> res_in k g -> res_in k' g.
Proof.
  intros Hg [H1 H3]. split; [|intros fd Hf; by eapply grows_in, H3].
  intros fd kind Hf%H1. destruct kind; [by apply Hg|by eapply grows_in..].
Qed.

Lemma tab_in_grows k k' t : grows k k' -> tab_in k t -> tab_in k' t.
Proof. intros Hg H id h Hh. by eapply grows_in, H. Qed.

Lemma res_in_same k g g' : g_own g' = g_own g -> g_shared g' = g_shared g -> res_in k g -> res_in k g'.
Proof. intros Ho Hs [H1 H3]. split; [rewrite Ho|rewrite Hs]; done. Qed.

Lemma res_in_add k g fd kind :
  match kind with Anchor => fd_at k fd r | _ => fd_in k fd end -> res_in k g -> res_in k (own_add fd kind g).
Proof.
  intros Hb [H1 H3]. split; [|exact H3]. intros fd' kind'. simpl. rewrite lookup_insert_Some.
  intros [[<- <-]|[_ ?]]; [done|by apply H1].
Qed.

Lemma res_in_del k g fd : res_in k g -> res_in k (own_del fd g).
Proof. intros [H1 H3]. split; [|exact H3]. intros fd' kind'. simpl. intros [_ ?]%lookup_delete_Some. by apply H1. Qed.

Lemma res_in_share k g fd : fd_in k fd -> res_in k g -> res_in k (share fd g).
Proof. intros Hf [H1 H3]. split; [done|]. simpl. intros fd' [->%elem_of_singleton|?]%elem_of_union; auto. Qed.

Hypothesis Hr : r ∈ J0.
Hypothesis Hleads : leads k0 J0 (k_slash k0) cs r.

Lemma root_inside k : r ∈ inside k0 J0 k.
Proof. by apply elem_of_union_l. Qed.

Lemma anchor_in k fd : fd_at k fd r -> fd_in k fd.
Proof. intros Hf. exists r. split; [done|apply root_inside]. Qed.

Lemma usable_in k g fd : res_in k g -> usable g fd -> fd_in k fd.
Proof. intros [H1 H3] [[kind Hk%H1]|?]; [|by apply H3]. destruct kind; [by apply anchor_in|done..]. Qed.

Lemma owned_in k g fd : res_in k g -> is_Some (g_own g !! fd) -> fd_in k fd.
Proof. intros Hg Hs. by eapply usable_in; [done|left]. Qed.

Lemma maker_in k g fd name mode : res_in k g -> g_own g !! fd = Some (Maker name mode) -> fd_in k fd.
Proof. intros Hg Hs. eapply owned_in; [done|by eexists]. Qed.

Lemma pre_args {X} (e : sysE X) k g :
  res_in k g -> srv_pre false root X e g -> (strict = true -> follows_link k e = false) -> args_in k0 J0 strict k e.
Proof.
  intros Hg Hpre Hs. destruct e; cbn [srv_pre args_in] in *; try done;
    repeat match goal with H : _ /\ _ |- _ => destruct H end; subst; eauto using usable_in, owned_in, maker_in.
  by destruct Hpre as [(_ & -> & _)|(? & _)].
Qed.

(** The jail after the call, the task's files and the table's. *)
Lemma answer_keeps {X} (e : sysE X) k t g :
  jailed k -> res_in k g -> tab_in k t -> srv_pre false root X e g -> (strict = true -> follows_link k e = false) ->
  let '(x, (k', t')) := answer path_hash e k t in
  jailed k' /\ grows k k' /\ res_in k' (after root e g x) /\ tab_in k' t'.
Proof.
  intros Hj Hg Ht Hpre Hs.
  assert (forall Y (x : Y) (k' : posix) g', keeps k0 J0 strict k (x, k') -> g_own g' = g_own g -> g_shared g' = g_shared g ->
    jailed k' /\ grows k k' /\ res_in k' g' /\ tab_in k' t) as Hplain.
  { intros Y x k' g' [Hj' Hgr] Ho Hsh. split_and!; [done|done| |by eapply tab_in_grows].
    eapply res_in_same; [done|done|]. by eapply res_in_grows. }
  pose proof (posix_keeps k0 J0 strict X e k Hj (pre_args e k g Hg Hpre Hs)) as Hk.
  destruct e; cbn [answer after];
    try (destruct (posix_call _ _ k) as [x k'] eqn:Ek; cbn [snd] in *; by eapply Hplain).
  - destruct Hpre as [(-> & -> & ->)|(? & _)]; [|done]. destruct (open_root_keeps k0 J0 strict cs r k Hj Hleads) as [_ Ho].
    destruct (posix_call _ _ k) as [[fd|err] k'] eqn:Ek; [|by eapply Hplain]. destruct Hk as [Hj' Hgr].
    destruct (Ho fd eq_refl) as (_ & i & Hat & ->). split_and!; [done|done| |by eapply tab_in_grows].
    rewrite plain_anchor. apply res_in_add; [done|]. by eapply res_in_grows.
  - destruct Hpre as (Hown & _ & -> & _). assert (fd_in k dirfd) as Hd.
    { apply anchor_in. exact (rn_own _ _ Hg _ _ Hown). }
    destruct (openat2_keeps k0 J0 strict dirfd rel flags mode k Hj Hd) as [_ Ho].
    destruct (posix_call _ _ k) as [[fd|err] k'] eqn:Ek; [|by eapply Hplain]. destruct Hk as [Hj' Hgr].
    destruct (Ho fd eq_refl) as (_ & i & Hat & Hi). split_and!; [done|done| |by eapply tab_in_grows].
    apply res_in_add; [by exists i|]. by eapply res_in_grows.
  - simpl. split_and!; [done|done|by apply res_in_del|done].
  - destruct Hpre as (Hown & _). destruct (posix_call _ _ k) as [[u|err] k'] eqn:Ek; [|by eapply Hplain].
    destruct Hk as [Hj' Hgr]. split_and!; [done|done| |by eapply tab_in_grows].
    apply res_in_add; [|by eapply res_in_grows]. eapply grows_in; [done|]. by eapply owned_in.
  - destruct Hpre as [_ Hown]. cbn [posix_call].
    destruct (try_insert _ _ _ _ _ _) as [[id|err] t'] eqn:E; apply try_insert_inv in E.
    + destruct E as (_ & _ & _ & _ & Hin). split_and!; [done|done|by apply res_in_del|].
      intros id' h. rewrite Hin, lookup_insert_Some. intros [[_ <-]|[_ ?]]; [by eapply owned_in|by eapply Ht].
    + destruct E as [_ ->]. done.
  - simpl. destruct (ht_inner t !! id) as [h|] eqn:Eh; (split_and!; [done|done| |]).
    + apply res_in_add; [by eapply Ht|done].
    + intros id' h'. simpl. intros [_ ?]%lookup_delete_Some. by eapply Ht.
    + done.
    + intros id' h'. simpl. intros [_ ?]%lookup_delete_Some. by eapply Ht.
  - unfold get_file. destruct (ht_inner t !! id) as [h|] eqn:Eh; (split_and!; [done|done| |done]); [|done].
    apply res_in_share; [by eapply Ht|done].
  - unfold get_write_ctx. destruct (ht_inner t !! id) as [h|] eqn:Eh; (split_and!; [done|done| |done]); [|done].
    cbn. apply (res_in_same k (share (oh_file h) g)); [done|done|]. apply res_in_share; [by eapply Ht|done].
  - destruct (posix_call _ _ k) as [[]] eqn:Ek; by eapply Hplain.
Qed.

(** The answer is what the contract promises, if the table's files are not the
    task's. *)
Lemma answer_post {X} (e : sysE X) k t g :
  jailed k -> res_in k g -> srv_pre false root X e g ->
  (forall id h, ht_inner t !! id = Some h -> g_own g !! oh_file h = None) ->
  let '(x, _) := answer path_hash e k t in srv_post false root X e g x (after root e g x).
Proof.
  intros Hj Hg Hpre Hfree.
  assert (forall fd, k_fds k !! fd = None -> g_own g !! fd = None) as Hnew.
  { intros fd Hn. destruct (g_own g !! fd) as [[]|] eqn:E; try done.
    all: destruct (owned_in k g fd Hg ltac:(by eexists)) as (i & (f & Hf & _) & _); congruence. }
  destruct e; cbn [answer after srv_post]; try (by destruct (posix_call _ _ k)).
  - destruct Hpre as [(-> & -> & ->)|(? & _)]; [|done]. destruct (open_root_keeps k0 J0 strict cs r k Hj Hleads) as [_ Ho].
    pose proof (do_open_implemented false (k_slash k) root anchor_flags 0 k) as Himp. cbn [posix_call] in *.
    destruct (do_open _ _ _ _ _ _) as [[fd|err] k'] eqn:Ek; [|done]. destruct (Ho fd eq_refl) as (Hn & _). auto.
  - destruct Hpre as (Hown & _ & -> & _). assert (fd_in k dirfd) as Hd.
    { apply anchor_in. exact (rn_own _ _ Hg _ _ Hown). }
    destruct (openat2_keeps k0 J0 strict dirfd rel flags mode k Hj Hd) as [_ Ho]. cbn [posix_call] in *.
    destruct Hd as (i & (f & Hf & _) & _). rewrite Hf in *.
    pose proof (do_open_implemented true (fd_ino f) rel flags mode k) as Himp.
    change (has_bits confine_flags RESOLVE_BENEATH) with true in *. cbv iota in *.
    destruct (do_open _ _ _ _ _ _) as [[fd|err] k'] eqn:Ek; [|done]. destruct (Ho fd eq_refl) as (Hn & _). auto.
  - by destruct (posix_call _ _ k) as [[]].
  - cbn [posix_call]. by destruct (try_insert _ _ _ _ _ _) as [[id|err] t'].
  - simpl. destruct (ht_inner t !! id) as [h|] eqn:Eh; [|done]. split; [by eapply Hfree|done].
  - by destruct (get_file t id).
  - by destruct (get_write_ctx t id) as [[[]]|].
  - by destruct (posix_call _ _ k) as [[]].
Qed.
End Call.

(** ** The invariant *)

Section Safe.
Context {C : Codec} (path_hash : path -> Z) (cert_fingerprint : bytes -> option str).
Variables (verifier : AuthorizedKeysVerifier) (server_id : str) (cfg : Config).
Context (k0 : posix) (J0 : gset Z) (strict : bool) (cs : list str) (r : Z).
Abbreviation root := (RootDir :: map Normal cs).
Abbreviation step := (mstep path_hash cert_fingerprint verifier root server_id cfg).

(** A peer the TLS layer let in. *)
Definition let_in (peer : option (list bytes)) : Prop :=
  exists cert rest, peer = Some (cert :: rest) /\ verify_client_cert cert_fingerprint verifier cert = Ok tt.

Definition subject_is (peer : option (list bytes)) (o : outcome) : Prop :=
  forall id, o = Handshaken (Ok id) -> ci_subject id = peer_subject cert_fingerprint peer.

(** A task of connection [c]. *)
Record task_inv (k : posix) (c : mconn) (t : task) : Prop := {
  ti_stage : mc_stage c <> Connecting;
  ti_peer : let_in (mc_peer c);
  ti_wp : wp (srv_spec false root) (tk_prog t) (tk_res t) (fun o _ => subject_is (mc_peer c) o);
  ti_send : mc_session c = None -> wp send_only (tk_prog t) tt (fun _ _ => True);
  ti_res : res_in k0 J0 r k (tk_res t)
}.

Record mconn_inv (k : posix) (c : mconn) : Prop := {
  cn_table : tab_in k0 J0 k (mc_table c);
  cn_session s : mc_session c = Some s ->
    mc_stage c <> Connecting /\ let_in (mc_peer c) /\ s_identity s = peer_subject cert_fingerprint (mc_peer c)
}.

(** Who owns a file. *)
Inductive holder : Type := ByTask (tid : Z) | ByTable (cid id : Z).

Definition owns (m : machine) (h : holder) (fd : Z) : Prop :=
  match h with
  | ByTask tid => exists t, m_tasks m !! tid = Some t /\ is_Some (g_own (tk_res (mt_task t)) !! fd)
  | ByTable cid id => exists c o, m_conns m !! cid = Some c /\ ht_inner (mc_table c) !! id = Some o /\ oh_file o = fd
  end.

(** The addresses of the connections that hold a slot. *)
Definition slot_ip (p : Z * mconn) : option Z := if decide (mc_stage (snd p) = Ended) then None else Some (mc_ip (snd p)).
Definition slots (conns : gmap Z mconn) : list Z := omap slot_ip (map_to_list conns).

Definition entry_ok (e : entry) : Prop :=
  let_in (en_peer e) /\ call_safe false root (en_call e) /\ (en_served e = false -> is_send (en_call e)).

Record machine_inv (m : machine) : Prop := {
  mi_jail : jailed k0 J0 strict (m_kern m);
  mi_tasks tid t : m_tasks m !! tid = Some t ->
    exists c, m_conns m !! mt_conn t = Some c /\ task_inv (m_kern m) c (mt_task t);
  mi_conns cid c : m_conns m !! cid = Some c -> mconn_inv (m_kern m) c;
  mi_owns h h' fd : owns m h fd -> owns m h' fd -> h = h';
  mi_lock tid tid' t t' s : m_tasks m !! tid = Some t -> m_tasks m !! tid' = Some t' ->
    g_lock (tk_res (mt_task t)) = Some s -> g_lock (tk_res (mt_task t')) = Some s -> tid = tid';
  mi_log : Forall entry_ok (m_log m);
  mi_acc : accept_inv (Z.max (ss_max_clients (c_server cfg)) 1) (ss_max_conns_per_ip (c_server cfg)) (m_acc m);
  mi_slots : a_live (m_acc m) ≡ₚ slots (m_conns m)
}.

(** ** Small steps of the invariant *)

(** A connection's record may change stage and session; its tasks still fit. *)
Lemma task_inv_conn k c c' t :
  mc_stage c' <> Connecting -> mc_peer c' = mc_peer c -> (mc_session c' = None -> mc_session c = None) ->
  task_inv k c t -> task_inv k c' t.
Proof. intros Hst Hp Hs [H1 H2 H3 H4 H5]. split; rewrite ?Hp; auto. Qed.

Lemma slots_insert conns cid c :
  slots (<[cid := c]> conns) ≡ₚ
  (if decide (mc_stage c = Ended) then [] else [mc_ip c]) ++ slots (delete cid conns).
Proof.
  unfold slots. rewrite <- insert_delete_eq. rewrite map_to_list_insert by apply lookup_delete_eq.
  simpl. unfold slot_ip at 1. simpl. by destruct (decide _).
Qed.

Lemma slots_lookup conns cid c :
  conns !! cid = Some c ->
  slots conns ≡ₚ (if decide (mc_stage c = Ended) then [] else [mc_ip c]) ++ slots (delete cid conns).
Proof. intros H. rewrite <- (insert_id conns cid c) at 1 by done. apply slots_insert. Qed.

(** A stage that keeps the slot keeps the slots. *)
Lemma slots_update conns cid c c' :
  conns !! cid = Some c -> (mc_stage c' = Ended <-> mc_stage c = Ended) -> mc_ip c' = mc_ip c ->
  slots (<[cid := c']> conns) ≡ₚ slots conns.
Proof.
  intros H Hs Hip. rewrite slots_insert, (slots_lookup conns cid c) by done. rewrite Hip.
  destruct (decide (mc_stage c' = Ended)), (decide (mc_stage c = Ended)); by try (exfalso; tauto).
Qed.

Lemma drop_guards_inv mc mip a ip : accept_inv mc mip a -> accept_inv mc mip (drop_guards a ip).
Proof. intros H. unfold drop_guards. destruct (list_find _ _) as [[i x]|]; [by apply end_conn_inv|done]. Qed.

Lemma drop_guards_live a ip l : a_live a ≡ₚ ip :: l -> a_live (drop_guards a ip) ≡ₚ l.
Proof.
  intros Hp. unfold drop_guards. destruct (list_find (.= ip) (a_live a)) as [[i x]|] eqn:E.
  - apply list_find_Some in E as (Hi & -> & _). unfold end_conn. rewrite Hi. simpl.
    apply (Permutation_cons_inv (a := ip)). by rewrite <- Hp, <- delete_Permutation.
  - exfalso. apply list_find_None in E. rewrite Forall_forall in E. apply (E ip); [|done].
    rewrite Hp. by left.
Qed.

(** A connection's record changes, its table and slot do not. *)
Lemma put_conn_inv m cid c c' :
  machine_inv m -> m_conns m !! cid = Some c -> mconn_inv (m_kern m) c' -> mc_table c' = mc_table c ->
  (forall t, task_inv (m_kern m) c t -> task_inv (m_kern m) c' t) ->
  (mc_stage c' = Ended <-> mc_stage c = Ended) -> mc_ip c' = mc_ip c -> machine_inv (put_conn cid c' m).
Proof.
  intros [Hj Ht Hc Ho Hl Hlog Ha Hs] Hcid Hc' Htab Hti Hst Hip. split; simpl; [done| | | |done|done|done|].
  - intros tid t (d & Hd & Hi)%Ht. destruct (decide (mt_conn t = cid)) as [<-|Hne].
    + exists c'. rewrite lookup_insert_eq. split; [done|]. apply Hti. congruence.
    + exists d. by rewrite lookup_insert_ne.
  - intros cid' d [[_ <-]|[_ Hd]]%lookup_insert_Some; [done|by eapply Hc].
  - intros h h' fd H1 H2. assert (forall h, owns (put_conn cid c' m) h fd -> owns m h fd) as Hown; [|by eapply Ho; eauto].
    intros [tid|cid' id]; [done|]. simpl. intros (d & o & [[<- <-]|[_ Hd]]%lookup_insert_Some & Hid & Hfd).
    + rewrite Htab in Hid. eauto.
    + eauto.
  - rewrite Hs. symmetry. by eapply slots_update.
Qed.

(** [handle_connection] returns. *)
Lemma end_handler_inv m cid c :
  machine_inv m -> m_conns m !! cid = Some c -> mc_stage c <> Ended ->
  (mc_stage c = Connecting -> forall tid t, m_tasks m !! tid = Some t -> mt_conn t <> cid) ->
  machine_inv (end_handler cid c m).
Proof.
  intros [Hj Ht Hc Ho Hl Hlog Ha Hs] Hcid Hst Hno. split; simpl; [done| | | |done|done|by apply drop_guards_inv|].
  - intros tid t H. destruct (Ht tid t H) as (d & Hd & Hi). destruct (decide (mt_conn t = cid)) as [<-|Hne].
    + exists (set_stage Ended c). rewrite lookup_insert_eq. split; [done|].
      eapply (task_inv_conn _ d); [done| | |done]; simpl; congruence.
    + exists d. by rewrite lookup_insert_ne.
  - intros cid' d [[_ <-]|[_ Hd]]%lookup_insert_Some; [|by eapply Hc].
    destruct (Hc cid c Hcid) as [H1 H2]. split; [done|]. simpl. intros s Hsn. destruct (H2 s Hsn) as (_ & ? & ?). done.
  - intros h h' fd H1 H2.
    assert (forall h, owns (end_handler cid c m) h fd -> owns m h fd) as Hown; [|by eapply Ho; eauto].
    intros [tid|cid' id]; [done|]. simpl. intros (d & o & [[<- <-]|[_ Hd]]%lookup_insert_Some & Hid & Hfd); eauto.
  - rewrite slots_insert. simpl. apply drop_guards_live. rewrite Hs, (slots_lookup _ cid c) by done.
    by rewrite decide_False.
Qed.

Lemma del_task_inv m tid : machine_inv m -> machine_inv (del_task tid m).
Proof.
  intros [Hj Ht Hc Ho Hl Hlog Ha Hs]. split; simpl; [done| |done| | |done|done|done].
  - intros tid' t [_ H]%lookup_delete_Some. by eapply Ht.
  - intros h h' fd H1 H2. assert (forall h, owns (del_task tid m) h fd -> owns m h fd) as Hown; [|by eapply Ho; eauto].
    intros [tid'|cid' id]; [|done]. simpl. intros (t & [_ H]%lookup_delete_Some & Hs'). eauto.
  - intros a b ta tb s [_ H1]%lookup_delete_Some [_ H2]%lookup_delete_Some. by eapply Hl.
Qed.

(** A new task holds nothing. *)
Lemma put_task_inv m tid cid c t :
  machine_inv m -> m_conns m !! cid = Some c -> task_inv (m_kern m) c t -> tk_res t = ghost0 ->
  m_tasks m !! tid = None -> machine_inv (put_task tid (MkMtask cid t) m).
Proof.
  intros [Hj Ht Hc Ho Hl Hlog Ha Hs] Hcid Hti Hres Hn. split; simpl; [done| |done| | |done|done|done].
  - intros tid' t' [[_ <-]|[_ H]]%lookup_insert_Some; [by exists c|by eapply Ht].
  - intros h h' fd H1 H2.
    assert (forall h, owns (put_task tid (MkMtask cid t) m) h fd -> owns m h fd) as Hown; [|by eapply Ho; eauto].
    intros [tid'|cid' id]; [|done]. simpl. intros (t' & [[_ <-]|[_ H]]%lookup_insert_Some & Hs'); [|eauto].
    simpl in Hs'. rewrite Hres in Hs'. by destruct Hs'.
  - intros a b ta tb s [[<- <-]|[_ H1]]%lookup_insert_Some [[<- <-]|[_ H2]]%lookup_insert_Some; simpl; rewrite ?Hres;
      try done. by eapply Hl.
Qed.

Lemma ghost0_in k : res_in k0 J0 r k ghost0.
Proof. split; simpl; intros fd; [by rewrite lookup_empty..|set_solver]. Qed.

Lemma returned_inv m tid cid c o g :
  machine_inv m -> m_tasks m !! tid = Some (MkMtask cid (MkTask (Ret o) g)) -> m_conns m !! cid = Some c ->
  machine_inv (returned cfg cid c o (del_task tid m)).
Proof.
  intros Hm Htid Hcid. destruct (mi_tasks m Hm tid _ Htid) as (d & Hd & [H1 H2 H3 H4 H5]). simpl in Hd.
  assert (d = c) as -> by congruence. pose proof (del_task_inv m tid Hm) as Hm'. unfold returned.
  destruct o as [|[identity|err]]; [done| |]; destruct (mc_stage c) eqn:Est; try done; simpl.
  - eapply put_conn_inv; [done|done| |done| | |done]; simpl; [|..|by rewrite Est].
    + split; simpl; [apply (mi_conns m Hm cid c Hcid)|]. intros s [= <-]. split_and!; [done|done|]. by apply H3.
    + intros t. by apply task_inv_conn.
  - apply end_handler_inv; [done|done|by rewrite Est|by rewrite Est].
Qed.

Lemma timed_out_inv m tid cid c :
  machine_inv m -> m_conns m !! cid = Some c -> machine_inv (timed_out cid c (del_task tid m)).
Proof.
  intros Hm Hcid. pose proof (del_task_inv m tid Hm). unfold timed_out.
  destruct (mc_stage c) eqn:Est; try done. apply end_handler_inv; [done|done|by rewrite Est|by rewrite Est].
Qed.

(** ** A call *)

(** At most one file changes hands, and its old holder lets go of it. *)
Lemma owns_transfer m m' (N : option (holder * Z)) :
  (forall h h' fd, owns m h fd -> owns m h' fd -> h = h') ->
  (forall h fd, owns m' h fd -> owns m h fd \/ N = Some (h, fd)) ->
  (forall hn fdn, N = Some (hn, fdn) -> exists hf, (forall h, owns m h fdn -> h = hf) /\ (hf = hn \/ ~ owns m' hf fdn)) ->
  forall h h' fd, owns m' h fd -> owns m' h' fd -> h = h'.
Proof.
  intros Hu Hsub HN. assert (forall hn fd, N = Some (hn, fd) -> forall h, owns m' h fd -> h = hn) as Hnew.
  { intros hn fd E h Ho. destruct (HN hn fd E) as (hf & Hf & Hlet). destruct (Hsub h fd Ho) as [Ho'|]; [|congruence].
    apply Hf in Ho' as ->. by destruct Hlet. }
  intros h h' fd H1 H2. destruct (Hsub h fd H1) as [H1'|E]; [|symmetry; by eapply Hnew].
  destruct (Hsub h' fd H2) as [H2'|E]; [by eapply Hu|by eapply Hnew].
Qed.

Lemma owns_open m h fd : machine_inv m -> owns m h fd -> is_Some (k_fds (m_kern m) !! fd).
Proof.
  intros Hm. destruct h as [tid|cid id]; simpl.
  - intros (t & Ht & [kind Hb]). destruct (mi_tasks m Hm tid t Ht) as (c & _ & [_ _ _ _ [H1 _]]).
    specialize (H1 fd kind Hb). destruct kind; [destruct H1 as (f & Hf & _)|destruct H1 as (i & (f & Hf & _) & _)..]; eauto.
  - intros (c & o & Hc & Hid & <-). destruct (cn_table _ _ (mi_conns m Hm cid c Hc) id o Hid) as (i & (f & Hf & _) & _). eauto.
Qed.

Section OneCall.
Context (m : machine) (tid cid : Z) (c : mconn) {X : Type} (e : sysE X) (cont : X -> sys outcome) (g : ghost).
Hypothesis Hm : machine_inv m.
Hypothesis Htid : m_tasks m !! tid = Some (MkMtask cid (MkTask (Vis e cont) g)).
Hypothesis Hcid : m_conns m !! cid = Some c.
Hypothesis Hr : r ∈ J0.
Hypothesis Hleads : leads k0 J0 (k_slash k0) cs r.
Abbreviation m' := (make_call path_hash root tid cid c e cont g m).

Lemma call_task_inv : task_inv (m_kern m) c (MkTask (Vis e cont) g).
Proof. destruct (mi_tasks m Hm tid _ Htid) as (d & Hd & Hi). simpl in Hd. assert (d = c) as -> by congruence. exact Hi. Qed.

Lemma call_pre : srv_pre false root X e g.
Proof. apply (ti_wp _ _ _ call_task_inv). Qed.

Lemma call_free id o : ht_inner (mc_table c) !! id = Some o -> g_own g !! oh_file o = None.
Proof.
  intros Hid. apply eq_None_not_Some. intros Hs.
  assert (ByTask tid = ByTable cid id); [|done]. apply (mi_owns m Hm _ _ (oh_file o)).
  - by eexists.
  - by exists c, o.
Qed.

(** The file that changes hands. *)
Definition transfer : option (holder * Z) :=
  match e in sysE X return X -> option (holder * Z) with
  | Open _ _ _ | Openat2 _ _ _ _ _ => fun x => match x with Ok fd => Some (ByTask tid, fd) | Err _ => None end
  | TryInsert _ _ fd => fun x => match x with Some id => Some (ByTable cid id, fd) | None => None end
  | HandleRemove _ => fun x => match x with Some o => Some (ByTask tid, oh_file o) | None => None end
  | _ => fun _ => None
  end (fst (answer path_hash e (m_kern m) (mc_table c))).

Lemma owns_call_sub h fd : owns m' h fd -> owns m h fd \/ transfer = Some (h, fd).
Proof.
  pose proof call_pre as Hpre.
  unfold transfer, make_call. destruct (answer path_hash e (m_kern m) (mc_table c)) as [x [k t]] eqn:Ea. simpl.
  destruct h as [tid'|cid' id]; simpl.
  - intros (u & [[<- <-]|[_ Hu]]%lookup_insert_Some & Hs); [|left; eauto]. simpl in Hs.
    assert (is_Some (g_own g !! fd) -> exists t, m_tasks m !! tid = Some t /\ is_Some (g_own (tk_res (mt_task t)) !! fd))
      as Hold by (intros; by eexists).
    destruct e; cbn [after] in *; try (left; by apply Hold).
    + destruct x as [fd'|]; [|left; by apply Hold]. simpl in Hs.
      apply lookup_insert_is_Some' in Hs as [->|Hs]; [by right|left; by apply Hold].
    + destruct x as [fd'|]; [|left; by apply Hold]. simpl in Hs.
      apply lookup_insert_is_Some' in Hs as [->|Hs]; [by right|left; by apply Hold].
    + left. simpl in Hs. apply lookup_delete_is_Some in Hs as [_ Hs]. by apply Hold.
    + left. destruct x; [|by apply Hold]. simpl in Hs. apply lookup_insert_is_Some' in Hs as [<-|Hs]; [|by apply Hold].
      apply Hold. apply Hpre.
    + left. apply Hold. destruct x; [|done]. simpl in Hs. by apply lookup_delete_is_Some in Hs as [_ Hs].
    + destruct x as [o|]; [|left; by apply Hold]. simpl in Hs.
      apply lookup_insert_is_Some' in Hs as [->|Hs]; [by right|left; by apply Hold].
    + left. apply Hold. by destruct x.
    + left. apply Hold. by destruct x as [[[]]|].
    + left. apply Hold. by destruct x.
  - intros (d & o & [[<- <-]|[_ Hd]]%lookup_insert_Some & Hid & <-); [|left; eauto]. simpl in Hid.
    assert (ht_inner (mc_table c) !! id = Some o -> exists d o', m_conns m !! cid = Some d /\
      ht_inner (mc_table d) !! id = Some o' /\ oh_file o' = oh_file o) as Hold by (intros; by exists c, o).
    destruct e; cbn [answer] in Ea; try (destruct (posix_call _ _ _) as [y k1]; injection Ea as <- <- <-; left; by apply Hold).
    + cbn [posix_call] in Ea. destruct (try_insert _ _ _ _ _ _) as [[id'|err] t'] eqn:Et; injection Ea as <- <- <-;
        apply try_insert_inv in Et; [|destruct Et as [_ ->]; left; by apply Hold].
      destruct Et as (_ & _ & _ & _ & Hin). rewrite Hin in Hid. apply lookup_insert_Some in Hid as [[<- <-]|[_ Hid]].
      * by right.
      * left. by apply Hold.
    + left. apply Hold. simpl in Ea. injection Ea as <- <- <-. simpl in Hid. by apply lookup_delete_Some in Hid as [_ Hid].
    + injection Ea as <- <- <-. left. by apply Hold.
    + injection Ea as <- <- <-. left. by apply Hold.
Qed.

Lemma owns_call_let hn fdn :
  transfer = Some (hn, fdn) -> exists hf, (forall h, owns m h fdn -> h = hf) /\ (hf = hn \/ ~ owns m' hf fdn).
Proof.
  pose proof call_pre as Hpre. pose proof call_task_inv as [_ _ _ _ Hg]. pose proof (mi_jail m Hm) as Hj. simpl in Hg.
  assert (forall h fd, k_fds (m_kern m) !! fd = None -> owns m h fd -> False) as Hfresh.
  { intros h fd Hn Ho. destruct (owns_open m h fd Hm Ho). congruence. }
  unfold transfer, make_call. destruct e; cbn [answer] in *; try done.
  - destruct Hpre as [(-> & -> & ->)|(? & _)]; [|done]. destruct (open_root_keeps k0 J0 strict cs r _ Hj Hleads) as [_ Ho].
    destruct (posix_call _ _ _) as [[fd|err] k'] eqn:Ek; [|done]. cbn [fst]. intros [= <- <-].
    destruct (Ho fd eq_refl) as (Hn & _). exists (ByTask tid). split; [|by left]. intros h Hh. by destruct (Hfresh h fd).
  - destruct Hpre as (Hown & _ & -> & _). assert (fd_in k0 J0 (m_kern m) dirfd) as Hd.
    { apply (anchor_in k0 J0 r Hr). exact (rn_own _ _ _ _ _ Hg _ _ Hown). }
    destruct (openat2_keeps k0 J0 strict dirfd rel flags mode _ Hj Hd) as [_ Ho].
    destruct (posix_call _ _ _) as [[fd|err] k'] eqn:Ek; [|done]. cbn [fst]. intros [= <- <-].
    destruct (Ho fd eq_refl) as (Hn & _). exists (ByTask tid). split; [|by left]. intros h Hh. by destruct (Hfresh h fd).
  - destruct Hpre as [_ Hown]. cbn [posix_call].
    destruct (try_insert _ _ _ _ _ _) as [[id|err] t'] eqn:Et; [|done]. cbn [fst]. intros [= <- <-].
    exists (ByTask tid). split.
    + intros h Hh. apply (mi_owns m Hm _ _ fd Hh). eexists. split; [done|]. simpl. eauto.
    + right. simpl. intros (u & Hu & Hs). rewrite lookup_insert_eq in Hu. injection Hu as <-. simpl in Hs.
      rewrite lookup_delete_eq in Hs. by destruct Hs.
  - simpl. destruct (ht_inner (mc_table c) !! id) as [o|] eqn:Eo; [|done]. intros [= <- <-].
    exists (ByTable cid id). split.
    + intros h Hh. apply (mi_owns m Hm _ _ (oh_file o) Hh). by exists c, o.
    + right. simpl. intros (d & o' & Hd & Hid & _). rewrite lookup_insert_eq in Hd. injection Hd as <-. simpl in Hid.
      by rewrite lookup_delete_eq in Hid.
Qed.

Lemma after_lock x : g_lock (after root e g x) = match e with LockStripe s => Some s | UnlockStripe _ => None | _ => g_lock g end.
Proof. destruct e; try done; simpl; try (by destruct x). by destruct x as [[[]]|]. Qed.

Lemma make_call_inv :
  ~ waits e m -> (strict = true -> m_followed m' = false) -> machine_inv m'.
Proof.
  intros Hw Hs. pose proof call_pre as Hpre. pose proof call_task_inv as [H1 H2 [_ Hk] H4 Hg].
  pose proof Hm as [Hj Ht Hc Ho Hl Hlog Ha Hsl]. cbn [tk_prog tk_res] in *.
  pose proof owns_call_sub as Hsub. pose proof owns_call_let as Hlet. pose proof after_lock as Hlk.
  assert (forall h h' fd, owns m' h fd -> owns m' h' fd -> h = h') as Hown by (by eapply owns_transfer).
  assert (strict = true -> follows_link (m_kern m) e = false) as Hf.
  { intros E. specialize (Hs E). unfold make_call in Hs. destruct (answer _ _ _ _) as [x [k t]]. simpl in Hs.
    by apply orb_false_iff in Hs as [_ ?]. }
  pose proof (answer_keeps path_hash k0 J0 strict cs r Hr Hleads e (m_kern m) (mc_table c) g Hj Hg
    (cn_table _ _ (Hc cid c Hcid)) Hpre Hf) as Hkeep.
  pose proof (answer_post path_hash k0 J0 strict cs r Hr Hleads e (m_kern m) (mc_table c) g Hj Hg Hpre call_free) as Hpost.
  clear Hsub Hlet. unfold make_call in *. destruct (answer path_hash e (m_kern m) (mc_table c)) as [x [k t]].
  destruct Hkeep as (Hj' & Hgr & Hg' & Ht'). split; cbn [m_kern m_tasks m_conns m_log m_acc]; [done| | |exact Hown| | |done|].
  - intros tid' u [[_ <-]|[_ Hu]]%lookup_insert_Some.
    + exists (set_table t c). simpl. rewrite lookup_insert_eq. split; [done|]. split; simpl; [done|done|by apply Hk| |done].
      intros Hn. by apply (H4 Hn).
    + destruct (Ht tid' u Hu) as (d & Hd & [G1 G2 G3 G4 G5]). destruct (decide (mt_conn u = cid)) as [E|Hne].
      * exists (set_table t c). rewrite E, lookup_insert_eq. split; [done|]. assert (d = c) as -> by congruence.
        split; simpl; try done. by eapply res_in_grows.
      * exists d. rewrite lookup_insert_ne by done. split; [done|]. split; try done. by eapply res_in_grows.
  - intros cid' d [[_ <-]|[_ Hd]]%lookup_insert_Some.
    + split; simpl; [done|apply (Hc cid c Hcid)].
    + destruct (Hc cid' d Hd) as [G1 G2]. split; [by eapply tab_in_grows|done].
  - assert (forall a ta s, a <> tid -> m_tasks m !! a = Some ta -> g_lock (tk_res (mt_task ta)) = Some s ->
      g_lock (after root e g x) = Some s -> False) as Hone.
    { intros a ta s Hne Hta Hls Hgs. rewrite Hlk in Hgs. destruct e; try (by apply Hne; eapply Hl; eauto).
      simplify_eq. apply Hw. by exists a, ta. }
    intros a b ta tb s [[<- <-]|[? Hta]]%lookup_insert_Some [[<- <-]|[? Htb]]%lookup_insert_Some; simpl; intros L1 L2;
      [done|exfalso; eauto|exfalso; eauto|by eapply Hl].
  - apply Forall_app. split; [done|]. constructor; [|done]. split; simpl; [done|].
    split; [by eapply (srv_pre_call_safe path_hash)|]. intros Hn%bool_decide_eq_false.
    destruct (mc_session c) eqn:E; [by destruct Hn|]. apply (H4 eq_refl).
  - rewrite Hsl. symmetry. by eapply slots_update.
Qed.
End OneCall.

Hypothesis Hr : r ∈ J0.
Hypothesis Hleads : leads k0 J0 (k_slash k0) cs r.
Hypothesis Hmax : Z.max (ss_max_clients (c_server cfg)) 1 < 2 ^ 32.

Lemma accepted_live mip a ip :
  a_live (snd (accept_conn mip a ip)) = if fst (accept_conn mip a ip) then ip :: a_live a else a_live a.
Proof. unfold accept_conn. destruct (_ =? 0); [done|]. by destruct (ip_try_acquire _ _ _) as [[]]. Qed.

(** A change of the accept loop's state alone. *)
Lemma set_acc_inv m a :
  machine_inv m -> accept_inv (Z.max (ss_max_clients (c_server cfg)) 1) (ss_max_conns_per_ip (c_server cfg)) a ->
  a_live a = a_live (m_acc m) -> machine_inv (set_acc a m).
Proof. intros [] Ha Hl. split; try done. simpl. by rewrite Hl. Qed.

Lemma incoming_inv m ip cid uuid :
  machine_inv m -> m_conns m !! cid = None -> fst (accept_conn (ss_max_conns_per_ip (c_server cfg)) (m_acc m) ip) = true ->
  machine_inv (put_conn cid (MkMconn ip None Connecting None (with_limit uuid (cl_max_open_handles (from_config cfg))))
    (set_acc (snd (accept_conn (ss_max_conns_per_ip (c_server cfg)) (m_acc m) ip)) m)).
Proof.
  intros [Hj Ht Hc Ho Hl Hlog Ha Hs] Hn Hok. split; simpl; [done| | | |done|done|by apply accept_conn_inv|].
  - intros tid t (d & Hd & Hi)%Ht. exists d. rewrite lookup_insert_ne by congruence. done.
  - intros cid' d [[_ <-]|[_ Hd]]%lookup_insert_Some; [|by eapply Hc]. split; [|done].
    intros id h. simpl. by rewrite lookup_empty.
  - intros h h' fd H1 H2. match type of H1 with owns ?m1 _ _ =>
      assert (forall h, owns m1 h fd -> owns m h fd) as Hown end; [|by eapply Ho; eauto].
    intros [tid|cid' id]; [done|]. simpl. intros (d & o & [[<- <-]|[_ Hd]]%lookup_insert_Some & Hid & Hfd); [|eauto].
    simpl in Hid. by rewrite lookup_empty in Hid.
  - rewrite accepted_live, Hok, Hs, slots_insert, delete_id by done. done.
Qed.

(** What the TLS layer lets in was judged by the verifier. *)
Lemma tls_outcome_let_in chain signed peer :
  tls_outcome cert_fingerprint verifier chain signed = Ok peer -> let_in peer.
Proof.
  destruct chain as [|cert rest]; [done|]. simpl. intros ([] & Hv & H)%res_bind_Ok_inv.
  destruct signed; [|done]. injection H as <-. by exists cert, rest.
Qed.

Lemma connecting_end_inv m cid c :
  machine_inv m -> m_conns m !! cid = Some c -> mc_stage c = Connecting -> machine_inv (end_handler cid c m).
Proof.
  intros Hm Hcid Hst. apply end_handler_inv; [done|done|by rewrite Hst|]. intros _ tid t Ht E.
  destruct (mi_tasks m Hm tid t Ht) as (d & Hd & [G1 _ _ _ _]). congruence.
Qed.

Lemma mstep_inv {EL : EnvelopeLaws C} m m' :
  machine_inv m -> (strict = true -> m_followed m' = false) -> step m m' -> machine_inv m'.
Proof.
  intros Hm Hf Hstep. destruct Hstep as
    [m ip cid uuid Hn Hok|m ip Hok|m cid c chain signed tid recv Hcid Hst Htid|m cid c Hcid Hst
    |m cid c session tid recv Hcid Hst Hse Htid|m tid cid c X e cont g Htid Hcid Hw|m tid cid c o g Htid Hcid
    |m tid cid c t Htid Hcid|m cid c Hcid Hst|m cid c Hcid Hst Hno].
  - by apply incoming_inv.
  - apply set_acc_inv; [done|apply accept_conn_inv; [done|apply Hm]|]. by rewrite accepted_live, Hok.
  - unfold tls_done. destruct (tls_outcome _ _ chain signed) as [peer|err] eqn:Etls; [|by apply connecting_end_inv].
    apply tls_outcome_let_in in Etls. eapply put_task_inv; [|apply lookup_insert_eq| |done|done].
    + eapply put_conn_inv; [done|done| |done| | |done]; simpl.
      * split; [apply (mi_conns m Hm cid c Hcid)|done].
      * intros t [G1 _ _ _ _]. done.
      * by rewrite Hst.
    + destruct (handshake_task_ok cert_fingerprint root server_id peer false recv) as [W1 W2].
      split; simpl; [done|done| |done|apply ghost0_in]. eapply wp_mono; [|exact W1].
      intros o g' ((res & -> & Hid) & _) id [= ->]. by apply Hid.
  - by apply connecting_end_inv.
  - destruct (cn_session _ _ (mi_conns m Hm cid c Hcid) session Hse) as (_ & Hin & _).
    eapply put_task_inv; [done|done| |done|done]. split; simpl; [by rewrite Hst|done| |by rewrite Hse|apply ghost0_in].
    eapply wp_mono; [|exact (stream_task_ok root false session recv)]. intros o g' (-> & _) id. done.
  - by apply make_call_inv.
  - by eapply returned_inv.
  - by eapply timed_out_inv.
  - apply end_handler_inv; [done|done|by rewrite Hst|by rewrite Hst].
  - destruct Hm as [Hj Ht Hc Ho Hl Hlog Ha Hs]. split; simpl; [done| | | |done|done|done|].
    + intros tid t H. destruct (Ht tid t H) as (d & Hd & Hi). exists d. rewrite lookup_delete_ne; [done|].
      intros E. by eapply Hno.
    + intros cid' d [_ Hd]%lookup_delete_Some. by eapply Hc.
    + intros h h' fd H1 H2. match type of H1 with owns ?m1 _ _ =>
        assert (forall h, owns m1 h fd -> owns m h fd) as Hown end; [|by eapply Ho; eauto].
      intros [tid|cid' id]; [done|]. simpl. intros (d & o & [_ Hd]%lookup_delete_Some & Hid & Hfd). eauto.
    + rewrite Hs, (slots_lookup _ cid c) by done. by rewrite decide_True.
Qed.
End Safe.

(** ** Theorems *)

Section Reach.
Context {C : Codec} {EL : EnvelopeLaws C} (path_hash : path -> Z) (cert_fingerprint : bytes -> option str).
Variables (verifier : AuthorizedKeysVerifier) (server_id : str) (cfg : Config).
Context (k0 : posix) (J0 : gset Z) (cs : list str) (r : Z).
Abbreviation root := (RootDir :: map Normal cs).
Abbreviation step := (mstep path_hash cert_fingerprint verifier root server_id cfg).
Hypothesis Hex : exports k0 J0 cs r.
Hypothesis Hip : 0 <= ss_max_conns_per_ip (c_server cfg).
Hypothesis Hmax : ss_max_clients (c_server cfg) < 2 ^ 32.

Lemma followed_grows m m' : step m m' -> m_followed m' = false -> m_followed m = false.
Proof.
  destruct 1 as [| |m cid c chain signed tid recv| | |m tid cid c X e cont g| m tid cid c o g|m tid cid c t| |]; try done; simpl.
  - unfold tls_done. by destruct (tls_outcome _ _ _ _).
  - unfold make_call. destruct (answer _ _ _ _) as [x [k t]]. simpl. by intros [? _]%orb_false_iff.
  - unfold returned, handshaken. destruct o as [|[]], (mc_stage c); done.
  - unfold timed_out. by destruct (mc_stage c).
Qed.

Lemma start_machine_inv strict : machine_inv cert_fingerprint verifier cfg k0 J0 strict cs r (machine_start cfg k0).
Proof.
  split; simpl; try done.
  - apply jailed_start. intros d e c i. by apply (ex_closed _ _ _ _ Hex).
  - intros h h' fd. destruct h as [tid|cid id]; simpl; [intros (t & Ht & _)|intros (c & o & Hc & _)].
    + by rewrite lookup_empty in Ht.
    + by rewrite lookup_empty in Hc.
  - by apply accept_inv_new.
Qed.

Lemma machine_reachable strict m :
  rtc step (machine_start cfg k0) m -> (strict = true -> m_followed m = false) ->
  machine_inv cert_fingerprint verifier cfg k0 J0 strict cs r m.
Proof.
  revert m. refine (rtc_ind_r _ _ _ _); [intros _; apply start_machine_inv|].
  intros m m' _ Hstep IH Hs. assert (Z.max (ss_max_clients (c_server cfg)) 1 < 2 ^ 32) as Hm by lia.
  apply (mstep_inv path_hash cert_fingerprint verifier server_id cfg k0 J0 strict cs r (ex_root _ _ _ _ Hex)
    (ex_leads _ _ _ _ Hex) Hm m m'); [|done|done]. apply IH. intros E. by eapply followed_grows, Hs.
Qed.
End Reach.

(** C2: nothing outside the export changes.  Whatever connections arrive and
    whatever their peers send, however the calls of all their tasks interleave on a
    Linux file system, and whatever links, renames and hard links the clients make
    on the way: every inode that was there at the start and was not exported keeps
    its kind, its contents or entries, its owner and its times; its mode too, unless
    an [fchmodat] of [mkdir_confined] ran on a name that had become a symbolic link.
    No exported directory ever lists an inode from outside, and every file a task
    may use, or a handle table holds, is inside. *)
Theorem export_confined {C : Codec} {EL : EnvelopeLaws C} path_hash cert_fingerprint verifier server_id cfg
    k0 J0 cs r m :
  exports k0 J0 cs r -> 0 <= ss_max_conns_per_ip (c_server cfg) -> ss_max_clients (c_server cfg) < 2 ^ 32 ->
  rtc (mstep path_hash cert_fingerprint verifier (RootDir :: map Normal cs) server_id cfg) (machine_start cfg k0) m ->
  (forall i n, k_nodes k0 !! i = Some n -> i ∉ J0 ->
     exists n', k_nodes (m_kern m) !! i = Some n' /\ set_imode 0 n' = set_imode 0 n /\ (m_followed m = false -> n' = n)) /\
  (forall d e c i, d ∈ inside k0 J0 (m_kern m) -> ents_at (m_kern m) d = Some e -> e !! c = Some i ->
     i ∈ inside k0 J0 (m_kern m)) /\
  (forall tid t fd, m_tasks m !! tid = Some t -> usable (tk_res (mt_task t)) fd -> fd_in k0 J0 (m_kern m) fd) /\
  (forall cid c id h, m_conns m !! cid = Some c -> ht_inner (mc_table c) !! id = Some h ->
     fd_in k0 J0 (m_kern m) (oh_file h)).
Proof.
  intros Hex Hip Hmax Hreach.
  assert (forall strict, (strict = true -> m_followed m = false) ->
    machine_inv cert_fingerprint verifier cfg k0 J0 strict cs r m) as Hinv by (intros; by eapply machine_reachable).
  pose proof (Hinv false ltac:(done)) as Hm. split_and!.
  - intros i n Hn Hi. assert (i ∉ inside k0 J0 (m_kern m)) as Hout.
    { assert (i ∈ dom (k_nodes k0)) by (apply elem_of_dom; eauto). unfold inside. set_solver. }
    pose proof (j_outside _ _ _ _ (mi_jail _ _ _ _ _ _ _ _ _ Hm) i Hout) as Hs. unfold same in Hs. rewrite Hn in Hs.
    destruct (k_nodes (m_kern m) !! i) as [n'|] eqn:En; [|done]. exists n'. split_and!; [done|cbn in Hs; congruence|].
    intros Hf. pose proof (j_outside _ _ _ _ (mi_jail _ _ _ _ _ _ _ _ _ (Hinv true (fun _ => Hf))) i Hout) as Hs'.
    unfold same in Hs'. congruence.
  - apply (j_closed _ _ _ _ (mi_jail _ _ _ _ _ _ _ _ _ Hm)).
  - intros tid t fd Ht Hu. destruct (mi_tasks _ _ _ _ _ _ _ _ _ Hm tid t Ht) as (c & _ & Hi). eapply usable_in; [apply Hex|apply Hi|done].
  - intros cid c id h Hc. apply (cn_table _ _ _ _ _ _ (mi_conns _ _ _ _ _ _ _ _ _ Hm cid c Hc)).
Qed.

(** C3: who may act.  A connection gets past TLS only by presenting a certificate the
    verifier of [authorized_keys] lets through, and its session under that key's
    fingerprint.  So at every moment, every call the server has made for a peer was
    made for one whose key's fingerprint is listed in [authorized_keys], or, only if
    the list is empty and [allow_any_client] is set, for one with any key; before the
    peer's handshake succeeded only answer frames were sent; and every path and name
    in the calls is one the contract allows: lexically beneath the export root, or a
    single safe component.  No more than [max_clients] connections hold a slot, nor
    more than [max_conns_per_ip] of one address. *)
Theorem only_accepted_peers_act {C : Codec} {EL : EnvelopeLaws C} path_hash cert_fingerprint verifier server_id cfg
    k0 J0 cs r m :
  exports k0 J0 cs r -> validate cfg = Ok tt -> 0 <= ss_max_conns_per_ip (c_server cfg) ->
  0 <= ss_max_clients (c_server cfg) < 2 ^ 32 ->
  rtc (mstep path_hash cert_fingerprint verifier (RootDir :: map Normal cs) server_id cfg) (machine_start cfg k0) m ->
  Forall (fun en => (exists cert rest fp, en_peer en = Some (cert :: rest) /\ cert_fingerprint cert = Some fp /\
                       (fp ∈ (ak_fingerprints (akv_authorized verifier)).*1 \/
                        ak_fingerprints (akv_authorized verifier) = [] /\ akv_allow_any verifier = true)) /\
                    call_safe false (RootDir :: map Normal cs) (en_call en) /\
                    (en_served en = false -> is_send (en_call en))) (m_log m) /\
  (forall cid c s, m_conns m !! cid = Some c -> mc_session c = Some s ->
     exists cert rest, mc_peer c = Some (cert :: rest) /\ cert_fingerprint cert = Some (s_identity s)) /\
  zlen (slots (m_conns m)) <= ss_max_clients (c_server cfg) /\
  (ss_max_conns_per_ip (c_server cfg) <> 0 -> forall ip,
     count_ip ip (slots (m_conns m)) <= ss_max_conns_per_ip (c_server cfg)).
Proof.
  intros Hex Hv Hip Hmax Hreach.
  assert (machine_inv cert_fingerprint verifier cfg k0 J0 false cs r m) as Hm by (eapply machine_reachable; [done|done|lia|done|done]).
  assert (ss_max_clients (c_server cfg) <> 0) as Hnz.
  { unfold validate in Hv. destruct (_ =? 0) eqn:E; [done|]. by apply Z.eqb_neq in E. }
  destruct Hm as [_ _ Hc _ _ Hlog Ha Hs]. rewrite Z.max_l in Ha by lia. split_and!.
  - eapply Forall_impl; [exact Hlog|]. intros en ((cert & rest & Hp & Hver) & Hsafe & Hserved).
    split; [|by split]. apply verify_client_listed in Hver as (fp & Hfp & Hin). by exists cert, rest, fp.
  - intros cid c s Hcid Hse. destruct (cn_session _ _ _ _ _ _ (Hc cid c Hcid) s Hse) as (_ & (cert & rest & Hp & Hver) & ->).
    apply verify_client_listed in Hver as (fp & Hfp & _). exists cert, rest. split; [done|].
    rewrite Hp. unfold peer_subject. simpl. by rewrite Hfp.
  - rewrite <- Hs. pose proof (ai_permits _ _ _ Ha). pose proof (ai_nonneg _ _ _ Ha). lia.
  - intros Hnz' ip. unfold count_ip. rewrite <- Hs. by apply (ai_limit _ _ _ Ha).
Qed.

(** C13: writes exclude each other, and the server goes on.  In every reachable state
    two tasks, of whatever connections, that are about to write are about to write to
    files of different stripes; and while tasks run, one of them can take its next
    step: no task waits for a stripe while it holds one. *)
Theorem machine_live {C : Codec} {EL : EnvelopeLaws C} path_hash cert_fingerprint verifier server_id cfg
    k0 J0 cs r m :
  exports k0 J0 cs r -> 0 <= ss_max_conns_per_ip (c_server cfg) -> ss_max_clients (c_server cfg) < 2 ^ 32 ->
  rtc (mstep path_hash cert_fingerprint verifier (RootDir :: map Normal cs) server_id cfg) (machine_start cfg k0) m ->
  (forall tid tid' cid cid' fd fd' data data' cont cont' g g' key key', tid <> tid' ->
     m_tasks m !! tid = Some (MkMtask cid (MkTask (Vis (WriteAll fd data) cont) g)) ->
     m_tasks m !! tid' = Some (MkMtask cid' (MkTask (Vis (WriteAll fd' data') cont') g')) ->
     g_key g !! fd = Some key -> g_key g' !! fd' = Some key' -> stripe_for key <> stripe_for key') /\
  (m_tasks m <> ∅ -> exists tid t, m_tasks m !! tid = Some t /\ is_Some (m_conns m !! mt_conn t) /\
     match tk_prog (mt_task t) with Ret _ => True | Vis e _ => ~ waits e m end).
Proof.
  intros Hex Hip Hmax Hreach.
  assert (machine_inv cert_fingerprint verifier cfg k0 J0 false cs r m) as Hm by (by eapply machine_reachable).
  pose proof (mi_tasks _ _ _ _ _ _ _ _ _ Hm) as Ht. split.
  - intros tid tid' cid cid' fd fd' data data' cont cont' g g' key key' Hne H1 H2 K1 K2 E. apply Hne.
    destruct (Ht tid _ H1) as (c & _ & [_ _ [(_ & k1 & Hk1 & L1) _] _ _]).
    destruct (Ht tid' _ H2) as (c' & _ & [_ _ [(_ & k2 & Hk2 & L2) _] _ _]). cbn in *.
    eapply (mi_lock _ _ _ _ _ _ _ _ _ Hm); [exact H1|exact H2| |]; simpl; [exact L1|]. rewrite L2. congruence.
  - intros (tid & t & Htid)%map_choose. destruct (Ht tid t Htid) as (c & Hc & Hi).
    destruct (tk_prog (mt_task t)) as [o|X e cont] eqn:Ep; [exists tid, t; rewrite Ep; eauto|].
    destruct (decide (waits e m)) as [Hw|Hw]; [|exists tid, t; rewrite Ep; eauto].
    destruct e; try done. destruct Hw as (tid' & t' & Ht' & Hl). destruct (Ht tid' t' Ht') as (c' & Hc' & Hi').
    exists tid', t'. split; [done|]. split; [by eexists|].
    pose proof (ti_wp _ _ _ _ _ _ _ _ _ Hi') as Hw'. destruct (tk_prog (mt_task t')) as [o|Y e' cont']; [done|].
    destruct Hw' as [Hpre _]. intros Hw. destruct e'; try done. destruct Hpre as [Hn _]. congruence.
Qed.

(** ** Schedules *)

Inductive event : Type :=
| EvIncoming (ip cid uuid : Z)
| EvTls (cid : Z) (chain : list bytes) (signed : bool) (tid : Z) (recv : bytes)
| EvStream (cid tid : Z) (recv : bytes)
| EvRun (tid : Z)
| EvTimeout (tid : Z)
| EvClose (cid : Z).

Section Play.
Context {C : Codec} (path_hash : path -> Z) (cert_fingerprint : bytes -> option str).
Variables (verifier : AuthorizedKeysVerifier) (root : path) (server_id : str) (cfg : Config).
Abbreviation step := (mstep path_hash cert_fingerprint verifier root server_id cfg).

Definition play (m : machine) (ev : event) : option machine :=
  match ev with
  | EvIncoming ip cid uuid =>
      match m_conns m !! cid, accept_conn (ss_max_conns_per_ip (c_server cfg)) (m_acc m) ip with
      | None, (true, a) =>
          Some (put_conn cid (MkMconn ip None Connecting None (with_limit uuid (cl_max_open_handles (from_config cfg))))
                  (set_acc a m))
      | _, (false, a) => Some (set_acc a m)
      | _, _ => None
      end
  | EvTls cid chain signed tid recv =>
      c ← m_conns m !! cid;
      match mc_stage c, m_tasks m !! tid with
      | Connecting, None => Some (tls_done cert_fingerprint verifier root server_id cid c chain signed tid recv m)
      | _, _ => None
      end
  | EvStream cid tid recv =>
      c ← m_conns m !! cid; session ← mc_session c;
      match mc_stage c, m_tasks m !! tid with
      | Accepting, None => Some (put_task tid (MkMtask cid (stream_task root session recv)) m)
      | _, _ => None
      end
  | EvRun tid =>
      match m_tasks m !! tid with
      | Some (MkMtask cid (MkTask (Vis e cont) g)) =>
          c ← m_conns m !! cid; if decide (waits e m) then None else Some (make_call path_hash root tid cid c e cont g m)
      | Some (MkMtask cid (MkTask (Ret o) g)) => c ← m_conns m !! cid; Some (returned cfg cid c o (del_task tid m))
      | None => None
      end
  | EvTimeout tid =>
      t ← m_tasks m !! tid; c ← m_conns m !! mt_conn t; Some (timed_out (mt_conn t) c (del_task tid m))
  | EvClose cid =>
      c ← m_conns m !! cid; match mc_stage c with Accepting => Some (end_handler cid c m) | _ => None end
  end.

Fixpoint plays (m : machine) (evs : list event) : option machine :=
  match evs with
  | [] => Some m
  | ev :: evs => m ← play m ev; plays m evs
  end.

Lemma play_sound m ev m' : play m ev = Some m' -> step m m'.
Proof.
  destruct ev as [ip cid uuid|cid chain signed tid recv|cid tid recv|tid|tid|cid]; simpl.
  - destruct (accept_conn _ _ _) as [[] a] eqn:Ea.
    + destruct (m_conns m !! cid) eqn:Ec; [done|]. intros [= <-].
      replace a with (snd (accept_conn (ss_max_conns_per_ip (c_server cfg)) (m_acc m) ip)) by (by rewrite Ea).
      apply ms_incoming; [done|by rewrite Ea].
    + intros H. assert (m' = set_acc a m) as -> by (destruct (m_conns m !! cid); congruence).
      replace a with (snd (accept_conn (ss_max_conns_per_ip (c_server cfg)) (m_acc m) ip)) by (by rewrite Ea).
      apply ms_refused. by rewrite Ea.
  - destruct (m_conns m !! cid) as [c|] eqn:Ec; [|done]. simpl. destruct (mc_stage c) eqn:Es; try done.
    destruct (m_tasks m !! tid) eqn:Et; [done|]. intros [= <-]. by apply ms_tls.
  - destruct (m_conns m !! cid) as [c|] eqn:Ec; [|done]. simpl. destruct (mc_session c) eqn:Ese; [|done]. simpl.
    destruct (mc_stage c) eqn:Es; try done. destruct (m_tasks m !! tid) eqn:Et; [done|]. intros [= <-]. by eapply ms_stream.
  - destruct (m_tasks m !! tid) as [[cid [[o|X e cont] g]]|] eqn:Et; [| |done];
      (destruct (m_conns m !! cid) as [c|] eqn:Ec; [|done]); simpl.
    + intros [= <-]. by eapply ms_return.
    + case_decide; [done|]. intros [= <-]. by apply ms_call.
  - destruct (m_tasks m !! tid) as [[cid t]|] eqn:Et; [|done]. simpl. destruct (m_conns m !! cid) as [c|] eqn:Ec; [|done].
    intros [= <-]. by eapply ms_timeout.
  - destruct (m_conns m !! cid) as [c|] eqn:Ec; [|done]. simpl. destruct (mc_stage c) eqn:Es; try done.
    intros [= <-]. by apply ms_close.
Qed.

Lemma plays_sound evs m m' : plays m evs = Some m' -> rtc step m m'.
Proof.
  revert m. induction evs as [|ev evs IH]; intros m; simpl; [intros [= <-]; apply rtc_refl|].
  destruct (play m ev) as [m1|] eqn:E; [|done]. simpl. intros H. eapply rtc_l; [by eapply play_sound|]. by apply IH.
Qed.
End Play.

(** A machine that exports [/srv] and has a secret elsewhere. *)
Definition lab_kernel : posix :=
  MkPosix
    (<[1 := new_inode (KDir {[lit "srv" := 2; lit "etc" := 3]}) 0x1ed]>
     (<[2 := new_inode (KDir ∅) 0x1ed]>
      (<[3 := new_inode (KDir {[lit "secret" := 4]}) 0x1ed]>
       {[4 := new_inode (KFile [x41]) 0x180]})))
    ∅ 1 0 (MkStatvfs 0 0 0 0 0 0 0 0).

Definition lab_config : Config := config_of (lit "0.0.0.0:9001") (lit "/srv").
Definition lab_fp (cert : bytes) : option str := Some (lit "SHA256:alice").
Definition lab_verifier : AuthorizedKeysVerifier := MkVerifier (MkAuthorizedKeys [] [(lit "SHA256:alice", [])]) false.

Lemma lab_exports : exports lab_kernel {[2]} [lit "srv"] 2.
Proof.
  split.
  - set_solver.
  - split; [set_solver|]. exists {[lit "srv" := 2; lit "etc" := 3]}, 2. split_and!; [done|by vm_compute|by eexists|done].
  - intros d e c i ->%elem_of_singleton. change (ents_at lab_kernel 2) with (Some (∅ : gmap (list Z) Z)).
    intros [= <-]. by rewrite lookup_empty.
Qed.

Definition lab_mkdir : bytes :=
  framed (Wire0 := @wire_MkDirRequest example_codec) (MkMkDirRequest OP_MKDIR 1 (lit "d") 0x1ff).
Definition lab_rmdir : bytes :=
  framed (Wire0 := @wire_PathRequest example_codec) (MkPathRequest OP_RMDIR 2 (lit "d")).
Definition lab_symlink : bytes :=
  framed (Wire0 := @wire_SymlinkRequest example_codec) (MkSymlinkRequest OP_SYMLINK 3 (lit "/etc/secret") (lit "d")).

Definition lab_plays (evs : list event) : option machine :=
  plays (C := example_codec) (fun _ => 0) lab_fp lab_verifier [RootDir; Normal (lit "srv")] (lit "srv") lab_config
    (machine_start lab_config lab_kernel) evs.

(** Two connections of the same peer: one makes [d], the other removes it and
    puts a link in its place. *)
Definition lab_hello : list event :=
  [EvIncoming 7 1 11; EvTls 1 [[x00]] true 100 demo_hello] ++ replicate 3 (EvRun 100) ++
  [EvIncoming 7 2 12; EvTls 2 [[x00]] true 200 demo_hello] ++ replicate 3 (EvRun 200).

Definition lab_mkdir_steps : list event := EvStream 1 300 lab_mkdir :: replicate 6 (EvRun 300).
Definition lab_swap : list event :=
  EvStream 2 400 lab_rmdir :: replicate 12 (EvRun 400) ++ EvStream 2 500 lab_symlink :: replicate 12 (EvRun 500).
Definition lab_race : list event := lab_hello ++ lab_mkdir_steps ++ lab_swap ++ [EvRun 300].
Definition lab_fair : list event := lab_hello ++ lab_mkdir_steps ++ replicate 7 (EvRun 300).

Definition lab_end (evs : list event) (P : machine -> bool) : bool :=
  match lab_plays evs with Some m => P m | None => false end.
Definition lab_mode (i : Z) (m : machine) : option Z := i_mode <$> k_nodes (m_kern m) !! i.

(** [mkdir_confined] against a concurrent remove and symlink: the secret, mode
    0600, is now 0777. *)
Example lab_race_end : lab_end lab_race (fun m => m_followed m && bool_decide (lab_mode 4 m = Some 0x1ff)) = true.
Proof. by vm_compute. Qed.
Example lab_fair_end : lab_end lab_fair (fun m => negb (m_followed m) && (size (m_tasks m) =? 0)%nat) = true.
Proof. by vm_compute. Qed.

Example lab_fair_logged : lab_end lab_fair (fun m => negb (length (m_log m) =? 0)%nat) = true.
Proof. by vm_compute. Qed.
Example lab_busy : lab_end (lab_hello ++ lab_mkdir_steps) (fun m => negb (size (m_tasks m) =? 0)%nat) = true.
Proof. by vm_compute. Qed.

Lemma lab_end_some evs P : lab_end evs P = true -> exists m, lab_plays evs = Some m /\ P m = true.
Proof. unfold lab_end. destruct (lab_plays evs) as [m|]; [by exists m|done]. Qed.

Abbreviation lab_step := (mstep (C := example_codec) (fun _ => 0) lab_fp lab_verifier (RootDir :: map Normal [lit "srv"])
  (lit "srv") lab_config).

Lemma lab_reaches evs m : lab_plays evs = Some m -> rtc lab_step (machine_start lab_config lab_kernel) m.
Proof. apply plays_sound. Qed.

(** The [fchmodat] of [mkdir_confined] follows the link that replaced the new
    directory: the mode of an inode outside the export changes. *)
Lemma mkdir_race_changes_outside_mode :
  exists m, rtc lab_step (machine_start lab_config lab_kernel) m /\
    i_mode <$> k_nodes lab_kernel !! 4 = Some 0x180 /\ i_mode <$> k_nodes (m_kern m) !! 4 = Some 0x1ff.
Proof.
  destruct (lab_end_some _ _ lab_race_end) as (m & Hm & [_ Hmode]%andb_prop). exists m. split; [by eapply lab_reaches|].
  split; [done|]. by apply bool_decide_eq_true in Hmode.
Qed.

Lemma lab_valid : validate lab_config = Ok tt.
Proof. done. Qed.
Lemma lab_per_ip : 0 <= ss_max_conns_per_ip (c_server lab_config).
Proof. done. Qed.
Lemma lab_clients : 0 <= ss_max_clients (c_server lab_config) < 2 ^ 32.
Proof. done. Qed.
Lemma lab_outside : 4 ∉ ({[2]} : gset Z).
Proof. by intros H%elem_of_singleton. Qed.

Lemma export_confined_witness :
  exists m n, lab_plays lab_fair = Some m /\ size (m_tasks m) = 0%nat /\ k_nodes (m_kern m) !! 4 = Some n /\
    n = new_inode (KFile [x41]) 0x180.
Proof.
  destruct (lab_end_some _ _ lab_fair_end) as (m & Hm & Hp). apply andb_prop in Hp as [Hf Ht].
  apply negb_true_iff in Hf. apply Nat.eqb_eq in Ht.
  destruct (export_confined (C := example_codec) (EL := example_envelope_laws) (fun _ => 0) lab_fp lab_verifier (lit "srv") lab_config
    lab_kernel {[2]} [lit "srv"] 2 m lab_exports lab_per_ip (proj2 lab_clients) (lab_reaches _ _ Hm)) as (Hout & _).
  destruct (Hout 4 (new_inode (KFile [x41]) 0x180) eq_refl lab_outside) as (n & Hn & _ & He).
  exists m, n. exact (conj Hm (conj Ht (conj Hn (He Hf)))).
Defined.


Lemma only_accepted_peers_act_witness :
  exists m, lab_plays lab_fair = Some m /\ m_log m <> [] /\
    Forall (fun en => en_served en = false -> is_send (en_call en)) (m_log m).
Proof.
  destruct (lab_end_some _ _ lab_fair_logged) as (m & Hm & Hn). apply negb_true_iff, Nat.eqb_neq in Hn.
  destruct (only_accepted_peers_act (C := example_codec) (EL := example_envelope_laws) (fun _ => 0) lab_fp lab_verifier (lit "srv")
    lab_config lab_kernel {[2]} [lit "srv"] 2 m lab_exports lab_valid lab_per_ip lab_clients (lab_reaches _ _ Hm)) as (Hlog & _).
  exists m. split; [exact Hm|]. split; [exact (fun E => Hn (f_equal length E))|].
  eapply Forall_impl; [exact Hlog|]. intros en (_ & _ & H). exact H.
Defined.

Lemma machine_live_witness :
  exists m tid t, lab_plays (lab_hello ++ lab_mkdir_steps) = Some m /\ m_tasks m !! tid = Some t /\
    match tk_prog (mt_task t) with Ret _ => True | Vis e _ => ~ waits e m end.
Proof.
  destruct (lab_end_some _ _ lab_busy) as (m & Hm & Hn). apply negb_true_iff, Nat.eqb_neq in Hn.
  destruct (machine_live (C := example_codec) (EL := example_envelope_laws) (fun _ => 0) lab_fp lab_verifier (lit "srv") lab_config
    lab_kernel {[2]} [lit "srv"] 2 m lab_exports lab_per_ip (proj2 lab_clients) (lab_reaches _ _ Hm)) as (_ & Hrun).
  destruct Hrun as (tid & t & Ht & _ & Hw); [exact (fun E => Hn (f_equal size E))|]. exists m, tid, t. exact (conj Hm (conj Ht Hw)).
Defined.
