(* ===== verification/Harness.v ===== *)
(** * The integration test

    [src/test-harness/src/main.rs]: a server, a client that pins its key, every RPC
    against a file system, and the trust-model cases, as a program over the models of
    the client ([ClientRpc], [Tofu]), the server ([Dispatch], [CtrlOps], [Handles],
    [Trust]) and the kernel ([Posix]).  Requests and answers travel as frames; the
    checks the test makes with [std::fs] on the export go to the same kernel.

    What the test cannot fix is a parameter: the keys ([Identity::generate]), the
    temporary directories and the addresses. *)

From S2P Require Import Prelude Prog Text Status Frames FrameIo Os Sanitize WriteLock Handles Confine Reply MetaOps DataOps CtrlOps Dispatch FileServer ClientRpc ExampleCodec Server BTree Trust Tofu Accept Identity CliArgs Connection Posix Jail Machine.

(** ** The rig *)

(** A server of the test: what [start_server] spawns. *)
Record server := MkServer {
  sv_identity : Identity; sv_verifier : AuthorizedKeysVerifier; sv_root : path; sv_limits : ConnLimits
}.

(** A connection: the client's counter and the stream in use, the server's session
    and handle table. *)
Record link := MkLink {
  ln_server : server; ln_session : ClientSession; ln_table : HandleTable;
  ln_seq : Z; ln_out : list bytes; ln_in : option (list bytes)
}.

(** The kernel, and the trust files of the test's temporary directory. *)
Record rig := MkRig { rg_kern : posix; rg_disk : disk }.

(** A step of the test: it may fail, and then the test is over. *)
Definition T (A : Type) : Type := rig -> anyhow (A * rig).
Definition tret {A} (a : A) : T A := fun g => Ok (a, g).
Definition tbind {A B} (m : T A) (f : A -> T B) : T B := fun g => let? (a, g) := m g in f a g.
Definition tfail {A} (msg : str) : T A := fun _ => Err msg.

Declare Scope test_scope.
Delimit Scope test_scope with test.
Notation "x <~ m ;; k" := (tbind m (fun x => k)) (at level 61, m at next level, k at level 62, right associativity) : test_scope.
Notation "m ;~ k" := (tbind m (fun _ => k)) (at level 61, k at level 62, right associativity) : test_scope.
Notation "'let^' p := m 'in' k" := (tbind m (fun p => k))
  (at level 61, p strict pattern, m at next level, k at level 62, right associativity) : test_scope.
Open Scope test_scope.

(** [assert!] *)
Definition assert_ (b : bool) (msg : str) : T unit := if b then tret tt else tfail msg.

(** The test's own look at the file system. *)
Definition fs_call {X} (e : sysE X) : T X := fun g => let '(x, k) := posix_call X e (rg_kern g) in Ok (x, MkRig k (rg_disk g)).
Definition fs_exists (p : path) : T bool := fs_call (Exists p).
Definition fs_metadata (p : path) : T (io metadata) := fs_call (MetadataOf p).
Definition is_dir_meta (m : io metadata) : bool :=
  match m with Ok m => Z.land (m_mode m) 0xF000 =? 0x4000 | Err _ => false end.

(** The sizes of the test: the chunk size of its client, the payloads of the replay
    and of the multi-frame case. *)
Record sizes := MkSizes { sz_chunk : Z; sz_replay : Z; sz_big : Z }.

Section Rig.
Context {C : Codec} (path_hash : path -> Z) (cert_fingerprint : bytes -> option str) (der : str -> bytes).
Context (server_id : str) (uuid : Z).

Context (sz : sizes).
Abbreviation chunk := (sz_chunk sz).

(** ** One connection over the wire *)

(** The server's side of a stream: the answer frames. *)
Definition serve_exec (X : Type) (e : sysE X) (s : posix * HandleTable * list bytes) : X * (posix * HandleTable * list bytes) :=
  let '(k, t, sent) := s in
  match e in sysE X return X * (posix * HandleTable * list bytes) with
  | SendFrame b =>
      if MAX_FRAME_SIZE <? zlen b then (Err (lit "frame too large"), (k, t, sent)) else (Ok tt, (k, t, sent ++ [b]))
  | e => let '(x, (k, t)) := answer path_hash e k t in (x, (k, t, sent))
  end.

Definition serve_link (l : link) (k : posix) : list bytes * (link * posix) :=
  let '(_, (k, t, sent)) :=
    run serve_exec (dispatch_inner (ln_session l) (sv_root (ln_server l)) (stream_of (ln_out l))) (k, ln_table l, []) in
  (sent, (MkLink (ln_server l) (ln_session l) t (ln_seq l) (ln_out l) (ln_in l), k)).

Definition with_stream (out : list bytes) (inb : option (list bytes)) (l : link) : link :=
  MkLink (ln_server l) (ln_session l) (ln_table l) (ln_seq l) out inb.

Definition link_exec (X : Type) (e : cliE X) (s : link * posix) : X * (link * posix) :=
  let '(l, k) := s in
  match e in cliE X return X * (link * posix) with
  | NextSeq => (ln_seq l, (MkLink (ln_server l) (ln_session l) (ln_table l) (wrap64 (ln_seq l + 1)) (ln_out l) (ln_in l), k))
  | OpenBi => (Ok tt, (with_stream [] None l, k))
  | CSend b =>
      if MAX_FRAME_SIZE <? zlen b then (Err (lit "frame too large"), (l, k))
      else (Ok tt, (with_stream (ln_out l ++ [b]) (ln_in l) l, k))
  | CFinish => (Ok tt, (l, k))
  | CRecv =>
      let '(replies, (l, k)) := match ln_in l with Some r => (r, (l, k)) | None => serve_link l k end in
      match replies with
      | [] => (Err (lit "read length prefix"), (with_stream (ln_out l) (Some []) l, k))
      | b :: r => (Ok b, (with_stream (ln_out l) (Some r) l, k))
      end
  end.

(** An RPC of the test.  The connection is passed along. *)
Definition rpc_ {A} (l : link) (m : cli (anyhow A)) : T (A * link) := fun g =>
  let '(r, (l, k)) := run link_exec m (l, rg_kern g) in
  let? a := r in Ok ((a, l), MkRig k (rg_disk g)).

(** [....await.ok()] *)
Definition rpc_ok {A} (l : link) (m : cli (anyhow A)) : T link := fun g =>
  let '(_, (l, k)) := run link_exec m (l, rg_kern g) in Ok (l, MkRig k (rg_disk g)).

(** ** Connecting *)

(** The handshake stream: [app_handshake] on one side, [handle_handshake] on the
    other. *)
Definition greet (sv : server) (client : Identity) (chunk_size : Z) (k : posix) : anyhow ClientIdentity :=
  let? _ := verify_client_cert cert_fingerprint (sv_verifier sv) (der (id_cert_pem client)) in
  let hello := encode (MkHandshakeRequest OP_HANDSHAKE 1 1 (lit "client") [] chunk_size (lit "mtls")) in
  let? hello := ok_or (lit "msgpack encode") hello in
  let '(identity, (_, _, sent)) :=
    run serve_exec
      (handle_handshake cert_fingerprint (sv_root sv) (stream_of [hello]) (Some [der (id_cert_pem client)]) server_id)
      (k, with_limit uuid (cl_max_open_handles (sv_limits sv)), []) in
  let? identity := identity in
  match sent with
  | [b] => match decode (T := HandshakeResponse) b with
           | Some resp => if hr_status resp =? 0 then Ok identity else Err (lit "server rejected handshake")
           | None => Err (lit "msgpack decode")
           end
  | _ => Err (lit "read length prefix")
  end.

(** [fn client_config] *)
Definition client_config (addr : str) (client : Identity) (known_hosts_path : str) (tofu : TofuPolicy) : MountConfig str :=
  MkMountConfig addr (lit "localhost") addr (id_cert_pem client) (id_key_pem client) (sz_chunk sz) tofu known_hosts_path.

(** [ConnManager::connect] to [sv]; the fingerprint it then enforces. *)
Definition connect_ (sv : server) (client : Identity) (cfg : MountConfig str) : T (option str * link) := fun g =>
  let hs := greet sv client (mcfg_chunk_size cfg) (rg_kern g) in
  let '(r, d) := connect cert_fingerprint good_env true (mcfg_known_hosts_path cfg) (mcfg_host_key cfg) (rg_disk g)
                   (mcfg_tofu cfg) false [] (Some (der (id_cert_pem (sv_identity sv)))) (res_map (fun _ => tt) hs) in
  let? fp := r in
  let? identity := hs in
  Ok ((fp, MkLink sv (session_new identity [] (sv_limits sv)) (with_limit uuid (cl_max_open_handles (sv_limits sv))) 2 [] None),
      MkRig (rg_kern g) d).

(** [AuthorizedKeys::load] and [authorize] *)
Definition authorize_ (path : str) (client : Identity) (comment : str) : T unit := fun g =>
  let? ak := ak_load good_env (rg_disk g) path in
  let? d := snd (ak_authorize good_env true (rg_disk g) ak (id_fingerprint client) comment) in
  Ok (tt, MkRig (rg_kern g) d).

(** [fn start_server] *)
Definition start_server (identity : Identity) (authorized_keys_path : str) (export_root : path) (limits : ConnLimits) :
    T server := fun g =>
  let? authorized := ak_load good_env (rg_disk g) authorized_keys_path in
  Ok (MkServer identity (MkVerifier authorized false) export_root limits, g).

(** ** run_tests *)

(** [root.join("a/b")] *)
Definition join (root : path) (names : list str) : path := root ++ map Normal names.

(** [(0..n).map(|i| (i % 251) as u8).collect()] *)
Fixpoint pattern_from (n : nat) (i : Z) : bytes :=
  match n with O => [] | S n => byte_of_Z (i mod 251) :: pattern_from n (i + 1) end.
Definition pattern (n : Z) : bytes := pattern_from (Z.to_nat n) 0.

Definition ascii_bytes (s : str) : bytes := map byte_of_Z s.

Definition fuel : nat := 1000.

Definition test_ping (l : link) : T link :=
  let^ (_, l) := rpc_ l ping in tret l.

Definition test_getattr_root (l : link) : T link :=
  let^ (root_stat, l) := rpc_ l (getattr (lit "/")) in
  assert_ ((st_size root_stat =? 0) || negb (st_mode root_stat =? 0)) (lit "root stat is non-zero") ;~
  tret l.

Definition test_mkdir (root : path) (l : link) : T link :=
  let^ (_, l) := rpc_ l (mkdir (lit "/testdir") 0x1ed) in
  m <~ fs_metadata (join root [lit "testdir"]) ;;
  assert_ (is_dir_meta m) (lit "testdir not created") ;~
  let^ (dir_stat, l) := rpc_ l (getattr (lit "/testdir")) in
  assert_ (Z.land (Z.shiftr (st_mode dir_stat) 12) 0xF =? 0x4) (lit "not a directory") ;~
  tret l.

Definition test_create_write_read (l : link) : T link :=
  let^ ((handle, _), l) := rpc_ l (create (lit "/testdir/hello.txt") 0 0x1a4) in
  let payload := ascii_bytes (lit "Hello, QuicFS!") in
  let^ (written, l) := rpc_ l (write chunk handle 0 payload) in
  assert_ (written =? zlen payload) (lit "written") ;~
  let^ (_, l) := rpc_ l (release handle) in
  let^ ((rhandle, _), l) := rpc_ l (open (lit "/testdir/hello.txt") 0) in
  let^ (data, l) := rpc_ l (read fuel rhandle 0 1024) in
  let^ (_, l) := rpc_ l (release rhandle) in
  assert_ (bool_decide (data = payload)) (lit "read data mismatch") ;~
  tret l.

Definition test_readdir (l : link) : T link :=
  let^ (entries, l) := rpc_ l (readdir fuel (lit "/testdir")) in
  assert_ (existsb (fun e => str_eqb (de_name e) (lit "hello.txt")) entries) (lit "hello.txt missing from readdir") ;~
  tret l.

Definition test_rename (root : path) (l : link) : T link :=
  let^ (_, l) := rpc_ l (rename (lit "/testdir/hello.txt") (lit "/testdir/world.txt") 0) in
  old <~ fs_exists (join root [lit "testdir"; lit "hello.txt"]) ;;
  assert_ (negb old) (lit "old name still exists") ;~
  new <~ fs_exists (join root [lit "testdir"; lit "world.txt"]) ;;
  assert_ new (lit "new name not created") ;~
  tret l.

Definition test_setattr (root : path) (l : link) : T link :=
  let^ (_, l) := rpc_ l (setattr (lit "/testdir/world.txt") 0x8 0 0 0 3 0 0) in
  m <~ fs_metadata (join root [lit "testdir"; lit "world.txt"]) ;;
  assert_ (match m with Ok m => m_len m =? 3 | Err _ => false end) (lit "setattr size truncation failed") ;~
  let^ (_, l) := rpc_ l (setattr (lit "/testdir/world.txt") 0x1 0x1a0 0 0 0 0 0) in
  m <~ fs_metadata (join root [lit "testdir"; lit "world.txt"]) ;;
  assert_ (match m with Ok m => Z.land (m_mode m) 0x1ff =? 0x1a0 | Err _ => false end) (lit "setattr chmod failed") ;~
  let^ (_, l) := rpc_ l (setattr (lit "/testdir/world.txt") 0x20 0 0 0 0 0 1600000000000000000) in
  tret l.

Definition test_statfs (l : link) : T link :=
  let^ (fs, l) := rpc_ l (statfs (lit "/")) in
  assert_ (0 <? sf_bsize fs) (lit "bsize") ;~
  tret l.

Definition test_unlink_rmdir (root : path) (l : link) : T link :=
  let^ (_, l) := rpc_ l (unlink (lit "/testdir/world.txt")) in
  ex <~ fs_exists (join root [lit "testdir"; lit "world.txt"]) ;;
  assert_ (negb ex) (lit "file still exists after unlink") ;~
  let^ (_, l) := rpc_ l (rmdir (lit "/testdir")) in
  m <~ fs_metadata (join root [lit "testdir"]) ;;
  assert_ (negb (is_dir_meta m)) (lit "dir still exists after rmdir") ;~
  tret l.

Definition test_symlink_readlink (l : link) : T link :=
  let^ (_, l) := rpc_ l (mkdir (lit "/linktest") 0x1ed) in
  let^ (_, l) := rpc_ l (create (lit "/linktest/target.txt") 0 0x1a4) in
  let^ (_, l) := rpc_ l (symlink (lit "/linktest/target.txt") (lit "/linktest/link.txt")) in
  let^ (target, l) := rpc_ l (readlink (lit "/linktest/link.txt")) in
  assert_ (str_eqb target (lit "/linktest/target.txt")) (lit "target") ;~
  l <~ rpc_ok l (unlink (lit "/linktest/link.txt")) ;;
  l <~ rpc_ok l (unlink (lit "/linktest/target.txt")) ;;
  rpc_ok l (rmdir (lit "/linktest")).

Definition test_append (l : link) : T link :=
  let^ ((ch, _), l) := rpc_ l (create (lit "/append.txt") 0 0x1a4) in
  let^ (_, l) := rpc_ l (write chunk ch 0 (ascii_bytes (lit "AAA"))) in
  l <~ rpc_ok l (release ch) ;;
  let^ ((ah, _), l) := rpc_ l (open (lit "/append.txt") (Z.lor 0x1 0x400)) in
  let^ (_, l) := rpc_ l (write chunk ah 0 (ascii_bytes (lit "BBB"))) in
  l <~ rpc_ok l (release ah) ;;
  let^ ((arh, ast), l) := rpc_ l (open (lit "/append.txt") 0) in
  assert_ (st_size ast =? 6) (lit "O_APPEND must accumulate (AAA+BBB), not overwrite at offset 0") ;~
  let^ (adata, l) := rpc_ l (read fuel arh 0 16) in
  assert_ (bool_decide (adata = ascii_bytes (lit "AAABBB"))) (lit "append must land at EOF, not offset 0") ;~
  l <~ rpc_ok l (release arh) ;;
  rpc_ok l (unlink (lit "/append.txt")).

Definition test_replay_of (payload : bytes) (l : link) : T link :=
  let^ ((h, _), l) := rpc_ l (create (lit "/replay.bin") 0 0x1a4) in
  let^ (_, l) := rpc_ l (write chunk h 0 payload) in
  let^ (_, l) := rpc_ l (write chunk h 0 (take (Z.to_nat (zlen payload / 2)) payload)) in
  let^ (_, l) := rpc_ l (write chunk h 0 payload) in
  l <~ rpc_ok l (release h) ;;
  let^ ((rh, st), l) := rpc_ l (open (lit "/replay.bin") 0) in
  assert_ (st_size st =? zlen payload) (lit "replay changed the size") ;~
  let^ (got, l) := rpc_ l (read fuel rh 0 (zlen payload)) in
  assert_ (bool_decide (got = payload)) (lit "re-applied positioned writes must be identical") ;~
  l <~ rpc_ok l (release rh) ;;
  rpc_ok l (unlink (lit "/replay.bin")).

Definition test_replay (l : link) : T link := test_replay_of (pattern (sz_replay sz)) l.

Definition test_large_of (big : bytes) (l : link) : T link :=
  let^ ((h, _), l) := rpc_ l (create (lit "/big.bin") 0 0x1a4) in
  let^ (written, l) := rpc_ l (write chunk h 0 big) in
  assert_ (written =? zlen big) (lit "short write") ;~
  l <~ rpc_ok l (release h) ;;
  let^ ((rh, st), l) := rpc_ l (open (lit "/big.bin") 0) in
  assert_ (st_size st =? zlen big) (lit "size mismatch after write") ;~
  let^ (got, l) := rpc_ l (read fuel rh 0 (zlen big + 10)) in
  assert_ (zlen got =? zlen big) (lit "read length mismatch") ;~
  assert_ (bool_decide (got = big)) (lit "round-trip data mismatch") ;~
  let half := zlen big / 2 in
  let^ (tail, l) := rpc_ l (read fuel rh half (zlen big)) in
  assert_ (bool_decide (tail = drop (Z.to_nat half) big)) (lit "offset-read tail mismatch") ;~
  l <~ rpc_ok l (release rh) ;;
  rpc_ok l (unlink (lit "/big.bin")).

Definition test_large (l : link) : T link := test_large_of (pattern (sz_big sz)) l.

Definition run_tests (root : path) (l : link) : T unit :=
  l <~ test_ping l ;;
  l <~ test_getattr_root l ;;
  l <~ test_mkdir root l ;;
  l <~ test_create_write_read l ;;
  l <~ test_readdir l ;;
  l <~ test_rename root l ;;
  l <~ test_setattr root l ;;
  l <~ test_statfs l ;;
  l <~ test_unlink_rmdir root l ;;
  l <~ test_symlink_readlink l ;;
  l <~ test_append l ;;
  l <~ test_replay l ;;
  l <~ test_large l ;;
  tret tt.

(** ** The trust model *)

(** [match ConnManager::connect(cfg).await { Ok(_) => bail!(..), Err(_) => Ok(()) }];
    what a failed connect left on disk stays out of later cases. *)
Definition expect_refused {A} (m : T A) (msg : str) : T unit := fun g =>
  match m g with Ok _ => Err msg | Err _ => Ok (tt, g) end.

Definition test_unauthorized_client_rejected (sv : server) (addr : str) (stranger : Identity) : T unit :=
  let cfg := client_config addr stranger (lit "kh_stranger") PolAcceptNew in
  expect_refused (connect_ sv stranger cfg) (lit "unauthorized client was allowed to connect").

Definition test_symlink_escape_blocked (l : link) (root : path) (outside : path) (target_str : str) : T link :=
  let outside_target := join outside [lit "pwned.txt"] in
  ex <~ fs_exists outside_target ;;
  assert_ (negb ex) (lit "setup: outside target must not pre-exist") ;~
  let^ (_, l) := rpc_ l (symlink target_str (lit "/escape")) in
  m <~ fs_call (SymlinkMetadata (join root [lit "escape"])) ;;
  assert_ (match m with Ok m => is_symlink m | Err _ => false end) (lit "symlink was not planted") ;~
  (fun g => let '(res, (l, k)) := run link_exec (create (lit "/escape") 0x200 0x1a4) (l, rg_kern g) in
            if is_ok res then Err (lit "create through an escaping symlink succeeded")
            else (ex <~ fs_exists outside_target ;;
                  assert_ (negb ex) (lit "a file was created OUTSIDE the export root") ;~
                  rpc_ok l (unlink (lit "/escape"))) (MkRig k (rg_disk g))).

Definition test_host_key_mismatch_rejected (sv : server) (addr : str) (client : Identity) : T unit :=
  (fun g =>
     let? kh := kh_load good_env (rg_disk g) (lit "kh_bogus") in
     let kh := kh_insert kh addr (lit "SHA256:AAAAAAAAAAAAAAAAAAAAAAAAAAAAAAAAAAAAAAAAAAA") in
     let? d := kh_save good_env true (rg_disk g) kh in
     Ok (tt, MkRig (rg_kern g) d)) ;~
  let cfg := client_config addr client (lit "kh_bogus") PolPrompt in
  expect_refused (connect_ sv client cfg) (lit "connected despite host-key mismatch").

Definition test_sync_metadata (server_dur client_dur : Identity) (addr : str) (export_root : path) : T unit :=
  authorize_ (lit "authorized_keys_dur") client_dur (lit "dur-client") ;~
  let limits := MkConnLimits (cl_max_open_handles ConnLimits_default) (cl_rpc_timeout_ms ConnLimits_default)
                  (cl_sync_on_close ConnLimits_default) true in
  sv <~ start_server server_dur (lit "authorized_keys_dur") export_root limits ;;
  let cfg := client_config addr client_dur (lit "kh_dur") PolAcceptNew in
  let^ (_, l) := connect_ sv client_dur cfg in
  let^ ((h, _), l) := rpc_ l (create (lit "/durable.txt") 0 0x1a4) in
  let^ (_, l) := rpc_ l (write chunk h 0 (ascii_bytes (lit "durable"))) in
  l <~ rpc_ok l (release h) ;;
  let^ (_, l) := rpc_ l (rename (lit "/durable.txt") (lit "/durable2.txt") 0) in
  let^ (_, l) := rpc_ l (mkdir (lit "/sub") 0x1ed) in
  let^ ((h2, _), l) := rpc_ l (create (lit "/sub/x.txt") 0 0x1a4) in
  l <~ rpc_ok l (release h2) ;;
  let^ (_, l) := rpc_ l (rename (lit "/durable2.txt") (lit "/sub/durable2.txt") 0) in
  let^ (_, l) := rpc_ l (unlink (lit "/sub/x.txt")) in
  let^ (_, l) := rpc_ l (unlink (lit "/sub/durable2.txt")) in
  let^ (_, l) := rpc_ l (rmdir (lit "/sub")) in
  ex <~ fs_exists (join export_root [lit "sub"]) ;;
  assert_ (negb ex) (lit "sub dir should be removed") ;~
  ex2 <~ fs_exists (join export_root [lit "durable2.txt"]) ;;
  ex1 <~ fs_exists (join export_root [lit "durable.txt"]) ;;
  assert_ (negb ex2 && negb ex1) (lit "renamed-away files should not remain at the root").

(** ** main *)

(** The keys [Identity::generate] makes, the addresses the servers get, and the
    temporary directories. *)
Record setup := MkSetup {
  su_server : Identity; su_client : Identity; su_stranger : Identity; su_server_dur : Identity; su_client_dur : Identity;
  su_addr : str; su_addr_dur : str; su_root : path; su_root_dur : path; su_tmp : path; su_pwned : str
}.

Definition main (u : setup) : T unit :=
  authorize_ (lit "authorized_keys") (su_client u) (lit "test-client") ;~
  sv <~ start_server (su_server u) (lit "authorized_keys") (su_root u) ConnLimits_default ;;
  let cfg := client_config (su_addr u) (su_client u) (lit "known_hosts") PolAcceptNew in
  let^ (fp, l) := connect_ sv (su_client u) cfg in
  assert_ (bool_decide (fp = Some (id_fingerprint (su_server u)))) (lit "server_fingerprint") ;~
  run_tests (su_root u) l ;~
  let cfg2 := client_config (su_addr u) (su_client u) (lit "known_hosts") PolStrict in
  let^ (_, l2) := connect_ sv (su_client u) cfg2 in
  l2 <~ test_ping l2 ;;
  test_symlink_escape_blocked l2 (su_root u) (su_tmp u) (su_pwned u) ;~
  test_unauthorized_client_rejected sv (su_addr u) (su_stranger u) ;~
  test_host_key_mismatch_rejected sv (su_addr u) (su_client u) ;~
  test_sync_metadata (su_server_dur u) (su_client_dur u) (su_addr_dur u) (su_root_dur u).
End Rig.

(** ** The test passes *)

Definition rig_identity (name : str) : Identity := MkIdentity name (name ++ lit ".key") (lit "SHA256:" ++ name).
Definition rig_der (pem : str) : bytes := map byte_of_Z pem.
Definition rig_fp (cert : bytes) : option str := Some (lit "SHA256:" ++ map byte_to_Z cert).

Definition rig_setup : setup :=
  MkSetup (rig_identity (lit "server")) (rig_identity (lit "client")) (rig_identity (lit "stranger"))
    (rig_identity (lit "server-dur")) (rig_identity (lit "client-dur")) (lit "127.0.0.1:4433") (lit "127.0.0.1:4434")
    [RootDir; Normal (lit "tmp"); Normal (lit "export")] [RootDir; Normal (lit "tmp"); Normal (lit "export-dur")]
    [RootDir; Normal (lit "tmp"); Normal (lit "work")] (lit "/tmp/work/pwned.txt").

(** The directories [tempfile::tempdir] made, on a file system with a umask. *)
Definition rig_start : rig :=
  MkRig (MkPosix
    (<[1 := new_inode (KDir {[lit "tmp" := 2]}) 0x1ed]>
     (<[2 := new_inode (KDir {[lit "export" := 3; lit "export-dur" := 4; lit "work" := 5]}) 0x1ff]>
      (<[3 := new_inode (KDir ∅) 0x1c0]> (<[4 := new_inode (KDir ∅) 0x1c0]> {[5 := new_inode (KDir ∅) 0x1c0]}))))
    ∅ 1 0x12 (MkStatvfs 1000 500 500 100 50 4096 255 4096)) ∅.

(** [main] with the sizes of the source. *)
Definition harness_sizes : sizes := MkSizes 262144 200000 700000.

Definition rig_main (path_hash : path -> Z) (sz : sizes) : anyhow (unit * rig) :=
  main (C := example_codec) path_hash rig_fp rig_der (lit "srv") 7 sz rig_setup rig_start.

(** The whole test of the repository ends in success on the model: a client whose
    key was authorized connects, pins the server's key, and finds what the test
    expects of ping, getattr, mkdir, create, write, read, readdir, rename, setattr,
    statfs, unlink, rmdir, symlink, readlink, appends, replayed writes and a file of
    several frames; a second connection under strict checking succeeds; a create
    through a symlink out of the export, a client that is not authorized and a changed
    host key are refused; and the same name-space operations succeed with
    [sync_metadata].  The chunk size and the payloads are 64, 50 and 175 bytes instead
    of the source's 262144, 200000 and 700000 ([harness_sizes]), in the same
    proportion to one another: the long file takes three frames in both. *)
Theorem harness_passes path_hash : is_ok (rig_main path_hash (MkSizes 64 50 175)) = true.
Proof. by vm_compute. Qed.
