(* ===== verification/UnitTests.v ===== *)
(** * The unit tests and fuzz targets

    The [#[cfg(test)]] modules of the crates, as functions of the models that answer
    whether every assertion of the test holds.  A test keeps its name; a [Module]
    stands for the file it is in.  Times are readings of one clock in milliseconds,
    temporary directories are directories of a [Posix] kernel.

    [FuzzTargets] has the targets of [src/fuzz/fuzz_targets/] about path confinement.

    Not here: the tests of fingerprints and of [Identity::generate], which are about
    the sha2, base64 and rcgen crates, and the fuzz targets that call MessagePack and
    the fingerprint parser and assert nothing. *)

From S2P Require Import Prelude Prog Text Status Frames FrameIo BTree Trust Os Sanitize WriteLock Handles Posix Jail Server Namespace Attributes Reference WriteBuf Cache FuseOps Startup CliArgs Machine Harness.

#[export] Instance result_eq_dec {E A} `{EqDecision E, EqDecision A} : EqDecision (result E A).
Proof. solve_decision. Defined.

Definition is_err {E A} (r : result E A) : bool := negb (is_ok r).
Definition is_none {A} (o : option A) : bool := match o with None => true | Some _ => false end.
Definition all_of (l : list bool) : bool := forallb id l.

Definition zeros (n : Z) : bytes := replicate (Z.to_nat n) x00.

(** A program against a kernel. *)
Definition on_kernel {A} (m : sys A) (k : posix) : A * posix := let '(a, (k, _)) := run kexec m (k, no_desk) in (a, k).
Definition answer_of {A} (m : sys A) (k : posix) : A := fst (on_kernel m k).
Definition exists_at (p : path) (k : posix) : bool := fst (posix_call _ (Exists p) k).

(** ** server/src/sanitize.rs *)

Module SanitizeTests.
(** A root that does not exist on disk. *)
Definition root : path := [RootDir; Normal (lit "quicfs-test-export-root")].
Definition bare : posix := MkPosix {[1 := new_inode (KDir ∅) 0x1ed]} ∅ 1 0x12 (MkStatvfs 0 0 0 0 0 0 0 0).
Definition resolved (s : str) : result resolve_err path := answer_of (resolve root s) bare.
Definition resolves_to (s : str) (p : path) : bool := match resolved s with Ok q => bool_decide (q = p) | Err _ => false end.

Definition normal_paths_join_under_root : bool := all_of [
  resolves_to (lit "/a/b") (join root [lit "a"; lit "b"]);
  resolves_to (lit "a/b/c") (join root [lit "a"; lit "b"; lit "c"]);
  resolves_to (lit "/") root;
  resolves_to (lit "") root].

Definition dot_and_empty_components_are_skipped : bool := all_of [
  resolves_to (lit "/./a") (join root [lit "a"]);
  resolves_to (lit "a/./b") (join root [lit "a"; lit "b"]);
  resolves_to (lit "///a//b") (join root [lit "a"; lit "b"])].

Definition dotdot_is_rejected : bool := all_of [
  is_err (resolved (lit "/a/../b")); is_err (resolved (lit ".."));
  is_err (resolved (lit "/../etc/passwd")); is_err (resolved (lit "a/b/../../../../etc"))].

Definition null_byte_is_rejected : bool := all_of [
  is_err (resolved (lit "/a" ++ [0] ++ lit "b")); is_err (resolved [0])].

Definition oversized_inputs_are_rejected : bool :=
  let long_path := lit "/" ++ replicate (Z.to_nat MAX_PATH_LEN) 97 in
  let long_component := lit "/" ++ replicate 256 120 in
  let deep := concat (replicate (Z.to_nat (MAX_PATH_DEPTH + 1)) (lit "/d")) in
  all_of [is_err (resolved long_path); is_err (resolved long_component); is_err (resolved deep)].

Definition accepted_inputs_stay_under_root : bool :=
  forallb (fun p => match resolved p with Ok q => path_starts_with q root | Err _ => false end)
    [lit "/a"; lit "a/b"; lit "/./x/y"; lit "deep/nested/path"; lit "/"].

Definition resolve_never_escapes_root (s : str) : bool :=
  match resolved s with Ok p => path_starts_with p root | Err _ => true end.

(** [tempdir()] twice, below [/tmp], and [/etc]. *)
Definition dir : path := [RootDir; Normal (lit "tmp"); Normal (lit "root")].
Definition outside : path := [RootDir; Normal (lit "tmp"); Normal (lit "outside")].
Definition temp (in_root in_outside : gmap str Z) (more : gmap Z inode) : posix :=
  MkPosix
    (<[1 := new_inode (KDir {[lit "tmp" := 2; lit "etc" := 5]}) 0x1ed]>
     (<[2 := new_inode (KDir {[lit "root" := 3; lit "outside" := 4]}) 0x1ff]>
      (<[3 := new_inode (KDir in_root) 0x1c0]> (<[4 := new_inode (KDir in_outside) 0x1c0]>
        (<[5 := new_inode (KDir {[lit "hostname" := 6]}) 0x1ed]>
          (<[6 := new_inode (KFile [x68]) 0x1a4]> more))))))
    ∅ 1 0x12 (MkStatvfs 0 0 0 0 0 0 0 0).

Definition open_confined_reads_a_file_beneath_root : bool :=
  let k := temp {[lit "a" := 7]} ∅ {[7 := new_inode (KFile (ascii_bytes (lit "hi"))) 0x1a4]} in
  match on_kernel (resolve dir (lit "/a")) k with
  | (Ok p, k) =>
      match on_kernel (open_confined dir p O_RDONLY 0) k with
      | (Ok fd, k) =>
          match answer_of (sc (ReadFile fd 16)) k with Ok s => bool_decide (s = ascii_bytes (lit "hi")) | Err _ => false end
      | _ => false
      end
  | _ => false
  end.

Definition open_confined_rejects_symlink_that_escapes_root : bool :=
  let k := temp {[lit "esc" := 7]} ∅ {[7 := new_inode (KLink (lit "/etc")) 0x1ff]} in
  is_err (answer_of (open_confined dir (join dir [lit "esc"; lit "hostname"]) O_RDONLY 0) k).

Definition open_confined_creates_with_mode : bool :=
  let k := temp ∅ ∅ ∅ in
  match on_kernel (resolve dir (lit "/new")) k with
  | (Ok p, k) =>
      let '(f, k) := on_kernel (open_confined dir p (Z.lor O_RDWR O_CREAT) 0x180) k in
      is_ok f && exists_at (join dir [lit "new"]) k
  | _ => false
  end.

Definition namespace_ops_refuse_escaping_parent_symlink : bool :=
  let k := temp {[lit "esc" := 7; lit "realdir" := 9]} {[lit "victim" := 8]}
             (<[7 := new_inode (KLink (lit "/tmp/outside")) 0x1ff]>
              (<[8 := new_inode (KFile [x78]) 0x1a4]> {[9 := new_inode (KDir ∅) 0x1ed]})) in
  let '(made, k) := on_kernel (mkdir_confined dir (join dir [lit "esc"; lit "pwned"]) 0x1ed) k in
  let victim := join dir [lit "esc"; lit "victim"] in
  let '(removed, k1) := on_kernel (remove_confined dir victim false) k in
  let '(renamed, k2) := on_kernel (rename_confined dir victim (join dir [lit "esc"; lit "renamed"])) k1 in
  let sub := join dir [lit "realdir"; lit "sub"] in
  let '(ok, k3) := on_kernel (mkdir_confined dir sub 0x1ed) k2 in
  all_of [is_err made; negb (exists_at (outside ++ [Normal (lit "pwned")]) k);
          is_err removed; exists_at (outside ++ [Normal (lit "victim")]) k1;
          is_err renamed; exists_at (outside ++ [Normal (lit "victim")]) k2;
          is_ok ok; is_dir_meta (fst (posix_call _ (MetadataOf sub) k3))].

Definition tests : bool := all_of [
  normal_paths_join_under_root; dot_and_empty_components_are_skipped; dotdot_is_rejected; null_byte_is_rejected;
  oversized_inputs_are_rejected; accepted_inputs_stay_under_root; open_confined_reads_a_file_beneath_root;
  open_confined_rejects_symlink_that_escapes_root; open_confined_creates_with_mode;
  namespace_ops_refuse_escaping_parent_symlink].
End SanitizeTests.

(** ** server/src/handles.rs, server/src/writelock.rs *)

Module HandleTests.
(** [/dev/null] is open as [fd]; the identifiers of two sessions. *)
Definition handle_ids_are_session_namespaced (path_hash : path -> Z) (uuid_a uuid_b fd : Z) : bool :=
  let f := fst (posix_call _ (MetadataOf [RootDir]) SanitizeTests.bare) in
  let a := with_limit uuid_a 8192 in
  let b := with_limit uuid_b 8192 in
  match try_insert path_hash a [RootDir; Normal (lit "x")] 0 fd f, try_insert path_hash b [RootDir; Normal (lit "y")] 0 fd f with
  | (Ok a1, a), (Ok b1, b) => all_of [
      negb (a1 =? 1); negb (Z.shiftr a1 32 =? Z.shiftr b1 32); negb (a1 =? b1); is_none (get_path a b1)]
  | _, _ => false
  end.

Definition same_key_maps_to_the_same_stripe : bool :=
  let k := 0x000000010000002a in stripe_for k =? stripe_for k.

Definition adjacent_inodes_spread_across_stripes : bool :=
  1 <? zlen (remove_dups (map stripe_for (seqZ 0 256))).

Definition tests : bool := all_of [
  handle_ids_are_session_namespaced (fun _ => 0) 7 8 3; same_key_maps_to_the_same_stripe;
  adjacent_inodes_spread_across_stripes].
End HandleTests.

(** ** common/src/trust.rs *)

Module TrustTests.
Definition known_hosts_roundtrip_test : bool :=
  let path := lit "known_hosts" in
  match kh_load good_env ∅ path with
  | Ok kh =>
      is_none (kh_get kh (lit "h:9001")) &&
      match kh_save good_env true ∅ (kh_insert kh (lit "h:9001") (lit "SHA256:abcdef0123456789")) with
      | Ok d =>
          match kh_load good_env d path with
          | Ok kh2 => bool_decide (kh_get kh2 (lit "h:9001") = Some (lit "SHA256:abcdef0123456789"))
          | Err _ => false
          end
      | Err _ => false
      end
  | Err _ => false
  end.
End TrustTests.

(** ** client/src/writebuf.rs *)

Module WriteBufTests.
Definition now : Z := 1000.
(** Every test below starts from an empty buffer; a push answers its decision. *)
Definition pushing (h off : Z) (data : bytes) (wb : WriteBuffer) : PushDecision * WriteBuffer := WriteBuf.push map_to_list wb h off data now.
Definition pushed (h off : Z) (data : bytes) (wb : WriteBuffer) : WriteBuffer := snd (pushing h off data wb).
Definition total_bytes (wb : WriteBuffer) : Z := wb_total_bytes wb.

Definition drain_via_flush (h : Z) (wb : WriteBuffer) : list (Z * bytes) * WriteBuffer :=
  match begin_flush wb h with
  | (Some b, wb) => (fb_chunks b, ack_flush wb h (fb_sent_count b))
  | (None, wb) => ([], wb)
  end.

#[export] Instance decision_eq_dec : EqDecision PushDecision.
Proof. solve_decision. Defined.

Definition small_writes_buffer_then_flush_on_per_handle_limit : bool :=
  let '(d1, wb) := pushing 1 0 (zeros 40) (wb_new 100 1000 60000) in
  let '(d2, wb) := pushing 1 40 (zeros 40) wb in
  let '(d3, _) := pushing 1 80 (zeros 40) wb in
  bool_decide (d1 = Buffered) && bool_decide (d2 = Buffered) && (total_bytes wb =? 80) && bool_decide (d3 = FlushThis 1).

Definition global_limit_evicts_the_largest_handle : bool :=
  let '(d1, wb) := pushing 1 0 (zeros 70) (wb_new 10000 100 60000) in
  let '(d2, _) := pushing 2 0 (zeros 40) wb in
  bool_decide (d1 = Buffered) && bool_decide (d2 = FlushOther 1).

Definition hard_cap_rejects_without_enqueuing : bool :=
  let '(d1, wb) := pushing 1 0 (zeros 150) (wb_new 10000 100 60000) in
  let '(d2, wb) := pushing 1 150 (zeros 100) wb in
  bool_decide (d1 = FlushOther 1) && bool_decide (d2 = Reject) && (total_bytes wb =? 150).

Definition keep_until_ack_then_remove : bool :=
  match begin_flush (pushed 7 0 (replicate 10 x01) (wb_new 10000 100000 60000)) 7 with
  | (Some b, wb) =>
      let wb2 := ack_flush wb 7 (fb_sent_count b) in
      (total_bytes wb =? 10) && is_none (fst (begin_flush wb 7)) && (total_bytes wb2 =? 0) && is_none (fst (begin_flush wb2 7))
  | _ => false
  end.

Definition failed_flush_keeps_chunks_for_retry : bool :=
  match begin_flush (pushed 3 0 (replicate 20 x09) (wb_new 10000 100000 60000)) 3 with
  | (Some _, wb) =>
      let wb := fail_flush wb 3 in
      (total_bytes wb =? 20) &&
      match fst (begin_flush wb 3) with Some b => bool_decide (fb_chunks b = [(0, replicate 20 x09)]) | None => false end
  | _ => false
  end.

Definition ack_keeps_chunks_pushed_during_send : bool :=
  match begin_flush (pushed 1 0 (zeros 10) (wb_new 10000 100000 60000)) 1 with
  | (Some b, wb) => total_bytes (ack_flush (pushed 1 10 (zeros 10) (fail_flush wb 1)) 1 (fb_sent_count b)) =? 10
  | _ => false
  end.

Definition drain_sorts_and_coalesces : bool :=
  let wb := wb_new 10000 100000 60000 in
  let wb := pushed 1 10 (replicate 10 x62) wb in
  let wb := pushed 1 0 (replicate 10 x61) wb in
  let wb := pushed 1 20 (replicate 10 x63) wb in
  let wb := pushed 1 100 (replicate 10 x64) wb in
  match drain_via_flush 1 wb with
  | ([c0; c1], wb) => (fst c0 =? 0) && (zlen (snd c0) =? 30) && (fst c1 =? 100) && (total_bytes wb =? 0)
  | _ => false
  end.

Definition drop_handle_frees_and_reports_bytes : bool :=
  let wb := pushed 5 30 (zeros 20) (pushed 5 0 (zeros 30) (wb_new 10000 100000 60000)) in
  let '(n1, wb) := drop_handle wb 5 in
  let '(n2, _) := drop_handle wb 5 in
  (n1 =? 50) && (total_bytes wb =? 0) && (n2 =? 0).

Definition age_query_reports_old_handles : bool :=
  let wb := wb_new 10000 100000 0 in
  let wb3 := pushed 3 0 (zeros 8) wb in
  bool_decide (older_than wb 0 now = ∅) && bool_decide (older_than wb3 0 now = {[3]}) &&
  bool_decide (older_than wb3 3600000 now = ∅).

Definition tests : bool := all_of [
  small_writes_buffer_then_flush_on_per_handle_limit; global_limit_evicts_the_largest_handle;
  hard_cap_rejects_without_enqueuing; keep_until_ack_then_remove; failed_flush_keeps_chunks_for_retry;
  ack_keeps_chunks_pushed_during_send; drain_sorts_and_coalesces; drop_handle_frees_and_reports_bytes;
  age_query_reports_old_handles].
End WriteBufTests.

(** ** client/src/cache.rs *)

Module CacheTests.
Definition now : Z := 1000.
Definition stat_default : Stat := MkStat 0 0 0 0 0 0 0 0 0 0 0.
Definition sized (n : Z) : Stat := MkStat 0 0 0 0 0 n 0 0 0 0 0.
Definition fresh (ttl_ms : Z) : MetaCache (alru Entry) := cache_new (MkCacheConfig 16 ttl_ms ttl_ms ttl_ms).
Definition got (p : str) (c : MetaCache (alru Entry)) : option (result unit Stat) := fst (cache_get c now p).

Definition positive_hit_returns_stat : bool :=
  match got (lit "/a") (cache_insert (fresh 60000) now (lit "/a") (sized 123) false) with
  | Some (Ok s) => st_size s =? 123
  | _ => false
  end.

Definition negative_hit_is_distinct_from_miss : bool :=
  is_none (got (lit "/missing") (fresh 60000)) &&
  match got (lit "/missing") (cache_insert_negative (fresh 60000) now (lit "/missing")) with Some (Err _) => true | _ => false end.

Definition entries_expire : bool :=
  let c := cache_insert (fresh 0) now (lit "/a") stat_default false in
  is_none (got (lit "/a") c) && is_none (got (lit "/b") (cache_insert_negative c now (lit "/b"))).

Definition invalidate_drops_path_and_parent : bool :=
  let c := cache_insert (fresh 60000) now (lit "/dir") stat_default true in
  let c := cache_insert c now (lit "/dir/file") stat_default false in
  let c := cache_invalidate c (lit "/dir/file") in
  is_none (got (lit "/dir/file") c) && is_none (got (lit "/dir") c).

Definition clear_empties_everything : bool :=
  let c := cache_insert (fresh 60000) now (lit "/a") stat_default false in
  let c := cache_clear (cache_insert c now (lit "/b") stat_default false) in
  is_none (got (lit "/a") c) && is_none (got (lit "/b") c).

Definition tests : bool := all_of [
  positive_hit_returns_stat; negative_hit_is_distinct_from_miss; entries_expire; invalidate_drops_path_and_parent;
  clear_empties_everything].
End CacheTests.

(** ** client/src/main.rs, client/src/fuse_ops.rs *)

Module ClientTests.
(** [user] is whom [current_user] finds. *)
Definition spec_is (user : user_env) (spec : str) (want : str * str * str) : bool :=
  match parse_spec user spec with Ok got => bool_decide (got = want) | Err _ => false end.
Definition host_path_are (user : user_env) (spec host p : str) : bool :=
  match parse_spec user spec with Ok (_, h, q) => str_eqb h host && str_eqb q p | Err _ => false end.

Definition user_host_path user : bool :=
  spec_is user (lit "alice@server:/projects") (lit "alice", lit "server", lit "/projects").
Definition host_without_user_defaults_path_and_keeps_host user : bool :=
  host_path_are user (lit "server:/data") (lit "server") (lit "/data").
Definition missing_path_defaults_to_root user : bool := spec_is user (lit "alice@host") (lit "alice", lit "host", lit "/").
Definition relative_remote_path_is_normalized_with_leading_slash user : bool :=
  host_path_are user (lit "host:rel/path") (lit "host") (lit "/rel/path").
Definition ipv6_literal_host user : bool := host_path_are user (lit "[::1]:/p") (lit "::1") (lit "/p").
Definition empty_or_hostless_spec_is_error user : bool :=
  is_err (parse_spec user (lit "")) && is_err (parse_spec user (lit "alice@")).

Definition flush_reply_never_silently_succeeds_on_failure : bool := all_of [
  bool_decide (flush_reply None false = Ok tt); bool_decide (flush_reply None true = Err EIO);
  bool_decide (flush_reply (Some ENOENT) false = Err ENOENT); bool_decide (flush_reply (Some EACCES) true = Err EACCES)].

Definition tests (user : user_env) : bool := all_of [
  user_host_path user; host_without_user_defaults_path_and_keeps_host user; missing_path_defaults_to_root user;
  relative_remote_path_is_normalized_with_leading_slash user; ipv6_literal_host user;
  empty_or_hostless_spec_is_error user; flush_reply_never_silently_succeeds_on_failure].
End ClientTests.

(** ** fuzz/fuzz_targets/ *)

Module FuzzTargets.
(** resolve.rs, on an input that is UTF-8; the root does not exist. *)
Definition resolve_target (s : str) : bool :=
  let root := [RootDir; Normal (lit "quicfs-fuzz-export-root-does-not-exist")] in
  match answer_of (resolve root s) SanitizeTests.bare with
  | Ok p => path_starts_with p root
  | Err _ => true
  end.

(** open_confined.rs: [tempdir()] below [/tmp], with the links an attacker would plant. *)
Definition root : path := [RootDir; Normal (lit "tmp"); Normal (lit "fuzz")].
Definition tree : posix :=
  MkPosix
    (<[1 := new_inode (KDir {[lit "tmp" := 2; lit "etc" := 3]}) 0x1ed]>
     (<[2 := new_inode (KDir {[lit "fuzz" := 5]}) 0x1ff]>
      (<[3 := new_inode (KDir {[lit "passwd" := 4]}) 0x1ed]>
       (<[4 := new_inode (KFile [x72]) 0x1a4]>
        (<[5 := new_inode (KDir {[lit "sub" := 6; lit "escape" := 9; lit "up" := 10; lit "link_in" := 11]}) 0x1c0]>
         (<[6 := new_inode (KDir {[lit "deep" := 7; lit "file" := 8]}) 0x1ed]>
          (<[7 := new_inode (KDir ∅) 0x1ed]>
           (<[8 := new_inode (KFile [x78]) 0x1a4]>
            (<[9 := new_inode (KLink (lit "/etc")) 0x1ff]>
             (<[10 := new_inode (KLink (lit "../../../../etc")) 0x1ff]>
              {[11 := new_inode (KLink (lit "sub")) 0x1ff]}))))))))))
    ∅ 1 0x12 (MkStatvfs 0 0 0 0 0 0 0 0).

(** The name of an open file, as [/proc/self/fd] links it: the names that lead to its
    inode, from there up to the root directory.  No file of the tree has two. *)
Definition names_of (k : posix) (i : Z) : list (Z * str) :=
  concat (map (fun '(d, _) => match ents_at k d with
                              | Some e => map (fun '(c, _) => (d, c)) (List.filter (fun ci => snd ci =? i) (map_to_list e))
                              | None => []
                              end) (map_to_list (k_nodes k))).
Fixpoint real_path (fuel : nat) (k : posix) (i : Z) : option path :=
  if i =? k_slash k then Some [RootDir]
  else match fuel, names_of k i with
       | S fuel, (d, c) :: _ => (fun p => p ++ [Normal c]) <$> real_path fuel k d
       | _, _ => None
       end.
Definition proc_self_fd (fd : Z) (k : posix) : option path :=
  f ← k_fds k !! fd; real_path (size (k_nodes k)) k (fd_ino f).

Definition open_confined_target (s : str) : bool :=
  match on_kernel (resolve root s) tree with
  | (Err _, _) => true
  | (Ok resolved, k) =>
      match on_kernel (open_confined root resolved O_RDONLY 0) k with
      | (Err _, _) => true
      | (Ok file, k) =>
          match proc_self_fd file k with
          | Some real =>
              let root_canon := match fst (posix_call _ (Canonicalize root) k) with Ok p => p | Err _ => root end in
              path_starts_with real root_canon
          | None => true
          end
      end
  end.
End FuzzTargets.

(** ** Every test passes *)

Lemma walk_below {S} (h : forall X, sysE X -> S -> X * S) cs : forall w s q s',
  run h (walk w cs) s = (Ok q, s') -> exists t, q = w ++ t.
Proof.
  induction cs as [|c cs IH]; intros w s q s'.
  - intros [= <- <-]. exists []. by rewrite app_nil_r.
  - assert (forall r s1 s2, run h (walk (Os.push w c) r) s1 = (Ok q, s2) -> r = cs -> exists t, q = w ++ t) as Hgo.
    { intros r s1 s2 H ->. destruct (IH _ _ _ _ H) as [t ->]. exists ([Normal c] ++ t). unfold Os.push. by rewrite <- app_assoc. }
    destruct cs as [|c' cs]; [intros [= <- <-]; by exists [Normal c]|].
    cbn [walk]. rewrite run_bind. destruct (run h _ s) as [[m|e] s1]; [|intros H; exact (Hgo (c' :: cs) _ _ H eq_refl)].
    destruct (is_symlink m); [done|]. intros H; exact (Hgo (c' :: cs) _ _ H eq_refl).
Qed.

Lemma resolve_below {S} (h : forall X, sysE X -> S -> X * S) root s p st st' :
  run h (resolve root s) st = (Ok p, st') -> path_starts_with p root = true.
Proof.
  unfold resolve. destruct (normalize s) as [cs|e]; [|done]. rewrite run_bindr.
  destruct (run h (walk root cs) st) as [[q|e] s1] eqn:E; [|done]. destruct (walk_below _ _ _ _ _ _ E) as [t ->].
  assert (path_starts_with (root ++ t) root = true) as Hp.
  { unfold path_starts_with. by rewrite strip_prefix_app. }
  rewrite run_bind. destruct (run h _ s1) as [[|] s2]; [|by intros [= <- _]].
  rewrite run_bind. destruct (run h _ s2) as [c s3]. cbv zeta. rewrite run_bind. destruct (run h _ s3) as [r s4].
  destruct (negb _); [done|]. by intros [= <- _].
Qed.

Lemma resolve_never_escapes s : SanitizeTests.resolve_never_escapes_root s = true.
Proof.
  unfold SanitizeTests.resolve_never_escapes_root, SanitizeTests.resolved, answer_of, on_kernel.
  destruct (run kexec _ _) as [[p|e] [k out]] eqn:E; [|done]. by eapply resolve_below.
Qed.

(** ** No fuzz target fails *)

Lemma resolve_target_holds s : FuzzTargets.resolve_target s = true.
Proof.
  unfold FuzzTargets.resolve_target, answer_of, on_kernel. destruct (run kexec _ _) as [[p|e] [k out]] eqn:E; [|done].
  by eapply resolve_below.
Qed.

(** What is below the root of the fuzzed tree. *)
Definition fuzz_inside : gset Z := {[5; 6; 7; 8; 9; 10; 11]}.

Lemma fuzz_modes : modes_ok FuzzTargets.tree.
Proof. apply map_Forall_to_list. apply (bool_decide_unpack _). by vm_compute. Qed.

Lemma fuzz_exported : exported FuzzTargets.tree [lit "tmp"; lit "fuzz"] 5.
Proof. split_and!; [by vm_compute..|by eexists]. Qed.

Lemma fuzz_exports : exports FuzzTargets.tree fuzz_inside [lit "tmp"; lit "fuzz"] 5.
Proof.
  split; [by apply (bool_decide_unpack _); vm_compute| |].
  - split; [by apply (bool_decide_unpack _); vm_compute|]. eexists _, 2. split_and!; [done|by vm_compute|by eexists|].
    split; [by apply (bool_decide_unpack _); vm_compute|]. eexists _, 5. split_and!; [done|by vm_compute|by eexists|done].
  - assert (forallb (fun d => match ents_at FuzzTargets.tree d with
                              | Some e => bool_decide (map_Forall (fun _ i => i ∈ fuzz_inside) e)
                              | None => true
                              end) (elements fuzz_inside) = true) as H by (by vm_compute).
    intros d e c i Hd He Hc. apply forallb_forall with (x := d) in H; [|by apply list_elem_of_In, elem_of_elements].
    rewrite He in H. apply bool_decide_eq_true in H. by apply (H c).
Qed.

Lemma fuzz_good : good FuzzTargets.tree fuzz_inside FuzzTargets.tree.
Proof. split; [apply jailed_start; intros d e c i; by apply (ex_closed _ _ _ _ fuzz_exports)|exact fuzz_modes]. Qed.

(** The name of each file below the root starts with the root's. *)
Lemma fuzz_named i a :
  i ∈ fuzz_inside ->
  let k1 := anchored 5 FuzzTargets.tree in let k := put_fd (new_fd k1) (MkOfd i 0 a false 0) k1 in
  match FuzzTargets.proc_self_fd (new_fd k1) k with
  | Some real => path_starts_with real match fst (posix_call _ (Canonicalize FuzzTargets.root) k) with Ok p => p | Err _ => FuzzTargets.root end
  | None => true
  end = true.
Proof.
  intros Hi. assert (i ∈ elements fuzz_inside) as Hl by (by apply elem_of_elements). vm_compute (elements _) in Hl.
  repeat (apply elem_of_cons in Hl as [->|Hl]; [by vm_compute|]). by apply not_elem_of_nil in Hl.
Qed.

(** The target does open files, and the planted links lead nowhere. *)
Example fuzz_opens :
  let opens s := match on_kernel (resolve FuzzTargets.root s) FuzzTargets.tree with
                 | (Ok p, k) => let '(f, k) := on_kernel (open_confined FuzzTargets.root p O_RDONLY 0) k in
                                match f with Ok fd => FuzzTargets.proc_self_fd fd k | Err _ => None end
                 | _ => None
                 end in
  opens (lit "/sub/./file") = Some (join FuzzTargets.root [lit "sub"; lit "file"]) /\
  opens (lit "link_in") = Some (join FuzzTargets.root [lit "sub"]) /\ opens (lit "/escape") = None /\ opens (lit "up") = None /\
  opens (lit "escape/passwd") = None.
Proof. by vm_compute. Qed.

Lemma open_confined_target_holds s : FuzzTargets.open_confined_target s = true.
Proof.
  unfold FuzzTargets.open_confined_target, on_kernel. change FuzzTargets.root with (RootDir :: map Normal [lit "tmp"; lit "fuzz"]) at 1 2.
  rewrite (ns_resolve_run _ 5 _ _ s fuzz_exported fuzz_modes).
  destruct (ref_resolve _ 5 FuzzTargets.tree s) as [ps|e] eqn:Er; [|done]. cbn [res_map].
  destruct (resolved_no_nul _ 5 _ s ps Er eq_refl) as [Hn _].
  rewrite (open_confined_posix _ 5 _ _ ps O_RDONLY 0 fuzz_exported eq_refl Hn). change (has_bits O_RDONLY O_CREAT) with false. cbv iota.
  rewrite do_open_file by done. destruct (file_at 5 _ ps FuzzTargets.tree) as [i|e] eqn:Ef; [|done].
  assert (i ∈ inside FuzzTargets.tree fuzz_inside FuzzTargets.tree) as Hi by (eapply file_at_inside; [exact fuzz_exports|by eexists|exact fuzz_good|exact Ef]).
  assert (i ∈ fuzz_inside) as Hin by (unfold inside in Hi; set_solver). clear Hi.
  unfold open_ino. destruct (kind_at _ i) as [[e|d|t]|]; [| |done|done].
  all: by apply fuzz_named.
Qed.

(** The repository's tests pass on the models, a check of the definitions themselves.  The integration test, in
    [Harness]: a client whose key was authorized connects, pins the server's key, and
    finds what the test expects of every RPC, of appends, of replayed writes and of a
    file of several frames; a second connection under strict checking succeeds; a
    create through a symlink out of the export, a client that is not authorized and a
    changed host key are refused; and the name-space operations succeed with
    [sync_metadata] (its chunk size and payloads are 64, 50 and 175 bytes instead of
    262144, 200000 and 700000).  And the unit tests of path resolution and confined
    operations, of handle ids and stripes, of known_hosts, of the write buffer, of the
    metadata cache, of target parsing and of the reply to a flush; the property test
    that [resolve] never leaves the root holds of every string, and no string makes
    the fuzz targets of [resolve] and [open_confined] fail: whatever is opened through
    planted links is named below the root. *)
Theorem repository_tests_pass path_hash user :
  is_ok (rig_main path_hash (MkSizes 64 50 175)) = true /\
  SanitizeTests.tests = true /\ (forall s, SanitizeTests.resolve_never_escapes_root s = true) /\
  HandleTests.tests = true /\ TrustTests.known_hosts_roundtrip_test = true /\ WriteBufTests.tests = true /\
  CacheTests.tests = true /\ ClientTests.tests user = true /\
  (forall s, FuzzTargets.resolve_target s = true) /\ (forall s, FuzzTargets.open_confined_target s = true).
Proof.
  split; [apply harness_passes|]. split; [by vm_compute|]. split; [exact resolve_never_escapes|].
  split_and!; [by vm_compute..|exact resolve_target_holds|exact open_confined_target_holds].
Qed.
